(* ===== verification/_CoqProject ===== *)
-Q . S2P
Prelude.v
Patient.v
Layout.v
Env.v
Store.v
Persist.v
Console.v
Calendar.v
Report.v
Legacy.v
Register.v
Dialogue.v
Hoare.v
Frame.v
Session.v
