(* ===== verification/Prelude.v ===== *)
(** * Hospital patient register: a verification development

    The program is a single-user console register of hospital patients
    written in C.  [src/patient_management.c] is the current
    implementation: the active patients are a singly linked list
    ([patientHead]) with two counters ([totalPatients],
    [patientIDCounter]); an admission appends the record to
    [patients.dat], a discharge appends it to [discharged_patients.dat],
    logs the room in [room_usage.txt] and rewrites [patients.dat] through
    [patients.tmp]; a start or a restore rebuilds the list from
    [patients.dat]; reports filter records by a time window.
    [src/patient.c] is the superseded variant that keeps the patients in
    a fixed array.  The structs, the limits, the validators and
    [clearInputBuffer] come from [patient_data.h] and [utils.h], which
    are not in the repository.

    ** Files, in dependency order

    - [Prelude] (this file): 32-bit [int] arithmetic with its wrap-around,
      the two state monads every component is written in, the loop
      combinator [retry] with its fuel lemmas, the shared list lemmas,
      the tactics and the hint database [hms].
    - [Patient]: the records [Patient] and [DischargedPatient], the
      private constants of [patient_management.c], the limits of
      [patient_data.h] as the class [Limits], the validation predicates.
    - [Layout]: the class [Layout] (the image of a struct in a file:
      [sizeof], [to_bytes], [of_bytes] and their round trip),
      [encode_all] and [decode_all] for a file of records, and a packed
      little-endian instance for the examples.
    - [Env]: the environment of the program as the record [World]
      (directory, open streams, console input and output, error stream,
      clock, schedule of failures) and the library calls the sources
      make: [fopen], [fclose], [fwrite], [fread], [fgetc], [remove],
      [rename], [malloc], [time], [scanf], [fscanf], [fgets], [puts],
      [perror].
    - [Store]: the state [Sys] (the three globals and the world) and the
      list operations [insertPatientAtEndOfList], [getPatientFromList],
      [isRoomOccupiedInList], [computeNextPatientId], [clearMemory],
      [initializePatientSystemDefault]; the invariant [store_ok] and the
      equivalence [same_store].
    - [Persist]: [writePatientToFile], [updatePatientsFile],
      [backupPatientSystem], [removePatientFromSystem], [clearBinaryFile],
      [initializePatientSystem], [restoreDataFromFile], [logRoomUsage].
    - [Console]: the prompts [getPatientName], [getPatientAge],
      [getPatientDiagnosis], [getRoomNumber], [getPatientToDischarge],
      [confirmDischarge] and the commands [addPatientRecord],
      [viewPatientRecords], [searchPatientById], [dischargePatient].
    - [Calendar]: [struct tm] as the record [tm], the calendar of
      [localtime] as the class [Calendar], [strftime] with the format
      of the reports, and the instance [utc] for the examples.
    - [Report]: the state [Rep] (the struct of [localtime] beside
      [Sys]) and [countPatientsByTimeframe], [printFormattedReport],
      [displayPatientReport], [countDischargedPatientsByTimeframe],
      [printDischargedFormattedReport],
      [displayDischargedPatientReport], [displayRoomUsageReport].
    - [Legacy]: the module [Legacy], every function of [patient.c]:
      the state [St] (the array and the two counters), the prompts, the
      loops over the array, [addPatientRecord], [viewPatientRecords],
      [searchPatientById], [dischargePatient]; the invariant [arr_ok].
    - [Register]: the contract of both stores as the class [Register]
      with its laws [RegisterLaws] (a finite map from ids to entries,
      with the operations [Admit] and [Discharge]), the runs of a store
      as the relation [reaches], and the two instances.
    - [Dialogue]: the relation [accepts] between a state, the answer
      that a prompt accepts after rejected ones, and the state it
      leaves.
    - [Hoare]: specifications of commands ([spec], [ispec]) with one
      rule for each construct of the monads, and the tactic [spec_go]
      that applies them along the text of a function.
    - [Frame]: the assertion [frame] (the open streams, a property of
      the directory, an empty schedule of failures) and its
      specification for every library call of [Env] and every function
      of [Store], [Persist] and [Console].
    - [Session]: the public functions as the type [call], [run_call] and
      [run_calls], the relation [runs] of the sessions whose calls meet
      a condition (and [run_checked], which decides it), the
      specifications of [Frame] for the reports, the load under every
      schedule of failures, and the theorems about every session.

    ** Modelling conventions

    - A C [int] is a [Z]; [++] and [--] are [int_incr] and [int_decr],
      which wrap at 32 bits (the behaviour of the usual two's-complement
      targets; the C standard leaves signed overflow undefined).  Theorems
      that need the absence of overflow say so with bounds.
    - A function that always returns is a [Prog S A = S -> A * S]; a
      function that reads the console is an [IProg S A = S -> option (A * S)],
      where [None] means that the C function does not return a defined
      result (a prompt loop at end of input spins for ever, a failed
      [scanf] leaves its variable uninitialised).
    - A linked list of nodes is a [list]; [NULL] is [[]] for a list head
      and [None] for a pointer to one record.  Memory is not modelled:
      [malloc] only succeeds or fails, and buffers have no size.
    - The array of [patient.c] is a list of [MAX_PATIENT_CAPACITY]
      elements, zero at the start; [patients[i]] outside of the list has
      no defined result ([None]), so a theorem that a command returns
      also says that it stays within the array.
    - Every library call that can fail takes its outcome from the
      schedule [w_faults] of the world, one entry per call; the empty
      schedule means that every call succeeds.  A theorem "whatever call
      fails" quantifies over all schedules; a theorem "when no call
      fails" assumes the empty one.
    - Console output and the error stream are the lists of the messages
      written, one entry for each call, without the line break that
      ends it (a line break inside the text is kept); console input is
      a list of lines.
    - [localtime] returns the address of one struct that every call
      overwrites.  [Rep] holds that struct; [localtime] writes it and a
      read through a pointer that [localtime] returned ([arrow]) reads
      what the latest call left, whichever call returned the pointer.
      A value that the code copies into a variable of its own is a
      variable of the model.
    - A file is the list of its bytes.  A record in a file is its image
      under a [Layout]; the theorems hold for every layout, the examples
      use arrays of 101 and 256 bytes for the name and the diagnosis.

    ** Theorems

    - Admission ([Console]): [addPatientRecord_ok] gives the exact state
      after an admission with valid answers; [addPatientRecord_preserves]
      shows that [store_ok] (count equal to the length of the list, ids
      distinct and below the counter, rooms distinct, fields valid) is
      preserved whatever is typed; [getRoomNumber_free] and
      [prompts_valid] show that the prompts return only values that pass
      validation, and a room that is free;
      [record_patient_allocation_failure] shows what a failed allocation
      does.
    - Discharge ([Persist], [Console]): [dischargePatient_ok],
      [dischargePatient_cancelled] and
      [discharge_confirmed_archive_failure] give the state on the three
      branches; [removePatientFromSystem_preserves] and
      [dischargePatient_preserves] show that [store_ok] is preserved
      under every schedule of failures and that the patient is gone and
      the room free.
    - Files ([Persist]): [updatePatientsFile_atomic] lists the three
      states in which a rewrite can leave [patients.dat], under every
      schedule of failures, and [updatePatientsFile_rename_failure] shows
      that the third (no file) happens; [writePatientToFile_torn] shows
      the append that fails silently; [load_reads_back],
      [rewrite_after_load], [load_idempotent] and
      [restore_after_admission] are the round trips between the list
      and the file; [restore_reissues_id] shows that a restore can move
      the id counter back.
    - Reports ([Report]): [displayPatientReport_ok] gives the console
      and [patient_reports.txt] after a report of the admissions;
      [countPatientsByTimeframe_filter] shows that the count is the
      number of the records within the period and
      [daily_report_window] that the daily period is 25 hours;
      [print_admitted_lists_all] and [countDischarged_counts_all] show
      that the loops which keep the pointer of [localtime] select every
      record for a week or a month, and the lemma
      [print_discharged_lists_all] the same of the loop of
      [printDischargedFormattedReport]; [room_log_round_trip] shows that
      the report of the rooms reads back what [logRoomUsage] wrote and
      [room_report_stops_at_junk] that it stops at the first entry that
      is not a number.
    - The array store ([Legacy]): [commands_typed] and
      [commands_preserve] are the type invariant and the invariant
      [arr_ok] over the four commands; [discharge_of_id_zero],
      [discharge_from_full_array], [getPatientName_discards_line] and
      [checkRoomOccupancy_out_of_bounds] are the defects of the variant,
      each with the state it leaves; [lost_patient_scenario] runs the
      first of them.
    - Refinement ([Register]): [reaches_refines], proved against the
      class, says that a run of a store is a run of the abstract
      register; [list_store_refines] and [array_store_refines] are its
      instances for the two stores, and [stores_agree] says that both,
      started empty and given the same operations, keep the same
      register.
    - Sessions ([Session], on [Hoare] and [Frame]): under every
      schedule of failures and whatever is typed, a sequence of calls
      of the public functions returns with the streams open that were
      open before ([calls_close_streams]) and has written to the six
      files of the program only ([calls_leave_other_files]); a report
      changes neither the store nor any file but its own
      ([reports_only_report]).  Each is an instance of one
      specification, proved once for each library call and carried
      through each function by [spec_go].  [calls_preserve_store]
      says that the invariant of the store, with the records in the
      order of their ids ([session_ok]), holds after every call of a
      session whose admissions find their node and whose loads find
      records that are in order, whatever else fails.  When no call
      fails, [calls_keep_file_in_step] says that after every call of
      the menu [patients.dat] holds the images of the records of the
      list, and [session_survives_restart] that a restart reads that
      list back; [clearMemory_out_of_step] shows that the functions the
      menu does not offer break this.
    - Termination: [prompt_fuel_enough], [load_records_total] and
      the lemma [read_rooms_total].  Liveness ([Dialogue]): [prompts_accept], a
      prompt returns the first answer that is accepted, however many
      were rejected before.
    - [admission_and_discharge_scenario] runs the scenario of the
      specification on the model.

    ** Fuel

    A prompt runs [retry] on fuel [S (stdin_size w)], the number of
    characters and line breaks of console input that are left, plus one:
    an iteration that asks for another one consumes input or finds none
    ([iteration]), so more fuel changes nothing ([prompt_fuel_enough]).
    The read loop of the loader runs on one more than the size of the
    file in bytes; every record read consumes [sizeof] > 0 bytes, so the
    fuel is never exhausted ([load_records_total]); the loops of the
    reports over the archive ([while_fread]) run on the same fuel.  The
    loop that reads [room_usage.txt] runs on one more than the size of
    the file in characters: every number read consumes at least one
    digit ([read_rooms_total]).

    The loops of [patient.c] over the array run for the number of
    iterations that the code fixes before the loop
    ([MAX_PATIENT_CAPACITY], [MAX_ROOM_NUMBER + 1], or the distance to
    the end of the array); they need no fuel.

    ** Not modelled

    The menu and [main] are not in the repository: [run_call] of
    [Session] stands for the choice of a function, as the
    specification describes the menu, and [run_command] of [Legacy]
    and the operations of [Register] do the same for the array store
    and for the abstract register; how a choice is read, and what the
    program does when it starts and when it ends, are not modelled.
    The calendar of [localtime]
    (time zone, daylight saving) is a parameter of the reports.  The
    layout a compiler gives the structs, the contents of buffers beyond
    the terminator of a string, and memory (leaks, the overflow of a
    buffer) are outside of the model. *)

From Stdlib Require Import ZArith Lia.
From stdpp Require Import base tactics option list.

#[local] Open Scope Z_scope.

(** ** Machine integers *)

Definition INT_MIN : Z := -2147483648.
Definition INT_MAX : Z := 2147483647.

(** [in_int z]: [z] is representable as a C [int]. *)
Definition in_int (z : Z) : Prop := INT_MIN ≤ z ≤ INT_MAX.

#[export] Instance in_int_dec z : Decision (in_int z).
Proof. unfold in_int. apply _. Defined.

(** Two's-complement reduction of an integer to 32 bits. *)
Definition wrap_int (z : Z) : Z := (z - INT_MIN) `mod` 2 ^ 32 + INT_MIN.

Definition int_incr (z : Z) : Z := wrap_int (z + 1).
Definition int_decr (z : Z) : Z := wrap_int (z - 1).

Lemma wrap_int_range z : in_int (wrap_int z).
Proof.
  unfold in_int, wrap_int, INT_MIN, INT_MAX.
  pose proof (Z.mod_pos_bound (z - -2147483648) (2 ^ 32) ltac:(lia)). lia.
Qed.

Lemma wrap_int_id z : in_int z → wrap_int z = z.
Proof.
  unfold in_int, wrap_int, INT_MIN, INT_MAX. intros Hz.
  rewrite Z.mod_small; lia.
Qed.

Lemma int_incr_small z : in_int z → z < INT_MAX → int_incr z = z + 1.
Proof. unfold in_int, int_incr. intros. apply wrap_int_id. unfold in_int. lia. Qed.

Lemma int_decr_small z : in_int z → INT_MIN < z → int_decr z = z - 1.
Proof. unfold in_int, int_decr. intros. apply wrap_int_id. unfold in_int. lia. Qed.

Lemma int_incr_range z : in_int (int_incr z).
Proof. apply wrap_int_range. Qed.

Lemma int_decr_range z : in_int (int_decr z).
Proof. apply wrap_int_range. Qed.

Lemma int_incr_overflow : int_incr INT_MAX = INT_MIN.
Proof. reflexivity. Qed.

Lemma int_decr_incr z : in_int z → int_decr (int_incr z) = z.
Proof.
  unfold in_int, int_decr, int_incr, wrap_int, INT_MIN, INT_MAX. intros Hz.
  destruct (decide (z = 2147483647)) as [->|]; [reflexivity|].
  rewrite (Z.mod_small (z + 1 - _)) by lia. rewrite Z.mod_small; lia.
Qed.

(** ** State monads

    [Prog S A] is a command over a state [S] that always returns;
    [IProg S A] is one that may fail to return a defined result. *)

Definition Prog (S A : Type) : Type := S → A * S.
Definition IProg (S A : Type) : Type := S → option (A * S).

#[export] Instance Prog_ret S : MRet (Prog S) := λ A a s, (a, s).
#[export] Instance Prog_bind S : MBind (Prog S) :=
  λ A B k m s, let '(a, s') := m s in k a s'.
#[export] Instance IProg_ret S : MRet (IProg S) := λ A a s, Some (a, s).
#[export] Instance IProg_bind S : MBind (IProg S) :=
  λ A B k m s, match m s with Some (a, s') => k a s' | None => None end.

(** A state transformer given as a function, as a command. *)
Definition prog {S A} (f : S → A * S) : Prog S A := f.

(** A command that always returns, run inside an interactive one. *)
Definition lift {S A} (m : Prog S A) : IProg S A := λ s, Some (m s).

(** No defined result: the C program does not return here, or what it
    does next is not defined by the language. *)
Definition undefined {S A} : IProg S A := λ _, None.

Definition get {S} : Prog S S := λ s, (s, s).
Definition gets {S A} (f : S → A) : Prog S A := λ s, (f s, s).
Definition modify {S} (f : S → S) : Prog S unit := λ s, (tt, f s).

(** The final state and the result of a command. *)
Definition exec {S A} (m : Prog S A) (s : S) : S := (m s).2.
Definition eval {S A} (m : Prog S A) (s : S) : A := (m s).1.

(** [when b m]: the body of an [if] without [else]. *)
Definition when {S} (b : bool) (m : Prog S unit) : Prog S unit :=
  if b then m else mret tt.

Section monad_laws.
Context {S A B : Type}.

Lemma bind_run (m : Prog S A) (k : A → Prog S B) s :
    (m ≫= k) s = k (m s).1 (m s).2.
Proof. unfold mbind, Prog_bind. by destruct (m s). Qed.

Lemma ret_run (a : A) (s : S) : (mret a : Prog S A) s = (a, s).
Proof. done. Qed.

Lemma ibind_run_Some (m : IProg S A) (k : A → IProg S B) s a s' :
    m s = Some (a, s') → (m ≫= k) s = k a s'.
Proof. unfold mbind, IProg_bind. by intros ->. Qed.

Lemma ibind_run_None (m : IProg S A) (k : A → IProg S B) s :
    m s = None → (m ≫= k) s = None.
Proof. unfold mbind, IProg_bind. by intros ->. Qed.

Lemma ibind_inv (m : IProg S A) (k : A → IProg S B) s r :
    (m ≫= k) s = Some r → ∃ a s', m s = Some (a, s') ∧ k a s' = Some r.
Proof.
    unfold mbind, IProg_bind. destruct (m s) as [[a s']|]; [eauto|done].
Qed.

Lemma lift_run (m : Prog S A) s : lift m s = Some ((m s).1, (m s).2).
Proof. unfold lift. by destruct (m s). Qed.

Lemma unit_run (m : Prog S unit) s : m s = (tt, exec m s).
Proof. unfold exec. by destruct (m s) as [[] ?]. Qed.

Lemma lift_unit (m : Prog S unit) s : lift m s = Some (tt, exec m s).
Proof. unfold lift, exec. by destruct (m s) as [[] ?]. Qed.

Lemma exec_bind (m : Prog S A) (k : A → Prog S B) s :
    exec (m ≫= k) s = exec (k (eval m s)) (exec m s).
Proof. unfold exec, eval. by rewrite bind_run. Qed.

Lemma eval_bind (m : Prog S A) (k : A → Prog S B) s :
    eval (m ≫= k) s = eval (k (eval m s)) (exec m s).
Proof. unfold exec, eval. by rewrite bind_run. Qed.
End monad_laws.

Lemma exec_ret {S A} (a : A) (s : S) : exec (mret a) s = s.
Proof. done. Qed.

Lemma eval_ret {S A} (a : A) (s : S) : eval (mret a : Prog S A) s = a.
Proof. done. Qed.

Lemma exec_modify {S} (f : S → S) s : exec (modify f) s = f s.
Proof. done. Qed.

Lemma exec_when {S} b (m : Prog S unit) s :
  exec (when b m) s = if b then exec m s else s.
Proof. by destruct b. Qed.

(** ** Loops that repeat until an attempt succeeds

    One iteration of a [do ... while (!isValid)] loop is an [attempt]:
    it ends the loop with a value, asks for another iteration, or leaves
    the program without a defined continuation.  [retry] runs iterations
    on fuel; without fuel there is no result. *)

Inductive attempt (A : Type) : Type :=
| Done (a : A)
| Again
| Stuck.
Arguments Done {A} a.
Arguments Again {A}.
Arguments Stuck {A}.

Fixpoint retry {S A} (fuel : nat) (body : Prog S (attempt A)) : IProg S A :=
  match fuel with
  | O => λ _, None
  | S fuel => λ s,
      match body s with
      | (Done a, s') => Some (a, s')
      | (Again, s') => retry fuel body s'
      | (Stuck, _) => None
      end
  end.

(** When every iteration that asks for another one consumes some of a
    finite resource [μ], and no iteration succeeds once the resource is
    used up, fuel above [μ] is as good as any larger amount: a run that
    ends without result on it never returns. *)
Section retry_fuel.
Context {S A : Type} (body : Prog S (attempt A)) (μ : S → nat).
Hypothesis body_consumes : ∀ s s',
  body s = (Again, s') → (μ s' ≤ μ s ∧ (μ s ≠ 0 → μ s' < μ s))%nat.
Hypothesis body_starved : ∀ s a s', μ s = 0%nat → body s ≠ (Done a, s').

Lemma retry_starved fuel s : μ s = 0%nat → retry fuel body s = None.
Proof.
  revert s. induction fuel as [|fuel IH]; intros s Hs; simpl; [done|].
  destruct (body s) as [[a| |] s'] eqn:Hbody; [|apply IH|done].
  - by destruct (body_starved s a s').
  - apply body_consumes in Hbody. lia.
Qed.

Lemma retry_fuel n m s :
  (μ s < n)%nat → (μ s < m)%nat → retry n body s = retry m body s.
Proof.
  revert m s. induction n as [|n IH]; intros [|m] s Hn Hm; try lia. simpl.
  destruct (body s) as [[a| |] s'] eqn:Hbody; [done| |done].
  apply body_consumes in Hbody as [Hle Hlt].
  destruct (decide (μ s = 0%nat)).
  - rewrite !retry_starved by lia. done.
  - apply IH; lia.
Qed.

Lemma retry_more_fuel n m s r :
  retry n body s = Some r → (n ≤ m)%nat → retry m body s = Some r.
Proof.
  revert m s. induction n as [|n IH]; intros m s; simpl; [done|].
  destruct m as [|m]; [lia|]. simpl.
  destruct (body s) as [[a| |] s']; [done| |done]. intros. apply IH; [done|lia].
Qed.
End retry_fuel.

Section retry_facts.
Context {St A : Type} (body : Prog St (attempt A)).

Lemma retry_done fuel s a s' :
  body s = (Done a, s') → retry (S fuel) body s = Some (a, s').
Proof. simpl. by intros ->. Qed.

Lemma retry_again fuel s s' :
  body s = (Again, s') → retry (S fuel) body s = retry fuel body s'.
Proof. simpl. by intros ->. Qed.

(** Rule of the loop: what every iteration that repeats preserves holds
    when the loop ends, and the last iteration establishes the result. *)
Lemma retry_inv (I : St → Prop) (Q : A → St → Prop) :
  (∀ s s', I s → body s = (Again, s') → I s') →
  (∀ s a s', I s → body s = (Done a, s') → Q a s') →
  ∀ fuel s a s', I s → retry fuel body s = Some (a, s') → Q a s'.
Proof.
  intros Hagain Hdone fuel.
  induction fuel as [|fuel IH]; intros s a s' Hs; simpl; [done|].
  destruct (body s) as [[b| |] s1] eqn:Hbody; [|by eauto|done].
  intros [= <- <-]. eauto.
Qed.

End retry_facts.

(** ** Shared list lemmas *)

Section lists.
Context {A : Type}.
Implicit Types (l : list A) (x : A).

Lemma Forall_snoc (P : A → Prop) l x :
    Forall P (l ++ [x]) ↔ Forall P l ∧ P x.
Proof. rewrite Forall_app, Forall_singleton. done. Qed.

Lemma NoDup_snoc l x : NoDup (l ++ [x]) ↔ (x ∉ l) ∧ NoDup l.
Proof.
    rewrite NoDup_app. split.
    - intros (Hl & Hx & _). split; [|done]. intros Hin. apply (Hx _ Hin). by left.
    - intros [Hx Hl]. split_and!; [done| |apply NoDup_singleton].
      intros y Hy ->%list_elem_of_singleton. done.
Qed.

Lemma filter_all (P : A → Prop) `{!∀ x, Decision (P x)} l :
    Forall P l → filter P l = l.
Proof. induction 1; [done|]. rewrite filter_cons_True by done. congruence. Qed.

End lists.

Lemma NoDup_fmap_snoc {A B} (f : A → B) (l : list A) (x : A) :
  NoDup (f <$> (l ++ [x])) ↔ (∀ y, y ∈ l → f y ≠ f x) ∧ NoDup (f <$> l).
Proof.
  rewrite fmap_app. change (f <$> [x]) with [f x].
  rewrite NoDup_snoc, list_elem_of_fmap.
  split; intros [H1 H2]; (split; [|done]).
  - intros y Hy Heq. apply H1. exists y. done.
  - intros (y & Heq & Hy). by eapply H1.
Qed.

(** A function whose images on a list are distinct is injective on it. *)
Lemma NoDup_fmap_eq {A B} (f : A → B) (l : list A) x y :
  NoDup (f <$> l) → x ∈ l → y ∈ l → f x = f y → x = y.
Proof.
  induction l as [|z l IH]; [by intros _ ?%elem_of_nil|].
  rewrite fmap_cons, NoDup_cons, !elem_of_cons.
  intros [Hz Hl] [->|Hx] [->|Hy] Heq; auto.
  - destruct Hz. rewrite Heq. by apply list_elem_of_fmap_2.
  - destruct Hz. rewrite <-Heq. by apply list_elem_of_fmap_2.
Qed.

Lemma Forall_sublist {A} (P : A → Prop) (l1 l2 : list A) :
  Forall P l2 → l1 `sublist_of` l2 → Forall P l1.
Proof.
  rewrite !Forall_forall. intros HP Hsub x Hx. eauto using elem_of_sublist.
Qed.

(** Distinct integers of an interval are no more than its length. *)
Lemma NoDup_interval_length (zs : list Z) a b :
  NoDup zs → Forall (λ z, a ≤ z < b) zs → Z.of_nat (length zs) ≤ Z.max 0 (b - a).
Proof.
  intros Hnd Hzs.
  assert (zs ⊆+ seqZ a (b - a)) as Hsub.
  { apply NoDup_submseteq; [done|]. intros z Hz. apply elem_of_seqZ.
    eapply Forall_forall in Hzs; [|done]. lia. }
  apply submseteq_length in Hsub. rewrite length_seqZ in Hsub. lia.
Qed.

(** ** Tactics and hints *)

Create HintDb hms discriminated.

#[export] Hint Resolve wrap_int_range int_incr_range int_decr_range : hms.
#[export] Hint Rewrite @exec_ret @eval_ret @exec_modify : hms.

(** Unfold the monad operations in the goal and in the hypotheses. *)
Ltac prog_unfold :=
  unfold mbind, mret, Prog_bind, Prog_ret, IProg_bind, IProg_ret, lift, prog,
    exec, eval, get, gets, modify, when in *.

(** Case analysis on every guard ([bool_decide], [decide] or [match]) of
    the goal, with arithmetic side conditions closed by [lia]. *)
Ltac case_branches :=
  repeat first [ case_bool_decide | case_decide | case_match ];
  simplify_eq/=; try done; try lia.
