(* ===== verification/Patient.v ===== *)
(** * Patient records and field validation

    The structs [Patient] and [DischargedPatient] and the limits of
    [patient_data.h] (a header the sources include; its text is not part
    of the repository snapshot, so the limits are the fields of the class
    [Limits] and every theorem holds for all of them), the private
    constants of [src/patient_management.c], and the four field
    validators as pure predicates. *)

From Stdlib Require Import ZArith Lia.
From stdpp Require Import base tactics list strings.
From S2P Require Import Prelude.

#[local] Open Scope Z_scope.

(** ** The structs *)

(** [struct Patient]: the fields the sources read and write. *)
Record Patient : Type := mkPatient {
  patientId : Z;
  name : string;
  ageInYears : Z;
  diagnosis : string;
  roomNumber : Z;
  admissionDate : Z
}.

(** [struct DischargedPatient]: a copy of the record and the time of the
    discharge. *)
Record DischargedPatient : Type := mkDischargedPatient {
  patient : Patient;
  dischargeDate : Z
}.

#[export] Instance Patient_eq_dec : EqDecision Patient.
Proof. solve_decision. Defined.

#[export] Instance DischargedPatient_eq_dec : EqDecision DischargedPatient.
Proof. solve_decision. Defined.

(** ** Constants *)

(** The private constants of [patient_management.c]. *)
Definition IS_EMPTY : Z := 0.
Definition DEFAULT_ID : Z := 1.
Definition PATIENT_NOT_FOUND : Z := -1.
Definition INVALID_ID : Z := 0.
Definition ROOM_UNOCCUPIED : Z := -1.

(** The limits of [patient_data.h].  Lengths are in characters. *)
Class Limits : Type := {
  MIN_PATIENT_NAME_LENGTH : nat;
  MAX_PATIENT_NAME_LENGTH : nat;
  MIN_AGE_YEARS : Z;
  MAX_AGE_YEARS : Z;
  MIN_DIAGNOSIS_LENGTH : nat;
  MAX_DIAGNOSIS_LENGTH : nat;
  MIN_ROOM_NUMBER : Z;
  MAX_ROOM_NUMBER : Z;
  MAX_PATIENT_CAPACITY : nat
}.

(** The limits the specification gives: names of 2 to 100 characters,
    ages 0 to 149, rooms 1 to 50, fifty patients. *)
Definition spec_limits : Limits := {|
  MIN_PATIENT_NAME_LENGTH := 2;
  MAX_PATIENT_NAME_LENGTH := 100;
  MIN_AGE_YEARS := 0;
  MAX_AGE_YEARS := 149;
  MIN_DIAGNOSIS_LENGTH := 1;
  MAX_DIAGNOSIS_LENGTH := 255;
  MIN_ROOM_NUMBER := 1;
  MAX_ROOM_NUMBER := 50;
  MAX_PATIENT_CAPACITY := 50
|}.

(** ** Validation *)

Section validation.
Context `{Limits}.

(** A name is valid iff its length is within the limits. *)
Definition validatePatientName (patientName : string) : bool :=
    negb (bool_decide (String.length patientName < MIN_PATIENT_NAME_LENGTH)%nat
          || bool_decide (MAX_PATIENT_NAME_LENGTH < String.length patientName)%nat).

Definition validatePatientAge (patientAge : Z) : bool :=
    negb (bool_decide (patientAge < MIN_AGE_YEARS)
          || bool_decide (MAX_AGE_YEARS < patientAge)).

Definition validatePatientDiagnosis (patientDiagnosis : string) : bool :=
    negb (bool_decide (String.length patientDiagnosis < MIN_DIAGNOSIS_LENGTH)%nat
          || bool_decide (MAX_DIAGNOSIS_LENGTH < String.length patientDiagnosis)%nat).

Definition validateRoomNumber (room : Z) : bool :=
    negb (bool_decide (room < MIN_ROOM_NUMBER)
          || bool_decide (MAX_ROOM_NUMBER < room)).

(** All four fields of a record pass validation. *)
Definition valid_patient (p : Patient) : Prop :=
    validatePatientName (name p) ∧ validatePatientAge (ageInYears p) ∧
    validatePatientDiagnosis (diagnosis p) ∧ validateRoomNumber (roomNumber p).

#[export] Instance valid_patient_dec p : Decision (valid_patient p).
Proof. unfold valid_patient. apply _. Defined.

Lemma validatePatientName_spec s :
    validatePatientName s ↔
    (MIN_PATIENT_NAME_LENGTH ≤ String.length s ≤ MAX_PATIENT_NAME_LENGTH)%nat.
Proof. unfold validatePatientName. repeat case_bool_decide; simpl; intuition lia. Qed.

Lemma validatePatientAge_spec n :
    validatePatientAge n ↔ MIN_AGE_YEARS ≤ n ≤ MAX_AGE_YEARS.
Proof. unfold validatePatientAge. repeat case_bool_decide; simpl; intuition lia. Qed.

Lemma validatePatientDiagnosis_spec s :
    validatePatientDiagnosis s ↔
    (MIN_DIAGNOSIS_LENGTH ≤ String.length s ≤ MAX_DIAGNOSIS_LENGTH)%nat.
Proof. unfold validatePatientDiagnosis. repeat case_bool_decide; simpl; intuition lia. Qed.

Lemma validateRoomNumber_spec n :
    validateRoomNumber n ↔ MIN_ROOM_NUMBER ≤ n ≤ MAX_ROOM_NUMBER.
Proof. unfold validateRoomNumber. repeat case_bool_decide; simpl; intuition lia. Qed.
End validation.

#[export] Hint Rewrite @validatePatientName_spec @validatePatientAge_spec
  @validatePatientDiagnosis_spec @validateRoomNumber_spec : hms.
