(* ===== verification/Layout.v ===== *)
(** * Binary layout of records

    [fwrite (&x, sizeof x, 1, f)] and [fread] move the object
    representation of a struct between memory and a file.  The class
    [Layout] states what the persistence code relies on: a struct has a
    fixed size, and reading back the bytes that were written gives the
    struct that was written, provided its fields fit their storage.

    The section [packed] gives the instance used to run the model: 32-bit
    little-endian [int]s, a 64-bit [time_t], strings in [char] arrays
    that end at the first NUL, fields in declaration order without
    padding.  The sizes of the two arrays are parameters. *)

From Stdlib Require Import ZArith Lia.
From Stdlib.Strings Require Import Byte.
From stdpp Require Import base tactics list strings.
From S2P Require Import Prelude Patient.

#[local] Open Scope Z_scope.

Lemma byte_to_N_inj (x y : byte) : Byte.to_N x = Byte.to_N y → x = y.
Proof.
  intros Heq. pose proof (Byte.of_to_N x) as Hx. rewrite Heq, Byte.of_to_N in Hx.
  congruence.
Qed.

#[export] Instance byte_eq_dec : EqDecision byte.
Proof.
  refine (λ x y, cast_if (decide (Byte.to_N x = Byte.to_N y)));
    abstract (auto using byte_to_N_inj; congruence).
Defined.

(** ** The interface *)

Class Layout (T : Type) : Type := {
  sizeof : nat;
  to_bytes : T → list byte;
  of_bytes : list byte → T;
  fits : T → Prop;
  fits_dec :: ∀ x, Decision (fits x);
  sizeof_pos : (0 < sizeof)%nat;
  to_bytes_length : ∀ x, length (to_bytes x) = sizeof;
  of_to_bytes : ∀ x, fits x → of_bytes (to_bytes x) = x
}.

Arguments sizeof T {_}.

(** The image of a sequence of records, as consecutive [fwrite]s leave
    it in a file. *)
Definition encode_all `{Layout T} (l : list T) : list byte :=
  l ≫= to_bytes.

(** The records of a byte sequence: as many whole records as it holds;
    a last incomplete one is dropped.  [n] bounds the number of records. *)
Fixpoint decode_upto `{Layout T} (n : nat) (bs : list byte) : list T :=
  match n with
  | O => []
  | S n =>
      if decide (sizeof T ≤ length bs)%nat
      then of_bytes (take (sizeof T) bs) :: decode_upto n (drop (sizeof T) bs)
      else []
  end.

Definition decode_all `{Layout T} (bs : list byte) : list T :=
  decode_upto (length bs) bs.

Arguments encode_all : simpl never.
Arguments decode_all : simpl never.

Section layout_facts.
Context `{Layout T}.
Implicit Types (l : list T) (bs : list byte).

Lemma encode_all_length l :
  length (encode_all l) = (length l * sizeof T)%nat.
Proof.
  unfold encode_all. induction l as [|x l IH]; [done|].
  rewrite bind_cons, length_app, to_bytes_length, IH. simpl. lia.
Qed.

Lemma encode_all_app l1 l2 :
  encode_all (l1 ++ l2) = encode_all l1 ++ encode_all l2.
Proof. unfold encode_all. apply bind_app. Qed.

Lemma encode_all_snoc l x : encode_all (l ++ [x]) = encode_all l ++ to_bytes x.
Proof.
  rewrite encode_all_app. unfold encode_all at 2.
  by rewrite bind_cons, app_nil_r.
Qed.

Lemma decode_upto_encode n l tl :
  Forall fits l → (length l ≤ n)%nat → (length tl < sizeof T)%nat →
  decode_upto n (encode_all l ++ tl) = l.
Proof.
  intros Hfits. revert n. induction Hfits as [|x l Hx _ IH]; intros n Hn Htl.
  - destruct n; simpl; [done|]. case_decide; [lia|done].
  - destruct n as [|n]; simpl in Hn; [lia|]. cbn [decode_upto].
    unfold encode_all in *. rewrite bind_cons, <-app_assoc.
    rewrite decide_True by (rewrite length_app, to_bytes_length; lia).
    rewrite take_app_length', drop_app_length' by (by rewrite to_bytes_length).
    rewrite of_to_bytes by done. f_equal. apply IH; lia.
Qed.

Lemma decode_all_encode l tl :
  Forall fits l → (length tl < sizeof T)%nat →
  decode_all (encode_all l ++ tl) = l.
Proof.
  intros. apply decode_upto_encode; [done| |done].
  rewrite length_app, encode_all_length. pose proof (sizeof_pos (T:=T)). nia.
Qed.

(** The bound on the number of records does not matter once it is at
    least the number of bytes. *)
Lemma decode_upto_fuel n m bs :
  (length bs ≤ n)%nat → (length bs ≤ m)%nat → decode_upto n bs = decode_upto m bs.
Proof.
  pose proof (sizeof_pos (T:=T)) as Hpos.
  revert m bs. induction n as [|n IH]; intros m bs Hn Hm.
  - destruct bs; [|simpl in Hn; lia]. destruct m; simpl; [done|].
    rewrite decide_False; [done|simpl; lia].
  - destruct m as [|m].
    + destruct bs; [|simpl in Hm; lia]. simpl. rewrite decide_False; [done|simpl; lia].
    + simpl. case_decide; [|done]. f_equal. apply IH; rewrite length_drop; lia.
Qed.

Lemma decode_all_cons bs :
  (sizeof T ≤ length bs)%nat →
  decode_all bs = of_bytes (take (sizeof T) bs) :: decode_all (drop (sizeof T) bs).
Proof.
  intros Hlen. pose proof (sizeof_pos (T:=T)) as Hpos. unfold decode_all.
  destruct (length bs) as [|n] eqn:Hn; [lia|]. simpl. rewrite Hn.
  rewrite decide_True by done. f_equal. apply decode_upto_fuel; rewrite length_drop; lia.
Qed.

Lemma decode_all_short bs : (length bs < sizeof T)%nat → decode_all bs = [].
Proof.
  intros Hlen. unfold decode_all. destruct (length bs) eqn:Hn; simpl; [done|].
  rewrite Hn. rewrite decide_False; [done|lia].
Qed.

Lemma decode_upto_length n bs :
  (length (decode_upto n bs) * sizeof T ≤ length bs)%nat.
Proof.
  revert bs. induction n as [|n IH]; intros bs; simpl; [lia|].
  case_decide; simpl; [|lia].
  specialize (IH (drop (sizeof T) bs)). rewrite length_drop in IH. lia.
Qed.
End layout_facts.

(** ** Integers and strings in memory *)

Definition byte_of_Z (z : Z) : byte :=
  default x00 (Byte.of_N (Z.to_N (z `mod` 256))).

Definition Z_of_byte (b : byte) : Z := Z.of_N (Byte.to_N b).

(** The [n] low-order bytes of [z], least significant first. *)
Fixpoint le_bytes (n : nat) (z : Z) : list byte :=
  match n with
  | O => []
  | S n => byte_of_Z z :: le_bytes n (z `div` 256)
  end.

Fixpoint le_unsigned (bs : list byte) : Z :=
  match bs with
  | [] => 0
  | b :: bs => Z_of_byte b + 256 * le_unsigned bs
  end.

(** The two's-complement value of a little-endian byte sequence. *)
Definition le_signed (bs : list byte) : Z :=
  let u := le_unsigned bs in
  let w := 256 ^ Z.of_nat (length bs) in
  if decide (2 * u < w) then u else u - w.

(** A string in a [char] array of [n] bytes: its characters, then NULs. *)
Definition str_bytes (n : nat) (s : string) : list byte :=
  take n (String.list_byte_of_string s ++ replicate n x00).

(** The bytes of an array up to the first NUL. *)
Fixpoint until_nul (bs : list byte) : list byte :=
  match bs with
  | [] => []
  | b :: bs => if decide (b = x00) then [] else b :: until_nul bs
  end.

Definition bytes_str (bs : list byte) : string :=
  String.string_of_list_byte (until_nul bs).

(** [s] is a C string that an array of [n] bytes holds with its NUL. *)
Definition cstring_fits (n : nat) (s : string) : Prop :=
  (String.length s < n)%nat ∧ x00 ∉ String.list_byte_of_string s.

Section memory_facts.
Implicit Types (z : Z) (n : nat) (bs : list byte) (s : string).

Lemma Z_of_byte_range b : 0 ≤ Z_of_byte b < 256.
Proof. unfold Z_of_byte. pose proof (Byte.to_N_bounded b). lia. Qed.

Lemma Z_of_byte_of_Z z : Z_of_byte (byte_of_Z z) = z `mod` 256.
Proof.
  unfold Z_of_byte, byte_of_Z.
  pose proof (Z.mod_pos_bound z 256 ltac:(lia)) as Hz.
  destruct (Byte.of_N _) as [b|] eqn:Hb; simpl.
  - apply Byte.to_of_N in Hb. rewrite Hb. lia.
  - apply Byte.of_N_None_iff in Hb. lia.
Qed.

Lemma le_bytes_length n z : length (le_bytes n z) = n.
Proof. revert z. induction n; intros; simpl; auto. Qed.

Lemma le_unsigned_bytes n z : le_unsigned (le_bytes n z) = z `mod` 256 ^ Z.of_nat n.
Proof.
  revert z. induction n as [|n IH]; intros z.
  - simpl. by rewrite Z.mod_1_r.
  - cbn [le_bytes le_unsigned]. rewrite IH, Z_of_byte_of_Z.
    rewrite Nat2Z.inj_succ, Z.pow_succ_r by lia.
    rewrite (Z.mul_comm 256), Z.rem_mul_r by lia. lia.
Qed.

Lemma le_signed_bytes n z :
  - 256 ^ Z.of_nat n ≤ 2 * z < 256 ^ Z.of_nat n → le_signed (le_bytes n z) = z.
Proof.
  intros Hz. unfold le_signed. rewrite le_bytes_length, le_unsigned_bytes.
  set (w := 256 ^ Z.of_nat n) in *.
  assert (0 < w) by (apply Z.pow_pos_nonneg; lia).
  destruct (decide (0 ≤ z)).
  - rewrite Z.mod_small by lia. case_decide; lia.
  - replace (z `mod` w) with (z + w).
    + case_decide; lia.
    + apply Z.mod_unique_pos with (-1); lia.
Qed.

Lemma str_bytes_length n s : length (str_bytes n s) = n.
Proof.
  unfold str_bytes. rewrite length_take, length_app, length_replicate. lia.
Qed.

Lemma until_nul_app bs tl : x00 ∉ bs → until_nul (bs ++ x00 :: tl) = bs.
Proof.
  induction bs as [|b bs IH]; cbn [until_nul app]; intros Hnul.
  - by rewrite decide_True.
  - apply not_elem_of_cons in Hnul as [? ?].
    rewrite decide_False by done. f_equal. auto.
Qed.

Lemma length_list_byte_of_string s :
  length (String.list_byte_of_string s) = String.length s.
Proof. induction s; simpl; auto. Qed.

Lemma bytes_str_bytes n s : cstring_fits n s → bytes_str (str_bytes n s) = s.
Proof.
  intros [Hlen Hnul]. unfold bytes_str, str_bytes.
  rewrite take_app_ge by (rewrite length_list_byte_of_string; lia).
  rewrite length_list_byte_of_string, take_replicate.
  destruct (_ `min` _)%nat as [|k] eqn:Hk; [lia|]. simpl.
  rewrite until_nul_app by done. apply String.string_of_list_byte_of_string.
Qed.
End memory_facts.

(** ** The packed layout of [Patient] and [DischargedPatient] *)

Section packed.
Variables name_size diagnosis_size : nat.

Definition Patient_to_bytes (p : Patient) : list byte :=
  le_bytes 4 (patientId p) ++ str_bytes name_size (name p) ++
  le_bytes 4 (ageInYears p) ++ str_bytes diagnosis_size (diagnosis p) ++
  le_bytes 4 (roomNumber p) ++ le_bytes 8 (admissionDate p).

Definition Patient_of_bytes (bs : list byte) : Patient :=
  let '(b_id, bs) := (take 4 bs, drop 4 bs) in
  let '(b_name, bs) := (take name_size bs, drop name_size bs) in
  let '(b_age, bs) := (take 4 bs, drop 4 bs) in
  let '(b_diag, bs) := (take diagnosis_size bs, drop diagnosis_size bs) in
  let '(b_room, bs) := (take 4 bs, drop 4 bs) in
  mkPatient (le_signed b_id) (bytes_str b_name) (le_signed b_age)
    (bytes_str b_diag) (le_signed b_room) (le_signed (take 8 bs)).

Definition in_time (z : Z) : Prop := - 2 ^ 63 ≤ z < 2 ^ 63.

Definition Patient_fits (p : Patient) : Prop :=
  in_int (patientId p) ∧ cstring_fits name_size (name p) ∧
  in_int (ageInYears p) ∧ cstring_fits diagnosis_size (diagnosis p) ∧
  in_int (roomNumber p) ∧ in_time (admissionDate p).

Definition Patient_size : nat := 4 + name_size + 4 + diagnosis_size + 4 + 8.

Lemma Patient_to_bytes_length p : length (Patient_to_bytes p) = Patient_size.
Proof.
  unfold Patient_to_bytes, Patient_size.
  rewrite !length_app, !le_bytes_length, !str_bytes_length. lia.
Qed.

Lemma le_signed_int z : in_int z → le_signed (le_bytes 4 z) = z.
Proof. intros [??]. apply le_signed_bytes. unfold INT_MIN, INT_MAX in *. lia. Qed.

Lemma le_signed_time z : in_time z → le_signed (le_bytes 8 z) = z.
Proof. intros [??]. apply le_signed_bytes. lia. Qed.

Lemma Patient_of_to_bytes p :
  Patient_fits p → Patient_of_bytes (Patient_to_bytes p) = p.
Proof.
  intros (Hid & Hname & Hage & Hdiag & Hroom & Htime).
  unfold Patient_of_bytes, Patient_to_bytes.
  repeat (rewrite ?take_app_length', ?drop_app_length'
    by (by rewrite ?le_bytes_length, ?str_bytes_length)).
  rewrite (take_ge (le_bytes 8 _)) by (by rewrite le_bytes_length).
  rewrite !le_signed_int, le_signed_time, !bytes_str_bytes by done.
  by destruct p.
Qed.

#[export] Instance Patient_fits_dec p : Decision (Patient_fits p).
Proof. unfold Patient_fits, cstring_fits, in_time. apply _. Defined.

#[local] Program Instance Patient_layout : Layout Patient := {|
  sizeof := Patient_size;
  to_bytes := Patient_to_bytes;
  of_bytes := Patient_of_bytes;
  fits := Patient_fits
|}.
Next Obligation. unfold Patient_size. lia. Qed.
Next Obligation. apply Patient_to_bytes_length. Qed.
Next Obligation. apply Patient_of_to_bytes. Qed.

(** A [DischargedPatient] is the record followed by the discharge time. *)
Definition Discharged_to_bytes (d : DischargedPatient) : list byte :=
  Patient_to_bytes (patient d) ++ le_bytes 8 (dischargeDate d).

Definition Discharged_of_bytes (bs : list byte) : DischargedPatient :=
  mkDischargedPatient (Patient_of_bytes (take Patient_size bs))
    (le_signed (take 8 (drop Patient_size bs))).

Definition Discharged_fits (d : DischargedPatient) : Prop :=
  Patient_fits (patient d) ∧ in_time (dischargeDate d).

Lemma Discharged_of_to_bytes d :
  Discharged_fits d → Discharged_of_bytes (Discharged_to_bytes d) = d.
Proof.
  intros [Hp Ht]. unfold Discharged_of_bytes, Discharged_to_bytes.
  rewrite take_app_length', drop_app_length' by (by rewrite Patient_to_bytes_length).
  rewrite (take_ge (le_bytes 8 _)) by (by rewrite le_bytes_length).
  rewrite Patient_of_to_bytes, le_signed_time by done. by destruct d.
Qed.

#[export] Instance Discharged_fits_dec d : Decision (Discharged_fits d).
Proof. unfold Discharged_fits, in_time. apply _. Defined.

#[local] Program Instance Discharged_layout : Layout DischargedPatient := {|
  sizeof := Patient_size + 8;
  to_bytes := Discharged_to_bytes;
  of_bytes := Discharged_of_bytes;
  fits := Discharged_fits
|}.
Next Obligation. lia. Qed.
Next Obligation.
  intros d. unfold Discharged_to_bytes.
  by rewrite length_app, Patient_to_bytes_length, le_bytes_length.
Qed.
Next Obligation. apply Discharged_of_to_bytes. Qed.
End packed.
