(* ===== verification/Env.v ===== *)
(** * The C runtime the program runs against

    The program talks to its environment only through the C library:
    [stdio] streams on five files of the working directory, the console,
    [time] and [malloc].  This file models that environment as the record
    [World] and each library call as a command on it.

    - The directory is a finite map from file names to byte sequences.
    - Every call that can fail ([fopen], [fwrite], [fprintf], [fclose],
      [remove], [rename], [malloc]) takes its outcome from [w_faults], the
      list of the outcomes of the successive fallible calls; when the list
      is exhausted calls succeed.  A failing write may still have put a
      prefix of its data in the file.
    - The console input is the list of the lines still to be read, the
      head being what is left of the current line; each output call adds
      one entry (without its line break) to the transcript.
    - [time (NULL)] returns the successive elements of [w_clock]; the
      last one is returned for ever. *)

From Stdlib Require Import ZArith Lia Ascii.
From Stdlib.Strings Require Import Byte.
From stdpp Require Import base tactics list strings gmap.
From S2P Require Import Prelude Patient Layout.

#[local] Open Scope Z_scope.

(** ** The state of the environment *)

Inductive outcome : Type :=
| Succeed
| Fail (partial : nat).

#[export] Instance outcome_eq_dec : EqDecision outcome.
Proof. solve_decision. Defined.

Record World : Type := mkWorld {
  w_files : gmap string (list byte);
  w_open : list string;
  w_stdin : list string;
  w_stdout : list string;
  w_stderr : list string;
  w_clock : list Z;
  w_faults : list outcome
}.

Definition set_files (f : gmap string (list byte) → gmap string (list byte))
    (w : World) : World :=
  mkWorld (f (w_files w)) (w_open w) (w_stdin w) (w_stdout w) (w_stderr w)
    (w_clock w) (w_faults w).

Definition set_open (f : list string → list string) (w : World) : World :=
  mkWorld (w_files w) (f (w_open w)) (w_stdin w) (w_stdout w) (w_stderr w)
    (w_clock w) (w_faults w).

Definition set_stdin (f : list string → list string) (w : World) : World :=
  mkWorld (w_files w) (w_open w) (f (w_stdin w)) (w_stdout w) (w_stderr w)
    (w_clock w) (w_faults w).

Definition set_stdout (f : list string → list string) (w : World) : World :=
  mkWorld (w_files w) (w_open w) (w_stdin w) (f (w_stdout w)) (w_stderr w)
    (w_clock w) (w_faults w).

Definition set_stderr (f : list string → list string) (w : World) : World :=
  mkWorld (w_files w) (w_open w) (w_stdin w) (w_stdout w) (f (w_stderr w))
    (w_clock w) (w_faults w).

Definition set_clock (f : list Z → list Z) (w : World) : World :=
  mkWorld (w_files w) (w_open w) (w_stdin w) (w_stdout w) (w_stderr w)
    (f (w_clock w)) (w_faults w).

Definition set_faults (f : list outcome → list outcome) (w : World) : World :=
  mkWorld (w_files w) (w_open w) (w_stdin w) (w_stdout w) (w_stderr w)
    (w_clock w) (f (w_faults w)).

Definition succeeded (o : outcome) : bool :=
  match o with Succeed => true | Fail _ => false end.

(** The outcome of the next fallible call. *)
Definition next_outcome : Prog World outcome := λ w,
  match w_faults w with
  | [] => (Succeed, w)
  | o :: os => (o, set_faults (λ _, os) w)
  end.

(** ** Streams *)

Inductive fmode : Type := ReadMode | WriteMode | AppendMode.

(** A stream: the file it is open on and the read position. *)
Record FILE : Type := mkFILE { f_path : string; f_pos : nat }.

Definition file_content (path : string) (w : World) : list byte :=
  default [] (w_files w !! path).

(** Remove the first occurrence of [x]. *)
Fixpoint remove_first `{EqDecision A} (x : A) (l : list A) : list A :=
  match l with
  | [] => []
  | y :: l => if decide (x = y) then l else y :: remove_first x l
  end.

(** [fopen]: [NULL] on a failure of the call, and in read mode when the
    file does not exist; ["w"] truncates, ["w"] and ["a"] create. *)
Definition fopen (path : string) (mode : fmode) : Prog World (option FILE) :=
  o ← next_outcome;
  match o with
  | Fail _ => mret None
  | Succeed => prog $ λ w,
      let opened := set_open (cons path) in
      match mode, w_files w !! path with
      | ReadMode, None => (None, w)
      | ReadMode, Some _ | AppendMode, Some _ => (Some (mkFILE path 0), opened w)
      | WriteMode, _ | AppendMode, None =>
          (Some (mkFILE path 0), opened (set_files (<[path := []]>) w))
      end
  end.

(** [fclose]: the stream is closed whatever the call returns. *)
Definition fclose (f : FILE) : Prog World bool :=
  o ← next_outcome;
  _ ← modify (set_open (remove_first (f_path f)));
  mret (succeeded o).

(** Bytes written at the end of a file of the directory. *)
Definition append_bytes (path : string) (bs : list byte) : World → World :=
  set_files (alter (λ content, content ++ bs) path).

(** Write a block at the end of the stream's file: all of it, or on a
    failure a proper prefix of it. *)
Definition write_block (f : FILE) (bs : list byte) : Prog World bool :=
  o ← next_outcome;
  match o with
  | Succeed => _ ← modify (append_bytes (f_path f) bs); mret true
  | Fail n =>
      _ ← modify (append_bytes (f_path f) (take (n `min` pred (length bs)) bs));
      mret false
  end.

(** [fwrite (&x, sizeof x, 1, f)]: true iff the item was written. *)
Definition fwrite `{Layout T} (x : T) (f : FILE) : Prog World bool :=
  write_block f (to_bytes x).

(** [fprintf (f, ...)] with the text already formatted. *)
Definition fprintf (f : FILE) (text : string) : Prog World bool :=
  write_block f (String.list_byte_of_string text).

(** [fread (&x, sizeof x, 1, f)]: the next record, or nothing when fewer
    than [sizeof x] bytes are left (they are consumed). *)
Definition fread `{Layout T} (f : FILE) : Prog World (option T * FILE) := λ w,
  let rest := drop (f_pos f) (file_content (f_path f) w) in
  if decide (sizeof T ≤ length rest)%nat
  then ((Some (of_bytes (take (sizeof T) rest)),
         mkFILE (f_path f) (f_pos f + sizeof T)), w)
  else ((None, mkFILE (f_path f) (f_pos f + length rest)), w).

(** [fgetc]: the next byte, or [EOF]. *)
Definition fgetc (f : FILE) : Prog World (option byte * FILE) := λ w,
  match drop (f_pos f) (file_content (f_path f) w) with
  | [] => ((None, f), w)
  | b :: _ => ((Some b, mkFILE (f_path f) (S (f_pos f))), w)
  end.

Definition rewind (f : FILE) : FILE := mkFILE (f_path f) 0.

(** ** The directory *)

Inductive remove_result : Type := Removed | NoEntry | RemoveError.

#[export] Instance remove_result_eq_dec : EqDecision remove_result.
Proof. solve_decision. Defined.

(** [remove]: [NoEntry] is a failure with [errno == ENOENT]. *)
Definition file_remove (path : string) : Prog World remove_result :=
  o ← next_outcome;
  match o with
  | Fail _ => mret RemoveError
  | Succeed => prog $ λ w,
      match w_files w !! path with
      | Some _ => (Removed, set_files (delete path) w)
      | None => (NoEntry, w)
      end
  end.

(** [rename]: true iff it returned 0; it replaces an existing target. *)
Definition file_rename (old new : string) : Prog World bool :=
  o ← next_outcome;
  match o with
  | Fail _ => mret false
  | Succeed => prog $ λ w,
      match w_files w !! old with
      | Some c => (true, set_files (λ fs, <[new := c]> (delete old fs)) w)
      | None => (false, w)
      end
  end.

(** ** Time and memory *)

Definition time_now : Prog World Z := λ w,
  match w_clock w with
  | [] => (0, w)
  | [t] => (t, w)
  | t :: _ => (t, set_clock tail w)
  end.

(** [malloc]: true iff it returned a block. *)
Definition malloc : Prog World bool :=
  o ← next_outcome; mret (succeeded o).

(** ** Console output *)

Definition puts (s : string) : Prog World unit :=
  modify (set_stdout (λ out, out ++ [s])).

Definition perror (s : string) : Prog World unit :=
  modify (set_stderr (λ err, err ++ [s])).

(** ** Console input *)

(** The result of a [scanf] with one conversion: 1, 0 or [EOF]. *)
Inductive scan (A : Type) : Type :=
| Scanned (a : A)
| NoMatch
| AtEOF.
Arguments Scanned {A} a.
Arguments NoMatch {A}.
Arguments AtEOF {A}.

Definition SUCCESSFUL_READ {A} (r : scan A) : bool :=
  match r with Scanned _ => true | _ => false end.

Definition is_space (c : ascii) : bool :=
  let n := N_of_ascii c in
  bool_decide (n = 32%N) || bool_decide (9 ≤ n ≤ 13)%N.

Definition digit_value (c : ascii) : option Z :=
  let n := Z.of_N (N_of_ascii c) in
  if decide (48 ≤ n ≤ 57) then Some (n - 48) else None.

Fixpoint skip_spaces (s : string) : string :=
  match s with
  | String c r => if is_space c then skip_spaces r else s
  | EmptyString => s
  end.

(** The number that the longest prefix of digits denotes, after [acc]. *)
Fixpoint read_digits (acc : Z) (s : string) : Z * string :=
  match s with
  | String c r =>
      match digit_value c with
      | Some d => read_digits (10 * acc + d) r
      | None => (acc, s)
      end
  | EmptyString => (acc, s)
  end.

Definition starts_with_digit (s : string) : bool :=
  match s with
  | String c _ => bool_decide (is_Some (digit_value c))
  | EmptyString => false
  end.

(** ["%d"] on input that starts with no white space: an optional sign and
    at least one digit. *)
Definition parse_int (s : string) : option (Z * string) :=
  let unsigned s := if starts_with_digit s then Some (read_digits 0 s) else None in
  match s with
  | String "-" r => prod_map Z.opp id <$> unsigned r
  | String "+" r => unsigned r
  | _ => unsigned s
  end.

(** [scanf ("%d", &n)] on the lines of the console: white space and line
    breaks are skipped; a value outside of [int] is reduced to 32 bits. *)
Fixpoint scan_int_lines (ls : list string) : scan Z * list string :=
  match ls with
  | [] => (AtEOF, [])
  | l :: ls =>
      match skip_spaces l with
      | EmptyString => scan_int_lines ls
      | l' =>
          match parse_int l' with
          | Some (n, rest) => (Scanned (wrap_int n), rest :: ls)
          | None => (NoMatch, l' :: ls)
          end
      end
  end.

Definition scanf_d : Prog World (scan Z) := λ w,
  let '(r, ls) := scan_int_lines (w_stdin w) in (r, set_stdin (λ _, ls) w).

(** [scanf (" %c", &c)]: the first character that is not white space. *)
Fixpoint scan_char_lines (ls : list string) : scan ascii * list string :=
  match ls with
  | [] => (AtEOF, [])
  | l :: ls =>
      match skip_spaces l with
      | EmptyString => scan_char_lines ls
      | String c rest => (Scanned c, rest :: ls)
      end
  end.

Definition scanf_c : Prog World (scan ascii) := λ w,
  let '(r, ls) := scan_char_lines (w_stdin w) in (r, set_stdin (λ _, ls) w).

(** [fscanf (f, "%d", &n)]: white space is skipped, then an integer is
    read; the stream stays before the first character that cannot be part
    of it. *)
Definition fscanf_d (f : FILE) : Prog World (scan Z * FILE) := λ w,
  let rest := String.string_of_list_byte (drop (f_pos f) (file_content (f_path f) w)) in
  let text := skip_spaces rest in
  let at_text remaining :=
    mkFILE (f_path f) (f_pos f + (String.length rest - String.length remaining)) in
  match text with
  | EmptyString => ((AtEOF, at_text text), w)
  | _ =>
      match parse_int text with
      | Some (n, remaining) => ((Scanned (wrap_int n), at_text remaining), w)
      | None => ((NoMatch, at_text text), w)
      end
  end.

(** [fprintf (stderr, ...)] with the text already formatted. *)
Definition fprintf_stderr (text : string) : Prog World unit :=
  modify (set_stderr (λ err, err ++ [text])).

(** [clearInputBuffer] of [utils.h]: discard the rest of the current line. *)
Definition clearInputBuffer : Prog World unit := modify (set_stdin tail).

Definition newline : string := String (ascii_of_nat 10) EmptyString.

(** [fgets (buf, n, stdin)]: at most [n - 1] characters of the current
    line, with its line break when it is reached; [None] is [NULL]. *)
Definition fgets (n : nat) : Prog World (option string) := λ w,
  match w_stdin w with
  | [] => (None, w)
  | l :: ls =>
      if decide (String.length l < n - 1)%nat
      then (Some (l +:+ newline), set_stdin (λ _, ls) w)
      else (Some (String.substring 0 (n - 1) l),
            set_stdin (λ _, String.substring (n - 1) (String.length l) l :: ls) w)
  end.

(** [s[strcspn (s, "\n")] = '\0']: cut the string at its first line break. *)
Fixpoint strip_newline (s : string) : string :=
  match s with
  | String c r =>
      if decide (c = ascii_of_nat 10) then EmptyString else String c (strip_newline r)
  | EmptyString => EmptyString
  end.

(** The console input that is left, in characters and line breaks: the
    measure that bounds the iterations of a prompt. *)
Definition lines_size (ls : list string) : nat :=
  sum_list ((λ l, S (String.length l)) <$> ls).

Definition stdin_size (w : World) : nat := lines_size (w_stdin w).

Arguments lines_size : simpl never.

(** ** Facts *)

Lemma lines_size_cons l ls :
  lines_size (l :: ls) = S (String.length l + lines_size ls).
Proof. done. Qed.

Lemma skip_spaces_length s :
  (String.length (skip_spaces s) ≤ String.length s)%nat.
Proof.
  induction s as [|c s IH]; simpl; [done|]. destruct (is_space c); simpl; lia.
Qed.

Lemma read_digits_length acc s :
  (String.length (read_digits acc s).2 ≤ String.length s)%nat.
Proof.
  revert acc. induction s as [|c s IH]; intros acc; simpl; [done|].
  destruct (digit_value c); simpl; [|done]. specialize (IH (10 * acc + z)). lia.
Qed.

Lemma parse_int_length s n rest :
  parse_int s = Some (n, rest) → (String.length rest ≤ String.length s)%nat.
Proof.
  assert (Hu : ∀ s n rest,
    (if starts_with_digit s then Some (read_digits 0 s) else None)
      = Some (n, rest) →
    (String.length rest ≤ String.length s)%nat).
  { intros s' n' rest' Hs. destruct (starts_with_digit s'); simplify_eq.
    pose proof (read_digits_length 0 s') as Hl. by rewrite Hs in Hl. }
  unfold parse_int. intros Hp.
  destruct s as [|c s']; [by apply Hu in Hp|].
  destruct (decide (c = "-"%char)) as [->|?];
    [|destruct (decide (c = "+"%char)) as [->|?]].
  - destruct (if starts_with_digit s' then _ else _) as [[n' r']|] eqn:Hs;
      simplify_eq/=. apply Hu in Hs. lia.
  - apply Hu in Hp. simpl. lia.
  - apply (Hu (String c s') n rest).
    destruct c as [[] [] [] [] [] [] [] []]; done.
Qed.

(** A scan never adds input, and leaves none only at the end of it. *)
Lemma scan_int_lines_size ls r ls' :
  scan_int_lines ls = (r, ls') →
  (lines_size ls' ≤ lines_size ls)%nat ∧ (ls' = [] → r = AtEOF).
Proof.
  revert r ls'.
  induction ls as [|l ls IH]; intros r ls' Hs; cbn [scan_int_lines] in Hs.
  { by simplify_eq. }
  pose proof (skip_spaces_length l).
  destruct (skip_spaces l) as [|c l'] eqn:Hl.
  { apply IH in Hs as [? ?]. rewrite lines_size_cons. split; [lia|done]. }
  destruct (parse_int (String c l')) as [[n rest]|] eqn:Hp; simplify_eq.
  - apply parse_int_length in Hp. rewrite !lines_size_cons. split; [lia|done].
  - rewrite !lines_size_cons. split; [lia|done].
Qed.

Lemma scan_char_lines_size ls r ls' :
  scan_char_lines ls = (r, ls') →
  (lines_size ls' ≤ lines_size ls)%nat ∧ (ls' = [] → r = AtEOF).
Proof.
  revert r ls'. induction ls as [|l ls IH]; intros r ls' Hs; simpl in Hs.
  { by simplify_eq. }
  pose proof (skip_spaces_length l).
  destruct (skip_spaces l) as [|c l'] eqn:Hl; simplify_eq.
  { apply IH in Hs as [? ?]. rewrite lines_size_cons. split; [lia|done]. }
  simpl in *. rewrite !lines_size_cons. split; [lia|done].
Qed.

(** A scan followed by [clearInputBuffer] consumes input when there is
    some. *)
Lemma scan_tail_size ls ls' :
  (lines_size ls' ≤ lines_size ls)%nat →
  (lines_size (tail ls') ≤ lines_size ls)%nat ∧
  (ls ≠ [] → lines_size (tail ls') < lines_size ls)%nat.
Proof.
  destruct ls' as [|l' ls'], ls as [|l ls]; rewrite ?lines_size_cons; cbn [tail];
    intros ?; (split; [|intros ?]); try done;
    change (lines_size []) with 0%nat in *; lia.
Qed.

Lemma stdin_size_0 w : stdin_size w = 0%nat ↔ w_stdin w = [].
Proof.
  unfold stdin_size. destruct (w_stdin w); [done|]. by rewrite lines_size_cons.
Qed.

Lemma substring_length n m s :
  (String.length (String.substring n m s) ≤ String.length s - n)%nat.
Proof.
  revert n m. induction s as [|c s IH]; intros [|n] [|m]; simpl; try lia.
  - specialize (IH 0%nat m). lia.
  - apply IH.
  - apply IH.
Qed.

Lemma next_outcome_no_faults w :
  w_faults w = [] → next_outcome w = (Succeed, w).
Proof. unfold next_outcome. by intros ->. Qed.

Lemma strip_newline_append s :
  ascii_of_nat 10 ∉ String.list_ascii_of_string s →
  strip_newline (s +:+ newline) = s.
Proof.
  induction s as [|c s IH]; intros Hnl; [reflexivity|].
  change (strip_newline (String c s +:+ newline)) with
    (if decide (c = ascii_of_nat 10) then EmptyString
     else String c (strip_newline (s +:+ newline))).
  apply not_elem_of_cons in Hnl as [? ?].
  rewrite decide_False by done. f_equal. auto.
Qed.

Lemma remove_first_cons `{EqDecision A} (x : A) l : remove_first x (x :: l) = l.
Proof. simpl. by rewrite decide_True. Qed.

Lemma append_bytes_twice p a b w :
  append_bytes p b (append_bytes p a w) = append_bytes p (a ++ b) w.
Proof.
  destruct w; unfold append_bytes, set_files; simpl. f_equal.
  rewrite alter_alter_eq. apply alter_ext. intros. simpl. by rewrite app_assoc.
Qed.

Lemma append_bytes_nil p w : append_bytes p [] w = w.
Proof.
  destruct w; unfold append_bytes, set_files; simpl. f_equal.
  apply alter_id. intros. apply app_nil_r.
Qed.

Lemma append_bytes_files p bs w :
  w_files (append_bytes p bs w) = alter (λ c, c ++ bs) p (w_files w).
Proof. done. Qed.

Lemma file_content_append_bytes p bs w :
  is_Some (w_files w !! p) →
  file_content p (append_bytes p bs w) = file_content p w ++ bs.
Proof.
  intros [c Hc]. unfold file_content. rewrite append_bytes_files, lookup_alter_eq, Hc.
  done.
Qed.

Lemma file_content_append_bytes_ne p q bs w :
  p ≠ q → file_content q (append_bytes p bs w) = file_content q w.
Proof.
  intros. unfold file_content. by rewrite append_bytes_files, lookup_alter_ne.
Qed.

(** A number that is read has at least one digit. *)
Lemma parse_int_consumes s n rest :
  parse_int s = Some (n, rest) → (String.length rest < String.length s)%nat.
Proof.
  assert (Hu : ∀ s n rest,
    (if starts_with_digit s then Some (read_digits 0 s) else None)
      = Some (n, rest) →
    (String.length rest < String.length s)%nat).
  { intros [|c s'] n' rest'; simpl; [done|]. case_bool_decide as Hd; [|done].
    destruct Hd as [d Hd]. rewrite Hd. intros [= Hr].
    pose proof (read_digits_length (10 * 0 + d) s') as Hl. rewrite Hr in Hl.
    simpl in Hl. lia. }
  unfold parse_int. intros Hp.
  destruct s as [|c s']; [by apply Hu in Hp|].
  destruct (decide (c = "-"%char)) as [->|?];
    [|destruct (decide (c = "+"%char)) as [->|?]].
  - destruct (if starts_with_digit s' then _ else _) as [[n' r']|] eqn:Hs;
      simplify_eq/=. apply Hu in Hs. lia.
  - apply Hu in Hp. simpl. lia.
  - apply (Hu (String c s') n rest).
    destruct c as [[] [] [] [] [] [] [] []]; done.
Qed.

Section stream_facts.
Context `{Layout T}.

Lemma fread_some (f : FILE) w :
  (sizeof T ≤ length (drop (f_pos f) (file_content (f_path f) w)))%nat →
  fread f w =
  ((Some (of_bytes (take (sizeof T) (drop (f_pos f) (file_content (f_path f) w)))),
    mkFILE (f_path f) (f_pos f + sizeof T)), w).
Proof. intros. unfold fread. by rewrite decide_True. Qed.

Lemma fread_none (f : FILE) w :
  (length (drop (f_pos f) (file_content (f_path f) w)) < sizeof T)%nat →
  fread (T:=T) f w =
  ((None, mkFILE (f_path f)
            (f_pos f + length (drop (f_pos f) (file_content (f_path f) w)))), w).
Proof. intros. unfold fread. rewrite decide_False; [done|lia]. Qed.

End stream_facts.

(** The calls on a stream when the schedule of failures is empty. *)
Lemma write_block_ok f bs w :
  w_faults w = [] → write_block f bs w = (true, append_bytes (f_path f) bs w).
Proof. unfold write_block, next_outcome, mbind, Prog_bind. by intros ->. Qed.

Lemma fprintf_ok f text w :
  w_faults w = [] →
  fprintf f text w = (true, append_bytes (f_path f) (String.list_byte_of_string text) w).
Proof. apply write_block_ok. Qed.

Lemma fclose_ok f w :
  w_faults w = [] → fclose f w = (true, set_open (remove_first (f_path f)) w).
Proof. unfold fclose, next_outcome, mbind, Prog_bind. by intros ->. Qed.

(** The outcomes that are left when [n] fallible calls have been made. *)
Lemma next_outcome_faults w :
  w_faults (next_outcome w).2 = tail (w_faults w).
Proof. unfold next_outcome. by destruct w as [? ? ? ? ? ? [|? ?]]. Qed.

#[export] Hint Rewrite append_bytes_twice append_bytes_nil : hms.

(** Run the library calls of the goal on a world whose fields are
    variables and whose fault list is a constructor. *)
Ltac run_env :=
  unfold fopen, fclose, fwrite, fprintf, write_block, file_remove, file_rename,
    malloc, puts, perror, time_now, next_outcome, clearInputBuffer, scanf_d,
    scanf_c, fgets, fread, fgetc, fprintf_stderr in *;
  prog_unfold; cbn -[append_bytes] in *.

(** The next library call succeeds, fails, or the schedule is empty. *)
Ltac fault_case :=
  match goal with
  | |- context [match ?l with [] => _ | _ :: _ => _ end] =>
      is_var l; destruct l as [|[|?] ?]
  end.
