(* ===== verification/Store.v ===== *)
(** * The record store: the linked list of active patients

    The globals of [src/patient_management.c] ([patientHead],
    [totalPatients], [patientIDCounter]) with the environment make the
    state [Sys].  This file holds the operations on the list itself
    ([insertPatientAtEndOfList], [getPatientFromList],
    [isRoomOccupiedInList], [computeNextPatientId], [clearMemory],
    [initializePatientSystemDefault]), the two collaborators of
    [patient_data.h] they are used with ([createPatient],
    [printPatient]), and the facts about lists that the invariants of the
    system rest on. *)

From Stdlib Require Import ZArith Lia.
From stdpp Require Import base tactics list strings pretty gmap.
From S2P Require Import Prelude Patient Layout Env.

#[local] Open Scope Z_scope.

(** ** The state of the program *)

Record Sys : Type := mkSys {
  patientHead : list Patient;
  totalPatients : Z;
  patientIDCounter : Z;
  world : World
}.

Definition set_head (f : list Patient → list Patient) (s : Sys) : Sys :=
  mkSys (f (patientHead s)) (totalPatients s) (patientIDCounter s) (world s).

Definition set_total (f : Z → Z) (s : Sys) : Sys :=
  mkSys (patientHead s) (f (totalPatients s)) (patientIDCounter s) (world s).

Definition set_counter (f : Z → Z) (s : Sys) : Sys :=
  mkSys (patientHead s) (totalPatients s) (f (patientIDCounter s)) (world s).

Definition set_world (f : World → World) (s : Sys) : Sys :=
  mkSys (patientHead s) (totalPatients s) (patientIDCounter s) (f (world s)).

(** A library call, run on the environment of the program. *)
Definition env {A} (m : Prog World A) : Prog Sys A := λ s,
  let '(a, w) := m (world s) in (a, set_world (λ _, w) s).

(** The state at program start: the initial values of the globals. *)
Definition boot (w : World) : Sys := mkSys [] IS_EMPTY DEFAULT_ID w.

(** ** Collaborators of [patient_data.h] *)

(** [createPatient]: the record of an admission, stamped with the current
    time. *)
Definition createPatient (patientName : string) (patientAge : Z)
    (patientDiagnosis : string) (room : Z) (id : Z) : Prog World Patient :=
  now ← time_now;
  mret (mkPatient id patientName patientAge patientDiagnosis room now).

(** The lines that describe one record on the console. *)
Definition printPatientInfo (p : Patient) : Prog World unit :=
  _ ← puts ("Patient ID: " +:+ pretty (patientId p));
  _ ← puts ("Patient Name: " +:+ name p);
  _ ← puts ("Age: " +:+ pretty (ageInYears p));
  _ ← puts ("Diagnosis: " +:+ diagnosis p);
  _ ← puts ("Room Number: " +:+ pretty (roomNumber p));
  puts "---------------------------------------".

Definition printPatient (p : Patient) : Prog World unit := printPatientInfo p.

(** The lines that [printPatientInfo] prints. *)
Definition patient_lines (p : Patient) : list string :=
  [ "Patient ID: " +:+ pretty (patientId p);
    "Patient Name: " +:+ name p;
    "Age: " +:+ pretty (ageInYears p);
    "Diagnosis: " +:+ diagnosis p;
    "Room Number: " +:+ pretty (roomNumber p);
    "---------------------------------------" ].

(** ** Operations on the list *)

(** The walk to the last node and the link of the new one. *)
Fixpoint link_at_end (current : list Patient) (data : Patient) : list Patient :=
  match current with
  | [] => [data]
  | p :: nextNode => p :: link_at_end nextNode data
  end.

(** [insertPatientAtEndOfList]: the new head; [[]] is the [NULL] that a
    failed allocation gives. *)
Definition insertPatientAtEndOfList (head : list Patient) (data : Patient)
    : Prog World (list Patient) :=
  newNode ← malloc;
  if negb newNode then mret []
  else
    match head with
    | [] => mret [data]
    | _ =>
        _ ← puts "Patient inserted at end of list.";
        mret (link_at_end head data)
    end.

(** The scan of [getPatientFromList]: the first record with this id. *)
Fixpoint find_by_id (id : Z) (current : list Patient) : option Patient :=
  match current with
  | [] => None
  | p :: nextNode =>
      if decide (patientId p = id) then Some p else find_by_id id nextNode
  end.

Definition getPatientFromList (id : Z) : Prog Sys (option Patient) :=
  head ← gets patientHead;
  match head with
  | [] => mret None
  | _ => mret (find_by_id id head)
  end.

(** The search loop of [removePatientFromSystem] and the unlink: the list
    without the first record that has this id, or [None] when the loop
    reaches the end of the list. *)
Fixpoint unlink_by_id (id : Z) (current : list Patient) : option (list Patient) :=
  match current with
  | [] => None
  | p :: nextNode =>
      if decide (patientId p = id) then Some nextNode
      else cons p <$> unlink_by_id id nextNode
  end.

(** Reference for the removal: the list without the records of this id. *)
Definition without (id : Z) (l : list Patient) : list Patient :=
  filter (λ q, patientId q ≠ id) l.

(** [isRoomOccupiedInList]: 1 when a record of the list has the room,
    [ROOM_UNOCCUPIED] otherwise. *)
Fixpoint isRoomOccupiedInList (room : Z) (head : list Patient) : Z :=
  match head with
  | [] => ROOM_UNOCCUPIED
  | p :: nextNode =>
      if decide (roomNumber p = room) then 1
      else isRoomOccupiedInList room nextNode
  end.

(** The loop of [computeNextPatientId]: the largest id seen so far. *)
Fixpoint max_id (maxId : Z) (current : list Patient) : Z :=
  match current with
  | [] => maxId
  | p :: nextNode =>
      max_id (if decide (maxId < patientId p) then patientId p else maxId) nextNode
  end.

Definition computeNextPatientId : Prog Sys Z :=
  head ← gets patientHead;
  mret (wrap_int (max_id 0 head + 1)).

(** [clearMemory]: every node is freed and the globals are reset. *)
Definition clearMemory : Prog Sys unit :=
  _ ← modify (set_head (λ _, []));
  _ ← modify (set_total (λ _, IS_EMPTY));
  modify (set_counter (λ _, DEFAULT_ID)).

Definition initializePatientSystemDefault : Prog Sys unit :=
  _ ← modify (set_head (λ _, []));
  _ ← modify (set_total (λ _, IS_EMPTY));
  _ ← modify (set_counter (λ _, DEFAULT_ID));
  env (puts "Patient system initialized with default settings using linked list.").

(** ** Running commands *)

Lemma env_run {A} (m : Prog World A) s :
  env m s = ((m (world s)).1, set_world (λ _, (m (world s)).2) s).
Proof. unfold env. by destruct (m (world s)). Qed.

(** Run the commands of the goal on a state whose fields are variables
    and whose fault list is a constructor. *)
Ltac run_sys :=
  repeat (progress (
    unfold env, set_head, set_total, set_counter, set_world, append_bytes,
      set_files, set_open, set_stdin, set_stdout, set_stderr, set_clock,
      set_faults in *;
    run_env)).

(** Equality of two directories given by inserts and deletes of the
    program's files. *)
Ltac solve_files :=
  apply map_eq; intros ?k;
  repeat (rewrite ?lookup_insert, ?lookup_delete; case_decide; subst;
          try done; try congruence).

(** ** Facts about the list operations *)

Section list_facts.
Implicit Types (l : list Patient) (p : Patient) (id room : Z).

Lemma link_at_end_app l p : link_at_end l p = l ++ [p].
Proof. induction l; simpl; congruence. Qed.

Lemma printPatient_lines p w :
  printPatient p w = (tt, set_stdout (λ out, out ++ patient_lines p) w).
Proof.
  destruct w. unfold printPatient, printPatientInfo, patient_lines. run_sys.
  by rewrite <-!(assoc_L (++)).
Qed.

Lemma find_by_id_Some id l p :
  find_by_id id l = Some p → p ∈ l ∧ patientId p = id.
Proof.
  induction l as [|q l IH]; simpl; [done|].
  case_decide; [intros [= ->]; split; [left|done]|].
  intros [? ?]%IH. split; [by right|done].
Qed.

Lemma find_by_id_None id l :
  find_by_id id l = None ↔ id ∉ patientId <$> l.
Proof.
  induction l as [|q l IH]; simpl.
  - split; [intros _; apply not_elem_of_nil|done].
  - rewrite not_elem_of_cons. case_decide; [naive_solver|].
    rewrite IH. naive_solver.
Qed.

Lemma find_by_id_is_Some id l :
  is_Some (find_by_id id l) ↔ id ∈ patientId <$> l.
Proof.
  rewrite <-not_eq_None_Some, find_by_id_None.
  destruct (decide (id ∈ patientId <$> l)); naive_solver.
Qed.

(** With distinct ids the scan finds the record wherever it is. *)
Lemma find_by_id_NoDup id l p :
  NoDup (patientId <$> l) → p ∈ l → find_by_id (patientId p) l = Some p.
Proof.
  induction l as [|q l IH]; simpl; [by intros _ ?%elem_of_nil|].
  intros [Hq Hl]%NoDup_cons [->|Hp]%elem_of_cons.
  - by rewrite decide_True.
  - rewrite decide_False; [auto|].
    intros Heq. apply Hq. rewrite Heq. by apply list_elem_of_fmap_2.
Qed.

Lemma find_by_id_app_r id l1 l2 :
  id ∉ patientId <$> l1 → find_by_id id (l1 ++ l2) = find_by_id id l2.
Proof.
  induction l1 as [|q l1 IH]; simpl; [done|].
  rewrite not_elem_of_cons. intros [? ?]. rewrite decide_False by done. auto.
Qed.

Lemma isRoomOccupiedInList_cases room l :
  (isRoomOccupiedInList room l = 1 ∧ room ∈ roomNumber <$> l) ∨
  (isRoomOccupiedInList room l = ROOM_UNOCCUPIED ∧ room ∉ roomNumber <$> l).
Proof.
  induction l as [|q l IH]; simpl.
  - right. split; [done|apply not_elem_of_nil].
  - case_decide; [left; split; [done|subst; left]|].
    rewrite not_elem_of_cons, elem_of_cons. naive_solver.
Qed.

Lemma isRoomOccupiedInList_free room l :
  isRoomOccupiedInList room l = ROOM_UNOCCUPIED ↔ room ∉ roomNumber <$> l.
Proof.
  destruct (isRoomOccupiedInList_cases room l) as [[-> ?]|[-> ?]];
    unfold ROOM_UNOCCUPIED; naive_solver.
Qed.

Lemma max_id_ge m l : m ≤ max_id m l.
Proof.
  revert m. induction l as [|q l IH]; intros m; simpl; [lia|].
  case_decide; etrans; [|apply IH| |apply IH]; lia.
Qed.

Lemma max_id_bound m l p : p ∈ l → patientId p ≤ max_id m l.
Proof.
  revert m. induction l as [|q l IH]; intros m; simpl; [by intros ?%elem_of_nil|].
  intros [->|Hp]%elem_of_cons; [|by apply IH].
  case_decide; (etrans; [|apply max_id_ge]); lia.
Qed.

(** The largest id is [m] or the id of a record. *)
Lemma max_id_attained m l :
  max_id m l = m ∨ max_id m l ∈ patientId <$> l.
Proof.
  revert m. induction l as [|q l IH]; intros m; simpl; [by left|].
  case_decide; destruct (IH (if decide (m < patientId q) then patientId q else m))
    as [Heq|Hin]; rewrite ?decide_True, ?decide_False in * by done;
    rewrite ?elem_of_cons; auto.
Qed.

Lemma max_id_lt m c l :
  m < c → Forall (λ p, patientId p < c) l → max_id m l < c.
Proof.
  intros Hm Hl. destruct (max_id_attained m l) as [->|Hin]; [done|].
  apply list_elem_of_fmap in Hin as (p & -> & Hp).
  by eapply Forall_forall in Hl.
Qed.

(** An insertion touches no file. *)
Lemma insertPatientAtEndOfList_files l p w :
  w_files (insertPatientAtEndOfList l p w).2 = w_files w.
Proof.
  destruct w as [files open stdin out err clock [|[|?] ?]];
    unfold insertPatientAtEndOfList; run_sys; by destruct l.
Qed.

Lemma max_id_snoc m l p :
  max_id m (l ++ [p]) = Z.max (max_id m l) (patientId p).
Proof.
  revert m. induction l as [|q l IH]; intros m; simpl; [case_decide; lia|].
  apply IH.
Qed.
End list_facts.

#[export] Hint Rewrite link_at_end_app : hms.

(** ** States with the same store *)

(** Two states with the same list and counters; the environment may
    differ. *)
Definition same_store (s s' : Sys) : Prop :=
  patientHead s = patientHead s' ∧ totalPatients s = totalPatients s' ∧
  patientIDCounter s = patientIDCounter s'.

#[export] Instance same_store_equiv : Equivalence same_store.
Proof.
  unfold same_store. split.
  - done.
  - intros ? ?. intuition congruence.
  - intros ? ? ?. intuition congruence.
Qed.

(** The list and the counters after a discharge of [p]: as before, or
    with the first record that has the id of [p] unlinked. *)
Definition store_step (p : Patient) (s s' : Sys) : Prop :=
  same_store s s' ∨
  (∃ l', unlink_by_id (patientId p) (patientHead s) = Some l' ∧
         patientHead s' = l' ∧ totalPatients s' = int_decr (totalPatients s) ∧
         patientIDCounter s' = patientIDCounter s).

#[export] Instance store_step_proper p :
  Proper (same_store ==> same_store ==> iff) (store_step p).
Proof.
  unfold store_step, same_store.
  intros s1 s2 (-> & -> & ->) s1' s2' (-> & -> & ->). done.
Qed.

(** A library call leaves the store alone. *)
Lemma env_same_store {A} (m : Prog World A) s : same_store (exec (env m) s) s.
Proof. unfold exec, env. by destruct (m (world s)). Qed.

(** ** The invariant of the record store *)

Section invariant.
Context `{Limits}.
Implicit Types (l : list Patient) (p : Patient) (id room : Z).

(** [totalPatients] is the length of the list; ids are distinct, at least
    [DEFAULT_ID] and below [patientIDCounter]; no room is used twice;
    every record passes validation; the counter has not wrapped. *)
Definition store_ok (s : Sys) : Prop :=
  totalPatients s = Z.of_nat (length (patientHead s)) ∧
  NoDup (patientId <$> patientHead s) ∧
  Forall (λ p, DEFAULT_ID ≤ patientId p < patientIDCounter s) (patientHead s) ∧
  NoDup (roomNumber <$> patientHead s) ∧
  Forall valid_patient (patientHead s) ∧
  DEFAULT_ID ≤ patientIDCounter s ≤ INT_MAX.

#[export] Instance store_ok_dec s : Decision (store_ok s).
Proof. unfold store_ok. apply _. Defined.

#[export] Instance store_ok_proper : Proper (same_store ==> iff) store_ok.
Proof. unfold store_ok. by intros s1 s2 (-> & -> & ->). Qed.

Lemma store_ok_boot w : store_ok (boot w).
Proof.
  unfold store_ok, boot, DEFAULT_ID, INT_MAX; simpl.
  repeat split; try constructor; lia.
Qed.

(** The ids in use are below the counter, so the count is too. *)
Lemma store_ok_total_lt s : store_ok s → 0 ≤ totalPatients s < patientIDCounter s.
Proof.
  intros (Htotal & Hnd & Hrange & _ & _ & Hc). rewrite Htotal.
  pose proof (NoDup_interval_length (patientId <$> patientHead s)
                DEFAULT_ID (patientIDCounter s) Hnd) as Hlen.
  rewrite length_fmap in Hlen. unfold DEFAULT_ID in *.
  rewrite Forall_fmap in Hlen. specialize (Hlen Hrange). lia.
Qed.

(** No more patients than rooms. *)
Lemma store_ok_rooms s :
  store_ok s → totalPatients s ≤ Z.max 0 (MAX_ROOM_NUMBER - MIN_ROOM_NUMBER + 1).
Proof.
  intros (Htotal & _ & _ & Hnd & Hvalid & _). rewrite Htotal.
  pose proof (NoDup_interval_length (roomNumber <$> patientHead s)
                MIN_ROOM_NUMBER (MAX_ROOM_NUMBER + 1) Hnd) as Hlen.
  rewrite length_fmap, Forall_fmap in Hlen.
  replace (MAX_ROOM_NUMBER + 1 - MIN_ROOM_NUMBER)
    with (MAX_ROOM_NUMBER - MIN_ROOM_NUMBER + 1) in Hlen by lia.
  apply Hlen. eapply Forall_impl; [done|]. intros p (_ & _ & _ & Hroom); simpl.
  apply validateRoomNumber_spec in Hroom. lia.
Qed.

(** A record with the next id and a free room may be linked at the end. *)
Lemma store_ok_snoc s p w :
  store_ok s → patientId p = patientIDCounter s → patientIDCounter s < INT_MAX →
  valid_patient p → roomNumber p ∉ roomNumber <$> patientHead s →
  store_ok (mkSys (patientHead s ++ [p]) (int_incr (totalPatients s))
              (int_incr (patientIDCounter s)) w).
Proof.
  intros Hok Hid Hmax Hvalid Hroom. pose proof (store_ok_total_lt s Hok).
  destruct Hok as (Htotal & Hnd & Hrange & Hrooms & Hvalids & Hc).
  unfold store_ok; cbn. unfold DEFAULT_ID, INT_MAX in *.
  assert (int_incr (patientIDCounter s) = patientIDCounter s + 1) as Hincr
    by (apply int_incr_small; unfold in_int, INT_MIN, INT_MAX; lia).
  rewrite int_incr_small by (unfold in_int, INT_MIN, INT_MAX; lia).
  rewrite length_app, !fmap_app; cbn.
  split_and!; [lia| | | | |lia|lia].
  - apply NoDup_snoc; split; [|done]. rewrite Hid. intros Hin.
    apply list_elem_of_fmap in Hin as (q & Hq & Hin).
    eapply Forall_forall in Hrange; [|done]. lia.
  - apply Forall_snoc; split; [|lia].
    eapply Forall_impl; [exact Hrange|]. intros q ?; simpl in *. lia.
  - by apply NoDup_snoc.
  - by apply Forall_snoc.
Qed.

Lemma unlink_by_id_sublist id l l' :
  unlink_by_id id l = Some l' → l' `sublist_of` l ∧ length l = S (length l').
Proof.
  revert l'. induction l as [|q l IH]; intros l'; simpl; [done|].
  case_decide; [intros [= <-]; split; [by apply sublist_cons|done]|].
  destruct (unlink_by_id id l) as [l1|]; [|done]. intros [= <-].
  destruct (IH l1) as [? ?]; [done|]. split; [by apply sublist_skip|simpl; lia].
Qed.

Lemma unlink_by_id_is_Some id l :
  is_Some (unlink_by_id id l) ↔ id ∈ patientId <$> l.
Proof.
  induction l as [|q l IH]; simpl.
  - split; [by intros [? ?]|by intros ?%elem_of_nil].
  - rewrite elem_of_cons. case_decide; [naive_solver|].
    rewrite fmap_is_Some, IH. naive_solver.
Qed.

(** A record that the scan finds can be unlinked. *)
Lemma find_by_id_unlink id l p :
  find_by_id id l = Some p → is_Some (unlink_by_id id l).
Proof.
  intros Hfind. apply unlink_by_id_is_Some, find_by_id_is_Some. by eexists.
Qed.

(** With distinct ids the unlink removes every record with the id. *)
Lemma unlink_by_id_without id l :
  NoDup (patientId <$> l) → id ∈ patientId <$> l →
  unlink_by_id id l = Some (without id l).
Proof.
  unfold without. induction l as [|q l IH]; simpl; [by intros _ ?%elem_of_nil|].
  intros [Hq Hl]%NoDup_cons Hin. rewrite filter_cons.
  destruct (decide (patientId q = id)) as [<-|Hne].
  - rewrite decide_False by naive_solver. f_equal.
    clear IH Hl Hin. induction l as [|r l IH]; [done|].
    rewrite fmap_cons, not_elem_of_cons in Hq. destruct Hq as [? ?].
    rewrite filter_cons_True by done. f_equal. auto.
  - rewrite decide_True by done. rewrite IH; [done..|].
    apply elem_of_cons in Hin as [?|?]; done.
Qed.

(** A record may be unlinked. *)
Lemma store_ok_unlink s id l' w :
  store_ok s → unlink_by_id id (patientHead s) = Some l' →
  store_ok (mkSys l' (int_decr (totalPatients s)) (patientIDCounter s) w).
Proof.
  intros Hok [Hsub Hlen]%unlink_by_id_sublist.
  pose proof (store_ok_total_lt s Hok).
  destruct Hok as (Htotal & Hnd & Hrange & Hrooms & Hvalids & Hc).
  unfold store_ok; cbn. unfold DEFAULT_ID, INT_MAX in *.
  rewrite int_decr_small by (unfold in_int, INT_MIN, INT_MAX; lia).
  split_and!; [lia| | | | |lia|lia].
  - by apply (sublist_NoDup _ _ Hnd), fmap_sublist.
  - by apply (Forall_sublist _ _ _ Hrange).
  - by apply (sublist_NoDup _ _ Hrooms), fmap_sublist.
  - by apply (Forall_sublist _ _ _ Hvalids).
Qed.

(** After the unlink the id is not in the list and the room is free. *)
Lemma unlink_by_id_gone s p l' :
  store_ok s → p ∈ patientHead s →
  unlink_by_id (patientId p) (patientHead s) = Some l' →
  find_by_id (patientId p) l' = None ∧
  isRoomOccupiedInList (roomNumber p) l' = ROOM_UNOCCUPIED.
Proof.
  intros (_ & Hnd & _ & Hrooms & _) Hp Hun.
  rewrite unlink_by_id_without in Hun by (done || by apply list_elem_of_fmap_2).
  injection Hun as <-. rewrite find_by_id_None, isRoomOccupiedInList_free.
  unfold without.
  split; intros (q & Heq & [Hne Hq]%list_elem_of_filter)%list_elem_of_fmap.
  - done.
  - destruct Hne. f_equal. by apply (NoDup_fmap_eq roomNumber (patientHead s)).
Qed.

End invariant.

(** ** The next identifier is fresh *)

(** As long as no record holds [INT_MAX] as its id,
    [computeNextPatientId] returns an id that is at least 1 and strictly
    greater than the id of every record of the list, so an admission
    that uses it cannot collide with an active patient. *)
Theorem computeNextPatientId_fresh (s : Sys) :
  Forall (λ p, patientId p < INT_MAX) (patientHead s) →
  1 ≤ eval computeNextPatientId s ∧
  Forall (λ p, patientId p < eval computeNextPatientId s) (patientHead s).
Proof.
  intros Hmax. unfold computeNextPatientId. rewrite eval_bind, eval_ret.
  unfold eval, gets; simpl.
  pose proof (max_id_ge 0 (patientHead s)) as Hge.
  assert (max_id 0 (patientHead s) < INT_MAX) as Hlt.
  { destruct (max_id_attained 0 (patientHead s)) as [->|Hin]; [done|].
    apply list_elem_of_fmap in Hin as (p & -> & Hp).
    by eapply Forall_forall in Hmax. }
  rewrite wrap_int_id by (unfold in_int, INT_MIN, INT_MAX in *; lia).
  split; [lia|]. apply Forall_forall. intros p Hp.
  pose proof (max_id_bound 0 _ _ Hp). lia.
Qed.

Definition sample_patient (id room : Z) : Patient :=
  mkPatient id "Jane Doe" 34 "Fracture" room 1700000000.

Definition sample_world : World := mkWorld ∅ [] [] [] [] [1700000000] [].

Lemma computeNextPatientId_fresh_witness :
  1 ≤ eval computeNextPatientId
        (mkSys [sample_patient 3 12; sample_patient 7 4] 2 8 sample_world) ∧
  Forall (λ p, patientId p < eval computeNextPatientId
        (mkSys [sample_patient 3 12; sample_patient 7 4] 2 8 sample_world))
    [sample_patient 3 12; sample_patient 7 4].
Proof.
  apply (computeNextPatientId_fresh
    (mkSys [sample_patient 3 12; sample_patient 7 4] 2 8 sample_world)).
  repeat constructor.
Defined.
