(* ===== verification/Persist.v ===== *)
(** * Persistence: the files that mirror the store

    The functions of [src/patient_management.c] that read and write
    [patients.dat], [patients.tmp] and [room_usage.txt]:
    [initializePatientSystem] (load), [writePatientToFile] (append),
    [updatePatientsFile] (rewrite through a temporary file),
    [clearBinaryFile], [logRoomUsage], and [removePatientFromSystem],
    which unlinks a node and rewrites the file.

    The read loop of [initializePatientSystem] runs on fuel; it is given
    one more than the length of the file in bytes, which is enough because
    every iteration consumes [sizeof (Patient) > 0] bytes
    ([load_records_total]).  The theorems come in two kinds: the exact
    result of an operation when no library call fails, and what holds
    under every schedule of failures. *)

From Stdlib Require Import ZArith Lia.
From Stdlib.Strings Require Import Byte.
From stdpp Require Import base tactics list strings pretty gmap.
From S2P Require Import Prelude Patient Layout Env Store.

#[local] Open Scope Z_scope.

Definition patients_dat : string := "patients.dat".
Definition patients_tmp : string := "patients.tmp".
Definition discharged_dat : string := "discharged_patients.dat".
Definition room_usage_txt : string := "room_usage.txt".

Section persist.
Context `{!Layout Patient}.

(** ** Appending one record *)

Definition writePatientToFile (newPatient : Patient) : Prog World unit :=
  pPatients ← fopen patients_dat AppendMode;
  match pPatients with
  | None => puts (newline +:+ "Unable to find patients.dat. Patient not added to file.")
  | Some pPatients =>
      _ ← fwrite newPatient pPatients;
      _ ← fclose pPatients;
      puts (newline +:+ "Patient successfully added to file." +:+ newline)
  end.

(** ** Rewriting the whole file *)

(** The write loop of [updatePatientsFile]: the value of [write_error]
    when it ends. *)
Fixpoint write_records (pTemp : FILE) (current : list Patient) : Prog World bool :=
  match current with
  | [] => mret false
  | p :: nextNode =>
      written ← fwrite p pTemp;
      if written : bool then write_records pTemp nextNode
      else
        _ ← perror "Error writing patient to temporary file";
        mret true
  end.

Definition updatePatientsFile : Prog Sys unit :=
  pTemp ← env (fopen patients_tmp WriteMode);
  match pTemp with
  | None => env (perror "Error creating temporary backup file")
  | Some pTemp =>
      head ← gets patientHead;
      write_error ← env (write_records pTemp head);
      closed ← env (fclose pTemp);
      write_error ← (if closed : bool then mret write_error
                     else _ ← env (perror "Error closing temporary backup file");
                          mret true);
      if negb write_error then
        removed ← env (file_remove patients_dat);
        _ ← match removed with
            | RemoveError => env (perror "Error removing old patients.dat")
            | _ => mret tt
            end;
        renamed ← env (file_rename patients_tmp patients_dat);
        if renamed : bool then env (puts "patients.dat updated successfully.")
        else env (perror "Error renaming temporary file to patients.dat")
      else
        _ ← env (puts "Backup failed. Original patients.dat remains unchanged.");
        _ ← env (file_remove patients_tmp);
        mret tt
  end.

Definition backupPatientSystem : Prog Sys unit := updatePatientsFile.

(** ** Removing a node *)

(** [removePatientFromSystem]: the head is unlinked by the first test,
    any other node by the search loop ([unlink_by_id]). *)
Definition removePatientFromSystem (patient : option Patient) : Prog Sys unit :=
  head ← gets patientHead;
  match head, patient with
  | [], _ | _, None => mret tt
  | current :: nextNode, Some patient =>
      if decide (patientId current = patientId patient) then
        _ ← modify (set_head (λ _, nextNode));
        _ ← modify (set_total int_decr);
        updatePatientsFile
      else
        match unlink_by_id (patientId patient) head with
        | None => mret tt
        | Some head' =>
            _ ← modify (set_head (λ _, head'));
            _ ← modify (set_total int_decr);
            updatePatientsFile
        end
  end.

(** ** Loading *)

Definition clearBinaryFile (fileName : string) : Prog World unit :=
  clearFile ← fopen fileName WriteMode;
  match clearFile with
  | None => puts "Error: Unable to clear patients.dat."
  | Some clearFile => _ ← fclose clearFile; mret tt
  end.

(** How the read loop of [initializePatientSystem] ends: [fread] finds no
    further record, or a node cannot be allocated. *)
Inductive load_result : Type :=
| LoadEOF (foundData : bool)
| LoadNoMemory.

Fixpoint load_records (fuel : nat) (file : FILE) (foundData : bool)
    : Prog Sys (option load_result * FILE) :=
  match fuel with
  | O => mret (None, file)
  | S fuel =>
      '(tempPatient, file) ← env (fread file);
      match tempPatient with
      | None => mret (Some (LoadEOF foundData), file)
      | Some tempPatient =>
          head ← gets patientHead;
          head ← env (insertPatientAtEndOfList head tempPatient);
          _ ← modify (set_head (λ _, head));
          match head with
          | [] => mret (Some LoadNoMemory, file)
          | _ => _ ← modify (set_total int_incr); load_records fuel file true
          end
      end
  end.

#[local] Arguments load_records : simpl never.

Definition initializePatientSystem : Prog Sys unit :=
  _ ← clearMemory;
  file ← env (fopen patients_dat ReadMode);
  match file with
  | None =>
      _ ← env (puts "Error reading patients.dat. Initializing with default setting.");
      initializePatientSystemDefault
  | Some file =>
      '(c, file) ← env (fgetc file);
      match c with
      | None =>
          _ ← env (fclose file);
          _ ← env (puts "patients.dat is empty. Initializing with default setting.");
          initializePatientSystemDefault
      | Some _ =>
          size ← gets (λ s, length (file_content patients_dat (world s)));
          '(r, file) ← load_records (S size) (rewind file) false;
          match r with
          | Some LoadNoMemory =>
              _ ← env (puts "Error: Unable to populate linked list from patients.dat.");
              _ ← env (fclose file);
              initializePatientSystemDefault
          | Some (LoadEOF foundData) =>
              _ ← env (fclose file);
              if negb foundData then
                _ ← env (puts "Warning: patients.dat contained no valid patient records.");
                _ ← env (clearBinaryFile patients_dat);
                initializePatientSystemDefault
              else
                id ← computeNextPatientId;
                _ ← modify (set_counter (λ _, id));
                env (puts "Patients successfully loaded from file.")
          | None => mret tt
          end
      end
  end.

Definition restoreDataFromFile : Prog Sys unit := initializePatientSystem.

(** ** The room-usage log *)

Definition logRoomUsage (room : Z) : Prog World unit :=
  file ← fopen room_usage_txt AppendMode;
  match file with
  | None => perror "Error opening room_usage.txt for logging"
  | Some file =>
      _ ← fprintf file (pretty room +:+ newline);
      _ ← fclose file;
      mret tt
  end.

(** ** The read loop when no call fails *)

(** The lines that [insertPatientAtEndOfList] prints while [records] are
    added to [head]: one for every insertion in a list that is not empty. *)
Definition inserted_messages (head records : list Patient) : list string :=
  replicate (length records - (if head is [] then 1 else 0))
    "Patient inserted at end of list.".

(** [n] increments of an [int]. *)
Fixpoint incr_times (n : nat) (z : Z) : Z :=
  match n with
  | O => z
  | S n => incr_times n (int_incr z)
  end.

(** The state when [records] have been read and inserted. *)
Definition loaded (records : list Patient) (s : Sys) : Sys :=
  mkSys (patientHead s ++ records)
    (incr_times (length records) (totalPatients s)) (patientIDCounter s)
    (set_stdout (λ out, out ++ inserted_messages (patientHead s) records) (world s)).

Lemma incr_times_small n z :
  0 ≤ z → z + Z.of_nat n ≤ INT_MAX → incr_times n z = z + Z.of_nat n.
Proof.
  revert z. induction n as [|n IH]; intros z Hz Hmax; simpl; [lia|].
  rewrite int_incr_small by (unfold in_int, INT_MIN, INT_MAX in *; lia).
  rewrite IH; lia.
Qed.

Lemma loaded_cons r records s :
  loaded records
    (mkSys (patientHead s ++ [r]) (int_incr (totalPatients s)) (patientIDCounter s)
       (set_stdout (λ out, out ++ inserted_messages (patientHead s) [r]) (world s)))
  = loaded (r :: records) s.
Proof.
  destruct s as [head total counter [files open stdin out err clock faults]].
  unfold loaded, inserted_messages, set_stdout; cbn.
  rewrite <-!app_assoc. do 3 f_equal.
  destruct head; simpl; by rewrite ?Nat.sub_0_r.
Qed.

Lemma insertPatientAtEndOfList_ok head r w :
  w_faults w = [] →
  insertPatientAtEndOfList head r w =
  (head ++ [r], set_stdout (λ out, out ++ inserted_messages head [r]) w).
Proof.
  destruct w as [files open stdin out err clock faults]; simpl. intros ->.
  unfold insertPatientAtEndOfList, inserted_messages. run_sys.
  destruct head; cbn; rewrite ?link_at_end_app, ?app_nil_r; done.
Qed.

(** With fuel above the number of bytes that are left the loop ends at
    the end of the file, having inserted the records that are left. *)
Lemma load_records_ok fuel pos found s :
  w_faults (world s) = [] →
  (length (drop pos (file_content patients_dat (world s))) < fuel)%nat →
  ∃ pos', load_records fuel (mkFILE patients_dat pos) found s =
    ((Some (LoadEOF (found || bool_decide
        (decode_all (drop pos (file_content patients_dat (world s))) ≠ []))),
      mkFILE patients_dat pos'),
     loaded (decode_all (drop pos (file_content patients_dat (world s)))) s).
Proof.
  pose proof (sizeof_pos (T:=Patient)) as Hpos.
  revert pos found s. induction fuel as [|fuel IH]; intros pos found s Hf Hlen; [lia|].
  unfold load_records; fold load_records. rewrite bind_run, env_run.
  set (rest := drop pos (file_content patients_dat (world s))) in *.
  destruct (decide (sizeof Patient ≤ length rest)%nat) as [Hrec|Hrec].
  - rewrite fread_some, decode_all_cons by done. cbn [f_path f_pos]. fold rest.
    set (r := of_bytes (take (sizeof Patient) rest)).
    rewrite <-(loaded_cons r).
    destruct s as [head total counter w].
    cbn [world patientHead totalPatients patientIDCounter] in *.
    cbn [fst snd]. rewrite bind_run. cbn [gets fst snd patientHead set_world].
    rewrite bind_run, env_run. cbn [world set_world].
    rewrite insertPatientAtEndOfList_ok by done. cbn [fst snd].
    rewrite bind_run.
    cbn [modify fst snd set_head set_world patientHead totalPatients
           patientIDCounter world].
    destruct (head ++ [r]) as [|h t] eqn:Hh; [by destruct head|].
    rewrite bind_run.
    cbn [modify fst snd set_total patientHead totalPatients patientIDCounter world].
    edestruct (IH (pos + sizeof Patient)%nat true) as [pos' Hrun];
      [| |exists pos'; rewrite Hrun].
    + by destruct w.
    + cbn [world].
      replace (file_content _ _) with (file_content patients_dat w) by (by destruct w).
      rewrite <-drop_drop, length_drop. unfold rest in *. lia.
    + cbn [world].
      replace (file_content _ _) with (file_content patients_dat w) by (by destruct w).
      rewrite <-drop_drop. fold rest.
      rewrite (bool_decide_true (_ :: _ ≠ [])) by done. rewrite orb_true_r.
      reflexivity.
  - rewrite fread_none, decode_all_short by (cbn [f_path f_pos]; unfold rest in *; lia).
    cbn [fst snd]. rewrite ret_run.
    eexists. f_equal; [by rewrite bool_decide_false, orb_false_r by naive_solver|].
    destruct s as [head total counter [files open stdin out err clock faults]].
    unfold loaded, inserted_messages, set_stdout. cbn. by rewrite !app_nil_r.
Qed.

(** ** The file operations when no call fails *)

Lemma write_records_ok f l w :
  w_faults w = [] →
  write_records f l w = (false, append_bytes (f_path f) (encode_all l) w).
Proof.
  revert w. induction l as [|p l IH]; intros w Hf.
  - by rewrite append_bytes_nil.
  - cbn [write_records]. rewrite bind_run. unfold fwrite, write_block. rewrite bind_run.
    rewrite next_outcome_no_faults by done. cbn [fst snd]. rewrite bind_run.
    cbn [modify fst snd]. rewrite ret_run. cbn [fst snd].
    rewrite IH by (by destruct w). rewrite append_bytes_twice.
    unfold encode_all. by rewrite bind_cons.
Qed.

(** The new directory after a successful rewrite. *)
Definition rewritten (head : list Patient) (fs : gmap string (list byte))
    : gmap string (list byte) :=
  <[patients_dat := encode_all head]> (delete patients_tmp fs).

Lemma updatePatientsFile_ok s :
  w_faults (world s) = [] →
  exec updatePatientsFile s =
  set_world (λ w, set_stdout (λ out, out ++ ["patients.dat updated successfully."])
                    (set_files (rewritten (patientHead s)) w)) s.
Proof.
  destruct s as [head total counter [files open stdin out err clock faults]]; simpl.
  intros ->. unfold exec, updatePatientsFile, rewritten. run_sys.
  rewrite write_records_ok by done. run_sys.
  rewrite alter_insert_eq, lookup_insert_ne by done.
  destruct (files !! patients_dat) eqn:Hdat; cbn;
    rewrite ?lookup_delete_ne, lookup_insert_eq by done; cbn;
    do 2 f_equal; solve_files.
Qed.

(** The directory after an append to [path]. *)
Definition appended (path : string) (bs : list byte)
    (fs : gmap string (list byte)) : gmap string (list byte) :=
  <[path := default [] (fs !! path) ++ bs]> fs.

Lemma appended_alter p bs (fs : gmap string (list byte)) c :
  fs !! p = Some c → alter (λ content, content ++ bs) p fs = appended p bs fs.
Proof.
  intros Hp. unfold appended. rewrite Hp. apply map_eq. intros k.
  rewrite lookup_alter, lookup_insert. case_decide; subst; by rewrite ?Hp.
Qed.

Lemma appended_alter_new p bs (fs : gmap string (list byte)) :
  fs !! p = None →
  alter (λ content, content ++ bs) p (<[p := []]> fs) = appended p bs fs.
Proof. intros Hp. unfold appended. by rewrite Hp, alter_insert_eq. Qed.

Lemma writePatientToFile_ok p w :
  w_faults w = [] →
  writePatientToFile p w =
  (tt, set_stdout
         (λ out, out ++ [newline +:+ "Patient successfully added to file." +:+ newline])
         (set_files (appended patients_dat (to_bytes p)) w)).
Proof.
  destruct w as [files open stdin out err clock faults]; simpl.
  intros ->. unfold writePatientToFile, appended. run_sys.
  destruct (files !! patients_dat) eqn:Hdat; run_sys; do 2 f_equal.
  - apply map_eq. intros k. rewrite lookup_alter, lookup_insert.
    case_decide; subst; by rewrite ?Hdat.
  - by rewrite alter_insert_eq.
Qed.

Lemma logRoomUsage_ok room w :
  w_faults w = [] →
  logRoomUsage room w =
  (tt, set_files (appended room_usage_txt
         (String.list_byte_of_string (pretty room +:+ newline))) w).
Proof.
  destruct w as [files open stdin out err clock faults]; simpl.
  intros ->. unfold logRoomUsage, appended. run_sys.
  destruct (files !! room_usage_txt) eqn:Hlog; run_sys; do 2 f_equal.
  - apply map_eq. intros k. rewrite lookup_alter, lookup_insert.
    case_decide; subst; by rewrite ?Hlog.
  - by rewrite alter_insert_eq.
Qed.

(** The load of a file that holds at least one whole record. *)
Lemma initializePatientSystem_ok s content :
  w_faults (world s) = [] →
  w_files (world s) !! patients_dat = Some content →
  decode_all (T:=Patient) content ≠ [] →
  exec initializePatientSystem s =
  mkSys (decode_all content)
    (incr_times (length (decode_all (T:=Patient) content)) IS_EMPTY)
    (wrap_int (max_id 0 (decode_all content) + 1))
    (set_stdout (λ out, out ++ inserted_messages [] (decode_all (T:=Patient) content)
                          ++ ["Patients successfully loaded from file."]) (world s)).
Proof.
  destruct s as [head total counter [files open stdin out err clock faults]]; cbn.
  intros -> Hfile Hrecords.
  destruct content as [|b content']; [done|].
  unfold exec, initializePatientSystem, clearMemory. run_sys. rewrite Hfile. run_sys.
  unfold file_content. cbn. rewrite Hfile. run_sys.
  match goal with |- context [load_records ?n ?f ?b ?s] =>
    destruct (load_records_ok n 0 b s) as [pos' Hrun] end.
  { done. } { unfold file_content. cbn. rewrite Hfile. simpl. lia. }
  unfold rewind. cbn [f_path]. rewrite Hrun. clear Hrun.
  unfold file_content. cbn [world w_files]. rewrite Hfile. cbn [default drop].
  rewrite bool_decide_true by done. run_sys.
  unfold loaded, computeNextPatientId. run_sys.
  by rewrite decide_True, <-app_assoc by done.
Qed.

(** The file holds the images of the records of the list. *)
Definition synced (s : Sys) : Prop :=
  file_content patients_dat (world s) = encode_all (patientHead s).

(** The load of a file that holds exactly the records [l]. *)
Lemma initializePatientSystem_encoded s l :
  w_faults (world s) = [] →
  w_files (world s) !! patients_dat = Some (encode_all l) →
  l ≠ [] → Forall fits l → Z.of_nat (length l) ≤ INT_MAX →
  same_store (exec initializePatientSystem s)
    (mkSys l (Z.of_nat (length l)) (wrap_int (max_id 0 l + 1)) (world s)).
Proof.
  intros Hf Hfile Hl Hfits Hlen.
  pose proof (sizeof_pos (T:=Patient)).
  rewrite <-(app_nil_r (encode_all l)) in Hfile.
  rewrite (initializePatientSystem_ok s _ Hf Hfile);
    rewrite decode_all_encode by (done || simpl; lia); [|done].
  split_and!; cbn; [done| |done].
  apply incr_times_small; unfold IS_EMPTY; lia.
Qed.

(** ** Properties of the load *)

(** C29: the read loop ends.  Whatever library call fails, with fuel
    above the number of bytes that are left to read, the loop of
    [initializePatientSystem] ends with a result (the end of the file or
    a failed allocation): the fuel that [initializePatientSystem] passes,
    one more than the size of the file, is never exhausted. *)
Theorem load_records_total fuel pos found s :
  (length (drop pos (file_content patients_dat (world s))) < fuel)%nat →
  is_Some (load_records fuel (mkFILE patients_dat pos) found s).1.1.
Proof.
  pose proof (sizeof_pos (T:=Patient)) as Hpos.
  revert pos found s. induction fuel as [|fuel IH]; intros pos found s Hlen; [lia|].
  unfold load_records; fold load_records. rewrite bind_run, env_run.
  set (rest := drop pos (file_content patients_dat (world s))) in *.
  destruct (decide (sizeof Patient ≤ length rest)%nat) as [Hrec|Hrec].
  - rewrite fread_some by done. cbn [f_path f_pos fst snd].
    rewrite bind_run. cbn [gets fst snd]. rewrite bind_run, env_run.
    pose proof (insertPatientAtEndOfList_files (patientHead s)
      (of_bytes (take (sizeof Patient) rest))
      (world (set_world (λ _, world s) s))) as Hfiles.
    destruct (insertPatientAtEndOfList _ _ _) as [head' w'].
    cbn [fst snd] in *. rewrite bind_run. cbn [modify fst snd].
    destruct head' as [|h t]; [done|]. rewrite bind_run. cbn [modify fst snd].
    apply IH. unfold file_content. cbn. rewrite Hfiles. destruct s as [? ? ? w]. cbn.
    fold (file_content patients_dat w).
    rewrite <-drop_drop, length_drop. unfold rest in *. cbn in *. lia.
  - rewrite fread_none by (cbn [f_path f_pos]; unfold rest in *; lia). done.
Qed.


(** C4: reading back what was written.  When [patients.dat] holds the
    images of the records [l] (at least one, each fitting its storage),
    possibly followed by the first bytes of a record that was cut short,
    and no library call fails, [initializePatientSystem] leaves exactly
    [l] in the list, in file order, with [totalPatients] their number and
    [patientIDCounter] one more than the largest id; the file and the set
    of open streams are as before. *)
Theorem load_reads_back s l tl :
  w_faults (world s) = [] →
  w_files (world s) !! patients_dat = Some (encode_all l ++ tl) →
  l ≠ [] → Forall fits l → (length tl < sizeof Patient)%nat →
  Z.of_nat (length l) ≤ INT_MAX →
  let s' := exec initializePatientSystem s in
  patientHead s' = l ∧
  totalPatients s' = Z.of_nat (length l) ∧
  patientIDCounter s' = wrap_int (max_id 0 l + 1) ∧
  w_files (world s') = w_files (world s) ∧
  w_open (world s') = w_open (world s).
Proof.
  intros Hf Hfile Hl Hfits Htl Hlen s'. subst s'.
  rewrite (initializePatientSystem_ok s _ Hf Hfile);
    rewrite decode_all_encode by done; [|done].
  cbn. rewrite incr_times_small by (unfold IS_EMPTY; lia).
  destruct s as [? ? ? []]. done.
Qed.

(** C38: a rewrite after a load reproduces the file.  When
    [patients.dat] holds the images of the records [l] and no call
    fails, [initializePatientSystem] followed by [updatePatientsFile]
    leaves exactly those images in [patients.dat]: the file is the same
    byte for byte when it held whole records only, and loses the bytes
    of a record that was cut short otherwise. *)
Theorem rewrite_after_load s l tl :
  w_faults (world s) = [] →
  w_files (world s) !! patients_dat = Some (encode_all l ++ tl) →
  l ≠ [] → Forall fits l → (length tl < sizeof Patient)%nat →
  w_files (world (exec updatePatientsFile (exec initializePatientSystem s)))
    !! patients_dat = Some (encode_all l).
Proof.
  intros Hf Hfile Hl Hfits Htl.
  rewrite (initializePatientSystem_ok s _ Hf Hfile);
    rewrite decode_all_encode by done; [|done].
  rewrite updatePatientsFile_ok by (by destruct s as [? ? ? []]).
  cbn. unfold rewritten. by rewrite lookup_insert_eq.
Qed.

(** Loading twice is loading once.  A second
    [initializePatientSystem] on the same file rebuilds the same list,
    count and counter, and the file is untouched. *)
Theorem load_idempotent s l tl :
  w_faults (world s) = [] →
  w_files (world s) !! patients_dat = Some (encode_all l ++ tl) →
  l ≠ [] → Forall fits l → (length tl < sizeof Patient)%nat →
  let s1 := exec initializePatientSystem s in
  same_store (exec initializePatientSystem s1) s1 ∧
  w_files (world (exec initializePatientSystem s1)) = w_files (world s).
Proof.
  intros Hf Hfile Hl Hfits Htl s1. subst s1.
  rewrite (initializePatientSystem_ok s _ Hf Hfile);
    rewrite decode_all_encode by done; [|done].
  erewrite initializePatientSystem_ok;
    [|by destruct s as [? ? ? []]|by destruct s as [? ? ? []]; cbn in *
     |by rewrite decode_all_encode].
  rewrite decode_all_encode by done. split; [done|]. by destruct s as [? ? ? []].
Qed.

(** ** The rewrite when calls may fail *)

(** Whatever calls fail, [write_records] appends some bytes [bs] to the
    stream's file and reports an error exactly when [bs] is not the image
    of the whole list. *)
Lemma write_records_any f l w :
  ∃ bs err' faults',
    write_records f l w =
      (bool_decide (bs ≠ encode_all l),
       set_faults (λ _, faults')
         (set_stderr (λ _, err') (append_bytes (f_path f) bs w))).
Proof.
  revert w. induction l as [|p l IH]; intros w.
  - exists [], (w_stderr w), (w_faults w). rewrite append_bytes_nil. by destruct w.
  - cbn [write_records]. rewrite bind_run. unfold fwrite, write_block.
    rewrite bind_run. destruct w as [files open stdin out err clock faults].
    destruct faults as [|[|n] faults]; run_sys.
    3: { eexists (take _ (to_bytes p)), _, _. f_equal.
         rewrite bool_decide_true; [done|]. intros Heq.
         apply (f_equal length) in Heq. unfold encode_all in Heq.
         rewrite bind_cons, length_app, length_take in Heq.
         pose proof (sizeof_pos (T:=Patient)).
         rewrite to_bytes_length in Heq. lia. }
    all: edestruct IH as (bs & err' & faults' & ->).
    all: exists (to_bytes p ++ bs), err', faults'; run_sys.
    all: rewrite alter_alter_eq; f_equal;
      [ apply bool_decide_ext; unfold encode_all; rewrite bind_cons; naive_solver
      | f_equal; apply alter_ext; intros; simpl; by rewrite app_assoc ].
Qed.

Ltac files_step :=
  rewrite ?lookup_insert_eq, ?lookup_delete_eq, ?decide_True,
    ?(lookup_insert_ne _ patients_tmp patients_dat),
    ?(lookup_insert_ne _ patients_dat patients_tmp),
    ?(lookup_delete_ne _ patients_tmp patients_dat),
    ?(lookup_delete_ne _ patients_dat patients_tmp) by done.

Ltac lookup_case :=
  match goal with
  | |- context [match ?m !! ?k with Some _ => _ | None => _ end] =>
      first [ progress files_step | destruct (m !! k) eqn:? ]
  end.

(** Every run of [updatePatientsFile], by cases on the calls that fail:
    only the directory, the two output streams and the schedule change,
    and [patients.dat] is as before, or the image of the list, or gone
    with [patients.tmp] holding the image of the list. *)
Lemma updatePatientsFile_cases s :
  ∃ files' out' err' faults',
    exec updatePatientsFile s =
      mkSys (patientHead s) (totalPatients s) (patientIDCounter s)
        (mkWorld files' (w_open (world s)) (w_stdin (world s)) out' err'
           (w_clock (world s)) faults') ∧
    (files' !! patients_dat = w_files (world s) !! patients_dat ∨
     files' !! patients_dat = Some (encode_all (patientHead s)) ∨
     (files' !! patients_dat = None ∧
      files' !! patients_tmp = Some (encode_all (patientHead s)))).
Proof.
  destruct s as [head total counter [files open stdin out err clock faults]]; cbn.
  unfold exec, updatePatientsFile. run_sys.
  fault_case; run_sys.
  3: by eexists _, _, _, _; split; [reflexivity|left].
  all: match goal with |- context [write_records ?f ?l ?w] =>
         destruct (write_records_any f l w) as (bs & err' & faults' & ->) end.
  all: run_sys; rewrite alter_insert_eq; cbn [app].
  all: case_bool_decide; run_sys.
  all: repeat (first [fault_case | lookup_case]; run_sys).
  all: files_step.
  all: eexists _, _, _, _; (split; [reflexivity|]).
  all: simplify_map_eq; auto.
Qed.

(** C3: the rewrite of [patients.dat] never leaves a damaged file.  For
    every schedule of failing library calls, after [updatePatientsFile]
    the list, the counters, the console input and the set of open streams
    are unchanged, and [patients.dat] either is exactly as it was, or
    holds exactly the images of the records of the list in order, or does
    not exist while [patients.tmp] holds those images (the old file was
    removed and the rename failed). *)
Theorem updatePatientsFile_atomic s :
  let s' := exec updatePatientsFile s in
  patientHead s' = patientHead s ∧
  totalPatients s' = totalPatients s ∧
  patientIDCounter s' = patientIDCounter s ∧
  w_open (world s') = w_open (world s) ∧
  (w_files (world s') !! patients_dat = w_files (world s) !! patients_dat ∨
   w_files (world s') !! patients_dat = Some (encode_all (patientHead s)) ∨
   (w_files (world s') !! patients_dat = None ∧
    w_files (world s') !! patients_tmp = Some (encode_all (patientHead s)))).
Proof.
  destruct (updatePatientsFile_cases s) as (fs & out' & err' & fl & -> & Hfiles).
  by cbn.
Qed.

Lemma updatePatientsFile_same_store s : same_store (exec updatePatientsFile s) s.
Proof. by destruct (updatePatientsFile_cases s) as (? & ? & ? & ? & -> & _). Qed.

(** [removePatientFromSystem] is the unlink of the first record with the
    id, followed by the rewrite of the file; its test of the head and its
    search loop together are [unlink_by_id]. *)
Lemma removePatientFromSystem_unlink s p :
  removePatientFromSystem (Some p) s =
  match unlink_by_id (patientId p) (patientHead s) with
  | Some l' => updatePatientsFile
                 (mkSys l' (int_decr (totalPatients s)) (patientIDCounter s) (world s))
  | None => (tt, s)
  end.
Proof.
  destruct s as [[|q head] total counter w]; [done|].
  unfold removePatientFromSystem. cbn [unlink_by_id]. prog_unfold. cbn [patientHead].
  unfold set_head, set_total. cbn -[updatePatientsFile].
  case_decide; [done|].
  by destruct (unlink_by_id (patientId p) head).
Qed.

Lemma removePatientFromSystem_store p s :
  store_step p s (exec (removePatientFromSystem (Some p)) s).
Proof.
  unfold exec. rewrite removePatientFromSystem_unlink.
  destruct (unlink_by_id _ _) as [l'|] eqn:Hun; [|by left].
  right. exists l'. split; [done|].
  apply (updatePatientsFile_same_store (mkSys _ _ _ _)).
Qed.

(** The write loop when the next calls succeed. *)
Lemma write_records_succeed f l w rest :
  w_faults w = replicate (length l) Succeed ++ rest →
  write_records f l w =
  (false, set_faults (λ _, rest) (append_bytes (f_path f) (encode_all l) w)).
Proof.
  revert w. induction l as [|p l IH]; intros w Hf.
  - rewrite append_bytes_nil. destruct w; cbn in *. by subst.
  - cbn [write_records]. rewrite bind_run. unfold fwrite, write_block. rewrite bind_run.
    destruct w as [files open stdin out err clock fl]. cbn in Hf. subst fl.
    run_sys. rewrite IH by done. cbn. rewrite alter_alter_eq. do 2 f_equal.
    apply alter_ext. intros. unfold encode_all. by rewrite bind_cons, app_assoc.
Qed.

(** C22: the rewrite can lose [patients.dat].  When the temporary file is
    written and closed and the old file is removed, but the rename
    fails, [updatePatientsFile] leaves no [patients.dat]: the records are
    in [patients.tmp] only, and the only report is a line on the error
    stream. *)
Theorem updatePatientsFile_rename_failure s c n rest :
  w_faults (world s) =
    Succeed :: replicate (length (patientHead s)) Succeed ++
    Succeed :: Succeed :: Fail n :: rest →
  w_files (world s) !! patients_dat = Some c →
  let w' := world (exec updatePatientsFile s) in
  w_files w' !! patients_dat = None ∧
  w_files w' !! patients_tmp = Some (encode_all (patientHead s)) ∧
  w_stderr w' =
    w_stderr (world s) ++ ["Error renaming temporary file to patients.dat"].
Proof.
  destruct s as [head total counter [files open stdin out err clock fl]]; cbn.
  intros -> Hc. unfold exec, updatePatientsFile. run_sys.
  rewrite (write_records_succeed _ _ _ (Succeed :: Succeed :: Fail n :: rest)) by done.
  run_sys. rewrite alter_insert_eq, lookup_insert_ne, Hc by done. run_sys.
  by simplify_map_eq.
Qed.

(** C23: an append that fails is reported as a success.  When
    [patients.dat] is opened and the write of the record stops after [n]
    bytes, [writePatientToFile] leaves a proper prefix of the image of
    the record at the end of the file, prints that the patient was added
    to the file, and writes nothing on the error stream. *)
Theorem writePatientToFile_torn p w c n faults :
  w_faults w = Succeed :: Fail n :: faults →
  w_files w !! patients_dat = Some c →
  let w' := exec (writePatientToFile p) w in
  w_files w' !! patients_dat
    = Some (c ++ take (n `min` pred (sizeof Patient)) (to_bytes p)) ∧
  w_stdout w' =
    w_stdout w ++ [newline +:+ "Patient successfully added to file." +:+ newline] ∧
  w_stderr w' = w_stderr w.
Proof.
  destruct w as [files open stdin out err clock fl]; cbn. intros -> Hc.
  unfold exec, writePatientToFile. run_sys. rewrite Hc. run_sys.
  destruct faults; run_sys; rewrite lookup_alter_eq, Hc, to_bytes_length; done.
Qed.

End persist.

(** ** The removal and the invariant of the store *)

Section removal.
Context `{Limits} `{!Layout Patient}.

(** C15: the removal of a patient preserves the invariant of the store.
    From a state where [store_ok] holds, whatever library call fails
    during the rewrite of the file, [removePatientFromSystem] on a
    record of the list leaves a state where [store_ok] holds: the list
    is the old one without that record, the count is one less, the
    counter is unchanged, the id is no longer found and the room is
    free. *)
Theorem removePatientFromSystem_preserves p s :
  store_ok s → p ∈ patientHead s →
  let s' := exec (removePatientFromSystem (Some p)) s in
  store_ok s' ∧
  patientHead s' = without (patientId p) (patientHead s) ∧
  totalPatients s' = totalPatients s - 1 ∧
  patientIDCounter s' = patientIDCounter s ∧
  find_by_id (patientId p) (patientHead s') = None ∧
  isRoomOccupiedInList (roomNumber p) (patientHead s') = ROOM_UNOCCUPIED.
Proof.
  intros Hok Hp s'. subst s'.
  pose proof (store_ok_total_lt s Hok) as Htotal.
  assert (patientId p ∈ patientId <$> patientHead s) as Hin
    by (by apply list_elem_of_fmap_2).
  pose proof Hok as (Hlen & Hnd & _ & _ & _ & Hcnt).
  pose proof (unlink_by_id_without _ _ Hnd Hin) as Hun.
  unfold exec. rewrite removePatientFromSystem_unlink, Hun.
  set (s1 := mkSys _ _ _ _).
  destruct (updatePatientsFile_same_store s1) as (Hh & Ht & Hc).
  fold (exec updatePatientsFile s1). rewrite Hh, Ht, Hc. cbn.
  pose proof (store_ok_unlink s _ _ (world s) Hok Hun) as Hok1.
  pose proof (unlink_by_id_gone s p _ Hok Hp Hun) as [? ?].
  split_and!; try done.
  - by rewrite (updatePatientsFile_same_store s1).
  - apply int_decr_small; unfold in_int, INT_MIN, INT_MAX in *; lia.
Qed.

(** C37: a restart reissues the ids of discharged patients.  From a state
    where [store_ok] holds and [patients.dat] holds the images of the
    list, when the patient that got the last id issued is no longer in
    the list, [restoreDataFromFile] sets [patientIDCounter] to a smaller
    value than it had: the next admissions get ids that were already
    given to patients that have been discharged since. *)
Theorem restore_reissues_id s :
  w_faults (world s) = [] →
  w_files (world s) !! patients_dat = Some (encode_all (patientHead s)) →
  store_ok s → patientHead s ≠ [] → Forall fits (patientHead s) →
  patientIDCounter s - 1 ∉ patientId <$> patientHead s →
  patientIDCounter (exec restoreDataFromFile s) < patientIDCounter s.
Proof.
  intros Hf Hfile Hok Hne Hfits Hlast.
  pose proof (store_ok_total_lt s Hok) as Htotal.
  destruct Hok as (Hlen & _ & Hrange & _ & _ & Hc). unfold DEFAULT_ID in *.
  destruct (initializePatientSystem_encoded s (patientHead s)) as (_ & _ & Hcnt);
    [done|done|done|done|unfold INT_MAX in *; lia|].
  unfold restoreDataFromFile. rewrite Hcnt. cbn.
  assert (max_id 0 (patientHead s) < patientIDCounter s - 1) as Hlt.
  { destruct (patientHead s) as [|q l] eqn:Hhead; [done|].
    apply max_id_lt.
    - apply Forall_cons in Hrange as [? _]. lia.
    - apply Forall_forall. intros r Hr.
      eapply Forall_forall in Hrange; [|done].
      assert (patientId r ≠ patientIDCounter s - 1); [|lia].
      intros Heq. apply Hlast. rewrite <-Heq. by apply list_elem_of_fmap_2. }
  pose proof (max_id_ge 0 (patientHead s)).
  rewrite wrap_int_id by (unfold in_int, INT_MIN, INT_MAX in *; lia). lia.
Qed.

End removal.

(** A concrete layout and a concrete directory for examples: arrays of
    101 and 256 bytes for the name and the diagnosis. *)
Definition sample_layout : Layout Patient := Patient_layout 101 256.
Definition sample_discharged_layout : Layout DischargedPatient :=
  Discharged_layout 101 256.

Definition sample_records : list Patient :=
  [sample_patient 1 12; sample_patient 2 7].

(** A file with two records and the first three bytes of a third. *)
Definition sample_disk : World :=
  mkWorld {[ patients_dat :=
               encode_all (H:=sample_layout) sample_records ++ [x03; x00; x00] ]}
    [] [] [] [] [1700000000] [].

Lemma load_reads_back_witness :
  patientHead (exec (initializePatientSystem (Layout0:=sample_layout))
                 (boot sample_disk)) = sample_records ∧
  totalPatients (exec (initializePatientSystem (Layout0:=sample_layout))
                 (boot sample_disk)) = 2 ∧
  patientIDCounter (exec (initializePatientSystem (Layout0:=sample_layout))
                 (boot sample_disk)) = 3.
Proof.
  pose proof (load_reads_back (Layout0:=sample_layout) (boot sample_disk)
    sample_records [x03; x00; x00]) as Hload.
  destruct Hload as (Hhead & Htotal & Hcounter & _);
    [done|done|done| |vm_compute; lia|done|].
  - apply (bool_decide_unpack _). by vm_compute.
  - rewrite Hhead, Htotal, Hcounter. clear. vm_compute. repeat split.
Defined.

#[local] Existing Instances sample_layout sample_discharged_layout.

(** A system with the patients 1 (room 12) and 2 (room 7), in step with
    its file, with the console input and the schedule of failures
    given. *)
Definition sample_sys (stdin : list string) (faults : list outcome) : Sys :=
  mkSys sample_records 2 3
    (mkWorld {[ patients_dat := encode_all sample_records ]} [] stdin [] []
       [1700000100] faults).

Lemma updatePatientsFile_rename_failure_witness :
  w_files (world (exec updatePatientsFile
     (sample_sys [] [Succeed; Succeed; Succeed; Succeed; Succeed; Fail 0])))
    !! patients_dat = None ∧
  w_files (world (exec updatePatientsFile
     (sample_sys [] [Succeed; Succeed; Succeed; Succeed; Succeed; Fail 0])))
    !! patients_tmp = Some (encode_all sample_records) ∧
  w_stderr (world (exec updatePatientsFile
     (sample_sys [] [Succeed; Succeed; Succeed; Succeed; Succeed; Fail 0])))
    = [] ++ ["Error renaming temporary file to patients.dat"].
Proof.
  by apply (updatePatientsFile_rename_failure
    (sample_sys [] [Succeed; Succeed; Succeed; Succeed; Succeed; Fail 0])
    (encode_all sample_records) 0 []).
Defined.

Lemma writePatientToFile_torn_witness :
  w_files (exec (writePatientToFile (sample_patient 3 9))
             (world (sample_sys [] [Succeed; Fail 5]))) !! patients_dat
    = Some (encode_all sample_records ++
            take (5 `min` pred (sizeof Patient)) (to_bytes (sample_patient 3 9))) ∧
  w_stdout (exec (writePatientToFile (sample_patient 3 9))
              (world (sample_sys [] [Succeed; Fail 5])))
    = [] ++ [newline +:+ "Patient successfully added to file." +:+ newline] ∧
  w_stderr (exec (writePatientToFile (sample_patient 3 9))
              (world (sample_sys [] [Succeed; Fail 5]))) = [].
Proof.
  by apply (writePatientToFile_torn (sample_patient 3 9)
    (world (sample_sys [] [Succeed; Fail 5])) (encode_all sample_records) 5 []).
Defined.

Lemma rewrite_after_load_witness :
  w_files (world (exec updatePatientsFile
                    (exec initializePatientSystem (boot sample_disk))))
    !! patients_dat = Some (encode_all sample_records).
Proof.
  apply (rewrite_after_load (boot sample_disk) sample_records [x03; x00; x00]);
    [done|done|done| |vm_compute; lia].
  apply (bool_decide_unpack _). by vm_compute.
Defined.

Lemma load_idempotent_witness :
  same_store
    (exec initializePatientSystem (exec initializePatientSystem (boot sample_disk)))
    (exec initializePatientSystem (boot sample_disk)) ∧
  w_files (world (exec initializePatientSystem
                    (exec initializePatientSystem (boot sample_disk))))
    = w_files sample_disk.
Proof.
  apply (load_idempotent (boot sample_disk) sample_records [x03; x00; x00]);
    [done|done|done| |vm_compute; lia].
  apply (bool_decide_unpack _). by vm_compute.
Defined.

(** The removal of patient 1 when the temporary file cannot be opened. *)
Lemma removePatientFromSystem_preserves_witness :
  store_ok (H:=spec_limits) (sample_sys [] [Fail 0]) ∧
  store_ok (H:=spec_limits)
    (exec (removePatientFromSystem (Some (sample_patient 1 12)))
       (sample_sys [] [Fail 0])) ∧
  patientHead (exec (removePatientFromSystem (Some (sample_patient 1 12)))
                 (sample_sys [] [Fail 0])) = [sample_patient 2 7].
Proof.
  assert (store_ok (H:=spec_limits) (sample_sys [] [Fail 0])) as Hok
    by (apply (bool_decide_unpack _); vm_compute; exact I).
  split; [done|].
  destruct (removePatientFromSystem_preserves (H:=spec_limits)
              (sample_patient 1 12) (sample_sys [] [Fail 0]) Hok)
    as (Hok' & Hhead & _); [by left|].
  split; [done|]. rewrite Hhead. clear. by vm_compute.
Defined.

(** Patient 2 has been discharged: the list holds patient 1 only and the
    counter is 3. *)
Lemma restore_reissues_id_witness :
  patientIDCounter
    (exec restoreDataFromFile
       (mkSys [sample_patient 1 12] 1 3
          (mkWorld {[ patients_dat := encode_all [sample_patient 1 12] ]}
             [] [] [] [] [1700000100] []))) < 3.
Proof.
  apply (restore_reissues_id (H:=spec_limits)
    (mkSys [sample_patient 1 12] 1 3
       (mkWorld {[ patients_dat := encode_all [sample_patient 1 12] ]}
          [] [] [] [] [1700000100] []))); try done;
    apply (bool_decide_unpack _); vm_compute; exact I.
Defined.

(** The load of the sample file when the second allocation fails. *)
Lemma load_records_total_witness :
  is_Some (load_records 800 (mkFILE patients_dat 0) false
             (sample_sys [] [Succeed; Fail 0])).1.1.
Proof.
  apply (load_records_total 800 0 false (sample_sys [] [Succeed; Fail 0])).
  vm_compute. lia.
Defined.
