(* ===== verification/Console.v ===== *)
(** * The operator's commands

    The prompts and handlers of [src/patient_management.c]:
    [getPatientName], [getPatientAge], [getPatientDiagnosis],
    [getRoomNumber], [getPatientToDischarge], [confirmDischarge], and the
    commands [addPatientRecord], [viewPatientRecords],
    [searchPatientById] and [dischargePatient].

    A prompt repeats until the operator gives a valid value.  Each
    iteration is an [attempt] and the loop is [retry] on fuel
    [S (stdin_size w)]: every iteration that asks for another one
    consumes console input, so this fuel is as good as any larger one
    ([prompt_fuel]); a prompt has no result exactly when the C loop does
    not end (the input is exhausted) or reads an indeterminate value. *)

From Stdlib Require Import ZArith Lia Ascii.
From Stdlib.Strings Require Import Byte.
From stdpp Require Import base tactics list strings pretty gmap.
From S2P Require Import Prelude Patient Layout Env Store Persist.

#[local] Open Scope Z_scope.

(** The state when the console input that is left is [ins] and the lines
    [outs] have been printed. *)
Definition answered (ins outs : list string) : Sys → Sys :=
  set_world (λ w, set_stdin (λ _, ins) (set_stdout (λ out, out ++ outs) w)).

(** Only the console changed: input was consumed and output added. *)
Definition console_only (s s' : Sys) : Prop :=
  ∃ ins outs,
    s' = answered ins outs s ∧ (lines_size ins ≤ stdin_size (world s))%nat.

Section console.
Context `{Limits} `{!Layout Patient} `{!Layout DischargedPatient}.

(** ** Prompts *)

Definition getPatientName_body : Prog Sys (attempt string) :=
  _ ← env (puts "Enter Patient Name:");
  line ← env (fgets 101);
  match line with
  | None => mret Stuck
  | Some buf =>
      let patientName := strip_newline buf in
      if validatePatientName patientName then mret (Done patientName)
      else
        _ ← env (puts "Invalid patient name. Please try again.");
        mret Again
  end.

Definition getPatientName : IProg Sys string := λ s,
  retry (S (stdin_size (world s))) getPatientName_body s.

Definition getPatientAge_body : Prog Sys (attempt Z) :=
  _ ← env (puts "Enter Patient Age:");
  scanResult ← env scanf_d;
  _ ← env clearInputBuffer;
  match scanResult with
  | Scanned patientAge =>
      if validatePatientAge patientAge then mret (Done patientAge)
      else
        _ ← env (puts "Invalid patient age. Please try again.");
        mret Again
  | _ =>
      _ ← env (puts "Invalid input. Please enter a number.");
      mret Again
  end.

Definition getPatientAge : IProg Sys Z := λ s,
  retry (S (stdin_size (world s))) getPatientAge_body s.

Definition getPatientDiagnosis_body : Prog Sys (attempt string) :=
  _ ← env (puts "Enter Patient Diagnosis:");
  line ← env (fgets MAX_DIAGNOSIS_LENGTH);
  match line with
  | None => mret Stuck
  | Some buf =>
      let patientDiagnosis := strip_newline buf in
      if validatePatientDiagnosis patientDiagnosis then mret (Done patientDiagnosis)
      else
        _ ← env (puts "Invalid diagnosis. Please try again.");
        mret Again
  end.

Definition getPatientDiagnosis : IProg Sys string := λ s,
  retry (S (stdin_size (world s))) getPatientDiagnosis_body s.

Definition getRoomNumber_body : Prog Sys (attempt Z) :=
  _ ← env (puts "Enter Patient Room:");
  scanResult ← env scanf_d;
  match scanResult with
  | Scanned room =>
      _ ← env clearInputBuffer;
      if negb (validateRoomNumber room) then
        _ ← env (puts "Invalid room number. Please try again.");
        mret Again
      else
        head ← gets patientHead;
        if decide (isRoomOccupiedInList room head ≠ ROOM_UNOCCUPIED) then
          _ ← env (puts "Room already occupied. Please choose another room.");
          mret Again
        else mret (Done room)
  | _ =>
      _ ← env (puts "Invalid input. Please enter a number.");
      _ ← env clearInputBuffer;
      mret Again
  end.

Definition getRoomNumber : IProg Sys Z := λ s,
  retry (S (stdin_size (world s))) getRoomNumber_body s.

(** [getPatientToDischarge]: the record to discharge, if the list has
    one with the id that is read.  The result of [scanf] is not checked:
    when nothing is read the id is indeterminate. *)
Definition getPatientToDischarge : IProg Sys (option Patient) :=
  _ ← lift (env (puts "Enter ID of patient to discharge:"));
  scanResult ← lift (env scanf_d);
  _ ← lift (env clearInputBuffer);
  match scanResult with
  | Scanned patientId => lift (getPatientFromList patientId)
  | _ => undefined
  end.

Definition confirmDischarge (patient : Patient) : IProg Sys bool :=
  _ ← lift (env (puts ("Patient ID: " +:+ pretty (patientId patient))));
  _ ← lift (env (puts ("Patient Name: " +:+ name patient)));
  _ ← lift (env (puts "Are you sure you want to discharge this patient? (y/n)"));
  scanResult ← lift (env scanf_c);
  _ ← lift (env clearInputBuffer);
  match scanResult with
  | Scanned confirm => mret (bool_decide (confirm = "y"%char))
  | _ => undefined
  end.

(** ** Commands *)

(** The record that [addPatientRecord] creates from the answers: its id
    is the counter and its admission time the current time. *)
Definition new_patient (patientName : string) (patientAge : Z)
    (patientDiagnosis : string) (room : Z) (s : Sys) : Patient :=
  mkPatient (patientIDCounter s) patientName patientAge patientDiagnosis room
    (time_now (world s)).1.

(** The part of [addPatientRecord] that follows the prompts. *)
Definition record_patient (patientName : string) (patientAge : Z)
    (patientDiagnosis : string) (room : Z) : Prog Sys unit :=
  id ← gets patientIDCounter;
  newPatient ← env (createPatient patientName patientAge patientDiagnosis room id);
  head ← gets patientHead;
  head ← env (insertPatientAtEndOfList head newPatient);
  _ ← modify (set_head (λ _, head));
  _ ← modify (set_total int_incr);
  _ ← modify (set_counter int_incr);
  _ ← env (writePatientToFile newPatient);
  _ ← env (puts "--- Patient Added ---");
  env (printPatient newPatient).

Definition addPatientRecord : IProg Sys unit :=
  patientName ← getPatientName;
  patientAge ← getPatientAge;
  patientDiagnosis ← getPatientDiagnosis;
  room ← getRoomNumber;
  lift (record_patient patientName patientAge patientDiagnosis room).

(** The traversal that prints every record. *)
Fixpoint print_records (current : list Patient) : Prog World unit :=
  match current with
  | [] => mret tt
  | p :: nextNode => _ ← printPatient p; print_records nextNode
  end.

Definition viewPatientRecords : Prog Sys unit :=
  head ← gets patientHead;
  match head with
  | [] => env (puts "No patients admitted!")
  | _ => env (print_records head)
  end.

Definition searchPatientById : IProg Sys unit :=
  head ← lift (gets patientHead);
  match head with
  | [] => lift (env (puts "No patients admitted!"))
  | _ =>
      _ ← lift (env (puts "Enter A Patient Id: "));
      scanResult ← lift (env scanf_d);
      _ ← lift (env clearInputBuffer);
      match scanResult with
      | Scanned id =>
          match find_by_id id head with
          | Some p => lift (env (printPatient p))
          | None => lift (env (puts "Patient doesn't exist!"))
          end
      | _ => undefined
      end
  end.

(** The part of [dischargePatient] that follows the confirmation. *)
Definition discharge_confirmed (patientToDischarge : Patient) : Prog Sys unit :=
  now ← env time_now;
  let dischargedPatient := mkDischargedPatient patientToDischarge now in
  file ← env (fopen discharged_dat AppendMode);
  match file with
  | None => env (perror "Error opening discharged_patients.dat")
  | Some file =>
      written ← env (fwrite dischargedPatient file);
      if negb written then
        _ ← env (perror "Error writing to discharged_patients.dat");
        _ ← env (fclose file);
        mret tt
      else
        _ ← env (fclose file);
        _ ← env (logRoomUsage (roomNumber patientToDischarge));
        _ ← removePatientFromSystem (Some patientToDischarge);
        env (puts "Patient has been discharged!")
  end.

Definition dischargePatient : IProg Sys unit :=
  head ← lift (gets patientHead);
  match head with
  | [] => lift (env (puts "No patients to discharge!"))
  | _ =>
      patientToDischarge ← getPatientToDischarge;
      match patientToDischarge with
      | None => lift (env (puts "Patient not found!"))
      | Some patientToDischarge =>
          confirmed ← confirmDischarge patientToDischarge;
          if confirmed : bool then lift (discharge_confirmed patientToDischarge)
          else lift (env (puts "Patient discharge cancelled."))
      end
  end.

(** The lines of the confirmation dialogue. *)
Definition confirm_lines (p : Patient) : list string :=
  [ "Patient ID: " +:+ pretty (patientId p);
    "Patient Name: " +:+ name p;
    "Are you sure you want to discharge this patient? (y/n)" ].

(** The state after a confirmed discharge of [p] when no call fails:
    [l'] is the list without the record. *)
Definition discharged (p : Patient) (l' : list Patient) (s : Sys) : Sys :=
  let now := (time_now (world s)).1 in
  mkSys l' (int_decr (totalPatients s)) (patientIDCounter s)
    (set_stdout (λ out, out ++ ["patients.dat updated successfully.";
                                "Patient has been discharged!"])
       (set_files (λ fs, rewritten l'
            (appended room_usage_txt
               (String.list_byte_of_string (pretty (roomNumber p) +:+ newline))
               (appended discharged_dat (to_bytes (mkDischargedPatient p now)) fs)))
          (time_now (world s)).2)).

(** ** One iteration of a prompt *)

(** What an iteration guarantees: it uses only the console; a value it
    accepts has the property [Q] and was read from input that was there;
    an iteration that asks for another one has consumed input if there
    was any. *)
Definition iteration {A} (Q : list Patient → A → Prop)
    (body : Prog Sys (attempt A)) : Prop :=
  ∀ s r s', body s = (r, s') →
    console_only s s' ∧
    match r with
    | Done a => Q (patientHead s) a ∧ w_stdin (world s) ≠ []
    | Again => w_stdin (world s) ≠ [] →
               (stdin_size (world s') < stdin_size (world s))%nat
    | Stuck => True
    end.

Lemma console_only_refl s : console_only s s.
Proof.
  exists (w_stdin (world s)), []. split; [|done].
  destruct s as [? ? ? []]. unfold answered, set_world, set_stdin, set_stdout.
  simpl. by rewrite app_nil_r.
Qed.

Lemma console_only_trans s1 s2 s3 :
  console_only s1 s2 → console_only s2 s3 → console_only s1 s3.
Proof.
  intros (i1 & o1 & -> & H1) (i2 & o2 & -> & H2). exists i2, (o1 ++ o2).
  destruct s1 as [? ? ? []].
  unfold answered, set_world, set_stdin, set_stdout, stdin_size in *; simpl in *.
  rewrite app_assoc. split; [done|lia].
Qed.

Lemma console_only_intro h t c files open stdin out err clock faults ins outs :
  (lines_size ins ≤ lines_size stdin)%nat →
  console_only (mkSys h t c (mkWorld files open stdin out err clock faults))
    (mkSys h t c (mkWorld files open ins (out ++ outs) err clock faults)).
Proof. intros. by exists ins, outs. Qed.

Lemma console_only_head s s' : console_only s s' → patientHead s' = patientHead s.
Proof. by intros (? & ? & -> & _). Qed.

Lemma console_only_size s s' :
  console_only s s' → (stdin_size (world s') ≤ stdin_size (world s))%nat.
Proof. by intros (? & ? & -> & ?). Qed.

Ltac prompt_close :=
  intros [= <- <-]; rewrite <-?(assoc_L (++)); unfold stdin_size;
  (split; [apply console_only_intro; rewrite ?lines_size_cons; (done || lia)|]);
  cbn [world w_stdin]; rewrite ?lines_size_cons; try done; try lia;
  repeat split; try (apply Is_true_true; assumption); try naive_solver.

(** The input after a scan and [clearInputBuffer]. *)
Ltac scan_cases stdin :=
  let Hscan := fresh "Hscan" in
  let Hle := fresh "Hle" in
  destruct (scan_int_lines stdin) as [sr ls] eqn:Hscan;
  assert (stdin = [] → sr = AtEOF) by (intros ->; by simplify_eq/=);
  apply scan_int_lines_size in Hscan as [Hle _];
  apply scan_tail_size in Hle as [? ?].

Lemma getPatientName_iteration :
  iteration (λ _ a, validatePatientName a) getPatientName_body.
Proof.
  intros [head total counter [files open stdin out err clock faults]] r s'.
  unfold getPatientName_body. run_sys.
  destruct stdin as [|l stdin]; run_sys; [prompt_close|].
  pose proof (substring_length 100 (String.length l) l).
  case_decide; run_sys;
    match goal with |- context [validatePatientName ?a] =>
      destruct (validatePatientName a) eqn:? end; prompt_close.
Qed.

Lemma getPatientAge_iteration :
  iteration (λ _ a, validatePatientAge a) getPatientAge_body.
Proof.
  intros [head total counter [files open stdin out err clock faults]] r s'.
  unfold getPatientAge_body. run_sys. scan_cases stdin.
  destruct sr as [a| |]; run_sys; [destruct (validatePatientAge a) eqn:?|..];
    prompt_close.
Qed.

Lemma getPatientDiagnosis_iteration :
  (2 ≤ MAX_DIAGNOSIS_LENGTH)%nat →
  iteration (λ _ a, validatePatientDiagnosis a) getPatientDiagnosis_body.
Proof.
  intros Hmax [head total counter [files open stdin out err clock faults]] r s'.
  unfold getPatientDiagnosis_body. run_sys.
  destruct stdin as [|l stdin]; run_sys; [prompt_close|].
  pose proof (substring_length (MAX_DIAGNOSIS_LENGTH - 1) (String.length l) l).
  case_decide; run_sys;
    match goal with |- context [validatePatientDiagnosis ?a] =>
      destruct (validatePatientDiagnosis a) eqn:? end; prompt_close.
Qed.

Lemma getRoomNumber_iteration :
  iteration (λ head room, validateRoomNumber room ∧
                          isRoomOccupiedInList room head = ROOM_UNOCCUPIED)
    getRoomNumber_body.
Proof.
  intros [head total counter [files open stdin out err clock faults]] r s'.
  unfold getRoomNumber_body. run_sys. scan_cases stdin.
  destruct sr as [a| |]; run_sys; [destruct (validateRoomNumber a) eqn:?|..];
    run_sys; try case_decide; prompt_close.
Qed.

(** ** The loop of a prompt *)

Section prompt.
Context {A : Type} (Q : list Patient → A → Prop) (body : Prog Sys (attempt A)).
Hypothesis body_iteration : iteration Q body.

(** The fuel of a prompt is as good as any larger amount. *)
Lemma prompt_fuel n s :
  (stdin_size (world s) < n)%nat →
  retry n body s = retry (S (stdin_size (world s))) body s.
Proof.
  intros. apply (retry_fuel body (λ s, stdin_size (world s))); [| |done|lia].
  - intros s1 s2 Hb. apply body_iteration in Hb as [Hc Hlt].
    split; [by apply console_only_size|]. rewrite stdin_size_0. done.
  - intros s1 a s2 Hs Hb. apply body_iteration in Hb as [_ [_ Hne]].
    by apply stdin_size_0 in Hs.
Qed.

(** A prompt that returns has only used the console, and its value has
    the property that the last iteration checked. *)
Lemma prompt_post n s a s' :
  retry n body s = Some (a, s') → console_only s s' ∧ Q (patientHead s) a.
Proof.
  apply (retry_inv body (console_only s)
           (λ a s', console_only s s' ∧ Q (patientHead s) a));
    [| |apply console_only_refl].
  - intros s1 s2 Hs Hb. apply body_iteration in Hb as [Hc _].
    by eapply console_only_trans.
  - intros s1 b s2 Hs Hb. apply body_iteration in Hb as [Hc [HQ _]].
    rewrite <-(console_only_head s s1) by done.
    split; [by eapply console_only_trans|done].
Qed.

End prompt.

(** C27: the prompts end or the input is exhausted.  Every iteration of a
    prompt that asks for another one consumes console input, so on a
    console with [stdin_size] characters left every amount of fuel above
    that number gives the result of the prompt: a prompt has no result
    only when the C loop does not end normally either (it waits at the
    end of the input or reads an indeterminate value). *)
Theorem prompt_fuel_enough n s :
  (2 ≤ MAX_DIAGNOSIS_LENGTH)%nat →
  (stdin_size (world s) < n)%nat →
  retry n getPatientName_body s = getPatientName s ∧
  retry n getPatientAge_body s = getPatientAge s ∧
  retry n getPatientDiagnosis_body s = getPatientDiagnosis s ∧
  retry n getRoomNumber_body s = getRoomNumber s.
Proof.
  intros Hmax Hn. split_and!; eapply prompt_fuel; try done.
  - apply getPatientName_iteration.
  - apply getPatientAge_iteration.
  - by apply getPatientDiagnosis_iteration.
  - apply getRoomNumber_iteration.
Qed.

(** C26: the room prompt returns only a valid, free room.  Whatever the
    operator types, a room that [getRoomNumber] returns passes
    [validateRoomNumber] and is the room of no record of the list, and
    the prompt has changed nothing but the console. *)
Theorem getRoomNumber_free s room s' :
  getRoomNumber s = Some (room, s') →
  validateRoomNumber room ∧
  isRoomOccupiedInList room (patientHead s) = ROOM_UNOCCUPIED ∧
  console_only s s'.
Proof.
  intros [? [? ?]]%(prompt_post _ _ getRoomNumber_iteration). done.
Qed.

(** The prompts return only valid values.  A name, an age or a
    diagnosis that its prompt returns passes its validation, whatever
    was typed before it, and the prompt has changed nothing but the
    console. *)
Theorem prompts_valid s :
  (2 ≤ MAX_DIAGNOSIS_LENGTH)%nat →
  (∀ a s', getPatientName s = Some (a, s') →
           validatePatientName a ∧ console_only s s') ∧
  (∀ a s', getPatientAge s = Some (a, s') →
           validatePatientAge a ∧ console_only s s') ∧
  (∀ a s', getPatientDiagnosis s = Some (a, s') →
           validatePatientDiagnosis a ∧ console_only s s').
Proof.
  intros Hmax. split_and!; intros a s' Hrun.
  - by apply (prompt_post _ _ getPatientName_iteration) in Hrun as [? ?].
  - by apply (prompt_post _ _ getPatientAge_iteration) in Hrun as [? ?].
  - by apply (prompt_post _ _ (getPatientDiagnosis_iteration Hmax)) in Hrun as [? ?].
Qed.

(** ** A prompt whose first answer is valid *)

Lemma getPatientName_first h t c files open l ls out err clock faults :
  (String.length l < 100)%nat →
  ascii_of_nat 10 ∉ String.list_ascii_of_string l →
  validatePatientName l →
  getPatientName (mkSys h t c (mkWorld files open (l :: ls) out err clock faults)) =
  Some (l, mkSys h t c (mkWorld files open ls (out ++ ["Enter Patient Name:"])
                          err clock faults)).
Proof.
  intros Hlen Hnl Hvalid. apply retry_done. unfold getPatientName_body. run_sys.
  rewrite decide_True by done. run_sys. rewrite strip_newline_append by done.
  by apply Is_true_true in Hvalid as ->.
Qed.

Lemma getPatientAge_first h t c files open stdin ls age out err clock faults :
  scan_int_lines stdin = (Scanned age, ls) →
  validatePatientAge age →
  getPatientAge (mkSys h t c (mkWorld files open stdin out err clock faults)) =
  Some (age, mkSys h t c (mkWorld files open (tail ls) (out ++ ["Enter Patient Age:"])
                            err clock faults)).
Proof.
  intros Hscan Hvalid. apply retry_done. unfold getPatientAge_body. run_sys.
  rewrite Hscan. run_sys. by apply Is_true_true in Hvalid as ->.
Qed.

Lemma getPatientDiagnosis_first h t c files open l ls out err clock faults :
  (String.length l < MAX_DIAGNOSIS_LENGTH - 1)%nat →
  ascii_of_nat 10 ∉ String.list_ascii_of_string l →
  validatePatientDiagnosis l →
  getPatientDiagnosis (mkSys h t c (mkWorld files open (l :: ls) out err clock faults)) =
  Some (l, mkSys h t c (mkWorld files open ls (out ++ ["Enter Patient Diagnosis:"])
                          err clock faults)).
Proof.
  intros Hlen Hnl Hvalid. apply retry_done. unfold getPatientDiagnosis_body. run_sys.
  rewrite decide_True by done. run_sys. rewrite strip_newline_append by done.
  by apply Is_true_true in Hvalid as ->.
Qed.

Lemma getRoomNumber_first h t c files open stdin ls room out err clock faults :
  scan_int_lines stdin = (Scanned room, ls) →
  validateRoomNumber room →
  isRoomOccupiedInList room h = ROOM_UNOCCUPIED →
  getRoomNumber (mkSys h t c (mkWorld files open stdin out err clock faults)) =
  Some (room, mkSys h t c (mkWorld files open (tail ls) (out ++ ["Enter Patient Room:"])
                            err clock faults)).
Proof.
  intros Hscan Hvalid Hfree. apply retry_done. unfold getRoomNumber_body. run_sys.
  rewrite Hscan. run_sys. apply Is_true_true in Hvalid as ->. run_sys.
  by rewrite Hfree.
Qed.

(** ** Admission *)

(** The state after [record_patient] when no call fails. *)
Lemma record_patient_ok patientName patientAge patientDiagnosis room s :
  w_faults (world s) = [] →
  let p := new_patient patientName patientAge patientDiagnosis room s in
  exec (record_patient patientName patientAge patientDiagnosis room) s =
  mkSys (patientHead s ++ [p]) (int_incr (totalPatients s))
    (int_incr (patientIDCounter s))
    (set_stdout (λ out, out ++ inserted_messages (patientHead s) [p] ++
                   [newline +:+ "Patient successfully added to file." +:+ newline;
                    "--- Patient Added ---"] ++
                   patient_lines p)
       (set_files (appended patients_dat (to_bytes p)) (time_now (world s)).2)).
Proof.
  destruct s as [head total counter [files open stdin out err clock faults]]; cbn.
  intros ->. unfold exec, record_patient, createPatient, new_patient.
  destruct clock as [|now [|now' clock]]; run_sys;
    rewrite insertPatientAtEndOfList_ok by done; run_sys;
    rewrite writePatientToFile_ok by done; run_sys;
    rewrite printPatient_lines; run_sys;
    by rewrite <-!(assoc_L (++)).
Qed.

(** The list and the counters after [record_patient] when the node is
    allocated, whatever file operation fails. *)
Lemma record_patient_store patientName patientAge patientDiagnosis room s :
  (next_outcome (world s)).1 = Succeed →
  let p := new_patient patientName patientAge patientDiagnosis room s in
  let s' := exec (record_patient patientName patientAge patientDiagnosis room) s in
  patientHead s' = patientHead s ++ [p] ∧
  totalPatients s' = int_incr (totalPatients s) ∧
  patientIDCounter s' = int_incr (patientIDCounter s).
Proof.
  destruct s as [head total counter [files open stdin out err clock faults]]; cbn.
  unfold exec, record_patient, createPatient, new_patient, insertPatientAtEndOfList.
  destruct faults as [|[|?] faults]; [| |done]; intros _;
    (destruct clock as [|now [|now' clock]]; run_sys; destruct head; run_sys;
     match goal with |- context [writePatientToFile ?p ?w] =>
       destruct (writePatientToFile p w) as [[] w1] end; run_sys;
     rewrite printPatient_lines; run_sys; by rewrite ?link_at_end_app).
Qed.

(** C1: an admission with valid answers.  When no library call fails and
    the console holds, in this order, a name, an age, a diagnosis and a
    room that pass validation (the name and the diagnosis shorter than
    their buffers, the room free), [addPatientRecord] returns; the new
    record has the id [patientIDCounter], the four answers and the
    current time, and is the last of the list; both counters are
    incremented; the image of the record is appended to [patients.dat];
    the answers are consumed and the console shows the four prompts, the
    messages of the insertion and the record. *)
Theorem addPatientRecord_ok s nm in1 age in2 dg in3 room in4 :
  w_faults (world s) = [] →
  w_stdin (world s) = nm :: in1 →
  (String.length nm < 100)%nat →
  ascii_of_nat 10 ∉ String.list_ascii_of_string nm →
  validatePatientName nm →
  scan_int_lines in1 = (Scanned age, in2) → validatePatientAge age →
  tail in2 = dg :: in3 →
  (String.length dg < MAX_DIAGNOSIS_LENGTH - 1)%nat →
  ascii_of_nat 10 ∉ String.list_ascii_of_string dg →
  validatePatientDiagnosis dg →
  scan_int_lines in3 = (Scanned room, in4) → validateRoomNumber room →
  isRoomOccupiedInList room (patientHead s) = ROOM_UNOCCUPIED →
  let p := new_patient nm age dg room s in
  addPatientRecord s = Some (tt,
    mkSys (patientHead s ++ [p]) (int_incr (totalPatients s))
      (int_incr (patientIDCounter s))
      (mkWorld (appended patients_dat (to_bytes p) (w_files (world s)))
         (w_open (world s)) (tail in4)
         (w_stdout (world s) ++
            ["Enter Patient Name:"; "Enter Patient Age:";
             "Enter Patient Diagnosis:"; "Enter Patient Room:"] ++
            inserted_messages (patientHead s) [p] ++
            [newline +:+ "Patient successfully added to file." +:+ newline;
             "--- Patient Added ---"] ++
            patient_lines p)
         (w_stderr (world s)) (w_clock (time_now (world s)).2) [])).
Proof.
  destruct s as [head total counter [files open stdin out err clock faults]]; cbn.
  intros -> -> ? ? ? ? ? Hdg ? ? ? ? ? ?. unfold addPatientRecord.
  erewrite (ibind_run_Some getPatientName) by (by apply getPatientName_first).
  erewrite (ibind_run_Some getPatientAge) by (eapply getPatientAge_first; eauto).
  rewrite Hdg.
  erewrite (ibind_run_Some getPatientDiagnosis)
    by (apply getPatientDiagnosis_first; cbn; eauto).
  erewrite (ibind_run_Some getRoomNumber) by (eapply getRoomNumber_first; eauto).
  rewrite lift_unit, record_patient_ok by done. unfold new_patient.
  destruct clock as [|? [|? ?]]; unfold set_stdout, set_files; cbn;
    by rewrite <-?(assoc_L (++)).
Qed.

(** C2: an admission preserves the invariant of the store.  From a state
    where [store_ok] holds and the counter is below [INT_MAX], if the
    node is allocated then, whatever the operator types and whatever
    file operation fails, a call of [addPatientRecord] that returns
    leaves a state where [store_ok] holds: the list is the old one with
    one record at its end, whose id is the old counter, and the counter
    is one more. *)
Theorem addPatientRecord_preserves s s' :
  (2 ≤ MAX_DIAGNOSIS_LENGTH)%nat →
  store_ok s → patientIDCounter s < INT_MAX →
  (next_outcome (world s)).1 = Succeed →
  addPatientRecord s = Some (tt, s') →
  store_ok s' ∧
  ∃ p, patientHead s' = patientHead s ++ [p] ∧
       patientId p = patientIDCounter s ∧
       patientIDCounter s' = patientIDCounter s + 1.
Proof.
  intros Hmax Hok Hcounter Hmalloc Hrun. unfold addPatientRecord in Hrun.
  apply ibind_inv in Hrun as (nm & s1 & Hp1 & Hrun).
  apply (prompt_post _ _ getPatientName_iteration) in Hp1 as [H1 Hnm].
  apply ibind_inv in Hrun as (age & s2 & Hp2 & Hrun).
  apply (prompt_post _ _ getPatientAge_iteration) in Hp2 as [H2 Hage].
  apply ibind_inv in Hrun as (dg & s3 & Hp3 & Hrun).
  apply (prompt_post _ _ (getPatientDiagnosis_iteration Hmax)) in Hp3 as [H3 Hdg].
  apply ibind_inv in Hrun as (room & s4 & Hp4 & Hrun).
  apply (prompt_post _ _ getRoomNumber_iteration) in Hp4 as [H4 Hroom].
  rewrite lift_unit in Hrun. injection Hrun as <-.
  assert (console_only s s4) as (ins & outs & -> & _)
    by eauto using console_only_trans.
  rewrite !(console_only_head s) in Hroom by eauto using console_only_trans.
  destruct Hroom as [Hroom Hfree%isRoomOccupiedInList_free].
  edestruct (record_patient_store nm age dg room (answered ins outs s))
    as (Hhead & Htotal & Hc);
    [destruct s as [? ? ? [? ? ? ? ? ? [|? ?]]]; exact Hmalloc|].
  set (s' := exec _ _) in *. destruct s' as [h' t' c' w']; simpl in *; subst.
  split; [by apply (store_ok_snoc s)|].
  eexists; split_and!; [done|by destruct s|].
  destruct Hok as (_ & _ & _ & _ & _ & Hc). unfold DEFAULT_ID in Hc.
  apply int_incr_small; unfold in_int, INT_MIN, INT_MAX in *; lia.
Qed.

(** C21: a failed allocation loses the list.  When the node of the new
    record cannot be allocated, [addPatientRecord] still completes: the
    list is empty afterwards, whatever it held, while [totalPatients]
    and [patientIDCounter] are incremented as for a success. *)
Theorem record_patient_allocation_failure nm age dg room s n faults :
  w_faults (world s) = Fail n :: faults →
  let s' := exec (record_patient nm age dg room) s in
  patientHead s' = [] ∧
  totalPatients s' = int_incr (totalPatients s) ∧
  patientIDCounter s' = int_incr (patientIDCounter s).
Proof.
  destruct s as [head total counter [files open stdin out err clock fl]]; cbn.
  intros ->. unfold exec, record_patient, createPatient, insertPatientAtEndOfList.
  destruct clock as [|now [|now' clock]]; run_sys;
     match goal with |- context [writePatientToFile ?p ?w] =>
       destruct (writePatientToFile p w) as [[] w1] end; run_sys;
     rewrite printPatient_lines; by run_sys.
Qed.

(** C35: an admission survives a restart.  From a state where [store_ok]
    holds and [patients.dat] holds the images of the records of the
    list, when no call fails and the records fit their storage, after
    the creation of a record the file again holds the images of the
    list, and [restoreDataFromFile] rebuilds the same list, count and
    counter. *)
Theorem restore_after_admission nm age dg room s :
  w_faults (world s) = [] →
  store_ok s → patientIDCounter s < INT_MAX →
  synced s →
  let s1 := exec (record_patient nm age dg room) s in
  Forall fits (patientHead s1) →
  synced s1 ∧ same_store (exec restoreDataFromFile s1) s1.
Proof.
  intros Hf Hok Hmax Hsync s1 Hfits. subst s1.
  rewrite record_patient_ok in * by done.
  set (p := new_patient nm age dg room s) in *.
  match goal with |- context [same_store _ ?s1'] => set (s1 := s1') in * end.
  pose proof (store_ok_total_lt s Hok) as Htotal.
  destruct Hok as (Hlen & _ & Hrange & _ & _ & Hc). unfold DEFAULT_ID in *.
  assert (w_files (world s1) !! patients_dat
          = Some (encode_all (patientHead s ++ [p]))) as Hfile.
  { unfold synced, file_content in Hsync.
    destruct s as [h t c [files open stdin out err [|? [|? ?]] fl]]; cbn in *;
      unfold appended; by rewrite lookup_insert_eq, Hsync, encode_all_snoc. }
  split; [unfold synced, file_content; by rewrite Hfile|].
  unfold restoreDataFromFile.
  rewrite (initializePatientSystem_encoded s1 (patientHead s ++ [p]));
    [|by destruct s as [? ? ? [? ? ? ? ? [|? [|? ?]] ?]]|done
     |by destruct (patientHead s)|done
     |rewrite length_app; simpl; unfold INT_MAX in *; lia].
  assert (patientId p = patientIDCounter s) as Hp by done.
  assert (max_id 0 (patientHead s) < patientIDCounter s) as Hlt.
  { apply max_id_lt; [lia|]. eapply Forall_impl; [exact Hrange|]. simpl. lia. }
  split_and!; cbn.
  - done.
  - rewrite length_app, int_incr_small by (unfold in_int, INT_MIN, INT_MAX in *; lia).
    simpl. lia.
  - rewrite max_id_snoc, Hp, Z.max_r by lia. done.
Qed.

(** ** Discharge *)

(** C36: a discharge whose archive cannot be opened is abandoned.  When
    [discharged_patients.dat] cannot be opened, the confirmed discharge
    writes one line on the error stream and returns: the patient stays
    in the list, and no file is changed. *)
Theorem discharge_confirmed_archive_failure p s n faults :
  w_faults (world s) = Fail n :: faults →
  exec (discharge_confirmed p) s =
  set_world (λ w, set_faults (λ _, faults)
     (set_stderr (λ err, err ++ ["Error opening discharged_patients.dat"])
        (time_now w).2)) s.
Proof.
  destruct s as [head total counter [files open stdin out err clock fl]]; cbn.
  intros ->. unfold exec, discharge_confirmed.
  by destruct clock as [|now [|now' clock]]; run_sys.
Qed.

Lemma console_only_same_store s s' : console_only s s' → same_store s' s.
Proof. by intros (? & ? & -> & _). Qed.

Lemma getPatientToDischarge_post s r s' :
  getPatientToDischarge s = Some (r, s') →
  console_only s s' ∧ ∃ id, r = find_by_id id (patientHead s).
Proof.
  destruct s as [head total counter [files open stdin out err clock faults]].
  unfold getPatientToDischarge, getPatientFromList. run_sys.
  destruct (scan_int_lines stdin) as [sr ls] eqn:Hscan.
  apply scan_int_lines_size in Hscan as [Hle _].
  apply scan_tail_size in Hle as [Hle _].
  destruct sr as [id| |]; run_sys; [|done..].
  destruct head; intros [= <- <-]; (split; [by apply console_only_intro|]);
    by exists id.
Qed.

Lemma confirmDischarge_post p s b s' :
  confirmDischarge p s = Some (b, s') → console_only s s'.
Proof.
  destruct s as [head total counter [files open stdin out err clock faults]].
  unfold confirmDischarge. run_sys.
  destruct (scan_char_lines stdin) as [sr ls] eqn:Hscan.
  apply scan_char_lines_size in Hscan as [Hle _].
  apply scan_tail_size in Hle as [Hle _].
  destruct sr as [c| |]; run_sys; [|done..].
  intros [= <- <-]. rewrite <-!(assoc_L (++)). by apply console_only_intro.
Qed.

Lemma getPatientToDischarge_run h t c files open stdin out err clock faults id ls :
  scan_int_lines stdin = (Scanned id, ls) →
  getPatientToDischarge (mkSys h t c (mkWorld files open stdin out err clock faults)) =
  Some (find_by_id id h,
        mkSys h t c (mkWorld files open (tail ls)
                       (out ++ ["Enter ID of patient to discharge:"]) err clock faults)).
Proof.
  intros Hscan. unfold getPatientToDischarge, getPatientFromList. run_sys.
  rewrite Hscan. run_sys. by destruct h.
Qed.

Lemma confirmDischarge_run p h t c files open stdin out err clock faults ch ls :
  scan_char_lines stdin = (Scanned ch, ls) →
  confirmDischarge p (mkSys h t c (mkWorld files open stdin out err clock faults)) =
  Some (bool_decide (ch = "y"%char),
        mkSys h t c (mkWorld files open (tail ls) (out ++ confirm_lines p)
                       err clock faults)).
Proof.
  intros Hscan. unfold confirmDischarge, confirm_lines. run_sys.
  rewrite Hscan. run_sys. by rewrite <-!(assoc_L (++)).
Qed.

(** The state after a confirmed discharge when no call fails. *)
Lemma discharge_confirmed_ok p l' s :
  w_faults (world s) = [] →
  unlink_by_id (patientId p) (patientHead s) = Some l' →
  exec (discharge_confirmed p) s = discharged p l' s.
Proof.
  destruct s as [head total counter [files open stdin out err clock faults]]; cbn.
  intros -> Hun. unfold exec, discharge_confirmed, discharged.
  destruct clock as [|now [|now' clock]]; run_sys.
  all: destruct (files !! discharged_dat) eqn:Hd; run_sys.
  all: first [erewrite appended_alter by done|rewrite appended_alter_new by done].
  all: rewrite logRoomUsage_ok by done; run_sys.
  all: rewrite removePatientFromSystem_unlink; cbn [patientHead]; rewrite Hun.
  all: rewrite unit_run, updatePatientsFile_ok by done; run_sys.
  all: by rewrite <-?(assoc_L (++)), ?Hd, ?decide_True by done.
Qed.

(** Whatever call fails, a confirmed discharge leaves the store as it
    was or unlinks the record. *)
Lemma discharge_confirmed_store p s :
  store_step p s (exec (discharge_confirmed p) s).
Proof.
  unfold discharge_confirmed. rewrite !exec_bind.
  destruct (eval (env (fopen _ _)) _) as [file|]; [|rewrite !env_same_store; by left].
  rewrite exec_bind. destruct (eval (env (fwrite _ _)) _); cbn [negb]; rewrite !exec_bind.
  - rewrite env_same_store.
    match goal with |- store_step _ _ (exec _ ?s0) =>
      assert (same_store s0 s) as Hs by (by rewrite !env_same_store) end.
    rewrite <-Hs at 1. apply removePatientFromSystem_store.
  - rewrite exec_ret, !env_same_store. by left.
Qed.

(** Whatever is typed and whatever fails, a discharge leaves the list and
    the counters as they were or unlinks one record that was found. *)
Lemma dischargePatient_store s s' :
  dischargePatient s = Some (tt, s') →
  same_store s s' ∨
  ∃ p, find_by_id (patientId p) (patientHead s) = Some p ∧ store_step p s s'.
Proof.
  unfold dischargePatient. intros Hrun.
  apply ibind_inv in Hrun as (head & s0 & [= <- <-] & Hrun).
  destruct (patientHead s) as [|q head] eqn:Hhead.
  { rewrite lift_unit in Hrun. injection Hrun as <-. left.
    by rewrite env_same_store. }
  apply ibind_inv in Hrun as (r & s1 & [H1 [id ->]]%getPatientToDischarge_post & Hrun).
  rewrite Hhead in Hrun.
  destruct (find_by_id id (q :: head)) as [p|] eqn:Hfind.
  2: { rewrite lift_unit in Hrun. injection Hrun as <-. left.
       by rewrite env_same_store, (console_only_same_store s s1). }
  apply ibind_inv in Hrun as (b & s2 & H2%confirmDischarge_post & Hrun).
  assert (same_store s2 s) as Hs
    by eauto using console_only_same_store, console_only_trans.
  destruct b; rewrite lift_unit in Hrun; injection Hrun as <-;
    [|left; by rewrite env_same_store].
  right. exists p. apply find_by_id_Some in Hfind as Hp. destruct Hp as [_ <-].
  split; [done|]. rewrite <-Hs at 1. apply discharge_confirmed_store.
Qed.

(** C40: a discharge preserves the invariant of the store and removes at
    most the patient that was chosen.  From a state where [store_ok]
    holds, whatever the operator types and whatever library call fails, a
    call of [dischargePatient] that returns leaves a state where
    [store_ok] holds; the list and the counters are as before, or the
    list has lost exactly the record of one patient that was in it, the
    count is one less, the id of that patient is no longer found and the
    room is free. *)
Theorem dischargePatient_preserves s s' :
  store_ok s → dischargePatient s = Some (tt, s') →
  store_ok s' ∧
  (same_store s s' ∨
   ∃ p, p ∈ patientHead s ∧
        patientHead s' = without (patientId p) (patientHead s) ∧
        totalPatients s' = totalPatients s - 1 ∧
        patientIDCounter s' = patientIDCounter s ∧
        find_by_id (patientId p) (patientHead s') = None ∧
        isRoomOccupiedInList (roomNumber p) (patientHead s') = ROOM_UNOCCUPIED).
Proof.
  intros Hok [Hs|(p & Hfind & [Hs|(l' & Hun & Hstore)])]%dischargePatient_store;
    [split; [by rewrite <-Hs|by left]..|].
  apply find_by_id_Some in Hfind as [Hp _].
  pose proof (store_ok_unlink s _ _ (world s') Hok Hun) as Hok'.
  pose proof (unlink_by_id_gone s p l' Hok Hp Hun) as [? ?].
  pose proof (store_ok_total_lt s Hok).
  destruct Hstore as (Hhead & Htotal & Hcounter).
  destruct s' as [h' t' c' w']; simpl in *; subst. split; [done|].
  right. exists p. split_and!; try done.
  - destruct Hok as (_ & Hnd & _).
    rewrite unlink_by_id_without in Hun by (done || by apply list_elem_of_fmap_2).
    by injection Hun.
  - apply int_decr_small; unfold in_int, INT_MIN, INT_MAX.
    all: destruct Hok as (_ & _ & _ & _ & _ & Hc); unfold INT_MAX in Hc; lia.
Qed.

(** C5: a confirmed discharge.  When no library call fails, the operator
    types the id of a patient of the list and then [y],
    [dischargePatient] returns: the record is unlinked and the count
    decremented, the image of the record with the current time is
    appended to [discharged_patients.dat], the room number is appended
    to [room_usage.txt], and [patients.dat] holds exactly the images of
    the records that remain. *)
Theorem dischargePatient_ok s id in1 p in2 :
  w_faults (world s) = [] →
  scan_int_lines (w_stdin (world s)) = (Scanned id, in1) →
  find_by_id id (patientHead s) = Some p →
  scan_char_lines (tail in1) = (Scanned "y"%char, in2) →
  ∃ l', unlink_by_id id (patientHead s) = Some l' ∧
    dischargePatient s = Some (tt,
      discharged p l'
        (answered (tail in2)
           ("Enter ID of patient to discharge:" :: confirm_lines p) s)).
Proof.
  intros Hfaults Hid Hfind Hyes.
  destruct (find_by_id_unlink _ _ _ Hfind) as [l' Hun]. exists l'. split; [done|].
  destruct s as [head total counter [files open stdin out err clock faults]].
  cbn in *. subst faults. unfold dischargePatient.
  erewrite (ibind_run_Some (lift (gets patientHead))) by done. cbn [patientHead].
  destruct head as [|q head]; [done|].
  erewrite (ibind_run_Some getPatientToDischarge)
    by (by apply getPatientToDischarge_run).
  rewrite Hfind.
  erewrite (ibind_run_Some (confirmDischarge p))
    by (by apply confirmDischarge_run).
  rewrite bool_decide_true, lift_unit by done.
  apply find_by_id_Some in Hfind as [_ <-].
  rewrite (discharge_confirmed_ok p l') by done.
  unfold answered, set_world, set_stdin, set_stdout; cbn.
  by rewrite <-!(assoc_L (++)).
Qed.

(** A discharge that is not confirmed.  When the operator types the
    id of a patient of the list and then any character but [y],
    [dischargePatient] returns and only the console has changed,
    whatever the schedule of failures: no file is touched and the
    patient stays in the list. *)
Theorem dischargePatient_cancelled s id in1 p ch in2 :
  scan_int_lines (w_stdin (world s)) = (Scanned id, in1) →
  find_by_id id (patientHead s) = Some p →
  scan_char_lines (tail in1) = (Scanned ch, in2) → ch ≠ "y"%char →
  dischargePatient s = Some (tt,
    answered (tail in2)
      ("Enter ID of patient to discharge:" :: confirm_lines p ++
       ["Patient discharge cancelled."]) s).
Proof.
  intros Hid Hfind Hch Hno.
  destruct s as [head total counter [files open stdin out err clock faults]].
  cbn in *. unfold dischargePatient.
  erewrite (ibind_run_Some (lift (gets patientHead))) by done. cbn [patientHead].
  destruct head as [|q head]; [done|].
  erewrite (ibind_run_Some getPatientToDischarge)
    by (by apply getPatientToDischarge_run).
  rewrite Hfind.
  erewrite (ibind_run_Some (confirmDischarge p))
    by (by apply confirmDischarge_run).
  rewrite bool_decide_false, lift_unit by done.
  unfold answered. run_sys. by rewrite <-!(assoc_L (++)).
Qed.

End console.

(** ** The theorems on a concrete system

    The limits of the specification, arrays of 101 and 256 bytes. *)

#[local] Existing Instances spec_limits sample_layout sample_discharged_layout.

(** The operator admits Jane Doe to room 12 on an empty system. *)
Definition sample_console : World :=
  mkWorld ∅ [] ["Jane Doe"; "34"; "Fracture"; "12"] [] [] [1700000000] [].

(** The state after that admission. *)
Definition sample_admitted : Sys :=
  default (boot sample_console) (snd <$> addPatientRecord (boot sample_console)).

(** The state after the discharge of patient 1 of [sample_sys]. *)
Definition sample_discharged : Sys :=
  default (sample_sys [] []) (snd <$> dischargePatient (sample_sys ["1"; "y"] [])).

Ltac decide_by_computation := apply (bool_decide_unpack _); vm_compute; exact I.

Lemma sample_admitted_run :
  addPatientRecord (boot sample_console) = Some (tt, sample_admitted).
Proof. by vm_compute. Qed.

Lemma sample_discharged_run :
  dischargePatient (sample_sys ["1"; "y"] []) = Some (tt, sample_discharged).
Proof. by vm_compute. Qed.

Lemma addPatientRecord_ok_witness :
  ∃ s', addPatientRecord (boot sample_console) = Some (tt, s') ∧
        patientHead s' = [sample_patient 1 12] ∧
        totalPatients s' = 1 ∧ patientIDCounter s' = 2 ∧
        w_files (world s') !! patients_dat = Some (to_bytes (sample_patient 1 12)) ∧
        w_stdin (world s') = [].
Proof.
  eexists. split.
  - apply (addPatientRecord_ok (boot sample_console)
             "Jane Doe" ["34"; "Fracture"; "12"] 34 [""; "Fracture"; "12"]
             "Fracture" ["12"] 12 [""]); try done; try (vm_compute; lia);
      decide_by_computation.
  - by vm_compute.
Defined.

Lemma addPatientRecord_preserves_witness :
  store_ok (boot sample_console) ∧ store_ok sample_admitted ∧
  ∃ p, patientHead sample_admitted = [] ++ [p] ∧ patientId p = 1 ∧
       patientIDCounter sample_admitted = 1 + 1.
Proof.
  split; [apply store_ok_boot|].
  apply (addPatientRecord_preserves (boot sample_console) sample_admitted);
    [vm_compute; lia|apply store_ok_boot|done|done|apply sample_admitted_run].
Defined.

Lemma prompt_fuel_enough_witness :
  retry 100 getPatientName_body (boot sample_console)
    = getPatientName (boot sample_console) ∧
  retry 100 getPatientAge_body (boot sample_console)
    = getPatientAge (boot sample_console) ∧
  retry 100 getPatientDiagnosis_body (boot sample_console)
    = getPatientDiagnosis (boot sample_console) ∧
  retry 100 getRoomNumber_body (boot sample_console)
    = getRoomNumber (boot sample_console).
Proof.
  apply (prompt_fuel_enough 100 (boot sample_console)); vm_compute; lia.
Defined.

(** Room 12 is taken and 99 is no room: the third answer is accepted. *)
Lemma getRoomNumber_free_witness :
  validateRoomNumber 3 ∧
  isRoomOccupiedInList 3 sample_records = ROOM_UNOCCUPIED ∧
  console_only (sample_sys ["12"; "99"; "3"; "rest"] [])
    (answered ["rest"]
       ["Enter Patient Room:"; "Room already occupied. Please choose another room.";
        "Enter Patient Room:"; "Invalid room number. Please try again.";
        "Enter Patient Room:"]
       (sample_sys ["12"; "99"; "3"; "rest"] [])).
Proof.
  apply (getRoomNumber_free (sample_sys ["12"; "99"; "3"; "rest"] [])).
  by vm_compute.
Defined.

Lemma prompts_valid_witness :
  validatePatientName "Jane Doe" ∧
  console_only (boot sample_console)
    (answered ["34"; "Fracture"; "12"] ["Enter Patient Name:"] (boot sample_console)).
Proof.
  apply (prompts_valid (boot sample_console)); [vm_compute; lia|by vm_compute].
Defined.

Lemma record_patient_allocation_failure_witness :
  patientHead (exec (record_patient "John Roe" 50 "Flu" 3)
                 (sample_sys [] [Fail 0])) = [] ∧
  totalPatients (exec (record_patient "John Roe" 50 "Flu" 3)
                   (sample_sys [] [Fail 0])) = int_incr 2 ∧
  patientIDCounter (exec (record_patient "John Roe" 50 "Flu" 3)
                      (sample_sys [] [Fail 0])) = int_incr 3.
Proof.
  by apply (record_patient_allocation_failure "John Roe" 50 "Flu" 3
              (sample_sys [] [Fail 0]) 0 []).
Defined.

Lemma restore_after_admission_witness :
  synced (exec (record_patient "John Roe" 50 "Flu" 3) (sample_sys [] [])) ∧
  same_store
    (exec restoreDataFromFile
       (exec (record_patient "John Roe" 50 "Flu" 3) (sample_sys [] [])))
    (exec (record_patient "John Roe" 50 "Flu" 3) (sample_sys [] [])).
Proof.
  apply (restore_after_admission "John Roe" 50 "Flu" 3 (sample_sys [] []));
    [done|decide_by_computation|done|by vm_compute|decide_by_computation].
Defined.

Lemma discharge_confirmed_archive_failure_witness :
  patientHead (exec (discharge_confirmed (sample_patient 1 12))
                 (sample_sys [] [Fail 0])) = sample_records ∧
  w_files (world (exec (discharge_confirmed (sample_patient 1 12))
                    (sample_sys [] [Fail 0])))
    = w_files (world (sample_sys [] [Fail 0])).
Proof.
  by rewrite (discharge_confirmed_archive_failure (sample_patient 1 12)
                (sample_sys [] [Fail 0]) 0 []).
Defined.

Lemma dischargePatient_preserves_witness :
  store_ok (sample_sys ["1"; "y"] []) ∧ store_ok sample_discharged ∧
  find_by_id 1 (patientHead sample_discharged) = None ∧
  isRoomOccupiedInList 12 (patientHead sample_discharged) = ROOM_UNOCCUPIED.
Proof.
  assert (store_ok (sample_sys ["1"; "y"] [])) as Hok by decide_by_computation.
  split; [done|].
  destruct (dischargePatient_preserves (sample_sys ["1"; "y"] []) sample_discharged
              Hok sample_discharged_run) as [Hok' _].
  split; [done|]. by vm_compute.
Defined.

Lemma dischargePatient_ok_witness :
  ∃ s', dischargePatient (sample_sys ["1"; "y"] []) = Some (tt, s') ∧
        patientHead s' = [sample_patient 2 7] ∧ totalPatients s' = 1 ∧
        w_files (world s') !! patients_dat = Some (encode_all [sample_patient 2 7]) ∧
        w_files (world s') !! room_usage_txt
          = Some (String.list_byte_of_string ("12" +:+ newline)) ∧
        w_files (world s') !! discharged_dat
          = Some (to_bytes (mkDischargedPatient (sample_patient 1 12) 1700000100)).
Proof.
  destruct (dischargePatient_ok (sample_sys ["1"; "y"] []) 1 [""; "y"]
              (sample_patient 1 12) [""]) as (l' & Hun & Hrun); [done..|].
  injection Hun as <-. eexists. split; [exact Hrun|]. clear Hrun.
  vm_compute. repeat split.
Defined.

(** The operator's input for the scenario of the specification: an
    admission to room 12, an admission that asks for room 12 first and
    then for room 7, and the discharge of patient 1. *)
Definition scenario_input : list string :=
  ["Jane Doe"; "34"; "Fracture"; "12";
   "John Roe"; "50"; "Flu"; "12"; "7";
   "1"; "y"].

(** The three commands, with the states after the first and the second. *)
Definition scenario : IProg Sys (Sys * Sys) :=
  _ ← addPatientRecord;
  s1 ← lift get;
  _ ← addPatientRecord;
  s2 ← lift get;
  _ ← dischargePatient;
  mret (s1, s2).

(** The scenario of the specification.  On an empty system, the
    admission of Jane Doe to room 12 gives her the id 1 and occupies the
    room; a second admission that asks for room 12 is told that the room
    is occupied and asked again; after the discharge of patient 1 the
    list holds the second patient only, room 12 is free, the archive
    holds one entry for patient 1 with the time of the discharge,
    [room_usage.txt] holds the line [12], and [patients.dat] holds the
    list. *)
Example admission_and_discharge_scenario :
  ∃ s1 s2 s3,
    scenario (boot (mkWorld ∅ [] scenario_input [] []
                      [1700000000; 1700000060; 1700003600] []))
      = Some ((s1, s2), s3) ∧
    patientHead s1 = [mkPatient 1 "Jane Doe" 34 "Fracture" 12 1700000000] ∧
    isRoomOccupiedInList 12 (patientHead s1) = 1 ∧
    bool_decide ("Room already occupied. Please choose another room."
                   ∈ w_stdout (world s2)) = true ∧
    patientId <$> patientHead s2 = [1; 2] ∧
    roomNumber <$> patientHead s2 = [12; 7] ∧
    patientId <$> patientHead s3 = [2] ∧ totalPatients s3 = 1 ∧
    isRoomOccupiedInList 12 (patientHead s3) = ROOM_UNOCCUPIED ∧
    decode_all (T:=DischargedPatient) (file_content discharged_dat (world s3))
      = [mkDischargedPatient (mkPatient 1 "Jane Doe" 34 "Fracture" 12 1700000000)
           1700003600] ∧
    file_content room_usage_txt (world s3)
      = String.list_byte_of_string ("12" +:+ newline) ∧
    decode_all (T:=Patient) (file_content patients_dat (world s3)) = patientHead s3 ∧
    w_stdin (world s3) = [].
Proof.
  eexists _, _, _. split; [by vm_compute|].
  vm_compute. split_and!; reflexivity.
Qed.

Lemma dischargePatient_cancelled_witness :
  dischargePatient (sample_sys ["1"; "n"] [Fail 0]) = Some (tt,
    answered []
      ("Enter ID of patient to discharge:" :: confirm_lines (sample_patient 1 12) ++
       ["Patient discharge cancelled."]) (sample_sys ["1"; "n"] [Fail 0])).
Proof.
  by apply (dischargePatient_cancelled (sample_sys ["1"; "n"] [Fail 0]) 1 [""; "n"]
              (sample_patient 1 12) "n"%char [""]).
Defined.
