(* ===== verification/Calendar.v ===== *)
(** * Calendar time: [localtime] and [strftime]

    The reports of [src/patient_management.c] turn a [time_t] into a
    broken-down time with [localtime] and print it with
    [strftime (.., "%Y-%m-%d", ..)].  What [localtime] computes depends on
    the time zone of the process, so the calendar is an interface, the
    class [Calendar]: a function from seconds since the epoch to the
    fields of [struct tm] that the program reads.  [utc] is the instance
    for a process that runs in UTC (the proleptic Gregorian calendar, no
    leap seconds); the examples of the development use it.

    [localtime] does not allocate: it fills one struct of the library
    and returns its address (C11 7.27.3: the functions "return a pointer
    to [a] static object" that later calls "may overwrite"; glibc, musl,
    the BSD libc and the Microsoft runtime all reuse one struct per
    thread).  A program that keeps the pointer of an earlier call reads
    the fields of the latest one.  The reporting engine keeps such
    pointers, so its state ([Report.Rep]) holds the content of that
    struct, [localtime] is a command that overwrites it, and a
    dereference reads it. *)

From Stdlib Require Import ZArith Lia.
From stdpp Require Import base tactics list strings pretty.
From S2P Require Import Prelude.

#[local] Open Scope Z_scope.

(** The fields of [struct tm] that the program reads, itself or through
    [strftime]: day of the month (1-31), months since January (0-11),
    years since 1900, days since January 1 (0-365). *)
Record tm : Type := mk_tm {
  tm_mday : Z;
  tm_mon : Z;
  tm_year : Z;
  tm_yday : Z
}.

#[export] Instance tm_eq_dec : EqDecision tm.
Proof. solve_decision. Defined.

(** The calendar of the process: what [localtime] stores for a time. *)
Class Calendar : Type := { broken_down : Z → tm }.

(** ** [strftime] with the format ["%Y-%m-%d"] *)

(** ["%m"] and ["%d"]: two digits, with a leading zero. *)
Definition two_digits (n : Z) : string :=
  if decide (n < 10) then "0" +:+ pretty n else pretty n.

Definition strftime_ymd (t : tm) : string :=
  pretty (1900 + tm_year t) +:+ "-" +:+ two_digits (tm_mon t + 1)
    +:+ "-" +:+ two_digits (tm_mday t).

(** ** The calendar of a process in UTC *)

Definition is_leap (y : Z) : bool :=
  bool_decide (y `mod` 4 = 0) &&
  (negb (bool_decide (y `mod` 100 = 0)) || bool_decide (y `mod` 400 = 0)).

(** The date of day [doe] of a cycle of 400 years that starts on a
    March 1: the year of the cycle, the day of that year (both counted
    from March 1) and the month (0 is March). *)
Definition year_of_era (doe : Z) : Z :=
  (doe - doe `div` 1460 + doe `div` 36524 - doe `div` 146096) `div` 365.

Definition day_of_year (doe : Z) : Z :=
  let yoe := year_of_era doe in doe - (365 * yoe + yoe `div` 4 - yoe `div` 100).

Definition month_from_march (doy : Z) : Z := (5 * doy + 2) `div` 153.

Definition utc_broken_down (timer : Z) : tm :=
  let z := timer `div` 86400 + 719468 in
  let era := z `div` 146097 in
  let doe := z `mod` 146097 in
  let doy := day_of_year doe in
  let mp := month_from_march doy in
  let m := if decide (mp < 10) then mp + 3 else mp - 9 in
  let y := year_of_era doe + era * 400 + (if decide (m ≤ 2) then 1 else 0) in
  mk_tm (doy - (153 * mp + 2) `div` 5 + 1) (m - 1) (y - 1900)
    (if decide (mp < 10) then doy + 59 + (if is_leap y then 1 else 0)
     else doy - 306).

Definition utc : Calendar := {| broken_down := utc_broken_down |}.

(** Two instants whose dates are known: 14 November 2023 and the last
    second of the leap year 2024. *)
Lemma utc_2023_11_14 :
  utc_broken_down 1700000000 = mk_tm 14 10 123 317 ∧
  strftime_ymd (utc_broken_down 1700000000) = "2023-11-14".
Proof. by vm_compute. Qed.

Lemma utc_2024_12_31 :
  utc_broken_down 1735689599 = mk_tm 31 11 124 365 ∧
  strftime_ymd (utc_broken_down 1735689599) = "2024-12-31".
Proof. by vm_compute. Qed.
