(* ===== verification/Report.v ===== *)
(** * The reporting engine

    The reports of [src/patient_management.c]: the admissions of a
    period ([displayPatientReport], [printFormattedReport],
    [countPatientsByTimeframe]), the discharges of a period
    ([displayDischargedPatientReport], [printDischargedFormattedReport],
    [countDischargedPatientsByTimeframe]) and the use of the rooms
    ([displayRoomUsageReport]).

    The state of a report is [Rep]: the state of the program and the
    content of the one struct that [localtime] fills ([Calendar]).  A
    pointer that [localtime] returned is the address of that struct, so
    reading a field through it ([arrow]) reads what the latest call
    stored.  [countPatientsByTimeframe] copies the fields of the current
    time into variables before its loop; the three other loops keep the
    pointer [currentTime] and call [localtime] again, after which
    [currentTime] and the pointer of the record's time are equal.

    [difftime (now, t) / 3600] converted to [int] is the quotient of
    the integers truncated towards zero ([hours_since]): the difference of two
    times is exact in a [double], and so is the truncation of its
    quotient, as long as the result is an [int].

    The loops over a file run on fuel, one more than the number of bytes
    of the file: each iteration consumes at least one byte
    ([while_fread_ok], [read_rooms_total]). *)

From Stdlib Require Import ZArith Lia Ascii.
From Stdlib.Strings Require Import Byte.
From stdpp Require Import base tactics list strings pretty gmap.
From S2P Require Import Prelude Patient Layout Env Store Persist Calendar.

#[local] Open Scope Z_scope.

Definition patient_reports_txt : string := "patient_reports.txt".
Definition discharged_reports_txt : string := "discharged_reports.txt".

(** ** Formatting *)

Fixpoint spaces (n : nat) : string :=
  match n with
  | O => EmptyString
  | S n => String " " (spaces n)
  end.

(** The conversions ["%-5d"], ["%-15s"], ...: the text, then spaces up
    to the width. *)
Definition left_justify (width : nat) (text : string) : string :=
  text +:+ spaces (width - String.length text).

(** The line of a record in a report; [label] is ["Admitted"] or
    ["Discharged"]. *)
Definition report_row (label : string) (p : Patient) (date : string) : string :=
  "| ID: " +:+ left_justify 5 (pretty (patientId p))
  +:+ " Name: " +:+ left_justify 15 (name p)
  +:+ " | Age: " +:+ left_justify 3 (pretty (ageInYears p))
  +:+ " Room: " +:+ left_justify 5 (pretty (roomNumber p))
  +:+ " Diagnosis: " +:+ left_justify 20 (diagnosis p)
  +:+ " | " +:+ label +:+ ": " +:+ left_justify 10 date +:+ " |".

(** A line of the console as it is written to a file. *)
Definition with_newline (line : string) : string := line +:+ newline.

Definition rule : string := "---------------------------------------".
Definition double_rule : string := "=======================================".

(** ** The state of a report *)

Record Rep : Type := mkRep {
  tmbuf : tm;
  sys : Sys
}.

Definition rworld (r : Rep) : World := world (sys r).

Definition set_tmbuf (f : tm → tm) (r : Rep) : Rep := mkRep (f (tmbuf r)) (sys r).
Definition set_sys (f : Sys → Sys) (r : Rep) : Rep := mkRep (tmbuf r) (f (sys r)).

(** A command of the program, and a library call, inside a report. *)
Definition in_sys {A} (m : Prog Sys A) : Prog Rep A := λ r,
  let '(a, s) := m (sys r) in (a, set_sys (λ _, s) r).

Definition out {A} (m : Prog World A) : Prog Rep A := in_sys (env m).

Section report.
Context `{!Calendar} `{!Layout DischargedPatient}.

(** [localtime (&timer)]: the struct is overwritten; the pointer that is
    returned is always the same. *)
Definition localtime (timer : Z) : Prog Rep unit :=
  modify (set_tmbuf (λ _, broken_down timer)).

(** [p->field] for a pointer [p] that [localtime] returned. *)
Definition arrow {A} (field : tm → A) : Prog Rep A := gets (λ r, field (tmbuf r)).

(** ** The periods *)

(** [(int) (difftime (now, stamp) / 3600)]. *)
Definition hours_since (now stamp : Z) : Z := (now - stamp) `quot` 3600.

(** The test that selects a record: the period asked for (1 a day, 2 a
    week, 3 a month) and the three conditions computed for the record. *)
Definition in_timeframe (timeframe : Z) (past24Hours sameWeek sameMonth : bool) : bool :=
  bool_decide (timeframe = 1) && past24Hours ||
  bool_decide (timeframe = 2) && sameWeek ||
  bool_decide (timeframe = 3) && sameMonth.

(** ** Admissions *)

(** The loop of [countPatientsByTimeframe]: the fields of the current
    time are in variables. *)
Fixpoint count_admitted (timeframe now currentYear currentDayOfYear currentMonth : Z)
    (current : list Patient) (count : Z) : Prog Rep Z :=
  match current with
  | [] => mret count
  | p :: nextNode =>
      let admissionTimestamp := admissionDate p in
      _ ← localtime admissionTimestamp;
      admissionYear ← arrow tm_year;
      admissionDayOfYear ← arrow tm_yday;
      admissionMonth ← arrow tm_mon;
      let hoursDiff := hours_since now admissionTimestamp in
      let past24Hours := bool_decide (hoursDiff ≤ 24) in
      let sameWeek := bool_decide (admissionYear = currentYear) &&
                      bool_decide (wrap_int (currentDayOfYear - admissionDayOfYear) < 7) in
      let sameMonth := bool_decide (admissionYear = currentYear) &&
                       bool_decide (admissionMonth = currentMonth) in
      count_admitted timeframe now currentYear currentDayOfYear currentMonth nextNode
        (if in_timeframe timeframe past24Hours sameWeek sameMonth
         then int_incr count else count)
  end.

Definition countPatientsByTimeframe (timeframe : Z) : Prog Rep Z :=
  head ← in_sys (gets patientHead);
  match head with
  | [] => _ ← out (puts "No patients admitted!"); mret 0
  | _ =>
      now ← out time_now;
      _ ← localtime now;
      currentYear ← arrow tm_year;
      currentDayOfYear ← arrow tm_yday;
      currentMonth ← arrow tm_mon;
      count_admitted timeframe now currentYear currentDayOfYear currentMonth head 0
  end.

(** The loop of [printFormattedReport].  [currentTime] was set before
    the loop and [admissionTime] is set by the call of this iteration:
    both are the address of the struct of [localtime]. *)
Fixpoint print_admitted (file : FILE) (timeframe now : Z) (patient : list Patient)
    : Prog Rep unit :=
  match patient with
  | [] => mret tt
  | p :: nextNode =>
      let admissionTimestamp := admissionDate p in
      _ ← localtime admissionTimestamp;
      let hoursDiff := hours_since now admissionTimestamp in
      let past24Hours := bool_decide (hoursDiff ≤ 24) in
      admissionTime_year ← arrow tm_year;
      currentTime_year ← arrow tm_year;
      currentTime_yday ← arrow tm_yday;
      admissionTime_yday ← arrow tm_yday;
      admissionTime_mon ← arrow tm_mon;
      currentTime_mon ← arrow tm_mon;
      let sameWeek := bool_decide (admissionTime_year = currentTime_year) &&
                      bool_decide (wrap_int (currentTime_yday - admissionTime_yday) < 7) in
      let sameMonth := bool_decide (admissionTime_year = currentTime_year) &&
                       bool_decide (admissionTime_mon = currentTime_mon) in
      _ ← (if in_timeframe timeframe past24Hours sameWeek sameMonth then
             admissionDateStr ← arrow strftime_ymd;
             _ ← out (puts (report_row "Admitted" p admissionDateStr));
             _ ← out (puts rule);
             _ ← out (fprintf file (with_newline (report_row "Admitted" p admissionDateStr)));
             _ ← out (fprintf file (with_newline rule));
             mret tt
           else mret tt);
      print_admitted file timeframe now nextNode
  end.

Definition printFormattedReport (file : FILE) (header : string) (result timeframe : Z)
    : Prog Rep unit :=
  now ← out time_now;
  _ ← localtime now;
  currentTimeStr ← arrow strftime_ymd;
  _ ← out (puts (header +:+ " - " +:+ currentTimeStr));
  _ ← out (puts double_rule);
  _ ← out (puts ("Total patients admitted: " +:+ pretty result));
  _ ← out (puts rule);
  _ ← out (fprintf file (with_newline (header +:+ " - " +:+ currentTimeStr)));
  _ ← out (fprintf file (with_newline double_rule));
  _ ← out (fprintf file (with_newline ("Total patients admitted: " +:+ pretty result)));
  _ ← out (fprintf file (with_newline rule));
  if decide (result = 0) then
    _ ← out (puts "| No patients admitted in this timeframe |");
    _ ← out (puts rule);
    _ ← out (fprintf file (with_newline ("| No patients admitted in this timeframe |")));
    _ ← out (fprintf file (with_newline rule));
    mret tt
  else
    patient ← in_sys (gets patientHead);
    print_admitted file timeframe now patient.

Definition displayPatientReport (choice : Z) : Prog Rep unit :=
  result ← countPatientsByTimeframe choice;
  file ← out (fopen patient_reports_txt AppendMode);
  match file with
  | None => out (puts "Error opening file for writing!")
  | Some file =>
      _ ← out (fprintf file newline);
      _ ← printFormattedReport file "   Patient Admission Report - Daily" result choice;
      _ ← out (fclose file);
      out (puts (newline +:+ "Report successfully written to patient_reports.txt"))
  end.

(** ** Discharges *)

(** [while (fread (&x, sizeof x, 1, file) == 1) body]: [acc] stands for
    the variables that the body updates.  Without fuel there is no
    result. *)
Fixpoint while_fread {T} `{!Layout T} {A} (fuel : nat) (file : FILE)
    (body : T → A → Prog Rep A) (acc : A) : Prog Rep (option A * FILE) :=
  match fuel with
  | O => mret (None, file)
  | S fuel =>
      '(record, file) ← out (fread file);
      match record with
      | None => mret (Some acc, file)
      | Some record =>
          acc ← body record acc;
          while_fread fuel file body acc
      end
  end.

(** The three conditions for a record of the archive, as the two loops
    over the archive compute them after their call of [localtime]:
    [currentTime] and [dischargeTime] are the address of the struct that
    this call filled. *)
Definition discharge_conditions (now dischargeTimestamp : Z) : Prog Rep (bool * bool * bool) :=
  let hoursDiff := hours_since now dischargeTimestamp in
  let past24Hours := bool_decide (hoursDiff ≤ 24) in
  dischargeTime_year ← arrow tm_year;
  currentTime_year ← arrow tm_year;
  currentTime_yday ← arrow tm_yday;
  dischargeTime_yday ← arrow tm_yday;
  dischargeTime_mon ← arrow tm_mon;
  currentTime_mon ← arrow tm_mon;
  let sameWeek := bool_decide (dischargeTime_year = currentTime_year) &&
                  bool_decide (wrap_int (currentTime_yday - dischargeTime_yday) < 7) in
  let sameMonth := bool_decide (dischargeTime_year = currentTime_year) &&
                   bool_decide (dischargeTime_mon = currentTime_mon) in
  mret (past24Hours, sameWeek, sameMonth).

(** The body of the loop of [countDischargedPatientsByTimeframe]. *)
Definition count_discharged (timeframe now : Z) (dischargedPatient : DischargedPatient)
    (count : Z) : Prog Rep Z :=
  _ ← localtime (dischargeDate dischargedPatient);
  '(past24Hours, sameWeek, sameMonth) ←
    discharge_conditions now (dischargeDate dischargedPatient);
  mret (if in_timeframe timeframe past24Hours sameWeek sameMonth
        then int_incr count else count).

Definition countDischargedPatientsByTimeframe (timeframe : Z) : Prog Rep Z :=
  file ← out (fopen discharged_dat ReadMode);
  match file with
  | None => _ ← out (puts "No discharged patients found!"); mret 0
  | Some file =>
      now ← out time_now;
      _ ← localtime now;
      size ← gets (λ r, length (file_content discharged_dat (rworld r)));
      '(count, file) ← while_fread (S size) file (count_discharged timeframe now) 0;
      _ ← out (fclose file);
      mret (default 0 count)
  end.

(** The body of the loop of [printDischargedFormattedReport]. *)
Definition print_discharged (file : FILE) (timeframe now : Z)
    (dischargedPatient : DischargedPatient) (_ : unit) : Prog Rep unit :=
  _ ← localtime (dischargeDate dischargedPatient);
  dischargeDateStr ← arrow strftime_ymd;
  '(past24Hours, sameWeek, sameMonth) ←
    discharge_conditions now (dischargeDate dischargedPatient);
  if in_timeframe timeframe past24Hours sameWeek sameMonth then
    let row := report_row "Discharged" (patient dischargedPatient) dischargeDateStr in
    _ ← out (puts row);
    _ ← out (fprintf file (with_newline row));
    _ ← out (puts rule);
    _ ← out (fprintf file (with_newline rule));
    mret tt
  else mret tt.

Definition printDischargedFormattedReport (file : FILE) (header : string)
    (result timeframe : Z) : Prog Rep unit :=
  now ← out time_now;
  _ ← localtime now;
  currentTimeStr ← arrow strftime_ymd;
  _ ← out (puts (header +:+ " - " +:+ currentTimeStr));
  _ ← out (puts double_rule);
  _ ← out (puts ("Total patients discharged: " +:+ pretty result));
  _ ← out (puts rule);
  _ ← out (fprintf file (with_newline (header +:+ " - " +:+ currentTimeStr)));
  _ ← out (fprintf file (with_newline double_rule));
  _ ← out (fprintf file (with_newline ("Total patients discharged: " +:+ pretty result)));
  _ ← out (fprintf file (with_newline rule));
  if decide (result = 0) then
    _ ← out (puts "| No patients discharged in this timeframe |");
    _ ← out (puts rule);
    _ ← out (fprintf file (with_newline ("| No patients discharged in this timeframe |")));
    _ ← out (fprintf file (with_newline rule));
    mret tt
  else
    fileRead ← out (fopen discharged_dat ReadMode);
    match fileRead with
    | None => out (puts "Error opening file to read discharged patients.")
    | Some fileRead =>
        size ← gets (λ r, length (file_content discharged_dat (rworld r)));
        '(_, fileRead) ← while_fread (S size) fileRead (print_discharged file timeframe now) tt;
        _ ← out (fclose fileRead);
        mret tt
    end.

Definition displayDischargedPatientReport (choice : Z) : Prog Rep unit :=
  result ← countDischargedPatientsByTimeframe choice;
  file ← out (fopen discharged_reports_txt AppendMode);
  match file with
  | None => out (puts "Error opening file for writing!")
  | Some file =>
      _ ← out (fprintf file newline);
      _ ← printDischargedFormattedReport file "   Discharged Patient Report - Weekly"
            result choice;
      _ ← out (fclose file);
      out (puts (newline +:+
                 "Discharge Report successfully written to discharged_reports.txt"))
  end.

End report.

(** ** Rooms *)

(** The loop that reads [room_usage.txt]: the array of counts and the
    two totals when [fscanf] stops returning 1. *)
Fixpoint read_rooms (fuel : nat) (file : FILE) (roomCounts : list Z)
    (totalEntries validEntries : Z) : Prog World (option (list Z * Z * Z) * FILE) :=
  match fuel with
  | O => mret (None, file)
  | S fuel =>
      '(scanned, file) ← fscanf_d file;
      match scanned with
      | Scanned roomNumber =>
          let totalEntries := int_incr totalEntries in
          if decide (1 ≤ roomNumber ∧ roomNumber ≤ 50) then
            read_rooms fuel file (alter int_incr (Z.to_nat roomNumber) roomCounts)
              totalEntries (int_incr validEntries)
          else
            _ ← fprintf_stderr ("Warning: Found invalid room number '" +:+
                   pretty roomNumber +:+ "' in room_usage.txt");
            read_rooms fuel file roomCounts totalEntries validEntries
      | _ => mret (Some (roomCounts, totalEntries, validEntries), file)
      end
  end.

(** The loop that prints the rooms that were used: [rooms] are the
    values of [i] that are left. *)
Fixpoint print_rooms (rooms : list Z) (roomCounts : list Z) (roomsReported : Z)
    : Prog World Z :=
  match rooms with
  | [] => mret roomsReported
  | i :: rooms =>
      let count := default 0 (roomCounts !! Z.to_nat i) in
      if decide (0 < count) then
        _ ← puts (left_justify 4 (pretty i) +:+ " | " +:+ pretty count);
        print_rooms rooms roomCounts (int_incr roomsReported)
      else print_rooms rooms roomCounts roomsReported
  end.

Definition displayRoomUsageReport : Prog World unit :=
  file ← fopen room_usage_txt ReadMode;
  let roomCounts := replicate (50 + 1) 0 in
  _ ← puts (newline +:+ "--- Room Usage Report ---");
  match file with
  | None => puts "Error opening room_usage.txt for reading"
  | Some file =>
      size ← gets (λ w, length (file_content room_usage_txt w));
      '(read, file) ← read_rooms (S size) file roomCounts 0 0;
      let '(roomCounts, totalEntries, validEntries) := default (roomCounts, 0, 0) read in
      _ ← fclose file;
      _ ← puts "Room | Usage Count";
      _ ← puts "-----|------------";
      roomsReported ← print_rooms (seqZ 1 50) roomCounts 0;
      _ ← when (bool_decide (roomsReported = 0) && bool_decide (validEntries = 0))
            (puts "No valid room usage data found in the file.");
      _ ← puts "-------------------------";
      _ ← puts ("Total entries read: " +:+ pretty totalEntries);
      _ ← puts ("Valid rooms logged: " +:+ pretty validEntries);
      puts "-------------------------"
  end.

(** ** Running a report *)

(** A change of the environment of a report. *)
Definition on_world (f : World → World) : Rep → Rep := set_sys (set_world f).

(** The bytes of the texts written to a file. *)
Definition text_bytes (texts : list string) : list byte :=
  texts ≫= String.list_byte_of_string.

(** The state when [lines] went to the console and [texts] to the end of
    the file [path]. *)
Definition emit (lines : list string) (path : string) (texts : list string) : Rep → Rep :=
  on_world (λ w, set_stdout (λ o, o ++ lines) (append_bytes path (text_bytes texts) w)).

Section run.
Implicit Types (r : Rep) (w : World).

Lemma set_stdout_nil w : set_stdout (λ o, o ++ []) w = w.
Proof. destruct w. unfold set_stdout; simpl. by rewrite app_nil_r. Qed.

Lemma set_stdout_twice a b w :
  set_stdout (λ o, o ++ b) (set_stdout (λ o, o ++ a) w) = set_stdout (λ o, o ++ a ++ b) w.
Proof. destruct w. unfold set_stdout; simpl. by rewrite app_assoc. Qed.

Lemma on_world_id r : on_world (λ w, w) r = r.
Proof. by destruct r as [? []]. Qed.

Lemma sys_on_world f r : sys (on_world f r) = set_world f (sys r).
Proof. done. Qed.

Lemma set_world_twice f g s : set_world g (set_world f s) = set_world (λ w, g (f w)) s.
Proof. by destruct s. Qed.

Lemma on_world_same r : on_world (λ _, rworld r) r = r.
Proof. by destruct r as [? []]. Qed.

Lemma on_world_twice f g r : on_world g (on_world f r) = on_world (λ w, g (f w)) r.
Proof. by destruct r as [? []]. Qed.

Lemma on_world_ext f g r : f (rworld r) = g (rworld r) → on_world f r = on_world g r.
Proof.
  destruct r as [? []]. unfold on_world, set_sys, set_world, rworld; simpl.
  by intros ->. Qed.

Lemma out_run {A} (m : Prog World A) r :
  out m r = ((m (rworld r)).1, on_world (λ _, (m (rworld r)).2) r).
Proof.
  unfold out, in_sys, env, rworld. destruct r as [b [h t c w]]; simpl.
  by destruct (m w).
Qed.

Lemma emit_nil path r : emit [] path [] r = r.
Proof.
  unfold emit. rewrite <-(on_world_id r) at 2. apply on_world_ext.
  by rewrite append_bytes_nil, set_stdout_nil.
Qed.

Lemma emit_emit l1 l2 path t1 t2 r :
  emit l2 path t2 (emit l1 path t1 r) = emit (l1 ++ l2) path (t1 ++ t2) r.
Proof.
  unfold emit. rewrite on_world_twice. apply on_world_ext.
  unfold text_bytes. rewrite bind_app, <-append_bytes_twice.
  destruct (rworld r); unfold set_stdout, append_bytes, set_files; simpl. by rewrite app_assoc.
Qed.

Lemma rworld_emit_faults l path t r : w_faults (rworld (emit l path t r)) = w_faults (rworld r).
Proof. by destruct r as [? [? ? ? []]]. Qed.

Lemma set_tmbuf_emit f l path t r :
  emit l path t (set_tmbuf f r) = set_tmbuf f (emit l path t r).
Proof. by destruct r as [? []]. Qed.

Lemma set_tmbuf_twice f g r : set_tmbuf g (set_tmbuf f r) = set_tmbuf (λ b, g (f b)) r.
Proof. by destruct r. Qed.

Lemma rworld_set_tmbuf f r : rworld (set_tmbuf f r) = rworld r.
Proof. done. Qed.

Lemma out_puts_console text r :
  out (puts text) r = (tt, on_world (set_stdout (λ o, o ++ [text])) r).
Proof. by rewrite out_run. Qed.

Lemma out_puts path text r : out (puts text) r = (tt, emit [text] path [] r).
Proof.
  rewrite out_run. unfold emit. f_equal. apply on_world_ext.
  by rewrite append_bytes_nil.
Qed.

Lemma out_fprintf f text r :
  w_faults (rworld r) = [] →
  out (fprintf f text) r = (true, emit [] (f_path f) [text] r).
Proof.
  intros Hf. rewrite out_run, fprintf_ok by done. unfold emit. cbn [fst snd]. f_equal.
  apply on_world_ext. unfold text_bytes. cbn.
  by rewrite set_stdout_nil, app_nil_r.
Qed.

(** [fopen] in append mode creates the file when it is missing. *)
Definition touched (path : string) (fs : gmap string (list byte))
    : gmap string (list byte) :=
  <[path := default [] (fs !! path)]> fs.

Lemma fopen_append_ok path w :
  w_faults w = [] →
  fopen path AppendMode w =
  (Some (mkFILE path 0), set_open (cons path) (set_files (touched path) w)).
Proof.
  destruct w as [files open stdin stdout stderr clock faults]; simpl. intros ->.
  unfold fopen, touched, set_open, set_files. run_env.
  destruct (files !! path) eqn:Hp; cbn; [|done]. by rewrite insert_id.
Qed.

Lemma rworld_on_world f r : rworld (on_world f r) = f (rworld r).
Proof. by destruct r as [? []]. Qed.

Lemma sys_on_world_head f r : patientHead (sys (on_world f r)) = patientHead (sys r).
Proof. by destruct r as [? []]. Qed.

Lemma out_fopen_append path r :
  w_faults (rworld r) = [] →
  out (fopen path AppendMode) r =
  (Some (mkFILE path 0),
   on_world (λ w, set_open (cons path) (set_files (touched path) w)) r).
Proof.
  intros Hf. by rewrite out_run, fopen_append_ok.
Qed.

Lemma out_fclose f r :
  w_faults (rworld r) = [] →
  out (fclose f) r = (true, on_world (set_open (remove_first (f_path f))) r).
Proof.
  intros Hf. by rewrite out_run, fclose_ok.
Qed.

Lemma out_pure {A} (m : Prog World A) a r :
  m (rworld r) = (a, rworld r) → out m r = (a, r).
Proof.
  intros Hm. rewrite out_run, Hm. cbn [fst snd]. f_equal.
  rewrite <-(on_world_id r) at 2. by apply on_world_ext.
Qed.

Lemma out_time_now now r : w_clock (rworld r) = [now] → out time_now r = (now, r).
Proof. intros Hc. apply out_pure. unfold time_now. by rewrite Hc. Qed.

Lemma rworld_emit_clock l path t r : w_clock (rworld (emit l path t r)) = w_clock (rworld r).
Proof. by destruct r as [? [? ? ? []]]. Qed.

Lemma sys_emit_head l path t r :
  patientHead (sys (emit l path t r)) = patientHead (sys r).
Proof. by destruct r as [? []]. Qed.

(** The state when a report of [lines] on the console and [texts] in the
    file [path] is complete. *)
Definition written (lines : list string) (path : string) (texts : list string)
    : Rep → Rep :=
  on_world (λ w, set_stdout (λ o, o ++ lines)
                   (set_files (appended path (text_bytes texts)) w)).

Lemma written_closed lines path texts r :
  on_world (set_open (remove_first path))
    (emit lines path texts
       (on_world (λ w, set_open (cons path) (set_files (touched path) w)) r))
  = written lines path texts r.
Proof.
  unfold emit, written. rewrite !on_world_twice. apply on_world_ext.
  destruct (rworld r) as [files open stdin stdout stderr clock faults].
  unfold set_open, set_stdout, append_bytes, set_files, touched, appended; cbn.
  by rewrite decide_True, alter_insert_eq by done.
Qed.

Lemma written_written l1 l2 path t1 t2 r :
  written l2 path t2 (written l1 path t1 r) = written (l1 ++ l2) path (t1 ++ t2) r.
Proof.
  unfold written. rewrite on_world_twice. apply on_world_ext.
  destruct (rworld r) as [files open stdin stdout stderr clock faults].
  unfold set_stdout, set_files, appended, text_bytes; cbn.
  rewrite lookup_insert_eq, insert_insert_eq, bind_app; cbn. by rewrite !app_assoc.
Qed.

End run.


(** ** The periods, as specifications *)

Section periods.
Context `{!Calendar}.

Definition same_week (current record : tm) : bool :=
  bool_decide (tm_year record = tm_year current) &&
  bool_decide (wrap_int (tm_yday current - tm_yday record) < 7).

Definition same_month (current record : tm) : bool :=
  bool_decide (tm_year record = tm_year current) &&
  bool_decide (tm_mon record = tm_mon current).

(** The test of a record's time [stamp] against the current time, when
    the fields of the current time are those of [current]. *)
Definition within (timeframe now : Z) (current : tm) (stamp : Z) : bool :=
  in_timeframe timeframe (bool_decide (hours_since now stamp ≤ 24))
    (same_week current (broken_down stamp)) (same_month current (broken_down stamp)).

(** The test that a loop computes when it reads the current time through
    the pointer it kept: a week and a month select every record. *)
Definition listed (timeframe now stamp : Z) : bool :=
  bool_decide (timeframe = 1) && bool_decide (hours_since now stamp ≤ 24) ||
  bool_decide (timeframe = 2) || bool_decide (timeframe = 3).

(** The struct of [localtime] after calls for [stamps]. *)
Definition stamped (stamps : list Z) : Rep → Rep :=
  set_tmbuf (λ b, foldl (λ _ stamp, broken_down stamp) b stamps).

Lemma same_week_refl t : same_week t t = true.
Proof.
  unfold same_week. rewrite Z.sub_diag, bool_decide_true by done.
  by rewrite bool_decide_true.
Qed.

Lemma same_month_refl t : same_month t t = true.
Proof. unfold same_month. by rewrite !bool_decide_true. Qed.

Lemma within_same_struct timeframe now stamp :
  within timeframe now (broken_down stamp) stamp = listed timeframe now stamp.
Proof.
  unfold within, listed, in_timeframe.
  by rewrite same_week_refl, same_month_refl, !andb_true_r.
Qed.

Lemma stamped_nil r : stamped [] r = r.
Proof. by destruct r. Qed.

Lemma stamped_cons stamp stamps r :
  stamped (stamp :: stamps) r = stamped stamps (set_tmbuf (λ _, broken_down stamp) r).
Proof. by destruct r. Qed.

Lemma stamped_emit stamps l path t r :
  stamped stamps (emit l path t r) = emit l path t (stamped stamps r).
Proof. by destruct r as [? []]. Qed.

Lemma sys_stamped stamps r : sys (stamped stamps r) = sys r.
Proof. done. Qed.

Lemma rworld_stamped stamps r : rworld (stamped stamps r) = rworld r.
Proof. done. Qed.

(** ** The count of the admissions *)

Lemma count_admitted_ok timeframe now current l count r :
  count_admitted timeframe now (tm_year current) (tm_yday current) (tm_mon current)
    l count r =
  (incr_times (length (filter (λ p, within timeframe now current (admissionDate p)) l))
     count,
   stamped (admissionDate <$> l) r).
Proof.
  revert count r. induction l as [|p l IH]; intros count r.
  { by rewrite stamped_nil. }
  cbn [count_admitted]. unfold localtime, arrow. prog_unfold.
  cbn [fst snd tmbuf set_tmbuf]. rewrite IH, fmap_cons, stamped_cons, filter_cons.
  fold (same_week current (broken_down (admissionDate p))).
  fold (same_month current (broken_down (admissionDate p))).
  fold (within timeframe now current (admissionDate p)).
  destruct (within _ _ _ _); [by rewrite decide_True|].
  by rewrite decide_False by (by intros ?).
Qed.

End periods.

(** The schedule of failures is still empty after output and calls of
    [localtime]. *)
Ltac no_faults :=
  rewrite ?rworld_emit_faults, ?rworld_emit_clock, ?rworld_stamped, ?rworld_set_tmbuf,
    ?rworld_on_world, ?rworld_emit_faults, ?rworld_emit_clock;
  first [assumption | done].

(** Run the console and file output at the head of the goal; [path] is
    the file the output goes to. *)
Ltac emit_steps path :=
  repeat (rewrite bind_run;
          first [ rewrite (out_puts path)
                | rewrite out_fprintf by no_faults ];
          cbn [fst snd f_path]; rewrite ?emit_emit);
  rewrite ?ret_run; cbn [fst snd app].


(** Run the calls of [localtime] and the reads of its struct at the head
    of the goal. *)
Ltac tm_steps :=
  unfold localtime, arrow;
  repeat (rewrite bind_run; progress cbn [modify gets fst snd tmbuf set_tmbuf]).

(** ** The report of the admissions *)

Section admission_report.
Context `{!Calendar}.
Implicit Types (r : Rep) (p : Patient).

(** The lines of the records that [print_admitted] selects. *)
Definition admitted_rows (timeframe now : Z) (l : list Patient) : list string :=
  filter (λ p, listed timeframe now (admissionDate p)) l ≫= λ p,
    [report_row "Admitted" p (strftime_ymd (broken_down (admissionDate p))); rule].

Lemma admitted_rows_cons timeframe now p l :
  admitted_rows timeframe now (p :: l) =
  (if listed timeframe now (admissionDate p)
   then [report_row "Admitted" p (strftime_ymd (broken_down (admissionDate p))); rule]
   else []) ++ admitted_rows timeframe now l.
Proof.
  unfold admitted_rows. rewrite filter_cons.
  destruct (listed _ _ _); [by rewrite decide_True|].
  by rewrite decide_False by (by intros ?).
Qed.

Lemma print_admitted_ok file timeframe now l r :
  w_faults (rworld r) = [] →
  print_admitted file timeframe now l r =
  (tt, emit (admitted_rows timeframe now l) (f_path file)
         (with_newline <$> admitted_rows timeframe now l)
         (stamped (admissionDate <$> l) r)).
Proof.
  revert r. induction l as [|p l IH]; intros r Hf.
  { by rewrite stamped_nil, emit_nil. }
  cbn [print_admitted]. unfold localtime, arrow.
  rewrite !bind_run. cbn [modify gets fst snd tmbuf set_tmbuf].
  fold (same_week (broken_down (admissionDate p)) (broken_down (admissionDate p))).
  fold (same_month (broken_down (admissionDate p)) (broken_down (admissionDate p))).
  fold (within timeframe now (broken_down (admissionDate p)) (admissionDate p)).
  rewrite within_same_struct, admitted_rows_cons, fmap_cons, stamped_cons.
  destruct (listed _ _ _).
  - rewrite bind_run. cbn [gets fst snd tmbuf set_tmbuf]. emit_steps (f_path file).
    rewrite IH by no_faults.
    by rewrite stamped_emit, emit_emit.
  - by rewrite ret_run, IH.
Qed.

(** The head of a report: title and date, count. *)
Definition report_head (header date what : string) (result : Z) : list string :=
  [header +:+ " - " +:+ date; double_rule; what +:+ pretty result; rule].

(** The lines of [printFormattedReport]. *)
Definition admission_lines (header : string) (result timeframe now : Z)
    (l : list Patient) : list string :=
  report_head header (strftime_ymd (broken_down now)) "Total patients admitted: " result
  ++ (if decide (result = 0) then ["| No patients admitted in this timeframe |"; rule]
      else admitted_rows timeframe now l).

Lemma printFormattedReport_ok file header result timeframe now r :
  w_faults (rworld r) = [] → w_clock (rworld r) = [now] →
  printFormattedReport file header result timeframe r =
  (tt, let lines := admission_lines header result timeframe now (patientHead (sys r)) in
       emit lines (f_path file) (with_newline <$> lines)
         (stamped (now :: if decide (result = 0) then []
                          else admissionDate <$> patientHead (sys r)) r)).
Proof.
  intros Hf Hc. unfold printFormattedReport, admission_lines.
  rewrite bind_run, (out_time_now now) by done. cbn [fst snd]. tm_steps.
  emit_steps (f_path file). rewrite stamped_cons.
  case_decide.
  - emit_steps (f_path file). by rewrite stamped_nil.
  - rewrite bind_run. unfold in_sys. cbn [gets fst snd set_sys].
    replace (set_sys _ _) with
      (emit (report_head header (strftime_ymd (broken_down now))
               "Total patients admitted: " result) (f_path file)
         (with_newline <$> report_head header (strftime_ymd (broken_down now))
               "Total patients admitted: " result)
         (set_tmbuf (λ _, broken_down now) r)) by (by destruct r as [? []]).
    rewrite print_admitted_ok by no_faults.
    rewrite stamped_emit, emit_emit, sys_emit_head, fmap_app. done.
Qed.

End admission_report.

(** ** Theorems on the report of the admissions *)

Section admission_theorems.
Context `{!Calendar}.
Implicit Types (r : Rep) (p : Patient).

(** The records that [countPatientsByTimeframe] counts at time [now]. *)
Definition admitted_within (timeframe now : Z) (l : list Patient) : list Patient :=
  filter (λ p, within timeframe now (broken_down now) (admissionDate p)) l.

Lemma countPatientsByTimeframe_run timeframe r :
  let now := (time_now (rworld r)).1 in
  let head := patientHead (sys r) in
  countPatientsByTimeframe timeframe r =
  (incr_times (length (admitted_within timeframe now head)) 0,
   if head is [] then on_world (set_stdout (λ o, o ++ ["No patients admitted!"])) r
   else stamped (now :: (admissionDate <$> head))
          (on_world (λ _, (time_now (rworld r)).2) r)).
Proof.
  cbn zeta. unfold countPatientsByTimeframe, in_sys.
  rewrite bind_run. cbn [gets fst snd]. replace (set_sys _ r) with r by (by destruct r as [? []]).
  destruct (patientHead (sys r)) as [|p l] eqn:Hhead.
  { by rewrite bind_run, out_puts_console. }
  rewrite bind_run, out_run. cbn [fst snd]. tm_steps.
  rewrite (count_admitted_ok _ _ (broken_down _)), stamped_cons. done.
Qed.

Lemma incr_times_filter {A} (P : A → Prop) `{!∀ x, Decision (P x)} (l : list A) :
  Z.of_nat (length l) ≤ INT_MAX →
  incr_times (length (filter P l)) 0 = Z.of_nat (length (filter P l)).
Proof. intros. pose proof (length_filter P l). rewrite incr_times_small; lia. Qed.

(** C19: [countPatientsByTimeframe] returns the number of the records of
    the list whose admission is within the period of the current time:
    less than 25 hours old for a day, in the same year and less than 7
    days of the year back for a week, in the same year and month for a
    month.  The loop, the calls of [localtime] and the [int] counter do
    not change that, as long as the list has no more than [INT_MAX]
    records. *)
Theorem countPatientsByTimeframe_filter timeframe r :
  Z.of_nat (length (patientHead (sys r))) ≤ INT_MAX →
  eval (countPatientsByTimeframe timeframe) r =
  Z.of_nat (length (admitted_within timeframe (time_now (rworld r)).1
                      (patientHead (sys r)))).
Proof.
  intros Hlen. unfold eval. rewrite countPatientsByTimeframe_run. cbn [fst].
  by apply incr_times_filter.
Qed.

(** The environment after [displayPatientReport]: the lines on the
    console, and in [patient_reports.txt] an empty line and the lines of
    [printFormattedReport]. *)
Definition admission_report (choice now : Z) (head : list Patient) (w : World) : World :=
  let result := Z.of_nat (length (admitted_within choice now head)) in
  let lines := admission_lines "   Patient Admission Report - Daily" result choice now head in
  set_stdout (λ o, o ++ (if head is [] then ["No patients admitted!"] else [])
                     ++ lines
                     ++ [newline +:+ "Report successfully written to patient_reports.txt"])
    (set_files (appended patient_reports_txt
                  (text_bytes (newline :: (with_newline <$> lines)))) w).

(** C7: the report of the admissions when no library call fails and
    the clock stands at [now].  The store is unchanged; the console gets
    the head of the report (its title always says "Daily"), the count of
    [countPatientsByTimeframe] and the lines of [print_admitted], and
    [patient_reports.txt] (created when missing) gets an empty line and
    the same lines, byte for byte; no stream is left open. *)
Theorem displayPatientReport_ok choice now r :
  w_faults (rworld r) = [] → w_clock (rworld r) = [now] →
  Z.of_nat (length (patientHead (sys r))) ≤ INT_MAX →
  sys (exec (displayPatientReport choice) r) =
  set_world (admission_report choice now (patientHead (sys r))) (sys r).
Proof.
  intros Hf Hc Hlen. unfold exec, displayPatientReport.
  rewrite bind_run, countPatientsByTimeframe_run. cbn [fst snd].
  unfold admitted_within at 1. rewrite incr_times_filter by done.
  fold (admitted_within choice (time_now (rworld r)).1 (patientHead (sys r))).
  assert (time_now (rworld r) = (now, rworld r)) as Hnow
    by (unfold time_now; by rewrite Hc).
  rewrite Hnow. cbn [fst snd]. rewrite on_world_same.
  set (result := Z.of_nat _).
  set (r' := if patientHead (sys r) is [] then _ else _).
  assert (w_faults (rworld r') = [] ∧ w_clock (rworld r') = [now] ∧
          patientHead (sys r') = patientHead (sys r)) as (Hf' & Hc' & Hh').
  { unfold r'. destruct (patientHead (sys r)) eqn:Hhead;
      rewrite ?sys_on_world_head, ?rworld_on_world, ?rworld_stamped; done. }
  rewrite bind_run, out_fopen_append by done. cbn [fst snd].
  emit_steps patient_reports_txt.
  rewrite bind_run, (printFormattedReport_ok _ _ _ _ now) by no_faults.
  cbn [fst snd f_path]. cbn zeta.
  rewrite sys_emit_head, sys_on_world_head, Hh', stamped_emit, emit_emit.
  rewrite bind_run, out_fclose by no_faults. cbn [fst snd f_path].
  rewrite (out_puts patient_reports_txt). cbn [fst snd].
  unfold emit. rewrite !sys_on_world, sys_stamped, !sys_on_world, !set_world_twice.
  unfold admission_report. subst r' result. clear.
  destruct r as [b [h t c [files open stdin stdout stderr clock faults]]].
  destruct h; unfold emit; rewrite ?sys_on_world, ?sys_stamped; cbn.
  all: unfold set_world, set_stdout, set_files, touched, appended, text_bytes; cbn.
  all: rewrite ?decide_True, ?alter_insert_eq by done.
  all: by rewrite ?app_nil_r, <-?app_assoc.
Qed.

(** The hours between two times are at most 24 until 25 hours have
    passed, and for every time in the future. *)
Lemma hours_since_day now stamp : hours_since now stamp ≤ 24 ↔ now - stamp < 90000.
Proof.
  unfold hours_since. generalize (now - stamp). intros d.
  destruct (decide (0 ≤ d)).
  - pose proof (Z.quot_rem' d 3600). pose proof (Z.rem_bound_pos d 3600). lia.
  - pose proof (Z.quot_pos (- d) 3600). rewrite <-(Z.opp_involutive d) at 1.
    rewrite Z.quot_opp_l by lia. lia.
Qed.

(** C34: the period of the daily report.  With [timeframe = 1],
    [countPatientsByTimeframe] counts the records admitted less than 25
    hours (90000 seconds) before the current time, those with an
    admission time in the future included: the hours are truncated
    before they are compared with 24. *)
Theorem daily_report_window r :
  Z.of_nat (length (patientHead (sys r))) ≤ INT_MAX →
  eval (countPatientsByTimeframe 1) r =
  Z.of_nat (length (filter (λ p, (time_now (rworld r)).1 - admissionDate p < 90000)
                      (patientHead (sys r)))).
Proof.
  intros Hlen. unfold eval. rewrite countPatientsByTimeframe_run. cbn [fst].
  unfold admitted_within. rewrite incr_times_filter by done. do 2 f_equal.
  apply list_filter_iff. intros p. unfold within, in_timeframe.
  change (bool_decide (1 = 1)) with true. change (bool_decide (1 = 2)) with false.
  change (bool_decide (1 = 3)) with false. cbn [andb orb].
  by rewrite !orb_false_r, bool_decide_spec, hours_since_day.
Qed.

(** The lines of all the records of a list. *)
Definition all_rows (l : list Patient) : list string :=
  l ≫= λ p, [report_row "Admitted" p (strftime_ymd (broken_down (admissionDate p))); rule].

Lemma admitted_rows_all timeframe now l :
  timeframe = 2 ∨ timeframe = 3 → admitted_rows timeframe now l = all_rows l.
Proof.
  intros Htf. induction l as [|p l IH]; [done|].
  rewrite admitted_rows_cons, IH. unfold listed.
  destruct Htf as [-> | ->]; by rewrite ?orb_true_r.
Qed.

(** C6: the loop of [printFormattedReport] lists every record of the
    list when the report is for a week or a month, whatever the dates of
    the admissions: it compares the year, the day of the year and the
    month of the admission with those read through [currentTime], and
    [currentTime] points to the struct that the call of [localtime] for
    the admission has just overwritten. *)
Theorem print_admitted_lists_all file timeframe now l r :
  w_faults (rworld r) = [] → timeframe = 2 ∨ timeframe = 3 →
  print_admitted file timeframe now l r =
  (tt, emit (all_rows l) (f_path file) (with_newline <$> all_rows l)
         (stamped (admissionDate <$> l) r)).
Proof. intros Hf Htf. by rewrite print_admitted_ok, admitted_rows_all. Qed.

End admission_theorems.

(** ** The archive of the discharges *)

(** The body of a loop run on each element of a list in turn. *)
Fixpoint for_each {T A} (body : T → A → Prog Rep A) (l : list T) (acc : A) : Prog Rep A :=
  match l with
  | [] => mret acc
  | x :: l => acc ← body x acc; for_each body l acc
  end.

Section read_loop.
Context `{!Layout T} {A : Type}.
Implicit Types (body : T → A → Prog Rep A) (r : Rep).

(** With fuel above the number of bytes that are left, the loop ends at
    the end of the file and has run its body on the records that are
    left, provided that the body does not write to the file it reads. *)
Lemma while_fread_ok fuel path pos body acc r :
  (∀ x a r', file_content path (rworld (body x a r').2) = file_content path (rworld r')) →
  (length (drop pos (file_content path (rworld r))) < fuel)%nat →
  ∃ pos',
    while_fread fuel (mkFILE path pos) body acc r =
    ((Some (for_each body (decode_all (drop pos (file_content path (rworld r)))) acc r).1,
      mkFILE path pos'),
     (for_each body (decode_all (drop pos (file_content path (rworld r)))) acc r).2).
Proof.
  intros Hbody. pose proof (sizeof_pos (T:=T)) as Hpos.
  revert pos acc r. induction fuel as [|fuel IH]; intros pos acc r Hlen; [lia|].
  cbn [while_fread]. rewrite bind_run.
  set (rest := drop pos (file_content path (rworld r))) in *.
  destruct (decide (sizeof T ≤ length rest)%nat) as [Hrec|Hrec].
  - rewrite (out_pure _ _ _ (fread_some (mkFILE path pos) (rworld r) Hrec)).
    cbn [fst snd f_path f_pos]. fold rest. rewrite decode_all_cons by done.
    cbn [for_each]. rewrite !bind_run.
    destruct (body (of_bytes (take (sizeof T) rest)) acc r) as [acc' r'] eqn:Hrun.
    cbn [fst snd]. specialize (Hbody (of_bytes (take (sizeof T) rest)) acc r).
    rewrite Hrun in Hbody. cbn [snd] in Hbody.
    destruct (IH (pos + sizeof T)%nat acc' r') as [pos' ->].
    { rewrite Hbody, <-drop_drop, length_drop. fold rest. lia. }
    exists pos'. by rewrite Hbody, <-drop_drop.
  - assert (length rest < sizeof T)%nat as Hshort by lia.
    rewrite (out_pure _ _ _ (fread_none (mkFILE path pos) (rworld r) Hshort)).
    cbn [fst snd]. rewrite decode_all_short by (fold rest; lia). by eexists.
Qed.

End read_loop.

Section discharges.
Context `{!Calendar} `{!Layout DischargedPatient}.
Implicit Types (r : Rep) (d : DischargedPatient).

Lemma discharge_conditions_run now stamp r :
  discharge_conditions now stamp r =
  ((bool_decide (hours_since now stamp ≤ 24), same_week (tmbuf r) (tmbuf r),
    same_month (tmbuf r) (tmbuf r)), r).
Proof. done. Qed.

Lemma count_discharged_run timeframe now d count r :
  count_discharged timeframe now d count r =
  (if listed timeframe now (dischargeDate d) then int_incr count else count,
   stamped [dischargeDate d] r).
Proof.
  unfold count_discharged. tm_steps.
  rewrite bind_run, discharge_conditions_run. cbn [fst snd tmbuf set_tmbuf].
  fold (within timeframe now (broken_down (dischargeDate d)) (dischargeDate d)).
  by rewrite within_same_struct.
Qed.

Lemma count_discharged_each timeframe now ds count r :
  for_each (count_discharged timeframe now) ds count r =
  (incr_times (length (filter (λ d, listed timeframe now (dischargeDate d)) ds)) count,
   stamped (dischargeDate <$> ds) r).
Proof.
  revert count r. induction ds as [|d ds IH]; intros count r.
  { by rewrite stamped_nil. }
  cbn [for_each]. rewrite bind_run, count_discharged_run. cbn [fst snd].
  rewrite IH, filter_cons, fmap_cons, stamped_cons.
  destruct (listed _ _ _); [by rewrite decide_True|].
  by rewrite decide_False by (by intros ?).
Qed.

Lemma out_fopen_read path content r :
  w_faults (rworld r) = [] → w_files (rworld r) !! path = Some content →
  out (fopen path ReadMode) r = (Some (mkFILE path 0), on_world (set_open (cons path)) r).
Proof.
  intros Hf Hp. rewrite out_run.
  destruct r as [b [h t c [files open stdin stdout stderr clock faults]]].
  cbn in Hf, Hp. subst. unfold rworld; cbn. run_env. by rewrite Hp.
Qed.

(** The clock after a call of [time]. *)
Definition tick (w : World) : World := (time_now w).2.

Lemma countDischargedPatientsByTimeframe_run timeframe content r :
  w_faults (rworld r) = [] →
  w_files (rworld r) !! discharged_dat = Some content →
  let now := (time_now (rworld r)).1 in
  countDischargedPatientsByTimeframe timeframe r =
  (incr_times
     (length (filter (λ d, listed timeframe now (dischargeDate d)) (decode_all content))) 0,
   stamped (now :: (dischargeDate <$> decode_all content)) (on_world tick r)).
Proof.
  intros Hf Hfile now. unfold countDischargedPatientsByTimeframe.
  rewrite bind_run, (out_fopen_read _ content) by done. cbn [fst snd].
  rewrite bind_run, out_run. cbn [fst snd]. tm_steps. rewrite bind_run. cbn [gets fst snd].
  match goal with |- context [while_fread ?n _ ?b _ ?r0] =>
    destruct (while_fread_ok n discharged_dat 0 b 0 r0) as [pos' ->]; [| |
      assert (file_content discharged_dat (rworld r0) = content) as ->] end.
  - intros d a r'. by rewrite count_discharged_run.
  - cbn [gets fst]. rewrite drop_0. lia.
  - destruct r as [b [h t c [files open stdin stdout stderr clock faults]]].
    cbn in Hfile. unfold file_content, time_now. cbn.
    destruct clock as [|? [|? ?]]; cbn; by rewrite Hfile.
  - rewrite drop_0, count_discharged_each. cbn [fst snd].
    rewrite bind_run, out_fclose. 2:{ destruct r as [? [? ? ? []]]. cbn in *. subst.
      unfold time_now. cbn. by destruct w_clock as [|? [|? ?]]. }
    cbn [fst snd default]. f_equal.
    + do 3 f_equal. destruct r as [? [? ? ? [? ? ? ? ? clock ?]]]. unfold time_now; cbn.
      by destruct clock as [|? [|? ?]].
    + destruct r as [b [h t c [files open stdin stdout stderr clock faults]]].
      unfold stamped, on_world, set_tmbuf, set_sys, set_world, tick, time_now; cbn.
      destruct clock as [|? [|? ?]]; cbn; by rewrite ?decide_True.
Qed.

(** C20: [countDischargedPatientsByTimeframe] counts every record of
    the archive when the period is a week or a month, whatever the dates
    of the discharges: it reads the current year, day and month through
    the pointer [currentTime], which points to the struct that the call
    of [localtime] for the record has just overwritten. *)
Theorem countDischarged_counts_all timeframe content r :
  w_faults (rworld r) = [] →
  w_files (rworld r) !! discharged_dat = Some content →
  Z.of_nat (length (decode_all (T:=DischargedPatient) content)) ≤ INT_MAX →
  timeframe = 2 ∨ timeframe = 3 →
  eval (countDischargedPatientsByTimeframe timeframe) r =
  Z.of_nat (length (decode_all (T:=DischargedPatient) content)).
Proof.
  intros Hf Hfile Hlen Htf. unfold eval.
  rewrite (countDischargedPatientsByTimeframe_run _ content) by done. cbn [fst].
  rewrite incr_times_filter by done. do 2 f_equal.
  apply filter_all, Forall_forall. intros d _. unfold listed.
  destruct Htf as [-> | ->]; by rewrite ?orb_true_r.
Qed.

End discharges.

(** ** The rows of the report of the discharges *)

(** The lines of the records that the loop of
    [printDischargedFormattedReport] selects. *)
Definition discharged_rows `{!Calendar} (timeframe now : Z) (ds : list DischargedPatient)
    : list string :=
  filter (λ d, listed timeframe now (dischargeDate d)) ds ≫= λ d,
    [report_row "Discharged" (patient d) (strftime_ymd (broken_down (dischargeDate d))); rule].

Section discharged_rows.
Context `{!Calendar} `{!Layout DischargedPatient}.
Implicit Types (r : Rep) (d : DischargedPatient).

Lemma discharged_rows_cons timeframe now d ds :
  discharged_rows timeframe now (d :: ds) =
  (if listed timeframe now (dischargeDate d)
   then [report_row "Discharged" (patient d)
           (strftime_ymd (broken_down (dischargeDate d))); rule]
   else []) ++ discharged_rows timeframe now ds.
Proof.
  unfold discharged_rows. rewrite filter_cons.
  destruct (listed _ _ _); [by rewrite decide_True|].
  by rewrite decide_False by (by intros ?).
Qed.

Lemma discharged_rows_one timeframe now d :
  discharged_rows timeframe now [d] =
  if listed timeframe now (dischargeDate d)
  then [report_row "Discharged" (patient d)
          (strftime_ymd (broken_down (dischargeDate d))); rule]
  else [].
Proof. rewrite discharged_rows_cons. apply app_nil_r. Qed.

(** One iteration of the loop of [printDischargedFormattedReport]. *)
Lemma print_discharged_run file timeframe now d r :
  w_faults (rworld r) = [] →
  print_discharged file timeframe now d tt r =
  (tt, emit (discharged_rows timeframe now [d]) (f_path file)
         (with_newline <$> discharged_rows timeframe now [d])
         (stamped [dischargeDate d] r)).
Proof.
  intros Hf. unfold print_discharged. tm_steps.
  rewrite ?bind_run, discharge_conditions_run. cbn [fst snd tmbuf set_tmbuf].
  fold (within timeframe now (broken_down (dischargeDate d)) (dischargeDate d)).
  rewrite within_same_struct, discharged_rows_one.
  destruct (listed _ _ _); [|by rewrite ret_run, emit_nil].
  emit_steps (f_path file). done.
Qed.

(** The loop of [printDischargedFormattedReport] on the records of the
    archive. *)
Lemma print_discharged_each file timeframe now ds r :
  w_faults (rworld r) = [] →
  for_each (print_discharged file timeframe now) ds tt r =
  (tt, emit (discharged_rows timeframe now ds) (f_path file)
         (with_newline <$> discharged_rows timeframe now ds)
         (stamped (dischargeDate <$> ds) r)).
Proof.
  revert r. induction ds as [|d ds IH]; intros r Hf.
  { by rewrite stamped_nil, emit_nil. }
  cbn [for_each]. rewrite bind_run, print_discharged_run by done. cbn [fst snd].
  rewrite IH by no_faults.
  rewrite (discharged_rows_cons _ _ d ds), <-discharged_rows_one.
  by rewrite fmap_cons, stamped_cons, fmap_app, stamped_emit, emit_emit.
Qed.

(** The report of the discharges of a week or a month lists every
    record of the archive: the loop of [printDischargedFormattedReport]
    has the defect of the loop of [printFormattedReport]. *)
Lemma print_discharged_lists_all file timeframe now ds r :
  w_faults (rworld r) = [] → timeframe = 2 ∨ timeframe = 3 →
  (for_each (print_discharged file timeframe now) ds tt r).2 =
  emit (discharged_rows timeframe now ds) (f_path file)
    (with_newline <$> discharged_rows timeframe now ds)
    (stamped (dischargeDate <$> ds) r) ∧
  length (discharged_rows timeframe now ds) = (2 * length ds)%nat.
Proof.
  intros Hf Htf. rewrite print_discharged_each by done. split; [done|].
  unfold discharged_rows. rewrite filter_all.
  - induction ds as [|d ds IH]; [done|]. cbn. rewrite IH. lia.
  - apply Forall_forall. intros d _. unfold listed.
    destruct Htf as [-> | ->]; by rewrite ?orb_true_r.
Qed.

End discharged_rows.

(** ** The text of a file, as [fscanf] reads it *)

(** The text that is left in a stream. *)
Definition text_left (f : FILE) (w : World) : string :=
  String.string_of_list_byte (drop (f_pos f) (file_content (f_path f) w)).

(** What [fscanf (file, "%d", &n)] does with the text that is left: its
    result and the text it leaves. *)
Definition scan_text (rest : string) : scan Z * string :=
  let text := skip_spaces rest in
  match text with
  | EmptyString => (AtEOF, text)
  | _ =>
      match parse_int text with
      | Some (n, remaining) => (Scanned (wrap_int n), remaining)
      | None => (NoMatch, text)
      end
  end.

(** [rest] is what is left of [text] when a prefix has been read. *)
Definition left_of (text rest : string) : Prop := ∃ read, text = read +:+ rest.

Section text.
Implicit Types (s text rest : string).

Lemma string_app_assoc s1 s2 s3 : (s1 +:+ s2) +:+ s3 = s1 +:+ s2 +:+ s3.
Proof.
  induction s1 as [|c s1 IH]; [done|].
  change (String c ((s1 +:+ s2) +:+ s3) = String c (s1 +:+ s2 +:+ s3)). by rewrite IH.
Qed.

Lemma string_app_length s1 s2 :
  String.length (s1 +:+ s2) = (String.length s1 + String.length s2)%nat.
Proof.
  induction s1 as [|c s1 IH]; [done|].
  change (S (String.length (s1 +:+ s2)) = S (String.length s1 + String.length s2)).
  by rewrite IH.
Qed.

Lemma left_of_refl s : left_of s s.
Proof. by exists "". Qed.

Lemma left_of_trans s1 s2 s3 : left_of s1 s2 → left_of s2 s3 → left_of s1 s3.
Proof. intros [a ->] [b ->]. exists (a +:+ b). by rewrite string_app_assoc. Qed.

Lemma left_of_cons c s rest : left_of s rest → left_of (String c s) rest.
Proof. intros [a ->]. by exists (String c a). Qed.

Lemma left_of_length text rest :
  left_of text rest → (String.length rest ≤ String.length text)%nat.
Proof. intros [a ->]. rewrite string_app_length. lia. Qed.

Lemma skip_spaces_left s : left_of s (skip_spaces s).
Proof.
  induction s as [|c s IH]; simpl; [apply left_of_refl|].
  destruct (is_space c); [by apply left_of_cons|apply left_of_refl].
Qed.

Lemma read_digits_left acc s : left_of s (read_digits acc s).2.
Proof.
  revert acc. induction s as [|c s IH]; intros acc; simpl; [apply left_of_refl|].
  destruct (digit_value c); [apply left_of_cons, IH|apply left_of_refl].
Qed.

Lemma parse_int_left s n rest : parse_int s = Some (n, rest) → left_of s rest.
Proof.
  assert (Hu : ∀ s n rest,
    (if starts_with_digit s then Some (read_digits 0 s) else None) = Some (n, rest) →
    left_of s rest).
  { intros s' n' rest' Hs. destruct (starts_with_digit s'); simplify_eq.
    pose proof (read_digits_left 0 s') as Hl. by rewrite Hs in Hl. }
  unfold parse_int. intros Hp.
  destruct s as [|c s']; [by apply Hu in Hp|].
  destruct (decide (c = "-"%char)) as [->|?];
    [|destruct (decide (c = "+"%char)) as [->|?]].
  - destruct (if starts_with_digit s' then _ else _) as [[n' r']|] eqn:Hs;
      simplify_eq/=. by apply left_of_cons, (Hu _ n').
  - by apply left_of_cons, (Hu _ n).
  - apply (Hu (String c s') n rest).
    destruct c as [[] [] [] [] [] [] [] []]; done.
Qed.

Lemma scan_text_left rest : left_of rest (scan_text rest).2.
Proof.
  unfold scan_text. pose proof (skip_spaces_left rest) as Hs.
  destruct (skip_spaces rest) as [|c text] eqn:Htext; [done|].
  destruct (parse_int _) as [[n remaining]|] eqn:Hp; [|done].
  eapply left_of_trans; [done|]. by eapply parse_int_left.
Qed.

(** A number that is read takes text away. *)
Lemma scan_text_consumes rest n remaining :
  scan_text rest = (Scanned n, remaining) →
  (String.length remaining < String.length rest)%nat.
Proof.
  unfold scan_text. pose proof (skip_spaces_length rest) as Hs.
  destruct (skip_spaces rest) as [|c text] eqn:Htext; [done|].
  destruct (parse_int _) as [[m rem]|] eqn:Hp; [|done].
  intros [= _ <-]. apply parse_int_consumes in Hp. lia.
Qed.

(** The bytes of a stream after a prefix of its text was read. *)
Lemma text_of_drop bs rest :
  left_of (String.string_of_list_byte bs) rest →
  String.string_of_list_byte
    (drop (String.length (String.string_of_list_byte bs) - String.length rest) bs) = rest.
Proof.
  intros [a Ha]. rewrite Ha, string_app_length.
  replace (_ + _ - _)%nat with (String.length a) by lia.
  revert bs Ha. induction a as [|c a IH]; intros bs Ha; [done|].
  destruct bs as [|b bs]; [done|]. injection Ha as _ Ha. by apply IH.
Qed.

Lemma fscanf_d_text f w :
  ∃ f', fscanf_d f w = (((scan_text (text_left f w)).1, f'), w) ∧
        f_path f' = f_path f ∧ text_left f' w = (scan_text (text_left f w)).2.
Proof.
  pose proof (scan_text_left (text_left f w)) as Hleft.
  unfold fscanf_d, scan_text, text_left in *. cbv zeta in *.
  set (bs := drop (f_pos f) (file_content (f_path f) w)) in *.
  assert (∀ rest, left_of (String.string_of_list_byte bs) rest →
    String.string_of_list_byte
      (drop (f_pos f + (String.length (String.string_of_list_byte bs) -
                        String.length rest)) (file_content (f_path f) w)) = rest)
    as Hdrop.
  { intros rest Hrest. rewrite <-drop_drop. by apply text_of_drop. }
  destruct (skip_spaces _) as [|c text]; [|destruct (parse_int _) as [[n remaining]|]];
    eexists; (split; [reflexivity|]); cbn [fst snd f_path f_pos]; auto.
Qed.

End text.

(** ** The report of the rooms *)

(** The numbers that the loop of [displayRoomUsageReport] reads from a
    text: all the numbers up to the first thing that is not one. *)
Fixpoint scan_numbers (fuel : nat) (text : string) : list Z :=
  match fuel with
  | O => []
  | S fuel =>
      match scan_text text with
      | (Scanned n, remaining) => n :: scan_numbers fuel remaining
      | _ => []
      end
  end.

Definition valid_room (n : Z) : Prop := 1 ≤ n ∧ n ≤ 50.

#[export] Instance valid_room_dec n : Decision (valid_room n).
Proof. unfold valid_room. apply _. Defined.

(** The array of counts after the numbers [rooms] were read. *)
Definition tally (rooms : list Z) (roomCounts : list Z) : list Z :=
  foldl (λ counts n, if decide (valid_room n)
                     then alter int_incr (Z.to_nat n) counts else counts)
    roomCounts rooms.

Definition room_warnings (rooms : list Z) : list string :=
  (λ n, "Warning: Found invalid room number '" +:+ pretty n +:+ "' in room_usage.txt")
    <$> filter (λ n, ¬ valid_room n) rooms.

(** The lines of the rooms [rooms] that were used. *)
Definition room_lines (rooms : list Z) (roomCounts : list Z) : list string :=
  (λ i, left_justify 4 (pretty i) +:+ " | " +:+ pretty (default 0 (roomCounts !! Z.to_nat i)))
    <$> filter (λ i, 0 < default 0 (roomCounts !! Z.to_nat i)) rooms.

Section rooms.
Implicit Types (w : World) (f : FILE) (rooms counts : list Z).

Lemma text_left_stderr f g w : text_left f (set_stderr g w) = text_left f w.
Proof. by destruct w. Qed.

Lemma set_stderr_twice a b w :
  set_stderr (λ e, e ++ b) (set_stderr (λ e, e ++ a) w) = set_stderr (λ e, e ++ a ++ b) w.
Proof. destruct w. unfold set_stderr; simpl. by rewrite app_assoc. Qed.

Lemma set_stderr_nil w : set_stderr (λ e, e ++ []) w = w.
Proof. destruct w. unfold set_stderr; simpl. by rewrite app_nil_r. Qed.

(** With fuel above the length of the text that is left, the loop ends
    and has read the numbers of [scan_numbers]. *)
Lemma read_rooms_ok fuel f counts total valid w :
  (String.length (text_left f w) < fuel)%nat →
  let rooms := scan_numbers fuel (text_left f w) in
  ∃ f', f_path f' = f_path f ∧
    read_rooms fuel f counts total valid w =
    ((Some (tally rooms counts, incr_times (length rooms) total,
            incr_times (length (filter valid_room rooms)) valid), f'),
     set_stderr (λ err, err ++ room_warnings rooms) w).
Proof.
  revert f counts total valid w.
  induction fuel as [|fuel IH]; intros f counts total valid w Hlen; [lia|].
  cbn [read_rooms scan_numbers]. rewrite bind_run.
  destruct (fscanf_d_text f w) as (f' & -> & Hpath & Htext). cbn [fst snd].
  destruct (scan_text (text_left f w)) as [[n| |] remaining] eqn:Hscan; cbn [fst snd] in *.
  2,3: eexists; by rewrite ret_run, set_stderr_nil.
  rename Hpath into Hp.
  apply scan_text_consumes in Hscan. rewrite <-Htext in *.
  unfold room_warnings, tally. cbn [foldl]. fold (valid_room n).
  destruct (decide (valid_room n)) as [Hv|Hv].
  - rewrite (filter_cons_True valid_room), (filter_cons_False (λ n, ¬ valid_room n))
      by tauto.
    edestruct (IH f') as (f'' & Hp' & ->); [lia|]. exists f''. split; [congruence|done].
  - rewrite (filter_cons_False valid_room), (filter_cons_True (λ n, ¬ valid_room n))
      by tauto.
    rewrite bind_run. unfold fprintf_stderr. cbn [modify fst snd].
    edestruct (IH f') as (f'' & Hp' & ->); [rewrite text_left_stderr; lia|].
    rewrite text_left_stderr, set_stderr_twice. exists f''. split; [congruence|done].
Qed.

Lemma print_rooms_ok rooms counts reported w :
  print_rooms rooms counts reported w =
  (incr_times (length (room_lines rooms counts)) reported,
   set_stdout (λ o, o ++ room_lines rooms counts) w).
Proof.
  revert reported w. induction rooms as [|i rooms IH]; intros reported w.
  { by rewrite set_stdout_nil. }
  cbn [print_rooms]. unfold room_lines. rewrite filter_cons.
  case_decide.
  - rewrite bind_run. unfold puts. cbn [modify fst snd]. rewrite IH, set_stdout_twice.
    done.
  - by rewrite IH.
Qed.

End rooms.

#[local] Arguments read_rooms : simpl never.
#[local] Arguments print_rooms : simpl never.
#[local] Arguments scan_numbers : simpl never.

(** The console after [displayRoomUsageReport] has read [rooms]. *)
Definition usage_report (rooms : list Z) : list string :=
  let roomCounts := tally rooms (replicate (50 + 1) 0) in
  let totalEntries := incr_times (length rooms) 0 in
  let validEntries := incr_times (length (filter valid_room rooms)) 0 in
  let roomsReported := incr_times (length (room_lines (seqZ 1 50) roomCounts)) 0 in
  [newline +:+ "--- Room Usage Report ---"; "Room | Usage Count"; "-----|------------"]
  ++ room_lines (seqZ 1 50) roomCounts
  ++ (if bool_decide (roomsReported = 0) && bool_decide (validEntries = 0)
      then ["No valid room usage data found in the file."] else [])
  ++ ["-------------------------"; "Total entries read: " +:+ pretty totalEntries;
      "Valid rooms logged: " +:+ pretty validEntries; "-------------------------"].

Section room_report.
Implicit Types (w : World) (rooms : list Z).

Lemma string_of_list_byte_length bs :
  String.length (String.string_of_list_byte bs) = length bs.
Proof. induction bs as [|b bs IH]; [done|]. cbn. by rewrite <-IH. Qed.

Lemma text_left_start path content w :
  w_files w !! path = Some content →
  text_left (mkFILE path 0) w = String.string_of_list_byte content.
Proof. intros Hp. unfold text_left, file_content. cbn. by rewrite Hp. Qed.

Lemma displayRoomUsageReport_run w content :
  w_faults w = [] → w_files w !! room_usage_txt = Some content →
  let rooms := scan_numbers (S (length content)) (String.string_of_list_byte content) in
  displayRoomUsageReport w =
  (tt, set_stderr (λ err, err ++ room_warnings rooms)
         (set_stdout (λ o, o ++ usage_report rooms) w)).
Proof.
  destruct w as [files open stdin stdout stderr clock faults]. cbn. intros -> Hfile.
  unfold displayRoomUsageReport. run_env. rewrite Hfile. run_env.
  unfold file_content. cbn. rewrite Hfile. cbn.
  match goal with |- context [read_rooms ?n ?f ?c ?t ?v ?w] =>
    destruct (read_rooms_ok n f c t v w) as (f' & Hpath & Hrun) end.
  { rewrite (text_left_start _ content), string_of_list_byte_length by done. lia. }
  rewrite (text_left_start _ content) in Hrun by done. rewrite Hrun. clear Hrun.
  cbn in Hpath. cbn. rewrite print_rooms_ok, Hpath. unfold usage_report. cbv zeta.
  change (replicate (50 + 1) 0) with (replicate 51 0). cbn [replicate].
  unfold set_stdout, set_open, set_stderr.
  cbn [w_files w_open w_stdin w_stdout w_stderr w_clock w_faults fst snd].
  rewrite remove_first_cons.
  match goal with |- context [andb ?x ?y] => destruct (andb x y) end;
    cbn [w_files w_open w_stdin w_stdout w_stderr w_clock w_faults fst snd];
    rewrite <-?app_assoc.
  all: reflexivity.
Qed.


End room_report.

(** ** Reading back what [fprintf (file, "%d\n", n)] wrote *)

Section print_parse.
Implicit Types (s rest : string) (x : N) (n : Z).

Lemma digit_value_pretty x :
  (x < 10)%N → digit_value (pretty_N_char x) = Some (Z.of_N x).
Proof.
  intros Hx.
  assert (x = 0 ∨ x = 1 ∨ x = 2 ∨ x = 3 ∨ x = 4 ∨ x = 5 ∨ x = 6 ∨ x = 7 ∨ x = 8 ∨ x = 9)%N
    as Hcases by lia.
  repeat (destruct Hcases as [->|Hcases]; [by vm_compute|]). subst. by vm_compute.
Qed.

Lemma pretty_N_go_app x s rest : pretty_N_go x s +:+ rest = pretty_N_go x (s +:+ rest).
Proof.
  revert s. induction (N.lt_wf_0 x) as [x _ IH]; intros s.
  destruct (decide (x = 0)%N) as [->|]; [done|].
  rewrite (pretty_N_go_step x s), (pretty_N_go_step x (s +:+ rest)) by lia.
  by rewrite IH by (apply N.div_lt; lia).
Qed.

(** The digits of [x] in front of [s] read as [x], and what follows is
    read after them. *)
Lemma read_digits_pretty x s :
  read_digits 0 (pretty_N_go x s) = read_digits (Z.of_N x) s.
Proof.
  revert s. induction (N.lt_wf_0 x) as [x _ IH]; intros s.
  destruct (decide (x = 0)%N) as [->|]; [done|].
  rewrite pretty_N_go_step, IH by (try apply N.div_lt; lia).
  cbn [read_digits]. rewrite digit_value_pretty by (apply N.mod_lt; lia).
  f_equal. rewrite (N.div_mod x 10) at 3 by done. lia.
Qed.

Lemma starts_with_digit_pretty x s :
  (0 < x)%N → starts_with_digit (pretty_N_go x s) = true.
Proof.
  revert s. induction (N.lt_wf_0 x) as [x _ IH]; intros s Hx.
  rewrite pretty_N_go_step by done.
  destruct (decide (x `div` 10 = 0)%N) as [->|].
  - rewrite pretty_N_go_0. cbn. rewrite digit_value_pretty by (apply N.mod_lt; lia).
    by apply bool_decide_eq_true.
  - apply IH; [apply N.div_lt; lia|by apply N.neq_0_lt_0].
Qed.

Lemma parse_int_digits s :
  starts_with_digit s = true → parse_int s = Some (read_digits 0 s).
Proof.
  destruct s as [|c s]; [done|]. intros Hs. unfold parse_int.
  assert (c ≠ "-"%char ∧ c ≠ "+"%char) as [? ?]
    by (split; intros ->; by apply bool_decide_eq_true in Hs as [? ?]).
  rewrite Hs. destruct c as [[] [] [] [] [] [] [] []]; done.
Qed.

Lemma read_digits_stop acc rest :
  starts_with_digit rest = false → read_digits acc rest = (acc, rest).
Proof.
  destruct rest as [|c rest]; [done|]. cbn. intros Hc.
  destruct (digit_value c); [|done]. by apply bool_decide_eq_false in Hc as [].
Qed.

Lemma parse_pretty_N x rest :
  (0 < x)%N → starts_with_digit rest = false →
  parse_int (pretty_N_go x "" +:+ rest) = Some (Z.of_N x, rest).
Proof.
  intros Hx Hrest. rewrite pretty_N_go_app.
  rewrite parse_int_digits by (by apply starts_with_digit_pretty).
  by rewrite read_digits_pretty, read_digits_stop.
Qed.

(** A number that was printed, followed by something that is not a
    digit, is read back. *)
Lemma parse_pretty n rest :
  starts_with_digit rest = false → parse_int (pretty n +:+ rest) = Some (n, rest).
Proof.
  intros Hrest. destruct n as [|p|p].
  - change (parse_int (pretty 0 +:+ rest)) with (Some (read_digits 0 rest)).
    by rewrite read_digits_stop.
  - change (pretty (Z.pos p)) with (pretty_N_go (N.pos p) "").
    by rewrite parse_pretty_N.
  - change (pretty (Z.neg p)) with ("-" +:+ pretty_N_go (N.pos p) "").
    change (parse_int (("-" +:+ pretty_N_go (N.pos p) "") +:+ rest)) with
      (prod_map Z.opp id <$>
         (if starts_with_digit (pretty_N_go (N.pos p) "" +:+ rest)
          then Some (read_digits 0 (pretty_N_go (N.pos p) "" +:+ rest)) else None)).
    rewrite pretty_N_go_app, starts_with_digit_pretty by done.
    by rewrite read_digits_pretty, read_digits_stop.
Qed.

Lemma skip_spaces_pretty n rest : skip_spaces (pretty n +:+ rest) = pretty n +:+ rest.
Proof.
  assert (∀ x s, (0 < x)%N → skip_spaces (pretty_N_go x s) = pretty_N_go x s) as Hgo.
  { intros x s Hx. pose proof (starts_with_digit_pretty x s Hx) as Hd.
    destruct (pretty_N_go x s) as [|c t]; [done|]. cbn in *.
    apply bool_decide_eq_true in Hd as [d Hd]. unfold digit_value in Hd.
    case_decide; [|done]. unfold is_space.
    rewrite !bool_decide_false; [done|..]; lia. }
  destruct n as [|p|p]; [done|..].
  - change (pretty (Z.pos p)) with (pretty_N_go (N.pos p) "").
    rewrite pretty_N_go_app. by apply Hgo.
  - done.
Qed.

(** The text of the log of [rooms]. *)
Definition log_text (rooms : list Z) : string :=
  foldr (λ n text, pretty n +:+ newline +:+ text) "" rooms.

Lemma scan_text_log n rest :
  in_int n →
  scan_text (pretty n +:+ newline +:+ rest) = (Scanned n, newline +:+ rest).
Proof.
  intros Hn. unfold scan_text. rewrite skip_spaces_pretty.
  rewrite parse_pretty by done. rewrite wrap_int_id by done.
  destruct (pretty n +:+ newline +:+ rest) eqn:Ht; [|done].
  apply (f_equal String.length) in Ht. rewrite !string_app_length in Ht. cbn in Ht. lia.
Qed.

End print_parse.

(** ** Theorems on the report of the rooms *)

(** The discharges of the patients of [rooms], as far as the log of the
    rooms is concerned. *)
Fixpoint log_rooms (rooms : list Z) : Prog World unit :=
  match rooms with
  | [] => mret tt
  | n :: rooms => _ ← logRoomUsage n; log_rooms rooms
  end.

Section room_theorems.
Implicit Types (w : World) (rooms : list Z).

Lemma list_byte_of_string_app s1 s2 :
  String.list_byte_of_string (s1 +:+ s2) =
  String.list_byte_of_string s1 ++ String.list_byte_of_string s2.
Proof.
  induction s1 as [|c s1 IH]; [done|].
  change (byte_of_ascii c :: String.list_byte_of_string (s1 +:+ s2) =
          byte_of_ascii c :: String.list_byte_of_string s1 ++ String.list_byte_of_string s2).
  by rewrite IH.
Qed.

Lemma string_app_nil_r s : s +:+ "" = s.
Proof.
  induction s as [|c s IH]; [done|]. change (String c (s +:+ "") = String c s).
  by rewrite IH.
Qed.

Lemma appended_twice path a b (fs : gmap string (list byte)) :
  appended path b (appended path a fs) = appended path (a ++ b) fs.
Proof. unfold appended. by rewrite lookup_insert_eq, insert_insert_eq, app_assoc. Qed.

Lemma log_rooms_ok rooms w :
  w_faults w = [] →
  log_rooms rooms w =
  (tt, if rooms is [] then w
       else set_files (appended room_usage_txt
                         (String.list_byte_of_string (log_text rooms))) w).
Proof.
  revert w. induction rooms as [|n rooms IH]; intros w Hf; [done|].
  cbn [log_rooms]. rewrite bind_run, logRoomUsage_ok by done. cbn [fst snd].
  rewrite IH by (by destruct w). destruct rooms as [|m rooms].
  - cbn [log_text foldr]. by rewrite string_app_nil_r.
  - destruct w. unfold set_files; cbn -[log_text String.list_byte_of_string appended].
    rewrite appended_twice. cbn [log_text foldr].
    by rewrite <-list_byte_of_string_app, string_app_assoc.
Qed.

Lemma scan_numbers_newline fuel text :
  scan_numbers fuel (newline +:+ text) = scan_numbers fuel text.
Proof. by destruct fuel. Qed.

(** The numbers of a log are read back, on fuel above their number. *)
Lemma scan_numbers_log fuel rooms :
  Forall in_int rooms → (length rooms < fuel)%nat →
  scan_numbers fuel (log_text rooms) = rooms.
Proof.
  intros Hrooms. revert fuel.
  induction Hrooms as [|n rooms Hn _ IH]; intros [|fuel] Hlen; try (simpl in Hlen; lia).
  { done. }
  cbn [log_text foldr]. unfold scan_numbers; fold scan_numbers.
  rewrite scan_text_log by done. rewrite scan_numbers_newline, IH; [done|].
  simpl in Hlen. lia.
Qed.

Lemma log_text_length rooms : (length rooms ≤ String.length (log_text rooms))%nat.
Proof.
  unfold log_text. induction rooms as [|n rooms IH]; [done|]. cbn [foldr length].
  rewrite !string_app_length. change (String.length newline) with 1%nat. lia.
Qed.

(** C10: the log of the rooms is read back.  After the discharges of
    patients in the rooms [rooms], in that order, have been logged in a
    file that did not exist, when no library call fails,
    [displayRoomUsageReport] reads exactly these numbers: it prints the
    report of [usage_report rooms] (one line for each room from 1 to 50
    that occurs in [rooms], the number of entries and the number of
    valid ones), warns about those outside of 1-50, and changes nothing
    else. *)
Theorem room_log_round_trip rooms w :
  w_faults w = [] → w_files w !! room_usage_txt = None →
  rooms ≠ [] → Forall in_int rooms →
  displayRoomUsageReport (exec (log_rooms rooms) w) =
  (tt, set_stderr (λ err, err ++ room_warnings rooms)
         (set_stdout (λ o, o ++ usage_report rooms) (exec (log_rooms rooms) w))).
Proof.
  intros Hf Hnone Hne Hrooms. unfold exec. rewrite log_rooms_ok by done.
  destruct rooms as [|n rooms]; [done|]. cbn [snd].
  rewrite (displayRoomUsageReport_run _ (String.list_byte_of_string (log_text (n :: rooms)))).
  - cbv zeta. rewrite String.string_of_list_byte_of_string, scan_numbers_log; [done..|].
    pose proof (log_text_length (n :: rooms)) as Hlen.
    rewrite <-(string_of_list_byte_length (String.list_byte_of_string _)),
      String.string_of_list_byte_of_string. lia.
  - by destruct w.
  - destruct w. unfold set_files, appended; cbn in *. by rewrite lookup_insert_eq, Hnone.
Qed.

(** The loop that reads [room_usage.txt] ends, whatever the file
    holds and wherever the stream stands: on the fuel that
    [displayRoomUsageReport] gives it, one more than the size of the
    file, [read_rooms] returns the counts. *)
Theorem read_rooms_total f counts total valid w :
  ∃ result f' w',
    read_rooms (S (length (file_content (f_path f) w))) f counts total valid w =
    ((Some result, f'), w').
Proof.
  destruct (read_rooms_ok (S (length (file_content (f_path f) w))) f counts total valid w)
    as (f' & _ & Hrun); [|by eauto].
  unfold text_left. rewrite string_of_list_byte_length, length_drop. lia.
Qed.

(** C33: an entry that is not a number ends the reading of the log.
    When the file holds the entries [rooms], then text that [fscanf]
    cannot read as a number, then anything, the report is the report of
    [rooms] alone: what follows the bad entry is neither counted nor
    reported as invalid. *)
Theorem room_report_stops_at_junk rooms junk w :
  w_faults w = [] → Forall in_int rooms →
  (scan_text junk).1 = NoMatch →
  w_files w !! room_usage_txt =
    Some (String.list_byte_of_string (log_text rooms +:+ junk)) →
  displayRoomUsageReport w =
  (tt, set_stderr (λ err, err ++ room_warnings rooms)
         (set_stdout (λ o, o ++ usage_report rooms) w)).
Proof.
  intros Hf Hrooms Hjunk Hfile. rewrite (displayRoomUsageReport_run _ _ Hf Hfile).
  cbv zeta. rewrite String.string_of_list_byte_of_string.
  assert (∀ fuel, (length rooms < fuel)%nat →
    scan_numbers fuel (log_text rooms +:+ junk) = rooms) as ->; [|done|].
  - clear Hfile. induction Hrooms as [|n rooms Hn _ IH]; intros [|fuel] Hlen;
      try (simpl in Hlen; lia).
    + unfold scan_numbers. cbn [log_text foldr]. change ("" +:+ junk) with junk.
      by destruct (scan_text junk) as [[] ?]; simplify_eq/=.
    + cbn [log_text foldr]. unfold scan_numbers; fold scan_numbers.
      rewrite !string_app_assoc, scan_text_log by done.
      rewrite scan_numbers_newline, IH; [done|]. simpl in Hlen. lia.
  - pose proof (log_text_length rooms) as Hlen.
    rewrite <-(string_of_list_byte_length (String.list_byte_of_string _)),
      String.string_of_list_byte_of_string, string_app_length. lia.
Qed.

End room_theorems.

(** ** The theorems at concrete inputs *)

(** The examples run on the calendar [utc] and on the layouts of
    [Persist]: the clock stands at 1700000000 (14 November 2023), one
    patient was admitted on 1 January 2023 and one 10000 seconds ago. *)
#[local] Existing Instances utc sample_layout sample_discharged_layout.

Definition sample_admissions : list Patient :=
  [mkPatient 1 "Ann Lee" 61 "Flu" 12 1672600000;
   mkPatient 2 "Bo Chen" 34 "Fracture" 7 1699990000].

Definition sample_rep : Rep :=
  mkRep (mk_tm 0 0 0 0) (mkSys sample_admissions 2 3 sample_world).

Definition sample_archive : list DischargedPatient :=
  [mkDischargedPatient (mkPatient 1 "Ann Lee" 61 "Flu" 12 1672600000) 1672700000;
   mkDischargedPatient (mkPatient 2 "Bo Chen" 34 "Fracture" 7 1699990000) 1699995000].

Definition archive_rep : Rep :=
  mkRep (mk_tm 0 0 0 0)
    (mkSys [] 0 1
       (mkWorld {[ discharged_dat := encode_all sample_archive ]} [] [] [] []
          [1700000000] [])).

Definition sample_rows : list string :=
  ["| ID: 1     Name: Ann Lee         | Age: 61  Room: 12    Diagnosis: Flu                  | Admitted: 2023-01-01 |";
   "---------------------------------------";
   "| ID: 2     Name: Bo Chen         | Age: 34  Room: 7     Diagnosis: Fracture             | Admitted: 2023-11-14 |";
   "---------------------------------------"].

Lemma countPatientsByTimeframe_filter_witness :
  eval (countPatientsByTimeframe 2) sample_rep = 1.
Proof. rewrite countPatientsByTimeframe_filter; [reflexivity | by vm_compute]. Defined.

(** The weekly report of the two admissions: one admission is counted,
    two are listed. *)
Lemma displayPatientReport_ok_witness :
  w_stdout (world (sys (exec (displayPatientReport 2) sample_rep))) =
  ["   Patient Admission Report - Daily - 2023-11-14";
   "======================================="; "Total patients admitted: 1";
   "---------------------------------------"] ++ sample_rows ++
  [newline +:+ "Report successfully written to patient_reports.txt"].
Proof.
  rewrite (displayPatientReport_ok 2 1700000000); [reflexivity|done|done|by vm_compute].
Defined.

Lemma daily_report_window_witness :
  eval (countPatientsByTimeframe 1)
    (mkRep (mk_tm 0 0 0 0)
       (mkSys [mkPatient 1 "Ann Lee" 61 "Flu" 12 (1700000000 - 88200);
               mkPatient 2 "Bo Chen" 34 "Fracture" 7 (1700000000 - 90000);
               mkPatient 3 "Cy Diaz" 8 "Asthma" 3 (1700000000 + 500000)] 3 4
          sample_world)) = 2.
Proof. rewrite daily_report_window; [reflexivity | by vm_compute]. Defined.

Lemma print_admitted_lists_all_witness :
  w_stdout (rworld (exec (print_admitted (mkFILE patient_reports_txt 0) 2 1700000000
                            sample_admissions) sample_rep)) = sample_rows.
Proof.
  unfold exec. rewrite print_admitted_lists_all; [reflexivity | done | by left].
Defined.

Lemma countDischarged_counts_all_witness :
  eval (countDischargedPatientsByTimeframe 2) archive_rep = 2.
Proof.
  rewrite (countDischarged_counts_all 2 (encode_all sample_archive));
    [reflexivity | done | done | by vm_compute | by left].
Defined.

Lemma room_log_round_trip_witness :
  w_stdout (exec displayRoomUsageReport (exec (log_rooms [12; 7; 12]) sample_world)) =
  [newline +:+ "--- Room Usage Report ---"; "Room | Usage Count"; "-----|------------";
   "7    | 1"; "12   | 2"; "-------------------------"; "Total entries read: 3";
   "Valid rooms logged: 3"; "-------------------------"].
Proof.
  unfold exec at 1. rewrite room_log_round_trip; [reflexivity|done|done|done|].
  repeat constructor; by vm_compute.
Defined.

Lemma room_report_stops_at_junk_witness :
  w_stdout (exec displayRoomUsageReport
    (mkWorld {[ room_usage_txt :=
                  String.list_byte_of_string
                    (log_text [12; 7] +:+ "abc" +:+ newline +:+ log_text [9; 77]) ]}
       [] [] [] [] [1700000000] [])) =
  [newline +:+ "--- Room Usage Report ---"; "Room | Usage Count"; "-----|------------";
   "7    | 1"; "12   | 1"; "-------------------------"; "Total entries read: 2";
   "Valid rooms logged: 2"; "-------------------------"].
Proof.
  unfold exec.
  rewrite (room_report_stops_at_junk [12; 7] ("abc" +:+ newline +:+ log_text [9; 77]));
    [reflexivity | done | repeat constructor; by vm_compute | reflexivity | reflexivity].
Defined.
