(* ===== verification/Legacy.v ===== *)
(** * The array store of [src/patient.c]

    [patient.c] is the first variant of the register: the patients are
    the first [totalPatients] elements of the array
    [patients[MAX_PATIENT_CAPACITY]], nothing is written to a file, and a
    prompt asks once.  The functions have the names of those of
    [patient_management.c]; they are in the module [Legacy].

    The array is a list; an access outside of it is undefined behaviour,
    which is [None] in the monad [IProg], as is the use of a variable
    that a failed [scanf] or [fgets] left without a value.  A loop over
    the array is a recursion on the number of its iterations, which the
    code fixes before the loop starts.  [patient.h] is not in the
    repository: the record has the fields that [patient.c] uses, an
    array with static storage starts as zeros, the constants are those
    of the same names of [patient_management.c], and [IS_VALID] and
    [IS_INVALID] are [true] and [false]. *)

From Stdlib Require Import ZArith Lia Ascii.
From stdpp Require Import base tactics option list strings pretty.
From S2P Require Import Prelude Patient Env.

#[local] Open Scope Z_scope.

Module Legacy.

(** ** Data *)

(** [Patient] of [patient.h]. *)
Record Patient : Type := mkPatient {
  patientId : Z;
  name : string;
  age : Z;
  diagnosis : string;
  roomNumber : Z
}.

#[export] Instance Patient_eq_dec : EqDecision Patient.
Proof. solve_decision. Defined.

(** An element of the array that was never written. *)
Definition zero_patient : Patient := mkPatient 0 "" 0 "" 0.

(** The globals [patients], [totalPatients] and [patientIDCounter], and
    the environment. *)
Record St : Type := mkSt {
  patients : list Patient;
  totalPatients : Z;
  patientIDCounter : Z;
  world : World
}.

Definition set_patients (f : list Patient → list Patient) (s : St) : St :=
  mkSt (f (patients s)) (totalPatients s) (patientIDCounter s) (world s).

Definition set_total (f : Z → Z) (s : St) : St :=
  mkSt (patients s) (f (totalPatients s)) (patientIDCounter s) (world s).

Definition set_counter (f : Z → Z) (s : St) : St :=
  mkSt (patients s) (totalPatients s) (f (patientIDCounter s)) (world s).

Definition set_world (f : World → World) (s : St) : St :=
  mkSt (patients s) (totalPatients s) (patientIDCounter s) (f (world s)).

(** A library call, run on the environment. *)
Definition io {A} (m : Prog World A) : IProg St A := λ s,
  let '(a, w) := m (world s) in Some (a, set_world (λ _, w) s).

(** [patients[i]] as a value. *)
Definition slot (i : Z) : IProg St Patient := λ s,
  if decide (0 ≤ i) then (λ p, (p, s)) <$> patients s !! Z.to_nat i else None.

(** [patients[i] = p]. *)
Definition store (i : Z) (p : Patient) : IProg St unit := λ s,
  if decide (0 ≤ i < Z.of_nat (length (patients s)))
  then Some (tt, set_patients (<[Z.to_nat i := p]>) s)
  else None.

(** [scanf ("%c", &c)]: the next character of the input, a line break
    included. *)
Definition scanf_char : Prog World (scan ascii) := λ w,
  match w_stdin w with
  | [] => (AtEOF, w)
  | EmptyString :: ls => (Scanned (ascii_of_nat 10), set_stdin (λ _, ls) w)
  | String c rest :: ls => (Scanned c, set_stdin (λ _, rest :: ls) w)
  end.

Section legacy.
Context `{Limits}.

(** The state at program start. *)
Definition boot (w : World) : St :=
  mkSt (replicate MAX_PATIENT_CAPACITY zero_patient) IS_EMPTY DEFAULT_ID w.

(** ** Validation *)

Definition validatePatientName (patientName : string) : Prog World bool :=
  if bool_decide (String.length patientName < MIN_PATIENT_NAME_LENGTH)%nat
     || bool_decide (MAX_PATIENT_NAME_LENGTH < String.length patientName)%nat
  then
    _ ← puts ("Patient name must be between " +:+ pretty MIN_PATIENT_NAME_LENGTH +:+
              " and " +:+ pretty MAX_PATIENT_NAME_LENGTH +:+ " characters long.");
    mret false
  else mret true.

Definition validatePatientAge (patientAge : Z) : Prog World bool :=
  if bool_decide (patientAge < MIN_AGE_YEARS) || bool_decide (MAX_AGE_YEARS < patientAge)
  then
    _ ← puts ("Invalid age! Please enter a number between " +:+ pretty MIN_AGE_YEARS +:+
              " and " +:+ pretty MAX_AGE_YEARS +:+ ".");
    mret false
  else mret true.

Definition validatePatientDiagnosis (patientDiagnosis : string) : Prog World bool :=
  if bool_decide (String.length patientDiagnosis < MIN_DIAGNOSIS_LENGTH)%nat
     || bool_decide (MAX_DIAGNOSIS_LENGTH < String.length patientDiagnosis)%nat
  then
    _ ← puts ("Patient diagnosis must be between " +:+ pretty MIN_DIAGNOSIS_LENGTH +:+
              " and " +:+ pretty MAX_DIAGNOSIS_LENGTH +:+ " characters long.");
    mret false
  else mret true.

Definition validateRoomNumber (roomNumber : Z) : Prog World bool :=
  if bool_decide (roomNumber < MIN_ROOM_NUMBER) || bool_decide (MAX_ROOM_NUMBER < roomNumber)
  then
    _ ← puts ("Invalid Room Number: Must be between " +:+ pretty MIN_ROOM_NUMBER +:+
              " and " +:+ pretty MAX_ROOM_NUMBER +:+ ".");
    mret false
  else mret true.

Definition printPatientInfo (patient : Patient) : Prog World unit :=
  _ ← puts ("Patient ID: " +:+ pretty (patientId patient));
  _ ← puts ("Patient Name: " +:+ name patient);
  _ ← puts ("Age: " +:+ pretty (age patient));
  _ ← puts ("Diagnosis: " +:+ diagnosis patient);
  _ ← puts ("Room Number: " +:+ pretty (roomNumber patient));
  puts "---------------------------------------".

(** ** Prompts: one question, one answer, and the verdict of the
    validation beside the answer *)

Definition getPatientName : IProg St (bool * string) :=
  _ ← io (puts "Enter patient name:");
  line ← io (fgets MAX_PATIENT_NAME_LENGTH);
  match line with
  | None => undefined
  | Some buf =>
      let patientName := strip_newline buf in
      _ ← io clearInputBuffer;
      valid ← io (validatePatientName patientName);
      mret (valid, patientName)
  end.

Definition getPatientAge : IProg St (bool * Z) :=
  _ ← io (puts "Enter patient age:");
  scanResult ← io scanf_d;
  _ ← io clearInputBuffer;
  match scanResult with
  | Scanned patientAge =>
      valid ← io (validatePatientAge patientAge);
      mret (valid, patientAge)
  | _ => undefined
  end.

Definition getPatientDiagnosis : IProg St (bool * string) :=
  _ ← io (puts "Enter patient diagnosis:");
  line ← io (fgets MAX_DIAGNOSIS_LENGTH);
  match line with
  | None => undefined
  | Some buf =>
      let patientDiagnosis := strip_newline buf in
      valid ← io (validatePatientDiagnosis patientDiagnosis);
      mret (valid, patientDiagnosis)
  end.

Definition getRoomNumber : IProg St (bool * Z) :=
  _ ← io (puts "Enter patient room:");
  scanResult ← io scanf_d;
  _ ← io clearInputBuffer;
  match scanResult with
  | Scanned roomNumber =>
      valid ← io (validateRoomNumber roomNumber);
      mret (valid, roomNumber)
  | _ => undefined
  end.

Definition createNewPatient (patientName : string) (patientAge : Z)
    (patientDiagnosis : string) (roomNumber : Z) : IProg St Patient :=
  id ← lift (gets patientIDCounter);
  mret (mkPatient id patientName patientAge patientDiagnosis roomNumber).

(** ** Loops over the array *)

(** The loop of [patientExists], with [n] iterations left. *)
Fixpoint patientExists_loop (n : nat) (i id : Z) : IProg St Z :=
  match n with
  | O => mret PATIENT_NOT_FOUND
  | S n =>
      p ← slot i;
      if decide (patientId p = id) then mret i
      else patientExists_loop n (i + 1) id
  end.

Definition patientExists (id : Z) : IProg St Z :=
  patientExists_loop MAX_PATIENT_CAPACITY 0 id.

(** The loop of [checkRoomOccupancy]: [MAX_ROOM_NUMBER + 1] iterations. *)
Fixpoint checkRoomOccupancy_loop (n : nat) (i room : Z) : IProg St Z :=
  match n with
  | O => mret (-1)
  | S n =>
      p ← slot i;
      if decide (roomNumber p = room) then mret i
      else checkRoomOccupancy_loop n (i + 1) room
  end.

Definition checkRoomOccupancy (room : Z) : IProg St Z :=
  checkRoomOccupancy_loop (Z.to_nat (MAX_ROOM_NUMBER + 1)) 0 room.

(** The loop of [removePatientFromSystem]. *)
Fixpoint shift_loop (n : nat) (i : Z) : IProg St unit :=
  match n with
  | O => mret tt
  | S n =>
      p ← slot (i + 1);
      _ ← store i p;
      shift_loop n (i + 1)
  end.

Definition removePatientFromSystem (index : Z) : IProg St unit :=
  _ ← shift_loop (Z.to_nat (Z.of_nat MAX_PATIENT_CAPACITY - 1 - index)) index;
  lift (modify (set_total int_decr)).

(** The loop of [viewPatientRecords]. *)
Fixpoint view_loop (n : nat) (i : Z) : IProg St unit :=
  match n with
  | O => mret tt
  | S n =>
      p ← slot i;
      _ ← (if decide (patientId p ≠ 0) then io (printPatientInfo p) else mret tt);
      view_loop n (i + 1)
  end.

(** ** Commands *)

(** The part of [addPatientRecord] that follows the four prompts. *)
Definition store_new_patient (patientName : string) (patientAge : Z)
    (patientDiagnosis : string) (roomNumber : Z) : IProg St unit :=
  newPatient ← createNewPatient patientName patientAge patientDiagnosis roomNumber;
  total ← lift (gets totalPatients);
  _ ← store total newPatient;
  _ ← lift (modify (set_total int_incr));
  _ ← lift (modify (set_counter int_incr));
  _ ← io (puts "Patient added successfully!");
  total ← lift (gets totalPatients);
  p ← slot (total - 1);
  io (printPatientInfo p).

Definition addPatientRecord : IProg St unit :=
  total ← lift (gets totalPatients);
  if decide (Z.of_nat MAX_PATIENT_CAPACITY ≤ total) then
    io (puts "Max patient capacity reached!")
  else
    '(valid, patientName) ← getPatientName;
    if negb valid then mret tt else
    '(valid, patientAge) ← getPatientAge;
    if negb valid then mret tt else
    '(valid, patientDiagnosis) ← getPatientDiagnosis;
    if negb valid then mret tt else
    '(valid, roomNumber) ← getRoomNumber;
    if negb valid then mret tt else
    store_new_patient patientName patientAge patientDiagnosis roomNumber.

Definition viewPatientRecords : IProg St unit :=
  total ← lift (gets totalPatients);
  if decide (total = 0) then io (puts "No Patients Admitted...")
  else
    _ ← io (puts "--- Patient Record ---");
    view_loop MAX_PATIENT_CAPACITY 0.

(** [searchPatientById] prints the element that it found with six calls
    of [printf] that print what [printPatientInfo] prints. *)
Definition searchPatientById : IProg St unit :=
  _ ← io (puts "Enter A Patient Id: ");
  scanResult ← io scanf_d;
  _ ← io clearInputBuffer;
  match scanResult with
  | Scanned id =>
      index ← patientExists id;
      if decide (index = PATIENT_NOT_FOUND) then io (puts "Patient Does Not Exist!")
      else
        p ← slot index;
        io (printPatientInfo p)
  | _ => undefined
  end.

Definition getPatientIndexForDischarge : IProg St Z :=
  _ ← io (puts "Enter ID of patient to discharge:");
  scanResult ← io scanf_d;
  _ ← io clearInputBuffer;
  match scanResult with
  | Scanned patientId => patientExists patientId
  | _ => undefined
  end.

Definition confirmDischarge (patientIndex : Z) : IProg St bool :=
  p ← slot patientIndex;
  _ ← io (puts ("Patient ID: " +:+ pretty (patientId p)));
  _ ← io (puts ("Patient Name: " +:+ name p));
  _ ← io (puts "Are you sure you want to discharge this patient? (y/n)");
  scanResult ← io scanf_char;
  _ ← io clearInputBuffer;
  match scanResult with
  | Scanned confirm => mret (bool_decide (confirm = "y"%char))
  | _ => undefined
  end.

Definition dischargePatient : IProg St unit :=
  total ← lift (gets totalPatients);
  if decide (total = IS_EMPTY) then io (puts "No patients to discharge!")
  else
    index ← getPatientIndexForDischarge;
    if decide (index = PATIENT_NOT_FOUND) then io (puts "Patient is not in system.")
    else
      confirmed ← confirmDischarge index;
      if (confirmed : bool) then
        _ ← removePatientFromSystem index;
        io (puts "Patient has been discharged!")
      else io (puts "Patient discharge cancelled.").

End legacy.

(** ** The loops as functions on lists *)

(** The first index at which [P] holds, or -1. *)
Definition first_index (P : Patient → Prop) `{!∀ p, Decision (P p)}
    (l : list Patient) : Z :=
  match list_find P l with
  | Some (k, _) => Z.of_nat k
  | None => -1
  end.

(** The array after [n] iterations of the loop of
    [removePatientFromSystem] that starts at [i]. *)
Fixpoint shifted (n i : nat) (l : list Patient) : list Patient :=
  match n with
  | O => l
  | S n =>
      match l !! S i with
      | Some p => shifted n (S i) (<[i := p]> l)
      | None => l
      end
  end.

(** The array without its element [i]; the last element stays where it
    is. *)
Definition removed (i : nat) (l : list Patient) : list Patient :=
  delete i l ++ drop (length l - 1) l.

Section array.
Context `{Limits}.
Implicit Types (s : St) (l : list Patient) (p : Patient) (i n : nat).

Lemma slot_run s i p : patients s !! i = Some p → slot (Z.of_nat i) s = Some (p, s).
Proof. intros Hp. unfold slot. rewrite decide_True by lia. by rewrite Nat2Z.id, Hp. Qed.

Lemma slot_out s i : patients s !! i = None → slot (Z.of_nat i) s = None.
Proof. intros Hp. unfold slot. rewrite decide_True by lia. by rewrite Nat2Z.id, Hp. Qed.

Lemma slot_inv s z p s' :
  slot z s = Some (p, s') → s' = s ∧ 0 ≤ z ∧ patients s !! Z.to_nat z = Some p.
Proof.
  unfold slot. case_decide; [|done]. destruct (patients s !! Z.to_nat z); [|done].
  by intros [= -> ->].
Qed.

Lemma store_run s i p :
  (i < length (patients s))%nat →
  store (Z.of_nat i) p s = Some (tt, set_patients (<[i := p]>) s).
Proof. intros. unfold store. rewrite decide_True by lia. by rewrite Nat2Z.id. Qed.

Lemma first_index_cons (P : Patient → Prop) `{!∀ p, Decision (P p)} p l :
  first_index P (p :: l) = if decide (P p) then 0 else
    if decide (first_index P l = -1) then -1 else first_index P l + 1.
Proof.
  unfold first_index. cbn. case_decide; [done|].
  destruct (list_find P l) as [[k ?]|]; cbn; [|done]. rewrite decide_False by lia. lia.
Qed.

Lemma first_index_range (P : Patient → Prop) `{!∀ p, Decision (P p)} l :
  first_index P l = -1 ∨ 0 ≤ first_index P l < Z.of_nat (length l).
Proof.
  unfold first_index. destruct (list_find P l) as [[k p]|] eqn:Hf; [right|by left].
  apply list_find_Some in Hf as (Hk%lookup_lt_Some & _). lia.
Qed.

(** The loop of [patientExists] within the array. *)
Lemma patientExists_loop_run n i id s :
  (i + n ≤ length (patients s))%nat →
  patientExists_loop n (Z.of_nat i) id s =
  Some (let k := first_index (λ p, patientId p = id) (take n (drop i (patients s))) in
        if decide (k = -1) then PATIENT_NOT_FOUND else Z.of_nat i + k, s).
Proof.
  revert i. induction n as [|n IH]; intros i Hlen; [done|].
  destruct (lookup_lt_is_Some_2 (patients s) i) as [p Hp]; [lia|].
  cbn [patientExists_loop]. rewrite (ibind_run_Some _ _ _ _ _ (slot_run _ _ _ Hp)).
  rewrite (drop_S _ _ _ Hp), firstn_cons, first_index_cons. cbv zeta.
  destruct (decide (patientId p = id)); [by rewrite decide_False, Z.add_0_r by done|].
  replace (Z.of_nat i + 1) with (Z.of_nat (S i)) by lia. rewrite IH by lia. cbv zeta.
  pose proof (first_index_range (λ p, patientId p = id)
    (take n (drop (S i) (patients s)))).
  repeat case_decide; try lia; try done. do 2 f_equal. lia.
Qed.

(** The loop of [checkRoomOccupancy] reads outside of the array when
    it has more iterations than the array has elements and no element
    has the room. *)
Lemma checkRoomOccupancy_loop_out n i room s :
  Forall (λ p, roomNumber p ≠ room) (drop i (patients s)) →
  (i ≤ length (patients s) < i + n)%nat →
  checkRoomOccupancy_loop n (Z.of_nat i) room s = None.
Proof.
  revert i. induction n as [|n IH]; intros i Hall Hlen; [lia|].
  cbn [checkRoomOccupancy_loop]. destruct (patients s !! i) as [p|] eqn:Hp.
  - rewrite (ibind_run_Some _ _ _ _ _ (slot_run _ _ _ Hp)).
    rewrite (drop_S _ _ _ Hp) in Hall. apply Forall_cons in Hall as [Hp' Hall].
    rewrite decide_False by done. replace (Z.of_nat i + 1) with (Z.of_nat (S i)) by lia.
    apply IH; [done|]. apply lookup_lt_Some in Hp. lia.
  - by rewrite ibind_run_None by (by apply slot_out).
Qed.

Lemma shifted_cons n i p l : shifted n (S i) (p :: l) = p :: shifted n i l.
Proof.
  revert i l. induction n as [|n IH]; intros i l; [done|]. cbn [shifted].
  change ((p :: l) !! S (S i)) with (l !! S i). destruct (l !! S i); [|done].
  change (<[S i:=?q]> (p :: l)) with (p :: <[i:=q]> l). by rewrite IH.
Qed.

Lemma shifted_head l : shifted (length l - 1) 0 l = removed 0 l.
Proof.
  unfold removed. induction l as [|p l IH]; [done|]. destruct l as [|q l]; [done|].
  cbn [length] in *. rewrite !Nat.sub_succ, !Nat.sub_0_r in *.
  change (shifted (length l) 1 (q :: q :: l) = q :: l ++ drop (length l) (q :: l)).
  by rewrite shifted_cons, IH.
Qed.

(** The loop of [removePatientFromSystem] moves every element after
    [i] one place down and leaves the last one in place. *)
Lemma shifted_removed i l :
  (i < length l)%nat → shifted (length l - 1 - i) i l = removed i l.
Proof.
  revert l. induction i as [|i IH]; intros l Hi.
  { rewrite Nat.sub_0_r. apply shifted_head. }
  destruct l as [|p l]; [simpl in Hi; lia|]. cbn [length] in *.
  replace (S (length l) - 1 - S i)%nat with (length l - 1 - i)%nat by lia.
  rewrite shifted_cons, IH by lia. unfold removed. cbn [delete list_delete length].
  destruct l; [simpl in Hi; lia|]. cbn [length]. by rewrite !Nat.sub_succ, !Nat.sub_0_r.
Qed.

Lemma shifted_length n i l : length (shifted n i l) = length l.
Proof.
  revert i l. induction n as [|n IH]; intros i l; [done|]. cbn [shifted].
  destruct (l !! S i); [|done]. by rewrite IH, length_insert.
Qed.

Lemma shift_loop_run n i s :
  (i + n < length (patients s))%nat →
  shift_loop n (Z.of_nat i) s = Some (tt, set_patients (shifted n i) s).
Proof.
  revert i s. induction n as [|n IH]; intros i s Hlen; [by destruct s|].
  destruct (lookup_lt_is_Some_2 (patients s) (S i)) as [p Hp]; [lia|].
  cbn [shift_loop shifted].
  replace (Z.of_nat i + 1) with (Z.of_nat (S i)) by lia.
  rewrite (ibind_run_Some _ _ _ _ _ (slot_run _ _ _ Hp)).
  rewrite (ibind_run_Some _ _ _ _ _ (store_run s i p ltac:(lia))).
  rewrite IH by (cbn; rewrite length_insert; lia).
  destruct s; unfold set_patients; cbn in *. by rewrite Hp.
Qed.

(** [removePatientFromSystem] on an index of the array. *)
Lemma removePatientFromSystem_run i s :
  length (patients s) = MAX_PATIENT_CAPACITY → (i < MAX_PATIENT_CAPACITY)%nat →
  removePatientFromSystem (Z.of_nat i) s =
  Some (tt, set_total int_decr (set_patients (removed i) s)).
Proof.
  intros Hlen Hi. unfold removePatientFromSystem.
  replace (Z.to_nat _) with (length (patients s) - 1 - i)%nat by lia.
  rewrite (ibind_run_Some _ _ _ _ _ (shift_loop_run (length (patients s) - 1 - i) i s ltac:(lia))).
  destruct s; unfold set_total, set_patients; cbn in *. by rewrite shifted_removed by lia.
Qed.

End array.

(** ** The register in the array and its invariant *)

(** The patients of the register: the first [totalPatients] elements. *)
Definition active (s : St) : list Patient :=
  take (Z.to_nat (totalPatients s)) (patients s).

(** Two states with the same globals. *)
Definition same_data (s s' : St) : Prop :=
  patients s' = patients s ∧ totalPatients s' = totalPatients s ∧
  patientIDCounter s' = patientIDCounter s.

(** A command that changes the environment only. *)
Definition keeps_data {A} (m : IProg St A) : Prop :=
  ∀ s a s', m s = Some (a, s') → same_data s s'.

Section invariant.
Context `{Limits}.
Implicit Types (s : St) (l : list Patient) (p : Patient) (i n : nat).

(** The array has its size and the counters are values of [int]. *)
Definition typed (s : St) : Prop :=
  length (patients s) = MAX_PATIENT_CAPACITY ∧
  in_int (totalPatients s) ∧ in_int (patientIDCounter s).

(** The invariant of the array store: the first [totalPatients]
    elements are patients with distinct ids that were issued, the other
    elements are as they were at the start, with the id 0. *)
Record arr_ok (s : St) : Prop := mk_arr_ok {
  arr_length : length (patients s) = MAX_PATIENT_CAPACITY;
  arr_capacity : Z.of_nat MAX_PATIENT_CAPACITY ≤ INT_MAX;
  arr_total : 0 ≤ totalPatients s ≤ Z.of_nat MAX_PATIENT_CAPACITY;
  arr_counter : 1 ≤ patientIDCounter s ≤ INT_MAX;
  arr_ids : Forall (λ p, 1 ≤ patientId p < patientIDCounter s) (active s);
  arr_nodup : NoDup (patientId <$> active s);
  arr_free : Forall (λ p, p = zero_patient)
               (drop (Z.to_nat (totalPatients s)) (patients s))
}.

#[export] Instance same_data_equiv : Equivalence same_data.
Proof.
  split; [done| |]; unfold same_data.
  - intros s s'. naive_solver.
  - intros s1 s2 s3. naive_solver congruence.
Qed.

Lemma arr_ok_boot w : Z.of_nat MAX_PATIENT_CAPACITY ≤ INT_MAX → arr_ok (boot w).
Proof.
  intros Hcap. unfold boot, IS_EMPTY, DEFAULT_ID, INT_MAX in *.
  split; cbn; rewrite ?length_replicate; try (done || lia || constructor).
  by apply Forall_replicate.
Qed.

Lemma same_data_active s s' : same_data s s' → active s' = active s.
Proof. intros (Hp & Ht & _). unfold active. by rewrite Hp, Ht. Qed.


Lemma same_data_arr_ok s s' : same_data s s' → arr_ok s → arr_ok s'.
Proof.
  intros Hs [? ? ? ? ? ? ?]. pose proof (same_data_active _ _ Hs) as Ha.
  destruct Hs as (Hp & Ht & Hc). split; by rewrite ?Ha, ?Hp, ?Ht, ?Hc.
Qed.

(** *** Commands that change the environment only *)

Lemma keeps_io {A} (m : Prog World A) : keeps_data (io m).
Proof. intros s a s'. unfold io. destruct (m (world s)). by intros [= _ <-]. Qed.

Lemma keeps_ret {A} (a : A) : keeps_data (mret a).
Proof. by intros s a' s' [= _ <-]. Qed.

Lemma keeps_undefined {A} : keeps_data (undefined (A:=A)).
Proof. by intros s a s'. Qed.

Lemma keeps_gets {A} (f : St → A) : keeps_data (lift (gets f)).
Proof. by intros s a s' [= _ <-]. Qed.

Lemma keeps_slot z : keeps_data (slot z).
Proof. by intros s p s' (-> & _)%slot_inv. Qed.

Lemma keeps_bind {A B} (m : IProg St A) (k : A → IProg St B) :
  keeps_data m → (∀ a, keeps_data (k a)) → keeps_data (m ≫= k).
Proof.
  intros Hm Hk s b s' (a & s1 & H1 & H2)%ibind_inv.
  etrans; [by eapply Hm | by eapply Hk].
Qed.

End invariant.

(** Every command built from library calls, reads of the array and
    tests changes the environment only. *)
Ltac keeps_data :=
  repeat first
    [ apply keeps_io | apply keeps_ret | apply keeps_undefined | apply keeps_gets
    | apply keeps_slot | apply keeps_bind; [|intros ?]
    | match goal with
      | |- keeps_data (match ?x with _ => _ end) => destruct x
      | |- keeps_data (let '(_, _) := ?x in _) => destruct x
      end
    | solve [auto] ].

Section prompts.
Context `{Limits}.

Lemma getPatientName_keeps : keeps_data getPatientName.
Proof. unfold getPatientName. keeps_data. Qed.

Lemma getPatientAge_keeps : keeps_data getPatientAge.
Proof. unfold getPatientAge. keeps_data. Qed.

Lemma getPatientDiagnosis_keeps : keeps_data getPatientDiagnosis.
Proof. unfold getPatientDiagnosis. keeps_data. Qed.

Lemma getRoomNumber_keeps : keeps_data getRoomNumber.
Proof. unfold getRoomNumber. keeps_data. Qed.

Lemma patientExists_loop_keeps n i id : keeps_data (patientExists_loop n i id).
Proof. revert i. induction n; intros i; cbn [patientExists_loop]; keeps_data. Qed.

Lemma checkRoomOccupancy_loop_keeps n i room :
  keeps_data (checkRoomOccupancy_loop n i room).
Proof. revert i. induction n; intros i; cbn [checkRoomOccupancy_loop]; keeps_data. Qed.

Lemma view_loop_keeps n i : keeps_data (view_loop n i).
Proof. revert i. induction n; intros i; cbn [view_loop]; keeps_data. Qed.

Lemma viewPatientRecords_keeps : keeps_data viewPatientRecords.
Proof. unfold viewPatientRecords. pose proof view_loop_keeps. keeps_data. Qed.

Lemma searchPatientById_keeps : keeps_data searchPatientById.
Proof.
  unfold searchPatientById, patientExists. pose proof patientExists_loop_keeps.
  keeps_data.
Qed.

Lemma getPatientIndexForDischarge_keeps : keeps_data getPatientIndexForDischarge.
Proof.
  unfold getPatientIndexForDischarge, patientExists.
  pose proof patientExists_loop_keeps. keeps_data.
Qed.

Lemma confirmDischarge_keeps index : keeps_data (confirmDischarge index).
Proof. unfold confirmDischarge. keeps_data. Qed.

End prompts.

(** ** The commands *)

Section commands.
Context `{Limits}.
Implicit Types (s : St) (l : list Patient) (p : Patient) (i n : nat).

Lemma removed_length i l : (i < length l)%nat → length (removed i l) = length l.
Proof.
  intros. unfold removed. rewrite length_app, length_delete, length_drop by
    (by apply lookup_lt_is_Some_2). lia.
Qed.

Lemma removed_lookup i l k :
  (i < length l)%nat →
  removed i l !! k =
  if decide (k < i)%nat then l !! k
  else if decide (k < length l - 1)%nat then l !! S k else l !! k.
Proof.
  intros Hi. unfold removed.
  assert (length (delete i l) = length l - 1)%nat as Hd
    by (rewrite length_delete by (by apply lookup_lt_is_Some_2); lia).
  repeat case_decide.
  - rewrite lookup_app_l by lia. by apply list_lookup_delete_lt.
  - rewrite lookup_app_l by lia. apply list_lookup_delete_ge. lia.
  - rewrite lookup_app_r, lookup_drop, Hd by lia. f_equal. lia.
Qed.

(** Removing an element of an array whose last element is free removes
    it from the patients, and the elements after them stay free. *)
Lemma removed_take i t l :
  (i < t < length l)%nat → take (t - 1) (removed i l) = delete i (take t l).
Proof.
  intros Hi. apply list_eq. intros k. destruct (decide (k < t - 1)%nat).
  - rewrite lookup_take_lt, removed_lookup by lia. destruct (decide (k < i)%nat).
    + by rewrite list_lookup_delete_lt, lookup_take_lt by lia.
    + rewrite decide_True, list_lookup_delete_ge, lookup_take_lt by lia. done.
  - rewrite lookup_take_ge by lia. symmetry. apply lookup_ge_None.
    rewrite length_delete, length_take by (apply lookup_lt_is_Some_2; rewrite length_take; lia).
    lia.
Qed.

Lemma removed_drop (P : Patient → Prop) i t l :
  (i < t < length l)%nat → Forall P (drop t l) → Forall P (drop (t - 1) (removed i l)).
Proof.
  intros Hi Hall. apply Forall_lookup. intros k p.
  rewrite lookup_drop, removed_lookup by lia. rewrite decide_False by lia.
  rewrite Forall_lookup in Hall. case_decide; intros Hp.
  - apply (Hall (S (t - 1 + k) - t)%nat). rewrite lookup_drop, <-Hp. f_equal. lia.
  - apply (Hall (t - 1 + k - t)%nat). rewrite lookup_drop, <-Hp. f_equal. lia.
Qed.

End commands.

(** ** Admission *)

Section admission.
Context `{Limits}.
Implicit Types (s : St) (l : list Patient) (p : Patient) (i n : nat).

(** What [store_new_patient] does to the globals when it returns. *)
Lemma store_new_patient_inv patientName patientAge patientDiagnosis room s s' :
  store_new_patient patientName patientAge patientDiagnosis room s = Some (tt, s') →
  0 ≤ totalPatients s < Z.of_nat (length (patients s)) ∧
  patients s' =
    <[Z.to_nat (totalPatients s) :=
        mkPatient (patientIDCounter s) patientName patientAge patientDiagnosis room]>
      (patients s) ∧
  totalPatients s' = int_incr (totalPatients s) ∧
  patientIDCounter s' = int_incr (patientIDCounter s).
Proof.
  unfold store_new_patient, createNewPatient, io, store, slot. prog_unfold.
  intros Hrun. repeat case_match; simplify_eq/=.
  match goal with Hs : _ <$> _ = Some _ |- _ => apply fmap_Some in Hs as (? & _ & ?) end.
  by simplify_eq/=.
Qed.

(** [store_new_patient] returns when the array has a free element. *)
Lemma store_new_patient_returns patientName patientAge patientDiagnosis room s :
  0 ≤ totalPatients s < Z.of_nat (length (patients s)) → totalPatients s < INT_MAX →
  ∃ s', store_new_patient patientName patientAge patientDiagnosis room s = Some (tt, s').
Proof.
  intros Hin Hmax. unfold store_new_patient, createNewPatient, io, store, slot. prog_unfold.
  rewrite decide_True by done. cbn.
  rewrite int_incr_small by (unfold in_int, INT_MIN, INT_MAX in *; lia).
  rewrite decide_True by lia. replace (totalPatients s + 1 - 1) with (totalPatients s) by lia.
  rewrite list_lookup_insert_eq by lia. cbn. by destruct (printPatientInfo _ _) as [[] ?]; eauto.
Qed.

(** A prompt of [addPatientRecord]: the answer is rejected and the
    command is over, or the command goes on from [s1]. *)
Ltac prompt_step Hrun Hkeeps :=
  let valid := fresh "valid" in
  let Hs := fresh "Hs" in
  apply ibind_inv in Hrun as ([valid ?] & ? & Hs%Hkeeps & Hrun);
  destruct valid; cbn [negb] in Hrun;
  [|left; injection Hrun as <-; try done; by repeat (etrans; [eassumption|])].

(** [addPatientRecord] changes the environment only, or reaches
    [store_new_patient] with the globals it started with. *)
Lemma addPatientRecord_inv s s' :
  addPatientRecord s = Some (tt, s') →
  same_data s s' ∨
  ∃ s1 patientName patientAge patientDiagnosis room,
    same_data s s1 ∧
    store_new_patient patientName patientAge patientDiagnosis room s1 = Some (tt, s').
Proof.
  unfold addPatientRecord. intros Hrun.
  apply ibind_inv in Hrun as (total & s0 & [= <- <-] & Hrun).
  case_decide; [left; by eapply keeps_io|].
  prompt_step Hrun @getPatientName_keeps. prompt_step Hrun @getPatientAge_keeps.
  prompt_step Hrun @getPatientDiagnosis_keeps. prompt_step Hrun @getRoomNumber_keeps.
  right. do 5 eexists. split; [|done]. by repeat (etrans; [eassumption|]).
Qed.

(** The array after an element was stored behind the patients. *)
Lemma arr_ok_store s s' p :
  arr_ok s → patientIDCounter s < INT_MAX →
  0 ≤ totalPatients s < Z.of_nat (length (patients s)) →
  patients s' = <[Z.to_nat (totalPatients s) := p]> (patients s) →
  totalPatients s' = int_incr (totalPatients s) →
  patientIDCounter s' = int_incr (patientIDCounter s) →
  patientId p = patientIDCounter s →
  arr_ok s' ∧ active s' = active s ++ [p].
Proof.
  intros [Hlen Hcap Ht Hc Hids Hnd Hfree] Hmax Hin Hp Ht' Hc' Hid.
  rewrite int_incr_small in Ht', Hc' by (unfold in_int, INT_MIN, INT_MAX in *; lia).
  assert (active s' = active s ++ [p]) as Ha.
  { unfold active. rewrite Ht', Hp, Z2Nat.inj_add, Nat.add_1_r by lia.
    rewrite (take_S_r _ _ p) by (apply list_lookup_insert_eq; lia).
    by rewrite take_insert_ge. }
  split; [split|done]; rewrite ?Ha, ?Hp, ?Ht', ?Hc', ?length_insert; try lia.
  - apply Forall_app. split; [|apply Forall_singleton; lia].
    eapply Forall_impl; [done|]. intros q ?. simpl in *. lia.
  - rewrite fmap_app. apply NoDup_app. split_and!; [done| |apply NoDup_singleton].
    intros id (q & -> & Hq)%list_elem_of_fmap [= Hid']%list_elem_of_singleton.
    rewrite Forall_forall in Hids. specialize (Hids q Hq). simpl in *. lia.
  - rewrite Z2Nat.inj_add, Nat.add_1_r, drop_insert_lt by lia.
    rewrite <-Nat.add_1_r, <-drop_drop. by apply Forall_drop.
Qed.

End admission.

(** ** Discharge *)

Section discharge.
Context `{Limits}.
Implicit Types (s : St) (l : list Patient) (p : Patient) (i n : nat) (id : Z).

Lemma first_index_Some (P : Patient → Prop) `{!∀ p, Decision (P p)} l i :
  first_index P l = Z.of_nat i →
  ∃ p, l !! i = Some p ∧ P p ∧ ∀ j q, l !! j = Some q → (j < i)%nat → ¬ P q.
Proof.
  unfold first_index. destruct (list_find P l) as [[k p]|] eqn:Hf; [|lia].
  intros ->%(inj Z.of_nat). apply list_find_Some in Hf. naive_solver.
Qed.

Lemma first_index_None (P : Patient → Prop) `{!∀ p, Decision (P p)} l :
  first_index P l = -1 ↔ Forall (λ p, ¬ P p) l.
Proof.
  unfold first_index. destruct (list_find P l) as [[k p]|] eqn:Hf.
  - split; [lia|]. intros Hall. apply list_find_Some in Hf as (Hk & Hp & _).
    eapply Forall_lookup in Hall; [|done]. done.
  - split; [|done]. intros _. by apply (list_find_None P l).
Qed.

Lemma first_index_found (P : Patient → Prop) `{!∀ p, Decision (P p)} l i p :
  l !! i = Some p → P p → (∀ j q, l !! j = Some q → (j < i)%nat → ¬ P q) →
  first_index P l = Z.of_nat i.
Proof.
  intros Hp HP Hfirst. unfold first_index.
  by rewrite (proj2 (list_find_Some P l i p)).
Qed.

(** [patientExists] returns the first index of the array that holds
    the id. *)
Lemma patientExists_run id s :
  length (patients s) = MAX_PATIENT_CAPACITY →
  patientExists id s = Some (first_index (λ p, patientId p = id) (patients s), s).
Proof.
  intros Hlen. unfold patientExists.
  rewrite (patientExists_loop_run _ 0) by (rewrite Hlen; lia). cbv zeta.
  rewrite drop_0, take_ge by lia. unfold PATIENT_NOT_FOUND.
  case_decide as Hk; [by rewrite Hk|done].
Qed.

Lemma getPatientIndexForDischarge_inv s index s1 :
  length (patients s) = MAX_PATIENT_CAPACITY →
  getPatientIndexForDischarge s = Some (index, s1) →
  same_data s s1 ∧
  ∃ id, (scan_int_lines (w_stdin (world s))).1 = Scanned id ∧
        index = first_index (λ p, patientId p = id) (patients s).
Proof.
  intros Hlen Hrun. split; [by eapply getPatientIndexForDischarge_keeps|].
  revert Hrun. unfold getPatientIndexForDischarge, io, scanf_d, clearInputBuffer.
  prog_unfold. cbn. destruct (scan_int_lines _) as [[id| |] ins]; [|done..].
  rewrite patientExists_run by done. intros [= <- _]. by exists id.
Qed.

(** [patientExists] finds a patient of the register where it is. *)
Lemma first_index_active s i p :
  arr_ok s → active s !! i = Some p →
  first_index (λ q, patientId q = patientId p) (patients s) = Z.of_nat i ∧
  patients s !! i = Some p ∧ (i < Z.to_nat (totalPatients s))%nat.
Proof.
  intros [Hlen Hcap Ht Hc Hids Hnd Hfree] Hp. unfold active in *.
  apply lookup_take_Some in Hp as [Hp Hi]. split_and!; [|done..].
  apply (first_index_found _ _ _ p); [done..|]. intros j q Hq Hj Heq.
  assert (take (Z.to_nat (totalPatients s)) (patients s) !! j = Some q) as Hq'
    by (rewrite lookup_take_lt by lia; done).
  assert (take (Z.to_nat (totalPatients s)) (patients s) !! i = Some p) as Hp'
    by (rewrite lookup_take_lt by lia; done).
  assert (j = i); [|lia].
  apply (NoDup_lookup _ j i (patientId p) Hnd); rewrite list_lookup_fmap.
  - by rewrite Hq', <-Heq.
  - by rewrite Hp'.
Qed.

(** [dischargePatient] changes the environment only, or removes the
    element at the first index that holds the id that was typed. *)
Lemma dischargePatient_inv s s' :
  length (patients s) = MAX_PATIENT_CAPACITY →
  dischargePatient s = Some (tt, s') →
  same_data s s' ∨
  ∃ id i, (scan_int_lines (w_stdin (world s))).1 = Scanned id ∧
          first_index (λ p, patientId p = id) (patients s) = Z.of_nat i ∧
          patients s' = removed i (patients s) ∧
          totalPatients s' = int_decr (totalPatients s) ∧
          patientIDCounter s' = patientIDCounter s.
Proof.
  intros Hlen. unfold dischargePatient. intros Hrun.
  apply ibind_inv in Hrun as (total & s0 & [= <- <-] & Hrun).
  case_decide; [left; by eapply keeps_io|].
  apply ibind_inv in Hrun as (index & s1 & Hindex & Hrun).
  apply getPatientIndexForDischarge_inv in Hindex as (Hs1 & id & Hid & ->); [|done].
  case_decide as Hfound; [left; etrans; [done|by eapply keeps_io]|].
  apply ibind_inv in Hrun as (confirmed & s2 & Hs2%confirmDischarge_keeps & Hrun).
  destruct confirmed; [|left; etrans; [done|]; etrans; [done|by eapply keeps_io]].
  pose proof (first_index_range (λ p, patientId p = id) (patients s)) as [?|Hi]; [done|].
  apply ibind_inv in Hrun as ([] & s3 & Hremove & Hs3%keeps_io).
  assert (same_data s s2) as Hs by (by etrans). destruct Hs as (Hp & Ht & Hc).
  replace (first_index _ _) with (Z.of_nat (Z.to_nat (first_index (λ p, patientId p = id)
    (patients s)))) in Hremove by lia.
  rewrite removePatientFromSystem_run in Hremove by (rewrite ?Hp; lia).
  injection Hremove as <-.
  right. exists id, (Z.to_nat (first_index (λ p, patientId p = id) (patients s))).
  destruct Hs3 as (-> & -> & ->). cbn. rewrite Hp, Ht, Hc. split_and!; [done|lia|done..].
Qed.

(** The array after the element [i] of the patients was removed, when
    the array was not full. *)
Lemma arr_ok_removed s s' i :
  arr_ok s → totalPatients s < Z.of_nat MAX_PATIENT_CAPACITY →
  (i < Z.to_nat (totalPatients s))%nat →
  patients s' = removed i (patients s) →
  totalPatients s' = int_decr (totalPatients s) →
  patientIDCounter s' = patientIDCounter s →
  arr_ok s' ∧ active s' = delete i (active s).
Proof.
  intros [Hlen Hcap Ht Hc Hids Hnd Hfree] Hfull Hi Hp Ht' Hc'.
  rewrite int_decr_small in Ht' by (unfold in_int, INT_MIN, INT_MAX in *; lia).
  assert (active s' = delete i (active s)) as Ha.
  { unfold active. rewrite Ht', Hp, Z2Nat.inj_sub by lia. by rewrite removed_take by lia. }
  split; [split|done]; rewrite ?Ha, ?Hp, ?Ht', ?Hc', ?removed_length; try lia.
  - eapply Forall_sublist; [done|apply sublist_delete].
  - rewrite list_fmap_delete. 
    apply (sublist_NoDup _ (patientId <$> active s)); [done|apply sublist_delete].
  - rewrite Z2Nat.inj_sub by lia. apply removed_drop; [lia|done].
Qed.

End discharge.

(** ** The commands of the menu *)

Inductive command : Type := Add | View | Search | Discharge.

#[export] Instance command_eq_dec : EqDecision command.
Proof. solve_decision. Defined.

Section theorems.
Context `{Limits}.
Implicit Types (s : St) (l : list Patient) (p : Patient) (i n : nat) (id : Z).

Definition run_command (c : command) : IProg St unit :=
  match c with
  | Add => addPatientRecord
  | View => viewPatientRecords
  | Search => searchPatientById
  | Discharge => dischargePatient
  end.

(** The id that [scanf] reads next from the console, if it reads one. *)
Definition typed_id (s : St) : scan Z := (scan_int_lines (w_stdin (world s))).1.


(** C17: the invariant of the array store.  From a state that
    satisfies [arr_ok] with the id counter below [INT_MAX], a command
    that returns leaves a state that satisfies [arr_ok], whatever is
    typed, provided that a discharge happens with a free element left in
    the array and for an id other than 0. *)
Theorem commands_preserve c s s' :
  arr_ok s → patientIDCounter s < INT_MAX →
  (c = Discharge →
   totalPatients s < Z.of_nat MAX_PATIENT_CAPACITY ∧ typed_id s ≠ Scanned 0) →
  run_command c s = Some (tt, s') → arr_ok s'.
Proof.
  intros Hok Hmax Hdis Hrun. destruct c; cbn [run_command] in Hrun.
  - apply addPatientRecord_inv in Hrun as [?|(s1 & ? & ? & ? & ? & Hs & Hrun)];
      [by eapply same_data_arr_ok|].
    pose proof (same_data_arr_ok _ _ Hs Hok) as Hok1. destruct Hs as (_ & _ & Hc).
    apply store_new_patient_inv in Hrun as (Hin & Hp & Ht' & Hc').
    apply (arr_ok_store s1 s' _ Hok1 ltac:(by rewrite Hc) Hin Hp Ht' Hc' eq_refl).
  - eapply same_data_arr_ok; [by eapply viewPatientRecords_keeps|done].
  - eapply same_data_arr_ok; [by eapply searchPatientById_keeps|done].
  - destruct Hdis as [Hfull Hid]; [done|].
    apply dischargePatient_inv in Hrun as [?|(id & i & Hscan & Hi & Hp & Ht & Hc)];
      [by eapply same_data_arr_ok| |by destruct Hok].
    apply first_index_Some in Hi as (p & Hi & Hpid & _).
    apply (arr_ok_removed s s' i Hok Hfull); [|done..].
    destruct (decide (i < Z.to_nat (totalPatients s))%nat) as [|Hge]; [done|].
    destruct Hok as [_ _ _ _ _ _ Hfree]. rewrite Forall_lookup in Hfree.
    specialize (Hfree (i - Z.to_nat (totalPatients s))%nat p).
    rewrite lookup_drop in Hfree. replace (_ + _)%nat with i in Hfree by lia.
    rewrite (Hfree Hi) in Hpid. cbn in Hpid. unfold typed_id in Hid. congruence.
Qed.

(** C32: [checkRoomOccupancy] reads outside of the array.  It looks
    at [MAX_ROOM_NUMBER + 1] elements of an array of
    [MAX_PATIENT_CAPACITY]: when the rooms are more than the elements
    and no element has the room, the search has no defined result. *)
Theorem checkRoomOccupancy_out_of_bounds room s :
  length (patients s) = MAX_PATIENT_CAPACITY →
  Z.of_nat MAX_PATIENT_CAPACITY < MAX_ROOM_NUMBER + 1 →
  Forall (λ p, roomNumber p ≠ room) (patients s) →
  checkRoomOccupancy room s = None.
Proof.
  intros Hlen Hrooms Hall. unfold checkRoomOccupancy.
  apply (checkRoomOccupancy_loop_out _ 0); [by rewrite drop_0|lia].
Qed.

End theorems.

(** ** What the prompts and the discharge do on given input *)

(** The state after a prompt printed [outs] and left [ins] of the
    console input. *)
Definition asked (outs ins : list string) (s : St) : St :=
  set_world (λ w, set_stdin (λ _, ins) (set_stdout (λ o, o ++ outs) w)) s.

Section defects.
Context `{Limits}.
Implicit Types (s : St) (l : list Patient) (p : Patient) (i n : nat) (id : Z).

Lemma asked_data outs ins s : same_data s (asked outs ins s).
Proof. done. Qed.

Lemma getPatientIndexForDischarge_run s id ins :
  length (patients s) = MAX_PATIENT_CAPACITY →
  scan_int_lines (w_stdin (world s)) = (Scanned id, ins) →
  getPatientIndexForDischarge s =
  Some (first_index (λ p, patientId p = id) (patients s),
        asked ["Enter ID of patient to discharge:"] (tail ins) s).
Proof.
  intros Hlen Hscan. unfold getPatientIndexForDischarge, io, scanf_d, clearInputBuffer.
  prog_unfold. cbn. rewrite Hscan. cbn. rewrite patientExists_run by done.
  destruct s as [? ? ? []]. done.
Qed.

Lemma confirm_at_index_run s i p c r ins :
  patients s !! i = Some p → w_stdin (world s) = String c r :: ins →
  confirmDischarge (Z.of_nat i) s =
  Some (bool_decide (c = "y"%char),
        asked ["Patient ID: " +:+ pretty (patientId p); "Patient Name: " +:+ name p;
               "Are you sure you want to discharge this patient? (y/n)"] ins s).
Proof.
  intros Hp Hin. unfold confirmDischarge.
  rewrite (ibind_run_Some _ _ _ _ _ (slot_run _ _ _ Hp)).
  unfold io, scanf_char, clearInputBuffer. prog_unfold. cbn. rewrite Hin. cbn.
  destruct s as [? ? ? []]. unfold asked, set_world, set_stdin, set_stdout. cbn.
  by rewrite <-!app_assoc.
Qed.

(** A discharge that is confirmed. *)
Lemma dischargePatient_run s id ins r rest i p :
  length (patients s) = MAX_PATIENT_CAPACITY → totalPatients s ≠ 0 →
  scan_int_lines (w_stdin (world s)) = (Scanned id, ins) →
  tail ins = String "y" r :: rest →
  first_index (λ p, patientId p = id) (patients s) = Z.of_nat i →
  patients s !! i = Some p →
  dischargePatient s =
  Some (tt, asked ["Enter ID of patient to discharge:";
                   "Patient ID: " +:+ pretty (patientId p); "Patient Name: " +:+ name p;
                   "Are you sure you want to discharge this patient? (y/n)";
                   "Patient has been discharged!"] rest
              (set_total int_decr (set_patients (removed i) s))).
Proof.
  intros Hlen Htotal Hscan Hins Hi Hp. unfold dischargePatient.
  rewrite (ibind_run_Some _ _ s (totalPatients s) s) by done.
  rewrite decide_False by done.
  rewrite (ibind_run_Some _ _ _ _ _ (getPatientIndexForDischarge_run _ _ _ Hlen Hscan)).
  rewrite Hi, decide_False by (unfold PATIENT_NOT_FOUND; lia).
  assert (w_stdin (world (asked ["Enter ID of patient to discharge:"] (tail ins) s)) =
          String "y" r :: rest) as Hin by (by destruct s as [? ? ? []]).
  rewrite (ibind_run_Some _ _ _ _ _ (confirm_at_index_run
    (asked ["Enter ID of patient to discharge:"] (tail ins) s) i p "y" r rest Hp Hin)).
  rewrite bool_decide_true by done.
  assert (i < MAX_PATIENT_CAPACITY)%nat as Hcap by (apply lookup_lt_Some in Hp; lia).
  rewrite (ibind_run_Some _ _ _ _ _ (removePatientFromSystem_run i (asked _ rest
    (asked _ (tail ins) s)) Hlen Hcap)).
  destruct s as [? ? ? []]. unfold io, asked, set_world, set_stdin, set_stdout,
    set_total, set_patients. cbn. unfold set_stdout. cbn. by rewrite <-!app_assoc.
Qed.

(** Removing a free element of an array whose elements from there on
    are free changes nothing. *)
Lemma removed_free i l :
  (i < length l)%nat → Forall (λ p, p = zero_patient) (drop i l) → removed i l = l.
Proof.
  intros Hi Hfree. apply list_eq. intros k. rewrite removed_lookup by done.
  rewrite Forall_lookup in Hfree. repeat case_decide; [done| |done].
  destruct (lookup_lt_is_Some_2 l k) as [p Hp]; [lia|].
  destruct (lookup_lt_is_Some_2 l (S k)) as [q Hq]; [lia|].
  rewrite Hp, Hq, (Hfree (k - i)%nat p), (Hfree (S k - i)%nat q); [done|..];
    rewrite lookup_drop; [rewrite <-Hq|rewrite <-Hp]; f_equal; lia.
Qed.

(** The first element with the id 0 is the first free element. *)
Lemma first_index_zero s :
  arr_ok s → totalPatients s < Z.of_nat MAX_PATIENT_CAPACITY →
  first_index (λ p, patientId p = 0) (patients s) = Z.of_nat (Z.to_nat (totalPatients s)) ∧
  patients s !! Z.to_nat (totalPatients s) = Some zero_patient.
Proof.
  intros [Hlen Hcap Ht Hc Hids Hnd Hfree] Hfull.
  destruct (lookup_lt_is_Some_2 (patients s) (Z.to_nat (totalPatients s))) as [p Hp]; [lia|].
  assert (p = zero_patient) as ->.
  { rewrite Forall_lookup in Hfree. apply (Hfree 0%nat). by rewrite lookup_drop, Nat.add_0_r. }
  split; [|done]. apply (first_index_found _ _ _ zero_patient); [done..|].
  intros j q Hq Hj. rewrite Forall_lookup in Hids. unfold active in Hids.
  specialize (Hids j q). rewrite lookup_take_lt in Hids by done.
  specialize (Hids Hq). simpl in Hids. lia.
Qed.

(** C8: a discharge of the id 0 removes a patient without a
    discharge.  With a patient in the register and a free element in
    the array, when the operator types 0 and confirms, [patientExists]
    finds the first free element: the array stays as it is and
    [totalPatients] is decremented, so that the patient admitted last
    is no longer among the first [totalPatients] elements and the next
    admission is stored over it. *)
Theorem discharge_of_id_zero s rest :
  arr_ok s → 0 < totalPatients s < Z.of_nat MAX_PATIENT_CAPACITY →
  w_stdin (world s) = "0" :: "y" :: rest →
  ∃ s', dischargePatient s = Some (tt, s') ∧
        patients s' = patients s ∧ totalPatients s' = totalPatients s - 1 ∧
        ¬ arr_ok s'.
Proof.
  intros Hok Ht Hin. destruct (first_index_zero s Hok) as [Hi Hzero]; [lia|].
  pose proof Hok as [Hlen Hcap _ Hc Hids Hnd Hfree].
  eexists. split; [|split_and!].
  - eapply (dischargePatient_run s 0 _ "" rest); [done|lia| | |done..].
    + by rewrite Hin.
    + done.
  - cbn. apply removed_free; [lia|done].
  - cbn. apply int_decr_small; unfold in_int, INT_MIN, INT_MAX in *; lia.
  - intros [_ _ _ _ _ _ Hfree']. cbn in Hfree'.
    rewrite removed_free, int_decr_small in Hfree'
      by (done || unfold in_int, INT_MIN, INT_MAX in *; lia).
    destruct (lookup_lt_is_Some_2 (patients s) (Z.to_nat (totalPatients s - 1)))
      as [p Hp]; [lia|].
    rewrite Forall_lookup in Hfree', Hids.
    specialize (Hfree' 0%nat p). rewrite lookup_drop, Nat.add_0_r in Hfree'.
    specialize (Hids (Z.to_nat (totalPatients s - 1)) p).
    unfold active in Hids. rewrite lookup_take_lt in Hids by lia.
    specialize (Hids Hp). rewrite (Hfree' Hp) in Hids. simpl in Hids. lia.
Qed.

(** C30: a discharge from a full array leaves a copy of the last
    patient.  The loop of [removePatientFromSystem] moves the elements
    down and stops before the last one, which keeps its content: after
    a discharge from a full array the element behind the patients is
    not free, [viewPatientRecords] prints the last patient twice, and
    the invariant of the array is lost. *)
Theorem discharge_from_full_array s s' :
  arr_ok s → totalPatients s = Z.of_nat MAX_PATIENT_CAPACITY →
  dischargePatient s = Some (tt, s') → totalPatients s' ≠ totalPatients s →
  ∃ p, last (patients s) = Some p ∧ 1 ≤ patientId p ∧
       patients s' !! Z.to_nat (totalPatients s') = Some p ∧ ¬ arr_ok s'.
Proof.
  intros [Hlen Hcap Ht Hc Hids Hnd Hfree] Hfull Hrun Hchanged.
  apply dischargePatient_inv in Hrun as [(_ & ? & _)|(id & i & _ & Hi & Hp & Ht' & _)];
    [done| |done].
  apply first_index_Some in Hi as (q & Hi%lookup_lt_Some & _).
  rewrite int_decr_small in Ht' by (unfold in_int, INT_MIN, INT_MAX in *; lia).
  destruct (lookup_lt_is_Some_2 (patients s) (length (patients s) - 1)) as [p Hlast]; [lia|].
  assert (patients s' !! Z.to_nat (totalPatients s') = Some p) as Hp'.
  { rewrite Hp, Ht', Hfull, removed_lookup by done.
    replace (Z.to_nat _) with (length (patients s) - 1)%nat by lia.
    by rewrite !decide_False by lia. }
  assert (1 ≤ patientId p) as Hid.
  { rewrite Forall_lookup in Hids. unfold active in Hids.
    specialize (Hids (length (patients s) - 1)%nat p).
    rewrite lookup_take_lt in Hids by lia. specialize (Hids Hlast). simpl in Hids. lia. }
  exists p. split_and!; [by rewrite last_lookup, Nat.sub_1_r in *|done..|].
  intros [_ _ _ _ _ _ Hfree']. rewrite Forall_lookup in Hfree'.
  specialize (Hfree' 0%nat p). rewrite lookup_drop, Nat.add_0_r in Hfree'.
  rewrite (Hfree' Hp') in Hid. simpl in Hid. lia.
Qed.

(** C31: [getPatientName] discards the line that follows the name.
    [fgets] has read the name with its line break, so the call of
    [clearInputBuffer] that follows reads and drops the next line of
    the console, which is the answer that the operator types to the
    question that comes next. *)
Theorem getPatientName_discards_line s line next rest :
  w_stdin (world s) = line :: next :: rest →
  (String.length line < MAX_PATIENT_NAME_LENGTH - 1)%nat →
  ∃ valid s', getPatientName s = Some ((valid, strip_newline (line +:+ newline)), s') ∧
              w_stdin (world s') = rest.
Proof.
  intros Hin Hshort. unfold getPatientName, io, fgets, clearInputBuffer, validatePatientName.
  prog_unfold. cbn. rewrite Hin, decide_True by done. cbn.
  destruct (_ || _); cbn; eauto.
Qed.

End defects.

(** ** The invariant is decidable *)

Section decide.
Context `{Limits}.

#[export] Instance typed_dec s : Decision (typed s).
Proof. unfold typed. apply _. Defined.

#[export] Instance arr_ok_dec s : Decision (arr_ok s).
Proof.
  destruct (decide (
    length (patients s) = MAX_PATIENT_CAPACITY ∧
    Z.of_nat MAX_PATIENT_CAPACITY ≤ INT_MAX ∧
    0 ≤ totalPatients s ≤ Z.of_nat MAX_PATIENT_CAPACITY ∧
    1 ≤ patientIDCounter s ≤ INT_MAX ∧
    Forall (λ p, 1 ≤ patientId p < patientIDCounter s) (active s) ∧
    NoDup (patientId <$> active s) ∧
    Forall (λ p, p = zero_patient) (drop (Z.to_nat (totalPatients s)) (patients s))))
    as [(? & ? & ? & ? & ? & ? & ?)|Hn]; [left; by split|right].
  intros []. apply Hn. split_and!; (done || lia).
Defined.

End decide.

(** ** The theorems at concrete inputs *)

(** The examples use the limits of the specification: an array of 50
    elements and rooms 1 to 50. *)
#[local] Existing Instance spec_limits.

Definition console (ins : list string) : World := mkWorld ∅ [] ins [] [] [1700000000] [].

(** Two patients, and 48 free elements. *)
Definition two_patients (ins : list string) : St :=
  mkSt ([mkPatient 1 "Ann Lee" 61 "Flu" 12; mkPatient 2 "Bo Chen" 34 "Fracture" 7]
        ++ replicate 48 zero_patient) 2 3 (console ins).

(** A full array: the patients 1 to 50 in the rooms 1 to 50. *)
Definition full_house (ins : list string) : St :=
  mkSt ((λ k, mkPatient k "Pat Doe" 40 "Cold" k) <$> seqZ 1 50) 50 51 (console ins).


Lemma commands_preserve_witness :
  ∃ s', run_command Discharge (two_patients ["1"; "y"]) = Some (tt, s') ∧ arr_ok s'.
Proof.
  eexists. split; [by vm_compute|].
  apply (commands_preserve Discharge (two_patients ["1"; "y"]));
    [apply (bool_decide_unpack _); by vm_compute|done| |by vm_compute].
  intros _. split; [done|]. by vm_compute.
Defined.

Lemma checkRoomOccupancy_out_of_bounds_witness :
  checkRoomOccupancy 9 (two_patients []) = None.
Proof.
  apply checkRoomOccupancy_out_of_bounds; [done|done|].
  apply (bool_decide_unpack _). by vm_compute.
Defined.

Lemma discharge_of_id_zero_witness :
  ∃ s', dischargePatient (two_patients ["0"; "y"]) = Some (tt, s') ∧
        patients s' = patients (two_patients ["0"; "y"]) ∧
        totalPatients s' = 2 - 1 ∧ ¬ arr_ok s'.
Proof.
  apply (discharge_of_id_zero (two_patients ["0"; "y"]) []); [|done|done].
  apply (bool_decide_unpack _). by vm_compute.
Defined.

Lemma discharge_from_full_array_witness :
  ∃ s' p, dischargePatient (full_house ["7"; "y"]) = Some (tt, s') ∧
          last (patients (full_house ["7"; "y"])) = Some p ∧ 1 ≤ patientId p ∧
          patients s' !! Z.to_nat (totalPatients s') = Some p ∧ ¬ arr_ok s'.
Proof.
  destruct (dischargePatient (full_house ["7"; "y"])) as [[[] s']|] eqn:Hrun;
    [|by vm_compute in Hrun].
  destruct (discharge_from_full_array (full_house ["7"; "y"]) s') as (p & ?);
    [apply (bool_decide_unpack _); by vm_compute|done|done| |by exists s', p].
  vm_compute in Hrun. by injection Hrun as <-.
Defined.

Lemma getPatientName_discards_line_witness :
  ∃ valid s', getPatientName (boot (console ["Ann Lee"; "61"; "Flu"])) =
                Some ((valid, strip_newline ("Ann Lee" +:+ newline)), s') ∧
              w_stdin (world s') = ["Flu"].
Proof.
  apply (getPatientName_discards_line _ "Ann Lee" "61" ["Flu"]); [done|vm_compute; lia].
Defined.

(** The scenario of the lost patient: two admissions, a discharge of
    the id 0 and a third admission.  The second patient was never
    discharged and is gone. *)
Example lost_patient_scenario :
  let run (m : IProg St unit) (s : St) := default s (snd <$> m s) in
  let s := boot (console ["Ann Lee"; ""; "61"; "Flu"; "12";
                          "Bo Chen"; ""; "34"; "Fracture"; "7"; "0"; "y";
                          "Cy Diaz"; ""; "8"; "Asthma"; "3"]) in
  active (run addPatientRecord (run dischargePatient (run addPatientRecord
            (run addPatientRecord s)))) =
  [mkPatient 1 "Ann Lee" 61 "Flu" 12; mkPatient 3 "Cy Diaz" 8 "Asthma" 3].
Proof. by vm_compute. Qed.

End Legacy.
