(* ===== verification/Register.v ===== *)
(** * The register as a finite map, and the two stores that implement it

    What both variants of the program promise is a register of entries
    under ids: an admission files an entry under the next id, a
    discharge removes the entry of an id.  [Register] is that contract
    as a class: the operations of a store, its invariant, the map that a
    state stands for ([contents]), and the conditions under which the
    store accepts an operation.  [RegisterLaws] says that the
    operations do to [contents] what [abs_step] does to a map.

    The list store of [src/patient_management.c] ([record_patient],
    [getPatientFromList] and [removePatientFromSystem] on [Sys]) and the
    array store of [src/patient.c] ([store_new_patient], [patientExists]
    and [removePatientFromSystem] on [Legacy.St]) are the two instances.
    The theorems on runs ([reaches]) are proved once, against the
    class, and hold for both stores. *)

From Stdlib Require Import ZArith Lia.
From stdpp Require Import base tactics option list strings gmap.
From S2P Require Import Prelude Patient Layout Env Store Persist Console Legacy.

#[local] Open Scope Z_scope.

(** ** The abstract register *)

(** What is filed for a patient: the four answers of the prompts. *)
Record Entry : Type := mkEntry {
  e_name : string;
  e_age : Z;
  e_diagnosis : string;
  e_room : Z
}.

#[export] Instance Entry_eq_dec : EqDecision Entry.
Proof. solve_decision. Defined.

(** The entries under their ids, and the id of the next admission. *)
Record Abs : Type := mkAbs {
  a_entries : gmap Z Entry;
  a_next : Z
}.

Inductive op : Type :=
| Admit (e : Entry)
| Discharge (id : Z).

Definition abs_step (o : op) (a : Abs) : Abs :=
  match o with
  | Admit e => mkAbs (<[a_next a := e]> (a_entries a)) (a_next a + 1)
  | Discharge id => mkAbs (delete id (a_entries a)) (a_next a)
  end.

Definition abs_run (os : list op) (a : Abs) : Abs := foldl (flip abs_step) a os.

(** ** The contract of a store *)

Class Register (St : Type) : Type := {
  inv : St → Prop;
  contents : St → gmap Z Entry;
  next_id : St → Z;
  enrol : Entry → St → option St;
  discharge : Z → St → option St;
  admissible : St → Entry → Prop;
  dischargeable : St → Z → Prop
}.

Class RegisterLaws (St : Type) `{Register St} : Prop := {
  admit_refines s e :
    inv s → admissible s e →
    ∃ s', enrol e s = Some s' ∧ inv s' ∧
          contents s' = <[next_id s := e]> (contents s) ∧ next_id s' = next_id s + 1;
  discharge_refines s id :
    inv s → dischargeable s id → is_Some (contents s !! id) →
    ∃ s', discharge id s = Some s' ∧ inv s' ∧
          contents s' = delete id (contents s) ∧ next_id s' = next_id s;
  next_id_fresh s id : inv s → next_id s ≤ id → contents s !! id = None
}.

Section register.
Context `{RegisterLaws St}.
Implicit Types (s : St) (o : op) (os : list op).

(** The abstract register that a state stands for. *)
Definition abs (s : St) : Abs := mkAbs (contents s) (next_id s).

Definition run_op (o : op) (s : St) : option St :=
  match o with
  | Admit e => enrol e s
  | Discharge id => discharge id s
  end.

(** The store accepts the operation. *)
Definition enabled (o : op) (s : St) : Prop :=
  match o with
  | Admit e => admissible s e
  | Discharge id => dischargeable s id ∧ is_Some (contents s !! id)
  end.

(** A run of the store: every operation is accepted and returns. *)
Inductive reaches : St → list op → St → Prop :=
| reaches_nil s : reaches s [] s
| reaches_cons o os s s1 s2 :
    enabled o s → run_op o s = Some s1 → reaches s1 os s2 → reaches s (o :: os) s2.

(** An operation that the store accepts returns, keeps the invariant
    and does to the contents what the abstract register does. *)
Lemma step_refines o s :
  inv s → enabled o s →
  ∃ s', run_op o s = Some s' ∧ inv s' ∧ abs s' = abs_step o (abs s).
Proof.
  intros Hinv Hen. destruct o as [e|id]; cbn in *.
  - destruct (admit_refines s e) as (s' & ? & ? & Hc & Hn); [done..|].
    exists s'. unfold abs. by rewrite Hc, Hn.
  - destruct Hen as [? ?].
    destruct (discharge_refines s id) as (s' & ? & ? & Hc & Hn); [done..|].
    exists s'. unfold abs. by rewrite Hc, Hn.
Qed.

(** Simulation: a run of the store is a run of the abstract register. *)
Lemma reaches_refines s os s' :
  inv s → reaches s os s' → inv s' ∧ abs s' = abs_run os (abs s).
Proof.
  intros Hinv Hrun. induction Hrun as [s|o os s s1 s2 Hen Hstep _ IH]; [done|].
  destruct (step_refines o s) as (s1' & Hstep' & Hinv1 & Habs); [done..|].
  rewrite Hstep in Hstep'. injection Hstep' as <-.
  destruct (IH Hinv1) as [? ->]. by rewrite Habs.
Qed.

(** A run of accepted operations does not get stuck. *)
Lemma reaches_next o s : inv s → enabled o s → ∃ s', reaches s [o] s'.
Proof.
  intros Hinv Hen. destruct (step_refines o s) as (s' & ? & _); [done..|].
  exists s'. by repeat econstructor.
Qed.

(** An entry that was admitted is filed under the id that was next,
    until that id is discharged. *)
Lemma admitted_is_filed e s s' :
  inv s → reaches s [Admit e] s' → contents s' !! next_id s = Some e.
Proof.
  intros Hinv Hrun. apply reaches_refines in Hrun as [_ Habs]; [|done].
  injection Habs as -> _. apply lookup_insert_eq.
Qed.

(** A discharge right after the admission gives the register back. *)
Lemma admit_discharge e s s' :
  inv s → reaches s [Admit e; Discharge (next_id s)] s' → contents s' = contents s.
Proof.
  intros Hinv Hrun. apply reaches_refines in Hrun as [_ Habs]; [|done].
  injection Habs as -> _. cbn. rewrite delete_insert_eq.
  apply delete_id. by apply next_id_fresh.
Qed.

End register.

(** Two stores that stand for the same register and run the same
    operations stand for the same register afterwards. *)
Lemma reaches_agree `{RegisterLaws St1} `{RegisterLaws St2} (s1 s1' : St1) (s2 s2' : St2) os :
  inv s1 → inv s2 → abs s1 = abs s2 →
  reaches s1 os s1' → reaches s2 os s2' → abs s1' = abs s2'.
Proof.
  intros Hinv1 Hinv2 Habs [_ ->]%reaches_refines [_ ->]%reaches_refines; [|done..].
  by rewrite Habs.
Qed.

(** ** The map of a list of records *)

Section index.
Context {A : Type} (key : A → Z) (val : A → Entry).
Implicit Types (l : list A) (p : A) (id : Z).

(** The entries of the records of a list under their keys. *)
Definition index (l : list A) : gmap Z Entry :=
  list_to_map ((λ p, (key p, val p)) <$> l).

Lemma index_keys l : ((λ p, (key p, val p)) <$> l).*1 = key <$> l.
Proof. by rewrite <-list_fmap_compose. Qed.

Lemma index_cons p l : index (p :: l) = <[key p := val p]> (index l).
Proof. done. Qed.

Lemma index_snoc l p :
  key p ∉ key <$> l → index (l ++ [p]) = <[key p := val p]> (index l).
Proof.
  intros Hp. unfold index. rewrite fmap_app. apply list_to_map_snoc.
  by rewrite index_keys.
Qed.

Lemma index_is_Some l id : is_Some (index l !! id) ↔ id ∈ key <$> l.
Proof.
  unfold index. rewrite <-index_keys, <-not_eq_None_Some.
  rewrite <-(not_elem_of_list_to_map (M:=gmap Z)).
  destruct (decide (id ∈ ((λ p, (key p, val p)) <$> l).*1)); naive_solver.
Qed.

Lemma index_None l id : id ∉ key <$> l → index l !! id = None.
Proof. rewrite <-index_is_Some, eq_None_not_Some. done. Qed.

Lemma index_filter id l :
  index (filter (λ q, key q ≠ id) l) = delete id (index l).
Proof.
  induction l as [|p l IH]; [unfold index; cbn; by rewrite delete_empty|].
  rewrite filter_cons, !index_cons. case_decide as Hp.
  - by rewrite index_cons, IH, delete_insert_ne.
  - by rewrite IH, <-Hp, delete_insert_eq.
Qed.

(** With distinct keys, removing the element at a position removes its
    key. *)
Lemma delete_filter_key i l p :
  NoDup (key <$> l) → l !! i = Some p →
  delete i l = filter (λ q, key q ≠ key p) l.
Proof.
  revert i. induction l as [|q l IH]; intros i Hnd Hp; [done|].
  rewrite fmap_cons in Hnd. apply NoDup_cons in Hnd as [Hq Hnd].
  destruct i as [|i]; simplify_eq/=.
  - rewrite filter_cons_False by naive_solver. symmetry. apply filter_all.
    apply Forall_forall. intros r Hr Heq. apply Hq. rewrite <-Heq.
    by apply list_elem_of_fmap_2.
  - rewrite filter_cons_True; [by rewrite (IH i)|].
    intros Heq. apply Hq. rewrite Heq. apply list_elem_of_fmap_2.
    by eapply list_elem_of_lookup_2.
Qed.

Lemma index_delete i l p :
  NoDup (key <$> l) → l !! i = Some p → index (delete i l) = delete (key p) (index l).
Proof. intros. by rewrite (delete_filter_key i l p), index_filter. Qed.

End index.

(** ** The list store of [patient_management.c] *)

(** The entry of a record of the list. *)
Definition entry_of (p : Patient) : Entry :=
  mkEntry (name p) (ageInYears p) (diagnosis p) (roomNumber p).

Section list_store.
Context `{Limits} `{!Layout Patient} `{!Layout DischargedPatient}.
Implicit Types (s : Sys) (p : Patient) (e : Entry) (id : Z).

(** The answers pass the validation of the prompts. *)
Definition valid_entry (e : Entry) : Prop :=
  validatePatientName (e_name e) ∧ validatePatientAge (e_age e) ∧
  validatePatientDiagnosis (e_diagnosis e) ∧ validateRoomNumber (e_room e).

(** What [dischargePatient] does once the id is read and the discharge
    confirmed. *)
Definition list_discharge (id : Z) : Prog Sys unit :=
  patientToDischarge ← getPatientFromList id;
  match patientToDischarge with
  | Some patientToDischarge => discharge_confirmed patientToDischarge
  | None => mret tt
  end.

(** The list store: the part of [addPatientRecord] that follows the
    prompts and the part of [dischargePatient] that follows the
    confirmation, when no library call fails. *)
#[export] Instance list_register : Register Sys := {|
  inv s := store_ok s ∧ w_faults (world s) = [];
  contents s := index patientId entry_of (patientHead s);
  next_id := patientIDCounter;
  enrol e s :=
    Some (exec (record_patient (e_name e) (e_age e) (e_diagnosis e) (e_room e)) s);
  discharge id s := Some (exec (list_discharge id) s);
  admissible s e :=
    patientIDCounter s < INT_MAX ∧ valid_entry e ∧
    e_room e ∉ roomNumber <$> patientHead s;
  dischargeable s id := True
|}.

Lemma time_now_faults w : w_faults (time_now w).2 = w_faults w.
Proof. destruct w as [? ? ? ? ? [|? [|? ?]] ?]; done. Qed.

Lemma store_ok_fresh s id :
  store_ok s → patientIDCounter s ≤ id → id ∉ patientId <$> patientHead s.
Proof.
  intros (_ & _ & Hids & _) Hid (p & -> & Hp)%list_elem_of_fmap.
  rewrite Forall_forall in Hids. specialize (Hids p Hp). simpl in Hids. lia.
Qed.

Lemma getPatientFromList_run id s :
  getPatientFromList id s = (find_by_id id (patientHead s), s).
Proof. unfold getPatientFromList. rewrite bind_run. cbn. by destruct (patientHead s). Qed.

Lemma list_admit_refines s e :
  inv s → admissible s e →
  ∃ s', enrol e s = Some s' ∧ inv s' ∧
        contents s' = <[next_id s := e]> (contents s) ∧ next_id s' = next_id s + 1.
Proof.
  intros [Hok Hf] (Hmax & (? & ? & ? & ?) & Hroom). eexists. split; [done|]. cbn.
  rewrite record_patient_ok by done. cbv zeta.
  set (p := new_patient _ _ _ _ s). cbn [patientHead world patientIDCounter].
  split_and!.
  - by apply store_ok_snoc.
  - destruct s as [? ? ? w]. cbn. by rewrite time_now_faults.
  - rewrite index_snoc by (by apply store_ok_fresh). by destruct e.
  - destruct Hok as (_ & _ & _ & _ & _ & Hc). unfold DEFAULT_ID in Hc.
    apply int_incr_small; unfold in_int, INT_MIN, INT_MAX in *; lia.
Qed.

Lemma list_discharge_refines s id :
  inv s → is_Some (contents s !! id) →
  ∃ s', discharge id s = Some s' ∧ inv s' ∧
        contents s' = delete id (contents s) ∧ next_id s' = next_id s.
Proof.
  intros [Hok Hf] Hid%index_is_Some. eexists. split; [done|]. cbn.
  pose proof Hid as [p Hp]%find_by_id_is_Some.
  pose proof (find_by_id_Some _ _ _ Hp) as [Hin <-].
  pose proof Hok as (_ & Hnd & _).
  pose proof (unlink_by_id_without _ _ Hnd Hid) as Hun.
  unfold exec at 1 2 3 4, list_discharge.
  rewrite bind_run, getPatientFromList_run, Hp. cbn [fst snd].
  fold (exec (discharge_confirmed p) s).
  rewrite (discharge_confirmed_ok _ _ _ Hf Hun). unfold discharged.
  cbn [patientHead world patientIDCounter]. split_and!; [|..|done].
  - by apply (store_ok_unlink s (patientId p)).
  - destruct s as [? ? ? w]. cbn. by rewrite time_now_faults.
  - apply index_filter.
Qed.

#[export] Instance list_laws : RegisterLaws Sys.
Proof.
  split.
  - apply list_admit_refines.
  - intros s id ? _. by apply list_discharge_refines.
  - intros s id [Hok _] Hid. by apply index_None, store_ok_fresh.
Qed.

End list_store.

(** ** The array store of [patient.c] *)

(** The entry of an element of the array. *)
Definition legacy_entry (p : Legacy.Patient) : Entry :=
  mkEntry (Legacy.name p) (Legacy.age p) (Legacy.diagnosis p) (Legacy.roomNumber p).

Section array_store.
Context `{Limits}.
Implicit Types (s : Legacy.St) (p : Legacy.Patient) (e : Entry) (id : Z).

(** What [dischargePatient] of [patient.c] does once the id is read and
    the discharge confirmed. *)
Definition array_discharge (id : Z) : IProg Legacy.St unit :=
  index ← Legacy.patientExists id;
  if decide (index = PATIENT_NOT_FOUND) then mret tt
  else Legacy.removePatientFromSystem index.

(** The array store: it admits while an element is free, and it
    discharges as the register does only while an element is free. *)
#[export] Instance array_register : Register Legacy.St := {|
  inv := Legacy.arr_ok;
  contents s := index Legacy.patientId legacy_entry (Legacy.active s);
  next_id := Legacy.patientIDCounter;
  enrol e s :=
    snd <$> Legacy.store_new_patient (e_name e) (e_age e) (e_diagnosis e) (e_room e) s;
  discharge id s := snd <$> array_discharge id s;
  admissible s e :=
    Legacy.patientIDCounter s < INT_MAX ∧
    Legacy.totalPatients s < Z.of_nat MAX_PATIENT_CAPACITY;
  dischargeable s id := Legacy.totalPatients s < Z.of_nat MAX_PATIENT_CAPACITY
|}.

Lemma arr_ok_fresh s id :
  Legacy.arr_ok s → Legacy.patientIDCounter s ≤ id →
  id ∉ Legacy.patientId <$> Legacy.active s.
Proof.
  intros [_ _ _ _ Hids _ _] Hid (p & -> & Hp)%list_elem_of_fmap.
  rewrite Forall_forall in Hids. specialize (Hids p Hp). simpl in Hids. lia.
Qed.

Lemma array_admit_refines s e :
  inv s → admissible s e →
  ∃ s', enrol e s = Some s' ∧ inv s' ∧
        contents s' = <[next_id s := e]> (contents s) ∧ next_id s' = next_id s + 1.
Proof.
  intros Hok [Hmax Hfull]. pose proof Hok as [Hlen Hcap Ht Hc _ _ _]. cbn.
  destruct (Legacy.store_new_patient_returns (e_name e) (e_age e) (e_diagnosis e)
    (e_room e) s) as [s' Hrun]; [lia..|].
  rewrite Hrun. exists s'. split; [done|].
  pose proof (Legacy.store_new_patient_inv _ _ _ _ _ _ Hrun) as (Hin & Hp & Ht' & Hc').
  destruct (Legacy.arr_ok_store s s' _ Hok Hmax Hin Hp Ht' Hc' eq_refl) as [Hok' Ha].
  split_and!; [done| |].
  - rewrite Ha, index_snoc by (by apply arr_ok_fresh). by destruct e.
  - rewrite Hc'. apply int_incr_small; unfold in_int, INT_MIN, INT_MAX in *; lia.
Qed.

Lemma array_discharge_refines s id :
  inv s → dischargeable s id → is_Some (contents s !! id) →
  ∃ s', discharge id s = Some s' ∧ inv s' ∧
        contents s' = delete id (contents s) ∧ next_id s' = next_id s.
Proof.
  intros Hok Hfull Hid%index_is_Some. pose proof Hok as [Hlen _ _ _ _ Hnd _].
  apply list_elem_of_fmap in Hid as (p & -> & [i Hi]%list_elem_of_lookup).
  destruct (Legacy.first_index_active s i p Hok Hi) as (Hfirst & Hp & Hlt).
  cbn. unfold array_discharge.
  rewrite (ibind_run_Some _ _ _ _ _ (Legacy.patientExists_run _ s Hlen)), Hfirst.
  rewrite decide_False by (unfold PATIENT_NOT_FOUND; lia).
  rewrite Legacy.removePatientFromSystem_run by (done || apply lookup_lt_Some in Hp; lia).
  set (s' := Legacy.set_total int_decr (Legacy.set_patients (Legacy.removed i) s)).
  destruct (Legacy.arr_ok_removed s s' i Hok Hfull Hlt eq_refl eq_refl eq_refl)
    as [Hok' Ha].
  exists s'. split_and!; [done..| |done]. rewrite Ha. by apply index_delete.
Qed.

#[export] Instance array_laws : RegisterLaws Legacy.St.
Proof.
  split.
  - apply array_admit_refines.
  - apply array_discharge_refines.
  - intros s id Hok Hid. by apply index_None, arr_ok_fresh.
Qed.

End array_store.

(** ** The two stores implement the register *)

Section refinement.
Context `{Limits} `{!Layout Patient} `{!Layout DischargedPatient}.

(** C16: the list store implements the register.  From a state that
    satisfies [store_ok], when no library call fails, every run of
    admissions (the part of [addPatientRecord] that follows the
    prompts, with answers that pass validation and a free room) and of
    discharges of patients of the register (the part of
    [dischargePatient] that follows the confirmation) keeps [store_ok],
    and the list stands for the map that the same operations give on
    the abstract register: an admission files the entry under the id
    counter, a discharge removes the entry of the id. *)
Theorem list_store_refines (s s' : Sys) os :
  store_ok s → w_faults (world s) = [] → reaches s os s' →
  store_ok s' ∧ abs s' = abs_run os (abs s).
Proof.
  intros Hok Hf Hrun. by destruct (reaches_refines s os s') as [[? _] ?].
Qed.

(** C9: the array store implements the register while it is not
    full.  From a state that satisfies [arr_ok], every run of
    admissions ([store_new_patient], with a free element) and of
    discharges of patients of the register ([patientExists] and
    [removePatientFromSystem], with a free element) keeps [arr_ok], and
    the first [totalPatients] elements of the array stand for the map
    that the same operations give on the abstract register. *)
Theorem array_store_refines (s s' : Legacy.St) os :
  Legacy.arr_ok s → reaches s os s' →
  Legacy.arr_ok s' ∧ abs s' = abs_run os (abs s).
Proof. intros Hok Hrun. by destruct (reaches_refines s os s'). Qed.

(** C24: the two variants of the program keep the same register.
    Started empty and given the same admissions and discharges, as far
    as both accept them, the list of [patient_management.c] and the
    array of [patient.c] hold the same entries under the same ids and
    issue the same id next. *)
Theorem stores_agree w1 w2 os (s1 : Sys) (s2 : Legacy.St) :
  w_faults w1 = [] → Z.of_nat MAX_PATIENT_CAPACITY ≤ INT_MAX →
  reaches (boot w1) os s1 → reaches (Legacy.boot w2) os s2 →
  abs s1 = abs s2.
Proof.
  intros Hf Hcap Hrun1 Hrun2.
  apply (reaches_agree (boot w1) s1 (Legacy.boot w2) s2 os); [|by apply Legacy.arr_ok_boot|done..].
  split; [apply store_ok_boot|done].
Qed.

End refinement.

(** ** The theorems at concrete inputs *)

#[local] Existing Instances spec_limits sample_layout sample_discharged_layout.

Definition ann : Entry := mkEntry "Ann Lee" 61 "Flu" 12.
Definition bo : Entry := mkEntry "Bo Chen" 34 "Fracture" 7.

(** Two admissions and the discharge of the first patient. *)
Definition sample_ops : list op := [Admit ann; Admit bo; Discharge 1].

(** One step of a run on a concrete state. *)
Ltac reach_step :=
  eapply reaches_cons;
    [first [ by repeat split; try (apply (bool_decide_unpack _)); vm_compute
           | repeat split; apply (bool_decide_unpack _); by vm_compute ]
    |by vm_compute|].

Lemma list_run : ∃ s', reaches (boot sample_world) sample_ops s'.
Proof. eexists. do 3 reach_step. apply reaches_nil. Defined.

Lemma array_run : ∃ s', reaches (Legacy.boot sample_world) sample_ops s'.
Proof. eexists. do 3 reach_step. apply reaches_nil. Defined.

Lemma list_store_refines_witness :
  ∃ s', reaches (boot sample_world) sample_ops s' ∧
        abs s' = mkAbs {[ 2 := bo ]} 3.
Proof.
  destruct list_run as [s' Hrun]. exists s'. split; [done|].
  destruct (list_store_refines (boot sample_world) s' sample_ops) as [_ ->];
    [apply store_ok_boot|done|done|by vm_compute].
Defined.

Lemma array_store_refines_witness :
  ∃ s', reaches (Legacy.boot sample_world) sample_ops s' ∧
        abs s' = mkAbs {[ 2 := bo ]} 3.
Proof.
  destruct array_run as [s' Hrun]. exists s'. split; [done|].
  destruct (array_store_refines (Legacy.boot sample_world) s' sample_ops) as [_ ->];
    [by apply Legacy.arr_ok_boot|done|by vm_compute].
Defined.

Lemma stores_agree_witness :
  ∃ s1 s2, reaches (boot sample_world) sample_ops s1 ∧
           reaches (Legacy.boot sample_world) sample_ops s2 ∧ abs s1 = abs s2.
Proof.
  destruct list_run as [s1 Hrun1], array_run as [s2 Hrun2]. exists s1, s2.
  split_and!; [done..|]. by apply (stores_agree sample_world sample_world sample_ops).
Defined.
