(* ===== verification/Hoare.v ===== *)
(** * Specifications of commands

    A small logic for the commands of the state monads of [Prelude].
    The assertions are the members [I i] of a family of predicates on the
    state; [spec I i m φ j] says that [m], started where [I i] holds,
    returns a value [a] with [φ a] and leaves a state where [I (j a)]
    holds.  [ispec] is the same for a command that may have no defined
    result, and says nothing of the runs that have none.  The rules
    follow the structure of a command, so that a property of every run
    of a function is proved once for each library call and then by one
    step for each call of the function ([spec_go]). *)

From stdpp Require Import base tactics list.
From S2P Require Import Prelude.

Section spec.
Context {S Ix : Type} (I : Ix → S → Prop).
Implicit Types (i : Ix) (s : S).

Definition spec {A} i (m : Prog S A) (φ : A → Prop) (j : A → Ix) : Prop :=
  ∀ s, I i s → φ (m s).1 ∧ I (j (m s).1) (m s).2.

Definition ispec {A} i (m : IProg S A) (φ : A → Prop) (j : A → Ix) : Prop :=
  ∀ s a s', I i s → m s = Some (a, s') → φ a ∧ I (j a) s'.

Lemma spec_ret {A} (a : A) i (φ : A → Prop) j :
  φ a → j a = i → spec i (mret a) φ j.
Proof. intros Ha Hj s Hs. rewrite ret_run. cbn. by rewrite Hj. Qed.

Lemma spec_bind {A B} (m : Prog S A) (k : A → Prog S B) i φ j ψ l :
  spec i m φ j → (∀ a, φ a → spec (j a) (k a) ψ l) → spec i (m ≫= k) ψ l.
Proof.
  intros Hm Hk s Hs. rewrite bind_run.
  destruct (Hm s Hs) as [Ha Hs']. by apply Hk.
Qed.

(** A weaker result and another name for the same index. *)
Lemma spec_weaken {A} (m : Prog S A) i φ j ψ l :
  spec i m φ j → (∀ a, φ a → ψ a ∧ l a = j a) → spec i m ψ l.
Proof.
  intros Hm Hw s Hs. destruct (Hm s Hs) as [Ha Hs'].
  destruct (Hw _ Ha) as [? ->]. done.
Qed.

Lemma spec_gets {A} (f : S → A) i : spec i (gets f) (λ _, True) (λ _, i).
Proof. by intros s Hs. Qed.

Lemma spec_modify (f : S → S) i j :
  (∀ s, I i s → I j (f s)) → spec i (modify f) (λ _, True) (λ _, j).
Proof. intros Hf s Hs. split; [done|]. by apply Hf. Qed.

Lemma spec_when b (m : Prog S unit) i :
  spec i m (λ _, True) (λ _, i) → spec i (when b m) (λ _, True) (λ _, i).
Proof. destruct b; [done|]. intros _. by apply spec_ret. Qed.

Lemma ispec_ret {A} (a : A) i (φ : A → Prop) j :
  φ a → j a = i → ispec i (mret a) φ j.
Proof. intros Ha Hj s b s' Hs [= <- <-]. by rewrite Hj. Qed.

Lemma ispec_bind {A B} (m : IProg S A) (k : A → IProg S B) i φ j ψ l :
  ispec i m φ j → (∀ a, φ a → ispec (j a) (k a) ψ l) → ispec i (m ≫= k) ψ l.
Proof.
  intros Hm Hk s b s' Hs (a & s1 & Hrun & Hrun')%ibind_inv.
  destruct (Hm s a s1 Hs Hrun) as [Ha Hs1]. by eapply Hk.
Qed.

Lemma ispec_weaken {A} (m : IProg S A) i φ j ψ l :
  ispec i m φ j → (∀ a, φ a → ψ a ∧ l a = j a) → ispec i m ψ l.
Proof.
  intros Hm Hw s a s' Hs Hrun. destruct (Hm s a s' Hs Hrun) as [Ha Hs'].
  destruct (Hw _ Ha) as [? ->]. done.
Qed.

Lemma ispec_lift {A} (m : Prog S A) i φ j : spec i m φ j → ispec i (lift m) φ j.
Proof. intros Hm s a s' Hs [= Hrun]. specialize (Hm s Hs). by rewrite Hrun in Hm. Qed.

Lemma ispec_undefined {A} i (φ : A → Prop) j : ispec i undefined φ j.
Proof. by intros s a s' _ ?. Qed.

(** The rule of a prompt: an iteration that keeps [I i] whatever its
    outcome gives a loop that keeps it, and the value of the loop is one
    that an iteration accepted. *)
Lemma ispec_retry {A} (body : Prog S (attempt A)) fuel i (φ : A → Prop) :
  spec i body (λ r, if r is Done a then φ a else True) (λ _, i) →
  ispec i (retry fuel body) φ (λ _, i).
Proof.
  intros Hbody s a s' Hs.
  apply (retry_inv body (I i) (λ a s', φ a ∧ I i s')); [| |done].
  - intros s1 s2 Hs1 Hrun. specialize (Hbody s1 Hs1). rewrite Hrun in Hbody. tauto.
  - intros s1 b s2 Hs1 Hrun. specialize (Hbody s1 Hs1). by rewrite Hrun in Hbody.
Qed.

End spec.

(** The specifications of the library calls and of the functions already
    treated. *)
Create HintDb spec discriminated.
#[export] Hint Constants Opaque : spec.
#[export] Hint Variables Opaque : spec.

#[export] Hint Resolve spec_gets ispec_undefined : spec.

(** One step for each call of the command of the goal; the goals that
    are left are the calls with no specification among the hints. *)
Ltac spec_leaf :=
  first [ solve [eauto 4 with spec]
        | eapply spec_weaken; [solve [eauto 4 with spec]|by intros]
        | eapply ispec_weaken; [solve [eauto 4 with spec]|by intros] ].

(** What is known of the value of a call is put in a normal form before
    the next step; a development extends this for its own data. *)
Ltac spec_norm := idtac.

Ltac spec_go :=
  cbv beta iota zeta in *; spec_norm;
  lazymatch goal with
  | |- spec _ _ (mret _) _ _ => by apply spec_ret
  | |- ispec _ _ (mret _) _ _ => by apply ispec_ret
  | |- spec _ _ (_ ≫= _) _ _ =>
      eapply spec_bind; [spec_head|intros ? ?; spec_go]
  | |- ispec _ _ (_ ≫= _) _ _ =>
      eapply ispec_bind; [spec_head|intros ? ?; spec_go]
  | |- ispec _ _ (lift _) _ _ => apply ispec_lift; spec_go
  | |- spec _ _ (when _ _) _ _ => apply spec_when; spec_go
  | |- spec _ _ (match ?x with _ => _ end) _ _ => destruct x; spec_go
  | |- ispec _ _ (match ?x with _ => _ end) _ _ => destruct x; spec_go
  | |- _ => try spec_leaf
  end
with spec_head :=
  cbv beta iota zeta in *; spec_norm;
  first [ spec_leaf
        | lazymatch goal with
          | |- spec _ ?i _ _ _ =>
              eapply (spec_weaken _ _ _ (λ _, True) (λ _, i));
                [spec_go|intros ? _; split; [exact I|reflexivity]]
          | |- ispec _ ?i _ _ _ =>
              eapply (ispec_weaken _ _ _ (λ _, True) (λ _, i));
                [spec_go|intros ? _; split; [exact I|reflexivity]]
          end ].
