(* ===== verification/Frame.v ===== *)
(** * What a function leaves alone

    The discipline of the streams and the reach of each function, for
    every run: whatever is typed and whatever library call fails, a
    function of [src/patient_management.c] returns with the streams
    open that were open when it was called, has changed no file but its
    own, and has met no failure when there was none to meet.

    [frame F quiet o] is the assertion: the open streams are [o], the
    directory satisfies [F], and if [quiet] the schedule of failures is
    empty.  [F] must ignore the files that the function writes
    ([ignores]); with [F] true of every directory the specification is
    that of the streams alone.  Each library call of [Env] gets its
    specification here, then each function of [Store], [Persist] and
    [Console], by the rules of [Hoare]. *)

From Stdlib Require Import ZArith Lia Ascii.
From Stdlib.Strings Require Import Byte.
From stdpp Require Import base tactics list strings pretty gmap.
From S2P Require Import Prelude Patient Layout Env Store Persist Console Hoare.

#[local] Open Scope Z_scope.

(** ** The assertion *)

(** [F] does not depend on the content of the file [path], nor on
    whether it exists. *)
Definition ignores (F : gmap string (list byte) → Prop) (path : string) : Prop :=
  ∀ fs fs', (∀ p, p ≠ path → fs' !! p = fs !! p) → F fs → F fs'.

Definition frame (F : gmap string (list byte) → Prop) (quiet : bool)
    (o : list string) (w : World) : Prop :=
  w_open w = o ∧ F (w_files w) ∧ (quiet → w_faults w = []).

Definition sframe (F : gmap string (list byte) → Prop) (quiet : bool)
    (o : list string) (s : Sys) : Prop :=
  frame F quiet o (world s).

(** The directory is not looked at. *)
Definition any_files : gmap string (list byte) → Prop := λ _, True.

(** The file [path] is as it was. *)
Definition file_is (path : string) (c : option (list byte))
    : gmap string (list byte) → Prop :=
  λ fs, fs !! path = c.

Lemma ignores_any path : ignores any_files path.
Proof. done. Qed.

Lemma ignores_other path q c : path ≠ q → ignores (file_is q c) path.
Proof. unfold file_is. intros Hne fs fs' Hfs <-. apply Hfs. naive_solver. Qed.

Lemma ignores_insert F path v fs : ignores F path → F fs → F (<[path := v]> fs).
Proof. intros Hig. apply Hig. intros p Hp. by rewrite lookup_insert_ne. Qed.

Lemma ignores_alter F path g fs : ignores F path → F fs → F (alter g path fs).
Proof. intros Hig. apply Hig. intros p Hp. by rewrite lookup_alter_ne. Qed.

Lemma ignores_delete F path fs : ignores F path → F fs → F (delete path fs).
Proof. intros Hig. apply Hig. intros p Hp. by rewrite lookup_delete_ne. Qed.

#[export] Hint Resolve ignores_any ignores_other : spec.

(** [F] holds of a directory changed at files that it ignores. *)
Ltac ignored :=
  repeat first [ apply ignores_insert | apply ignores_alter | apply ignores_delete ];
  eauto with spec.

(** A stream is a path and a position. *)
Ltac spec_norm ::=
  repeat match goal with
  | x : _ * _ |- _ => destruct x
  | f : FILE |- _ => destruct f
  end;
  cbn [fst snd f_path f_pos] in *; subst.

(** ** The library calls *)

Section calls.
Context (F : gmap string (list byte) → Prop) (quiet : bool).
Implicit Types (o : list string) (path : string).

Notation keeps o m := (spec (frame F quiet) o m (λ _, True) (λ _, o)).

(** The proof for a call: by cases on the outcome that the schedule
    gives it. *)
Ltac call :=
  intros [files open stdin out err clock faults] (Ho & HF & Hq);
  cbn in Ho, HF, Hq; subst; unfold frame; run_env;
  repeat case_match; simplify_eq/=;
  repeat split; try done; try (by ignored);
  try (intros Hquiet; specialize (Hq Hquiet); by simplify_eq/=).

Lemma next_outcome_spec o : keeps o next_outcome.
Proof. call. Qed.

Lemma fopen_spec path mode o :
  ignores F path →
  spec (frame F quiet) o (fopen path mode)
    (λ r, if r is Some f then f_path f = path else True)
    (λ r, if r is Some _ then path :: o else o).
Proof. intros Hig. call. Qed.

(** A stream opened for reading: no file is created. *)
Lemma fopen_read_spec path o :
  spec (frame F quiet) o (fopen path ReadMode)
    (λ r, if r is Some f then f_path f = path else True)
    (λ r, if r is Some _ then path :: o else o).
Proof. call. Qed.

Lemma fclose_spec path pos o :
  spec (frame F quiet) (path :: o) (fclose (mkFILE path pos)) (λ _, True) (λ _, o).
Proof. call; by rewrite decide_True. Qed.

Lemma write_block_spec path pos bs o :
  ignores F path → keeps o (write_block (mkFILE path pos) bs).
Proof. intros Hig. call. Qed.

Lemma fwrite_spec `{Layout T} (x : T) path pos o :
  ignores F path → keeps o (fwrite x (mkFILE path pos)).
Proof. apply write_block_spec. Qed.

Lemma fprintf_spec text path pos o :
  ignores F path → keeps o (fprintf (mkFILE path pos) text).
Proof. apply write_block_spec. Qed.

Lemma fread_spec `{Layout T} path pos o :
  spec (frame F quiet) o (fread (T:=T) (mkFILE path pos))
    (λ r, f_path r.2 = path) (λ _, o).
Proof. call. Qed.

Lemma fgetc_spec path pos o :
  spec (frame F quiet) o (fgetc (mkFILE path pos)) (λ r, f_path r.2 = path) (λ _, o).
Proof. call. Qed.

Lemma fscanf_d_spec path pos o :
  spec (frame F quiet) o (fscanf_d (mkFILE path pos)) (λ r, f_path r.2 = path) (λ _, o).
Proof. unfold fscanf_d. call. Qed.

Lemma file_remove_spec path o : ignores F path → keeps o (file_remove path).
Proof. intros Hig. call. Qed.

Lemma file_rename_spec old new o :
  ignores F old → ignores F new → keeps o (file_rename old new).
Proof. intros Hold Hnew. call. Qed.

Lemma time_now_spec o : keeps o time_now.
Proof. call. Qed.

Lemma malloc_spec o : keeps o malloc.
Proof. call. Qed.

Lemma puts_spec text o : keeps o (puts text).
Proof. call. Qed.

Lemma perror_spec text o : keeps o (perror text).
Proof. call. Qed.

Lemma fprintf_stderr_spec text o : keeps o (fprintf_stderr text).
Proof. call. Qed.

Lemma scanf_d_spec o : keeps o scanf_d.
Proof. call. Qed.

Lemma scanf_c_spec o : keeps o scanf_c.
Proof. call. Qed.

Lemma clearInputBuffer_spec o : keeps o clearInputBuffer.
Proof. call. Qed.

Lemma fgets_spec n o : keeps o (fgets n).
Proof. call. Qed.

End calls.

#[export] Hint Resolve next_outcome_spec fopen_spec fopen_read_spec fclose_spec write_block_spec
  fwrite_spec fprintf_spec fread_spec fgetc_spec fscanf_d_spec file_remove_spec
  file_rename_spec time_now_spec malloc_spec puts_spec perror_spec
  fprintf_stderr_spec scanf_d_spec scanf_c_spec clearInputBuffer_spec fgets_spec : spec.

(** ** The functions of the store and of the files *)

Section functions.
Context `{Limits} `{!Layout Patient} `{!Layout DischargedPatient}.
Context (F : gmap string (list byte) → Prop) (quiet : bool).
Implicit Types (o : list string) (p : Patient).

Notation wkeeps o m := (spec (frame F quiet) o m (λ _, True) (λ _, o)).
Notation skeeps o m := (spec (sframe F quiet) o m (λ _, True) (λ _, o)).

(** A library call in the program: the store is not part of the
    assertion. *)
Lemma env_spec {A} (m : Prog World A) o φ j :
  spec (frame F quiet) o m φ j → spec (sframe F quiet) o (env m) φ j.
Proof. intros Hm s Hs. rewrite env_run. apply Hm, Hs. Qed.

Lemma set_head_spec f o : skeeps o (modify (set_head f)).
Proof. by apply spec_modify. Qed.

Lemma set_total_spec f o : skeeps o (modify (set_total f)).
Proof. by apply spec_modify. Qed.

Lemma set_counter_spec f o : skeeps o (modify (set_counter f)).
Proof. by apply spec_modify. Qed.

#[local] Hint Resolve env_spec set_head_spec set_total_spec set_counter_spec : spec.

Lemma insertPatientAtEndOfList_spec head p o :
  wkeeps o (insertPatientAtEndOfList head p).
Proof. unfold insertPatientAtEndOfList. spec_go.
Qed.

Lemma createPatient_spec nm age dg room id o :
  wkeeps o (createPatient nm age dg room id).
Proof. unfold createPatient. spec_go.
Qed.

Lemma printPatient_spec p o : wkeeps o (printPatient p).
Proof. unfold printPatient, printPatientInfo. spec_go.
Qed.

#[local] Hint Resolve insertPatientAtEndOfList_spec createPatient_spec
  printPatient_spec : spec.

Lemma print_records_spec l o : wkeeps o (print_records l).
Proof. induction l; cbn [print_records]; spec_go.
Qed.

Lemma writePatientToFile_spec p o :
  ignores F patients_dat → wkeeps o (writePatientToFile p).
Proof. intros. unfold writePatientToFile. spec_go.
Qed.

Lemma write_records_spec pos l o :
  ignores F patients_tmp → wkeeps o (write_records (mkFILE patients_tmp pos) l).
Proof. intros. induction l; cbn [write_records]; spec_go.
Qed.

Lemma clearBinaryFile_spec path o : ignores F path → wkeeps o (clearBinaryFile path).
Proof. intros. unfold clearBinaryFile. spec_go.
Qed.

Lemma logRoomUsage_spec room o :
  ignores F room_usage_txt → wkeeps o (logRoomUsage room).
Proof. intros. unfold logRoomUsage. spec_go.
Qed.

#[local] Hint Resolve print_records_spec writePatientToFile_spec write_records_spec
  clearBinaryFile_spec logRoomUsage_spec : spec.

Lemma updatePatientsFile_spec o :
  ignores F patients_dat → ignores F patients_tmp → skeeps o updatePatientsFile.
Proof. intros. unfold updatePatientsFile. spec_go.
Qed.

#[local] Hint Resolve updatePatientsFile_spec : spec.

Lemma removePatientFromSystem_spec patient o :
  ignores F patients_dat → ignores F patients_tmp →
  skeeps o (removePatientFromSystem patient).
Proof. intros. unfold removePatientFromSystem. spec_go.
Qed.

Lemma initializePatientSystemDefault_spec o : skeeps o initializePatientSystemDefault.
Proof. unfold initializePatientSystemDefault. spec_go.
Qed.

Lemma clearMemory_spec o : skeeps o clearMemory.
Proof. unfold clearMemory. spec_go.
Qed.

Lemma computeNextPatientId_spec o : skeeps o computeNextPatientId.
Proof. unfold computeNextPatientId. spec_go.
Qed.

Lemma getPatientFromList_spec id o : skeeps o (getPatientFromList id).
Proof. unfold getPatientFromList. spec_go.
Qed.

#[local] Hint Resolve removePatientFromSystem_spec initializePatientSystemDefault_spec
  clearMemory_spec computeNextPatientId_spec getPatientFromList_spec : spec.

(** The read loop returns the stream it was given, further on. *)
Lemma load_records_spec fuel pos foundData o :
  spec (sframe F quiet) o (load_records fuel (mkFILE patients_dat pos) foundData)
    (λ r, f_path r.2 = patients_dat) (λ _, o).
Proof.
  revert pos foundData. induction fuel as [|fuel IH]; intros pos foundData.
  - by apply spec_ret.
  - unfold load_records; fold load_records. spec_go.
Qed.

#[local] Hint Resolve load_records_spec : spec.

(** The loop with the fuel that [initializePatientSystem] gives it: the
    fuel is not used up, so the stream is closed on every path. *)
Lemma load_whole_spec {A} (k : option load_result * FILE → Prog Sys A) o ψ l :
  (∀ r, is_Some r.1 → f_path r.2 = patients_dat → spec (sframe F quiet) o (k r) ψ l) →
  spec (sframe F quiet) o
    (size ← gets (λ s, length (file_content patients_dat (world s)));
     r ← load_records (S size) (mkFILE patients_dat 0) false; k r) ψ l.
Proof.
  intros Hk s Hs. rewrite bind_run. cbn [gets fst snd]. rewrite bind_run.
  destruct (load_records_spec (S (length (file_content patients_dat (world s))))
              0 false o s Hs) as [Hpath Hs'].
  apply Hk; [|done..].
  apply load_records_total. rewrite drop_0. lia.
Qed.

Lemma initializePatientSystem_spec o :
  ignores F patients_dat → skeeps o initializePatientSystem.
Proof.
  intros. unfold initializePatientSystem, rewind.
  eapply spec_bind; [spec_head|intros ? _].
  eapply spec_bind; [spec_head|intros [file|] ?]; [|spec_go].
  eapply spec_bind; [spec_head|intros [[c|] file'] ?]; [|spec_go].
  cbv beta iota in *. spec_norm.
  apply load_whole_spec. intros [[[foundData|]|] file2] Hsome ?; [spec_go..|].
  by destruct Hsome.
Qed.

#[local] Hint Resolve initializePatientSystem_spec : spec.

(** ** The commands of the operator *)

Notation ikeeps o m := (ispec (sframe F quiet) o m (λ _, True) (λ _, o)).

Lemma getPatientName_spec o : ikeeps o getPatientName.
Proof.
  intros s. apply ispec_retry. unfold getPatientName_body. spec_go.
Qed.

Lemma getPatientAge_spec o : ikeeps o getPatientAge.
Proof.
  intros s. apply ispec_retry. unfold getPatientAge_body. spec_go.
Qed.

Lemma getPatientDiagnosis_spec o : ikeeps o getPatientDiagnosis.
Proof.
  intros s. apply ispec_retry. unfold getPatientDiagnosis_body. spec_go.
Qed.

Lemma getRoomNumber_spec o : ikeeps o getRoomNumber.
Proof.
  intros s. apply ispec_retry. unfold getRoomNumber_body. spec_go.
Qed.

Lemma getPatientToDischarge_spec o : ikeeps o getPatientToDischarge.
Proof. unfold getPatientToDischarge. spec_go.
Qed.

Lemma confirmDischarge_spec p o : ikeeps o (confirmDischarge p).
Proof. unfold confirmDischarge. spec_go.
Qed.

#[local] Hint Resolve getPatientName_spec getPatientAge_spec getPatientDiagnosis_spec
  getRoomNumber_spec getPatientToDischarge_spec confirmDischarge_spec : spec.

Lemma record_patient_spec nm age dg room o :
  ignores F patients_dat → skeeps o (record_patient nm age dg room).
Proof. intros. unfold record_patient. spec_go.
Qed.

#[local] Hint Resolve record_patient_spec : spec.

Lemma addPatientRecord_spec o : ignores F patients_dat → ikeeps o addPatientRecord.
Proof. intros. unfold addPatientRecord. spec_go.
Qed.

Lemma viewPatientRecords_spec o : skeeps o viewPatientRecords.
Proof. unfold viewPatientRecords. spec_go.
Qed.

Lemma searchPatientById_spec o : ikeeps o searchPatientById.
Proof. unfold searchPatientById. spec_go.
Qed.

Lemma discharge_confirmed_spec p o :
  ignores F patients_dat → ignores F patients_tmp →
  ignores F discharged_dat → ignores F room_usage_txt →
  skeeps o (discharge_confirmed p).
Proof. intros. unfold discharge_confirmed. spec_go.
Qed.

#[local] Hint Resolve discharge_confirmed_spec : spec.

Lemma dischargePatient_spec o :
  ignores F patients_dat → ignores F patients_tmp →
  ignores F discharged_dat → ignores F room_usage_txt →
  ikeeps o dischargePatient.
Proof. intros. unfold dischargePatient. spec_go.
Qed.

End functions.

#[export] Hint Resolve env_spec set_head_spec set_total_spec set_counter_spec
  insertPatientAtEndOfList_spec createPatient_spec printPatient_spec
  print_records_spec writePatientToFile_spec write_records_spec clearBinaryFile_spec
  logRoomUsage_spec updatePatientsFile_spec removePatientFromSystem_spec
  initializePatientSystemDefault_spec clearMemory_spec computeNextPatientId_spec
  getPatientFromList_spec load_records_spec initializePatientSystem_spec
  getPatientName_spec getPatientAge_spec getPatientDiagnosis_spec getRoomNumber_spec
  getPatientToDischarge_spec confirmDischarge_spec record_patient_spec
  addPatientRecord_spec viewPatientRecords_spec searchPatientById_spec
  discharge_confirmed_spec dischargePatient_spec : spec.
