(* ===== verification/Session.v ===== *)
(** * Sessions: the calls of the public interface, one after the other

    [src/patient_management.h] declares the functions that the menu of
    the program calls; [src/patient_management.c] defines five more with
    external linkage (the backup, the restore and the three reports).
    A [call] is one of these functions with its argument, [run_call]
    runs it on the state of the program, and a session is a sequence of
    calls ([run_calls], and the relation [runs] when each call has to
    meet a condition).  The menu itself is not part of the sources.

    The theorems are about every session:
    - the streams that a call opens are closed when it returns, and a
      call writes to the files of the program only, whatever is typed
      and whatever library call fails ([calls_close_streams],
      [calls_leave_other_files]);
    - a report changes neither the list nor the counters nor any file
      but its own ([reports_only_report]);
    - the invariant of the store holds after every call, and the
      records stay in the order of their ids, when every admission
      finds its node and every load finds records that are in order
      ([calls_preserve_store]);
    - when no library call fails, [patients.dat] holds the images of the
      records of the list after every call of the menu
      ([calls_keep_file_in_step]), so that a restart of the program
      reads the list back ([session_survives_restart]). *)

From Stdlib Require Import ZArith Lia Ascii.
From Stdlib.Strings Require Import Byte.
From stdpp Require Import base tactics list strings pretty gmap sorting.
From S2P Require Import Prelude Patient Layout Env Store Persist Console.
From S2P Require Import Calendar Report Hoare Frame.

#[local] Open Scope Z_scope.

(** ** Calls *)

(** The functions with external linkage. *)
Inductive call : Type :=
| InitializePatientSystem
| InitializePatientSystemDefault
| AddPatientRecord
| ViewPatientRecords
| SearchPatientById
| DischargePatient
| ClearMemory
| BackupPatientSystem
| RestoreDataFromFile
| DisplayPatientReport (choice : Z)
| DisplayDischargedPatientReport (choice : Z)
| DisplayRoomUsageReport.

#[export] Instance call_eq_dec : EqDecision call.
Proof. solve_decision. Defined.

(** The calls that the menu offers to the operator. *)
Definition offered (c : call) : bool :=
  match c with
  | InitializePatientSystem | InitializePatientSystemDefault | ClearMemory => false
  | _ => true
  end.

(** The calls that print a report. *)
Definition is_report (c : call) : bool :=
  match c with
  | DisplayPatientReport _ | DisplayDischargedPatientReport _
  | DisplayRoomUsageReport => true
  | _ => false
  end.

(** A command of the operator, inside a session. *)
Definition isys {A} (m : IProg Sys A) : IProg Rep A := λ r,
  match m (sys r) with
  | Some (a, s) => Some (a, set_sys (λ _, s) r)
  | None => None
  end.

Section session.
Context `{Limits} `{!Layout Patient} `{!Layout DischargedPatient} `{!Calendar}.

Definition run_call (c : call) : IProg Rep unit :=
  match c with
  | InitializePatientSystem => lift (in_sys initializePatientSystem)
  | InitializePatientSystemDefault => lift (in_sys initializePatientSystemDefault)
  | AddPatientRecord => isys addPatientRecord
  | ViewPatientRecords => lift (in_sys viewPatientRecords)
  | SearchPatientById => isys searchPatientById
  | DischargePatient => isys dischargePatient
  | ClearMemory => lift (in_sys clearMemory)
  | BackupPatientSystem => lift (in_sys backupPatientSystem)
  | RestoreDataFromFile => lift (in_sys restoreDataFromFile)
  | DisplayPatientReport choice => lift (displayPatientReport choice)
  | DisplayDischargedPatientReport choice => lift (displayDischargedPatientReport choice)
  | DisplayRoomUsageReport => lift (out displayRoomUsageReport)
  end.

(** A session: the calls in order; it has a result when each call has
    one. *)
Fixpoint run_calls (cs : list call) : IProg Rep unit :=
  match cs with
  | [] => mret tt
  | c :: cs => _ ← run_call c; run_calls cs
  end.

(** A session in which every call meets the condition [ok] in the state
    where it is made. *)
Inductive runs (ok : call → Rep → Prop) : Rep → list call → Rep → Prop :=
| runs_nil r : runs ok r [] r
| runs_cons r c r1 cs r2 :
    ok c r → run_call c r = Some (tt, r1) → runs ok r1 cs r2 →
    runs ok r (c :: cs) r2.

End session.

(** The files of the program. *)
Definition program_files : list string :=
  [patients_dat; patients_tmp; discharged_dat; room_usage_txt;
   patient_reports_txt; discharged_reports_txt].

(** The file that a report writes; the report of the rooms writes none. *)
Definition report_file (c : call) : option string :=
  match c with
  | DisplayPatientReport _ => Some patient_reports_txt
  | DisplayDischargedPatientReport _ => Some discharged_reports_txt
  | _ => None
  end.

(** ** What the reports leave alone *)

(** The assertion of [Frame] on the state of a report, with the store:
    the list and the counters are those of [σ]. *)
Definition rframe (F : gmap string (list byte) → Prop) (quiet : bool) (σ : Sys)
    (o : list string) (r : Rep) : Prop :=
  same_store (sys r) σ ∧ frame F quiet o (rworld r).

(** The same without the store. *)
Definition wframe (F : gmap string (list byte) → Prop) (quiet : bool)
    (o : list string) (r : Rep) : Prop :=
  frame F quiet o (rworld r).

Section reports.
Context `{!Layout DischargedPatient} `{!Calendar}.
Context (F : gmap string (list byte) → Prop) (quiet : bool) (σ : Sys).
Implicit Types (o : list string).

Notation rkeeps o m := (spec (rframe F quiet σ) o m (λ _, True) (λ _, o)).

Lemma out_spec {A} (m : Prog World A) o φ j :
  spec (frame F quiet) o m φ j → spec (rframe F quiet σ) o (out m) φ j.
Proof.
  intros Hm r [Hσ Hr]. rewrite out_run. cbn [fst snd].
  destruct (Hm _ Hr) as [? ?]. split; [done|]. split; [|by destruct r as [? []]].
  by destruct r as [? []].
Qed.

Lemma in_sys_gets_spec {A} (f : Sys → A) o : rkeeps o (in_sys (gets f)).
Proof. intros r Hr. by destruct r. Qed.

Lemma localtime_spec timer o : rkeeps o (localtime timer).
Proof. by apply spec_modify. Qed.

Lemma arrow_spec {A} (field : tm → A) o : rkeeps o (arrow field).
Proof. apply spec_gets. Qed.

#[local] Hint Resolve out_spec in_sys_gets_spec localtime_spec arrow_spec : spec.

Lemma count_admitted_spec timeframe now y d m l count o :
  rkeeps o (count_admitted timeframe now y d m l count).
Proof.
  revert count. induction l; intros count; cbn [count_admitted]; spec_go.
Qed.

#[local] Hint Resolve count_admitted_spec : spec.

Lemma countPatientsByTimeframe_spec timeframe o :
  rkeeps o (countPatientsByTimeframe timeframe).
Proof. unfold countPatientsByTimeframe. spec_go.
Qed.

Lemma print_admitted_spec path pos timeframe now l o :
  ignores F path → rkeeps o (print_admitted (mkFILE path pos) timeframe now l).
Proof. intros. induction l; cbn [print_admitted]; spec_go.
Qed.

#[local] Hint Resolve countPatientsByTimeframe_spec print_admitted_spec : spec.

Lemma printFormattedReport_spec path pos header result timeframe o :
  ignores F path →
  rkeeps o (printFormattedReport (mkFILE path pos) header result timeframe).
Proof. intros. unfold printFormattedReport. spec_go.
Qed.

#[local] Hint Resolve printFormattedReport_spec : spec.

Lemma displayPatientReport_spec choice o :
  ignores F patient_reports_txt → rkeeps o (displayPatientReport choice).
Proof. intros. unfold displayPatientReport. spec_go.
Qed.

(** A loop over the records of a file returns the stream it was given,
    further on. *)
Lemma while_fread_spec {T} `{!Layout T} {A} fuel path pos
    (body : T → A → Prog Rep A) acc o :
  (∀ x a, rkeeps o (body x a)) →
  spec (rframe F quiet σ) o (while_fread fuel (mkFILE path pos) body acc)
    (λ r, f_path r.2 = path) (λ _, o).
Proof.
  intros Hbody. revert pos acc.
  induction fuel as [|fuel IH]; intros pos acc; cbn [while_fread]; spec_go.
Qed.

Lemma discharge_conditions_spec now stamp o :
  rkeeps o (discharge_conditions now stamp).
Proof. unfold discharge_conditions. spec_go.
Qed.

#[local] Hint Resolve while_fread_spec discharge_conditions_spec : spec.

Lemma count_discharged_spec timeframe now d count o :
  rkeeps o (count_discharged timeframe now d count).
Proof. unfold count_discharged. spec_go.
Qed.

Lemma print_discharged_spec path pos timeframe now d u o :
  ignores F path → rkeeps o (print_discharged (mkFILE path pos) timeframe now d u).
Proof. intros. unfold print_discharged. spec_go.
Qed.

#[local] Hint Resolve count_discharged_spec print_discharged_spec : spec.

Lemma countDischargedPatientsByTimeframe_spec timeframe o :
  rkeeps o (countDischargedPatientsByTimeframe timeframe).
Proof. unfold countDischargedPatientsByTimeframe. spec_go.
Qed.

Lemma printDischargedFormattedReport_spec path pos header result timeframe o :
  ignores F path →
  rkeeps o (printDischargedFormattedReport (mkFILE path pos) header result timeframe).
Proof. intros. unfold printDischargedFormattedReport. spec_go.
Qed.

#[local] Hint Resolve countDischargedPatientsByTimeframe_spec
  printDischargedFormattedReport_spec : spec.

Lemma displayDischargedPatientReport_spec choice o :
  ignores F discharged_reports_txt →
  rkeeps o (displayDischargedPatientReport choice).
Proof. intros. unfold displayDischargedPatientReport. spec_go.
Qed.

End reports.

#[export] Hint Resolve out_spec in_sys_gets_spec localtime_spec arrow_spec
  countPatientsByTimeframe_spec displayPatientReport_spec
  countDischargedPatientsByTimeframe_spec displayDischargedPatientReport_spec : spec.

Section rooms.
Context (F : gmap string (list byte) → Prop) (quiet : bool).
Implicit Types (o : list string).

Notation wkeeps o m := (spec (frame F quiet) o m (λ _, True) (λ _, o)).

Lemma read_rooms_spec fuel path pos roomCounts totalEntries validEntries o :
  spec (frame F quiet) o
    (read_rooms fuel (mkFILE path pos) roomCounts totalEntries validEntries)
    (λ r, f_path r.2 = path) (λ _, o).
Proof.
  revert pos roomCounts totalEntries validEntries.
  induction fuel as [|fuel IH]; intros pos roomCounts totalEntries validEntries;
    cbn [read_rooms]; spec_go.
Qed.

Lemma print_rooms_spec rooms roomCounts roomsReported o :
  wkeeps o (print_rooms rooms roomCounts roomsReported).
Proof.
  revert roomsReported. induction rooms; intros roomsReported; cbn [print_rooms]; spec_go.
Qed.

#[local] Hint Resolve read_rooms_spec print_rooms_spec : spec.

Lemma displayRoomUsageReport_spec o : wkeeps o displayRoomUsageReport.
Proof. unfold displayRoomUsageReport. spec_go.
Qed.

End rooms.

#[export] Hint Resolve displayRoomUsageReport_spec : spec.

(** ** What a call leaves alone *)

Section calls.
Context `{Limits} `{!Layout Patient} `{!Layout DischargedPatient} `{!Calendar}.
Context (F : gmap string (list byte) → Prop) (quiet : bool).
Implicit Types (o : list string) (c : call) (r : Rep).

(** A function of the store inside a session. *)
Lemma in_sys_spec {A} (m : Prog Sys A) o φ j :
  spec (sframe F quiet) o m φ j → spec (wframe F quiet) o (in_sys m) φ j.
Proof.
  intros Hm r Hr. unfold in_sys. specialize (Hm (sys r) Hr).
  by destruct (m (sys r)).
Qed.

Lemma isys_spec {A} (m : IProg Sys A) o φ j :
  ispec (sframe F quiet) o m φ j → ispec (wframe F quiet) o (isys m) φ j.
Proof.
  intros Hm r a r' Hr. unfold isys.
  destruct (m (sys r)) as [[b s]|] eqn:Hrun; [|done]. intros [= <- <-].
  by apply (Hm (sys r)).
Qed.

(** What holds of the state of a report holds without the store. *)
Lemma forget_store {A} (m : Prog Rep A) o φ j :
  (∀ σ, spec (rframe F quiet σ) o m φ j) → spec (wframe F quiet) o m φ j.
Proof.
  intros Hm r Hr. destruct (Hm (sys r) r) as (? & _ & ?); [by split|done].
Qed.

(** A report leaves the list and the counters alone as well, and needs
    no file but its own. *)
Lemma report_spec c σ o :
  is_report c → (∀ p, report_file c = Some p → ignores F p) →
  ispec (rframe F quiet σ) o (run_call c) (λ _, True) (λ _, o).
Proof.
  intros Hc HF.
  destruct c; try done; cbn [run_call]; apply ispec_lift;
    try specialize (HF _ eq_refl); eauto with spec.
Qed.

(** A call returns with the streams open that were open before, has
    written to the files of the program only, and has met no failure if
    there was none to meet. *)
Lemma run_call_spec c o :
  Forall (ignores F) program_files →
  ispec (wframe F quiet) o (run_call c) (λ _, True) (λ _, o).
Proof.
  intros HF. unfold program_files in HF. rewrite !Forall_cons in HF.
  destruct HF as (? & ? & ? & ? & ? & ? & _).
  destruct c; cbn [run_call]; first [apply ispec_lift|apply isys_spec];
    first [apply in_sys_spec|apply forget_store; intros σ|idtac];
    unfold backupPatientSystem, restoreDataFromFile; eauto with spec.
Qed.

Lemma run_calls_spec cs o :
  Forall (ignores F) program_files →
  ispec (wframe F quiet) o (run_calls cs) (λ _, True) (λ _, o).
Proof.
  intros HF. induction cs as [|c cs IH]; cbn [run_calls].
  - by apply ispec_ret.
  - eapply ispec_bind; [by apply run_call_spec|]. intros ? _. apply IH.
Qed.

End calls.

(** ** Every session: streams and files *)

Section streams.
Context `{Limits} `{!Layout Patient} `{!Layout DischargedPatient} `{!Calendar}.
Implicit Types (c : call) (cs : list call) (r : Rep).

(** C14: the streams of a session.  Whatever the operator types and
    whatever library call fails, when the calls of a session have
    returned the streams that were open before the session are open and
    no other: every function closes each stream that it opened, on every
    path. *)
Theorem calls_close_streams cs r r' :
  run_calls cs r = Some (tt, r') → w_open (rworld r') = w_open (rworld r).
Proof.
  intros Hrun.
  assert (Forall (ignores any_files) program_files) as HF
    by (apply Forall_forall; auto with spec).
  by destruct (run_calls_spec _ false cs (w_open (rworld r)) HF r tt r')
    as (_ & ? & _).
Qed.

(** C25: the files of a session.  Whatever the operator types and
    whatever library call fails, a session creates, changes and removes
    no file but the six files of the program. *)
Theorem calls_leave_other_files cs r r' path :
  path ∉ program_files → run_calls cs r = Some (tt, r') →
  w_files (rworld r') !! path = w_files (rworld r) !! path.
Proof.
  intros Hpath Hrun.
  assert (Forall (ignores (file_is path (w_files (rworld r) !! path))) program_files)
    as HF by (apply Forall_forall; intros p Hp; apply ignores_other; by intros ->).
  by destruct (run_calls_spec _ false cs (w_open (rworld r)) HF r tt r')
    as (_ & _ & ? & _).
Qed.

(** C18: a report is read-only.  Whatever library call fails, a report
    leaves the list and the counters as they were, closes the streams it
    opened and changes no file but the one it appends the report to. *)
Theorem reports_only_report c r r' path :
  is_report c → report_file c ≠ Some path →
  run_call c r = Some (tt, r') →
  same_store (sys r') (sys r) ∧
  w_open (rworld r') = w_open (rworld r) ∧
  w_files (rworld r') !! path = w_files (rworld r) !! path.
Proof.
  intros Hc Hpath Hrun.
  set (F := file_is path (w_files (rworld r) !! path)).
  assert (∀ p, report_file c = Some p → ignores F p) as HF
    by (intros p Hp; apply ignores_other; congruence).
  by destruct (report_spec F false c (sys r) (w_open (rworld r)) Hc HF r tt r')
    as (_ & ? & ? & ? & _).
Qed.

End streams.

(** ** The load, whatever call fails *)

Section load.
Context `{!Layout Patient}.
Implicit Types (s : Sys) (l : list Patient).

(** The store after a load of the records [l]. *)
Definition reloaded (l : list Patient) (s : Sys) : Prop :=
  patientHead s = l ∧ totalPatients s = incr_times (length l) IS_EMPTY ∧
  patientIDCounter s = wrap_int (max_id 0 l + 1).

Lemma insertPatientAtEndOfList_cases head p w :
  (insertPatientAtEndOfList head p w).1 = [] ∨
  (insertPatientAtEndOfList head p w).1 = head ++ [p].
Proof.
  unfold insertPatientAtEndOfList. rewrite bind_run.
  destruct (malloc w).1; cbn [negb]; [right|by left].
  destruct head; [done|]. by rewrite bind_run, ret_run, link_at_end_app.
Qed.

(** The read loop ends for want of memory, or has inserted every record
    that was left in the file. *)
Lemma load_records_any fuel pos found s :
  (length (drop pos (file_content patients_dat (world s))) < fuel)%nat →
  let l := decode_all (drop pos (file_content patients_dat (world s))) in
  let run := load_records fuel (mkFILE patients_dat pos) found s in
  run.1.1 = Some LoadNoMemory ∨
  (run.1.1 = Some (LoadEOF (found || bool_decide (l ≠ []))) ∧
   patientHead run.2 = patientHead s ++ l ∧
   totalPatients run.2 = incr_times (length l) (totalPatients s) ∧
   patientIDCounter run.2 = patientIDCounter s).
Proof.
  pose proof (sizeof_pos (T:=Patient)) as Hpos.
  revert pos found s. induction fuel as [|fuel IH]; intros pos found s Hlen; [lia|].
  cbn zeta. unfold load_records; fold load_records. rewrite bind_run, env_run.
  set (rest := drop pos (file_content patients_dat (world s))) in *.
  destruct (decide (sizeof Patient ≤ length rest)%nat) as [Hrec|Hrec].
  2: { rewrite fread_none, decode_all_short by (cbn [f_path f_pos]; fold rest; lia).
       right. cbn. by rewrite app_nil_r, orb_false_r. }
  rewrite fread_some, decode_all_cons by done. cbn [f_path f_pos fst snd].
  set (x := of_bytes (take (sizeof Patient) rest)).
  rewrite bind_run. cbn [gets fst snd]. rewrite bind_run, env_run.
  pose proof (insertPatientAtEndOfList_files (patientHead s) x
                (world (set_world (λ _, world s) s))) as Hfiles.
  destruct (insertPatientAtEndOfList_cases (patientHead s) x
              (world (set_world (λ _, world s) s))) as [Hnil|Hsnoc];
    destruct (insertPatientAtEndOfList _ _ _) as [head' w']; cbn [fst snd] in *;
    subst head'; rewrite bind_run; cbn [modify fst snd]; [by left|].
  destruct (patientHead s ++ [x]) as [|h t] eqn:Hh; [by destruct (patientHead s)|].
  rewrite bind_run. cbn [modify fst snd]. rewrite <-Hh.
  match goal with |- context [load_records fuel ?f true ?s1] =>
    assert (file_content patients_dat (world s1) = file_content patients_dat (world s))
      as Hcontent by (unfold file_content; cbn; by rewrite Hfiles);
    specialize (IH (pos + sizeof Patient)%nat true s1) end.
  rewrite Hcontent, <-drop_drop in IH. fold rest in IH.
  destruct IH as [?|(Hr & Hhead & Htotal & Hcounter)];
    [rewrite length_drop; lia|by left|right].
  rewrite Hr, Hhead, Htotal, Hcounter. destruct s; cbn.
  by rewrite orb_true_r, <-app_assoc.
Qed.

(** The defaults leave the store of a start. *)
Lemma initializePatientSystemDefault_store s w :
  same_store (exec initializePatientSystemDefault s) (boot w).
Proof. by destruct s. Qed.

(** A command that ends with the defaults leaves the store of a start,
    whatever it did before. *)
Lemma ends_with_defaults {A} (m : Prog Sys A) (k : A → Prog Sys unit) s w :
  (∀ a s1, same_store (exec (k a) s1) (boot w)) →
  same_store (exec (m ≫= k) s) (boot w).
Proof. intros Hk. rewrite exec_bind. apply Hk. Qed.

Ltac defaults :=
  repeat first [ apply initializePatientSystemDefault_store
               | apply ends_with_defaults; intros ? ? ].

(** A stream opened for reading is at the start of its file, and the
    directory is as it was. *)
Lemma fopen_read_run path w :
  w_files (fopen path ReadMode w).2 = w_files w ∧
  ((fopen path ReadMode w).1 = None ∨ (fopen path ReadMode w).1 = Some (mkFILE path 0)).
Proof.
  destruct w as [files open stdin out err clock faults]. run_env.
  destruct faults as [|[|?] ?]; cbn; destruct (files !! path); cbn; auto.
Qed.

(** The end of [initializePatientSystem], after the loop. *)
Definition after_load (r : option load_result) (file : FILE) : Prog Sys unit :=
  match r with
  | Some LoadNoMemory =>
      _ ← env (puts "Error: Unable to populate linked list from patients.dat.");
      _ ← env (fclose file);
      initializePatientSystemDefault
  | Some (LoadEOF foundData) =>
      _ ← env (fclose file);
      if negb foundData then
        _ ← env (puts "Warning: patients.dat contained no valid patient records.");
        _ ← env (clearBinaryFile patients_dat);
        initializePatientSystemDefault
      else
        id ← computeNextPatientId;
        _ ← modify (set_counter (λ _, id));
        env (puts "Patients successfully loaded from file.")
  | None => mret tt
  end.

Lemma after_load_store l r file s w :
  r = Some LoadNoMemory ∨
  (r = Some (LoadEOF (bool_decide (l ≠ []))) ∧ patientHead s = l ∧
   totalPatients s = incr_times (length l) IS_EMPTY) →
  same_store (exec (after_load r file) s) (boot w) ∨
  (l ≠ [] ∧ reloaded l (exec (after_load r file) s)).
Proof.
  intros [->|(-> & Hhead & Htotal)]; cbn [after_load]; [left; defaults|].
  case_bool_decide as Hl; cbn [negb]; [right|left; defaults].
  split; [done|]. rewrite exec_bind.
  destruct (env_same_store (fclose file) s) as (Hh & Ht & Hc).
  destruct (exec (env (fclose file)) s) as [h t c w1]. cbn in *. by subst.
Qed.

(** [fgetc] leaves the world and the path of its stream. *)
Lemma fgetc_run f w :
  (fgetc f w).2 = w ∧ f_path (fgetc f w).1.2 = f_path f.
Proof. unfold fgetc. by case_match. Qed.

(** A load leaves the store of a start, or the records of the file with
    the counter after their largest id, whatever call fails. *)
Lemma initializePatientSystem_store s :
  let l := decode_all (file_content patients_dat (world s)) in
  same_store (exec initializePatientSystem s) (boot (world s)) ∨
  (l ≠ [] ∧ reloaded l (exec initializePatientSystem s)).
Proof.
  cbn zeta. unfold initializePatientSystem. rewrite exec_bind.
  set (s0 := exec clearMemory s).
  assert (s0 = boot (world s)) as Hs0 by (by destruct s).
  rewrite exec_bind. unfold eval, exec. rewrite env_run. cbn [fst snd].
  destruct (fopen_read_run patients_dat (world s0)) as [Hfiles [Hopen|Hopen]];
    rewrite Hopen; [left; defaults|].
  set (s1 := set_world _ s0). rewrite bind_run, env_run.
  destruct (fgetc_run (mkFILE patients_dat 0) (world s1)) as [Hw Hpath].
  destruct (fgetc _ _) as [[c file] w1]. cbn [fst snd] in *. subst w1.
  destruct c as [c|]; [|left; defaults].
  destruct file as [path pos]. cbn in Hpath. subst path. unfold rewind. cbn [f_path].
  rewrite bind_run. cbn [gets fst snd]. rewrite bind_run.
  assert (set_world (λ _, world s1) s1 = s1) as -> by (subst s1 s0; by destruct s).
  assert (file_content patients_dat (world s1) = file_content patients_dat (world s))
    as Hcontent by (unfold file_content; cbn; rewrite Hfiles; by destruct s).
  pose proof (load_records_any (S (length (file_content patients_dat (world s1))))
                0 false s1) as Hload.
  rewrite drop_0, Hcontent in Hload. rewrite Hcontent.
  destruct (load_records _ _ _ _) as [[r f] s3]. cbn [fst snd] in *.
  apply (after_load_store _ r f s3).
  destruct Hload as [?|(? & Hh & Ht & _)]; [lia|by left|right].
  split_and!; [done|by rewrite Hh|by rewrite Ht].
Qed.
End load.

(** ** Every session: the invariant of the store *)

(** Lists of integers in increasing order. *)
Section increasing.
Implicit Types (zs : list Z).

Lemma increasing_sublist zs1 zs2 :
  zs1 `sublist_of` zs2 → StronglySorted Z.lt zs2 → StronglySorted Z.lt zs1.
Proof.
  induction 1 as [|z zs1 zs2 Hsub IH|z zs1 zs2 Hsub IH];
    rewrite ?StronglySorted_cons; [done| |naive_solver].
  intros [Hz ?]. split; [|by apply IH]. by apply (Forall_sublist _ _ _ Hz).
Qed.

Lemma increasing_snoc zs c :
  StronglySorted Z.lt zs → Forall (λ z, z < c) zs → StronglySorted Z.lt (zs ++ [c]).
Proof.
  intros Hzs Hc. apply StronglySorted_app; split_and!; [|done|repeat constructor].
  intros z1 z2 Hz1 ->%list_elem_of_singleton. by apply (proj1 (Forall_forall _ _) Hc).
Qed.

Lemma increasing_NoDup zs : StronglySorted Z.lt zs → NoDup zs.
Proof.
  induction 1 as [|z zs _ IH Hz]; constructor; [|done].
  intros Hin. apply (proj1 (Forall_forall _ _) Hz) in Hin. lia.
Qed.

Lemma increasing_length zs a b :
  StronglySorted Z.lt zs → Forall (λ z, a ≤ z < b) zs →
  Z.of_nat (length zs) ≤ Z.max 0 (b - a).
Proof.
  intros Hzs. revert a. induction Hzs as [|z zs _ IH Hz]; intros a Hab; [simpl; lia|].
  apply Forall_cons in Hab as [Ha Hab]. rewrite length_cons.
  assert (Forall (λ x, z + 1 ≤ x < b) zs) as Hzs'; [|specialize (IH _ Hzs'); lia].
  rewrite Forall_forall in *. intros x Hx. specialize (Hz x Hx). specialize (Hab x Hx). lia.
Qed.

End increasing.

Section store.
Context `{Limits} `{!Layout Patient} `{!Layout DischargedPatient} `{!Calendar}.
Implicit Types (c : call) (cs : list call) (r : Rep) (s : Sys) (l : list Patient).

(** The invariant of a session: the invariant of the store, and the
    records are in the order of their ids, which is the order of the
    admissions. *)
Definition session_ok (s : Sys) : Prop :=
  store_ok s ∧ StronglySorted Z.lt (patientId <$> patientHead s).

#[export] Instance session_ok_dec s : Decision (session_ok s).
Proof. unfold session_ok. apply _. Defined.

#[export] Instance session_ok_proper : Proper (same_store ==> iff) session_ok.
Proof.
  unfold session_ok. intros s1 s2 Hs.
  rewrite (store_ok_proper _ _ Hs). by destruct Hs as (-> & _).
Qed.

(** The records of a file that a load may read: ids in increasing order
    from [DEFAULT_ID] and below [INT_MAX], no room twice, every record
    valid. *)
Definition records_ok (l : list Patient) : Prop :=
  StronglySorted Z.lt (patientId <$> l) ∧
  Forall (λ p, DEFAULT_ID ≤ patientId p < INT_MAX) l ∧
  NoDup (roomNumber <$> l) ∧ Forall valid_patient l.

#[export] Instance records_ok_dec l : Decision (records_ok l).
Proof. unfold records_ok. apply _. Defined.

Lemma session_ok_boot w : session_ok (boot w).
Proof. split; [apply store_ok_boot|constructor]. Qed.

Lemma session_ok_reloaded l s : records_ok l → reloaded l s → session_ok s.
Proof.
  intros (Hsorted & Hids & Hrooms & Hvalid) (Hhead & Htotal & Hcounter).
  pose proof (max_id_ge 0 l).
  assert (max_id 0 l < INT_MAX) as Hmax
    by (apply max_id_lt; [done|]; apply (Forall_impl _ _ _ Hids); by intros ? [_ ?]).
  assert (Z.of_nat (length l) ≤ INT_MAX) as Hlen.
  { rewrite <-(length_fmap patientId).
    etrans; [apply (increasing_length _ DEFAULT_ID INT_MAX); [done|]|done].
    by apply Forall_fmap. }
  rewrite wrap_int_id in Hcounter by (unfold in_int, INT_MIN, INT_MAX in *; lia).
  rewrite incr_times_small in Htotal by (unfold IS_EMPTY; lia).
  split; [|by rewrite Hhead]. unfold store_ok. rewrite Hhead, Htotal, Hcounter.
  split_and!; [done|by apply increasing_NoDup| |done|done|unfold DEFAULT_ID; lia|lia].
  apply Forall_forall. intros p Hp. pose proof (max_id_bound 0 l p Hp).
  apply (proj1 (Forall_forall _ _) Hids) in Hp. lia.
Qed.

(** A load of records that are in order. *)
Lemma session_ok_load s :
  records_ok (decode_all (file_content patients_dat (world s))) →
  session_ok (exec initializePatientSystem s).
Proof.
  intros Hl. destruct (initializePatientSystem_store s) as [->|[_ Hs]];
    [apply session_ok_boot|by eapply session_ok_reloaded].
Qed.

(** One record is unlinked. *)
Lemma session_ok_step p s s' : session_ok s → store_step p s s' → session_ok s'.
Proof.
  intros Hok [<-|(l' & Hun & Hhead & Htotal & Hcounter)]; [done|].
  destruct Hok as [Hok Hsorted].
  assert (same_store s'
            (mkSys l' (int_decr (totalPatients s)) (patientIDCounter s) (world s)))
    as Hs by exact (conj Hhead (conj Htotal Hcounter)).
  apply (session_ok_proper _ _ Hs).
  split; [by eapply store_ok_unlink|]. cbn.
  apply unlink_by_id_sublist in Hun as [Hsub _].
  by eapply increasing_sublist; [apply fmap_sublist|].
Qed.

(** ** The calls, one by one *)

Lemma lift_env_inv {A} (m : Prog World A) s a s' :
  lift (env m) s = Some (a, s') → same_store s' s.
Proof.
  unfold lift. intros [= Hrun].
  replace s' with (exec (env m) s) by (unfold exec; by rewrite Hrun).
  apply env_same_store.
Qed.

Lemma viewPatientRecords_same_store s : same_store (exec viewPatientRecords s) s.
Proof.
  unfold viewPatientRecords. rewrite exec_bind. cbn [gets eval exec fst snd].
  destruct (patientHead s); apply env_same_store.
Qed.

Lemma searchPatientById_same_store s s' :
  searchPatientById s = Some (tt, s') → same_store s' s.
Proof.
  unfold searchPatientById. intros Hrun.
  apply ibind_inv in Hrun as (head & s0 & [= <- <-] & Hrun).
  destruct (patientHead s) as [|q head]; [by apply lift_env_inv in Hrun|].
  apply ibind_inv in Hrun as (? & s1 & H1%lift_env_inv & Hrun).
  apply ibind_inv in Hrun as (r & s2 & H2%lift_env_inv & Hrun).
  apply ibind_inv in Hrun as (? & s3 & H3%lift_env_inv & Hrun).
  destruct r; [|done..]. rewrite <-H1, <-H2, <-H3.
  case_match; by apply lift_env_inv in Hrun.
Qed.

(** An admission that returns has recorded four answers that passed
    validation, with a room that was free, after prompts that used the
    console only. *)
Lemma addPatientRecord_run s s' :
  (2 ≤ MAX_DIAGNOSIS_LENGTH)%nat →
  addPatientRecord s = Some (tt, s') →
  ∃ nm age dg room ins outs,
    validatePatientName nm ∧ validatePatientAge age ∧
    validatePatientDiagnosis dg ∧ validateRoomNumber room ∧
    room ∉ roomNumber <$> patientHead s ∧
    s' = exec (record_patient nm age dg room) (answered ins outs s).
Proof.
  intros Hmax Hrun. unfold addPatientRecord in Hrun.
  apply ibind_inv in Hrun as (nm & s1 & Hp1 & Hrun).
  apply (prompt_post _ _ getPatientName_iteration) in Hp1 as [H1 Hnm].
  apply ibind_inv in Hrun as (age & s2 & Hp2 & Hrun).
  apply (prompt_post _ _ getPatientAge_iteration) in Hp2 as [H2 Hage].
  apply ibind_inv in Hrun as (dg & s3 & Hp3 & Hrun).
  apply (prompt_post _ _ (getPatientDiagnosis_iteration Hmax)) in Hp3 as [H3 Hdg].
  apply ibind_inv in Hrun as (room & s4 & Hp4 & Hrun).
  apply (prompt_post _ _ getRoomNumber_iteration) in Hp4 as [H4 Hroom].
  rewrite lift_unit in Hrun. injection Hrun as <-.
  assert (console_only s s4) as (ins & outs & -> & _)
    by eauto using console_only_trans.
  rewrite !(console_only_head s) in Hroom by eauto using console_only_trans.
  destruct Hroom as [Hroom Hfree%isRoomOccupiedInList_free].
  by exists nm, age, dg, room, ins, outs.
Qed.

(** When the node was allocated, one valid record with the next id and
    a free room is the last of the list. *)
Lemma addPatientRecord_appends s s' :
  (2 ≤ MAX_DIAGNOSIS_LENGTH)%nat →
  (next_outcome (world s)).1 = Succeed →
  addPatientRecord s = Some (tt, s') →
  ∃ p, patientId p = patientIDCounter s ∧ valid_patient p ∧
       roomNumber p ∉ roomNumber <$> patientHead s ∧
       patientHead s' = patientHead s ++ [p] ∧
       totalPatients s' = int_incr (totalPatients s) ∧
       patientIDCounter s' = int_incr (patientIDCounter s).
Proof.
  intros Hmax Hmalloc
    (nm & age & dg & room & ins & outs & ? & ? & ? & ? & ? & ->)%addPatientRecord_run;
    [|done].
  edestruct (record_patient_store nm age dg room (answered ins outs s))
    as (Hhead & Htotal & Hc);
    [destruct s as [? ? ? [? ? ? ? ? ? [|? ?]]]; exact Hmalloc|].
  exists (new_patient nm age dg room (answered ins outs s)).
  rewrite Hhead, Htotal, Hc. by destruct s.
Qed.

Lemma session_ok_add s s' :
  (2 ≤ MAX_DIAGNOSIS_LENGTH)%nat →
  patientIDCounter s < INT_MAX → (next_outcome (world s)).1 = Succeed →
  addPatientRecord s = Some (tt, s') → session_ok s → session_ok s'.
Proof.
  intros Hmax Hcounter Hmalloc Hrun [Hok Hsorted].
  destruct (addPatientRecord_appends s s' Hmax Hmalloc Hrun)
    as (p & Hid & Hvalid & Hroom & Hhead & Htotal & Hc).
  assert (same_store s'
            (mkSys (patientHead s ++ [p]) (int_incr (totalPatients s))
               (int_incr (patientIDCounter s)) (world s))) as Hs
    by exact (conj Hhead (conj Htotal Hc)).
  apply (session_ok_proper _ _ Hs).
  split; [exact (store_ok_snoc s p _ Hok Hid Hcounter Hvalid Hroom)|]. cbn. rewrite fmap_app. cbn. rewrite Hid.
  apply increasing_snoc; [done|]. destruct Hok as (_ & _ & Hrange & _).
  apply Forall_fmap. apply (Forall_impl _ _ _ Hrange). by intros ? [_ ?].
Qed.

Lemma session_ok_discharge s s' :
  dischargePatient s = Some (tt, s') → session_ok s → session_ok s'.
Proof.
  intros [<-|(p & _ & Hstep)]%dischargePatient_store Hok; [done|].
  by eapply session_ok_step.
Qed.

(** The condition of a call: an admission needs an id below [INT_MAX]
    and the node of the record; a load needs a file with records that
    are in order. *)
Definition allowed (c : call) (r : Rep) : Prop :=
  match c with
  | AddPatientRecord =>
      patientIDCounter (sys r) < INT_MAX ∧ (next_outcome (rworld r)).1 = Succeed
  | InitializePatientSystem | RestoreDataFromFile =>
      records_ok (decode_all (file_content patients_dat (rworld r)))
  | _ => True
  end.

#[export] Instance allowed_dec c r : Decision (allowed c r).
Proof. destruct c; apply _. Defined.

(** What [isys] and [in_sys] run. *)
Lemma isys_inv {A} (m : IProg Sys A) r a r' :
  isys m r = Some (a, r') → m (sys r) = Some (a, sys r').
Proof. unfold isys. destruct (m (sys r)) as [[? ?]|]; [|done]. by intros [= <- <-]. Qed.

Lemma in_sys_inv (m : Prog Sys unit) r r' :
  lift (in_sys m) r = Some (tt, r') → sys r' = exec m (sys r).
Proof.
  unfold lift, in_sys, exec. destruct (m (sys r)) as [[] s]. by intros [= <-].
Qed.

Lemma run_call_preserves c r r' :
  (2 ≤ MAX_DIAGNOSIS_LENGTH)%nat → allowed c r →
  run_call c r = Some (tt, r') → session_ok (sys r) → session_ok (sys r').
Proof.
  intros Hmax Hc Hrun Hok.
  destruct (decide (is_report c)) as [Hrep|Hrep].
  { destruct (report_spec any_files false c (sys r) (w_open (rworld r)) Hrep
                ltac:(auto with spec) r tt r') as (_ & -> & _); done. }
  destruct c; cbn [run_call allowed] in *;
    first [by destruct Hrep|apply isys_inv in Hrun|apply in_sys_inv in Hrun; rewrite Hrun].
  - by apply session_ok_load.
  - apply session_ok_boot.
  - destruct Hc. by eapply session_ok_add.
  - by rewrite viewPatientRecords_same_store.
  - by rewrite (searchPatientById_same_store _ _ Hrun).
  - by eapply session_ok_discharge.
  - apply session_ok_boot.
  - unfold backupPatientSystem. by rewrite updatePatientsFile_same_store.
  - by apply session_ok_load.
Qed.

End store.

(** ** Sessions without a failure: the file follows the list *)

Section in_step.
Context `{Limits} `{!Layout Patient} `{!Layout DischargedPatient} `{!Calendar}.
Implicit Types (c : call) (cs : list call) (r : Rep) (s : Sys) (l : list Patient).

(** No library call will fail, and [patients.dat] holds the images of
    the records of the list. *)
Definition quiet_synced (s : Sys) : Prop :=
  w_faults (world s) = [] ∧ synced s.

Lemma quiet_synced_console s s' :
  console_only s s' → quiet_synced s → quiet_synced s'.
Proof. intros (ins & outs & -> & _). by destruct s as [? ? ? []]. Qed.

(** A step that leaves the list, the file and the absence of failures. *)
Lemma quiet_synced_frame s s' :
  same_store s' s →
  sframe (file_is patients_dat (w_files (world s) !! patients_dat)) true
    (w_open (world s)) s' →
  quiet_synced s → quiet_synced s'.
Proof.
  intros (Hhead & _) (_ & Hfile & Hquiet) [_ Hs]. split; [by apply Hquiet|].
  unfold synced, file_content, file_is in *. by rewrite Hfile, Hhead.
Qed.

Lemma quiet_synced_add s s' :
  (2 ≤ MAX_DIAGNOSIS_LENGTH)%nat →
  addPatientRecord s = Some (tt, s') → quiet_synced s → quiet_synced s'.
Proof.
  intros Hmax
    (nm & age & dg & room & ins & outs & _ & _ & _ & _ & _ & ->)%addPatientRecord_run;
    [|done].
  intros [Hquiet Hs]. rewrite record_patient_ok by (by destruct s as [? ? ? []]).
  destruct s as [head total counter [files open stdin out err [|? [|? ?]] faults]];
    unfold quiet_synced, synced, file_content, appended in *; cbn in *;
    by rewrite lookup_insert_eq, encode_all_snoc, Hs.
Qed.

(** A discharge has used the console only, or has run the confirmed
    discharge of a patient that was found. *)
Lemma dischargePatient_cases s s' :
  dischargePatient s = Some (tt, s') →
  (∃ s1 msg, console_only s s1 ∧ s' = exec (env (puts msg)) s1) ∨
  (∃ p s1, find_by_id (patientId p) (patientHead s) = Some p ∧
           console_only s s1 ∧ s' = exec (discharge_confirmed p) s1).
Proof.
  unfold dischargePatient. intros Hrun.
  apply ibind_inv in Hrun as (head & s0 & [= <- <-] & Hrun).
  destruct (patientHead s) as [|q head] eqn:Hhead.
  { rewrite lift_unit in Hrun. injection Hrun as <-. left.
    eauto using console_only_refl. }
  apply ibind_inv in Hrun as (r & s1 & [H1 [id ->]]%getPatientToDischarge_post & Hrun).
  rewrite Hhead in Hrun.
  destruct (find_by_id id (q :: head)) as [p|] eqn:Hfind.
  2: { rewrite lift_unit in Hrun. injection Hrun as <-. left. eauto. }
  apply ibind_inv in Hrun as (b & s2 & H2%confirmDischarge_post & Hrun).
  assert (console_only s s2) by eauto using console_only_trans.
  destruct b; rewrite lift_unit in Hrun; injection Hrun as <-; [right|left; eauto].
  exists p, s2. apply find_by_id_Some in Hfind as Hp. destruct Hp as [_ <-]. done.
Qed.

Lemma quiet_synced_puts msg s : quiet_synced s → quiet_synced (exec (env (puts msg)) s).
Proof. by destruct s as [? ? ? []]. Qed.

Lemma quiet_synced_discharge s s' :
  dischargePatient s = Some (tt, s') → quiet_synced s → quiet_synced s'.
Proof.
  intros [(s1 & msg & H1 & ->)|(p & s1 & Hfind & H1 & ->)]%dischargePatient_cases Hs;
    apply (quiet_synced_console _ _ H1) in Hs; [by apply quiet_synced_puts|].
  rewrite <-(console_only_head _ _ H1) in Hfind.
  destruct (find_by_id_unlink _ _ _ Hfind) as [l' Hun]. destruct Hs as [Hquiet Hs].
  rewrite (discharge_confirmed_ok p l') by done.
  destruct s1 as [head total counter [files open stdin out err [|? [|? ?]] faults]];
    unfold quiet_synced, synced, file_content, discharged, rewritten in *; cbn in *;
    by rewrite lookup_insert_eq.
Qed.

Lemma quiet_synced_backup s : quiet_synced s → quiet_synced (exec updatePatientsFile s).
Proof.
  intros [Hquiet _]. rewrite updatePatientsFile_ok by done.
  destruct s as [head total counter [files open stdin out err clock faults]].
  unfold quiet_synced, synced, file_content, rewritten in *; cbn in *.
  by rewrite lookup_insert_eq.
Qed.

(** The load when the file holds no byte: the defaults, and the file is
    as it was. *)
Lemma initializePatientSystem_empty s :
  w_faults (world s) = [] → file_content patients_dat (world s) = [] →
  let s' := exec initializePatientSystem s in
  same_store s' (boot (world s)) ∧ w_faults (world s') = [] ∧
  file_content patients_dat (world s') = [].
Proof.
  destruct s as [head total counter [files open stdin out err clock faults]].
  unfold file_content. cbn. intros -> Hfile.
  unfold exec, initializePatientSystem, clearMemory. run_sys.
  destruct (files !! patients_dat) as [content|] eqn:Hdat; cbn in Hfile; subst; run_sys;
    unfold file_content; cbn; rewrite ?Hdat; run_sys;
    unfold initializePatientSystemDefault; run_sys; by rewrite ?Hdat.
Qed.

(** The load when the file holds the images of the records of a list
    that is not empty. *)
Lemma initializePatientSystem_synced s l :
  w_faults (world s) = [] → file_content patients_dat (world s) = encode_all l →
  l ≠ [] → Forall fits l → Z.of_nat (length l) ≤ INT_MAX →
  let s' := exec initializePatientSystem s in
  same_store s' (mkSys l (Z.of_nat (length l)) (wrap_int (max_id 0 l + 1)) (world s)) ∧
  w_faults (world s') = [] ∧
  file_content patients_dat (world s') = encode_all l.
Proof.
  intros Hquiet Hfile Hl Hfits Hlen. pose proof (sizeof_pos (T:=Patient)).
  assert (w_files (world s) !! patients_dat = Some (encode_all l ++ [])) as Hdat.
  { unfold file_content in Hfile. rewrite app_nil_r.
    destruct (w_files (world s) !! patients_dat); cbn in Hfile; [by subst|].
    destruct l; [done|]. apply (f_equal length) in Hfile.
    rewrite encode_all_length in Hfile. cbn in Hfile. lia. }
  cbn zeta. rewrite (initializePatientSystem_ok s _ Hquiet Hdat);
    rewrite decode_all_encode by (done || cbn; lia); [|done].
  rewrite incr_times_small by (unfold IS_EMPTY; lia).
  destruct s as [? ? ? []]. unfold file_content in *. cbn in *. by rewrite Hfile.
Qed.

(** A load from a file that is in step with a list reads the list back;
    the counter is the one after the largest id. *)
Lemma initializePatientSystem_reads_list s0 s :
  world s0 = world s → quiet_synced s → session_ok s → Forall fits (patientHead s) →
  let s' := exec initializePatientSystem s0 in
  patientHead s' = patientHead s ∧ totalPatients s' = totalPatients s ∧
  patientIDCounter s' = wrap_int (max_id 0 (patientHead s) + 1) ∧ quiet_synced s'.
Proof.
  intros Hw [Hquiet Hs] [Hok _] Hfits. pose proof (store_ok_total_lt s Hok).
  destruct Hok as (Htotal & _ & _ & _ & _ & Hc). unfold synced in Hs.
  rewrite <-Hw in Hquiet, Hs. cbn zeta. unfold quiet_synced, synced.
  destruct (decide (patientHead s = [])) as [Hl|Hl].
  - rewrite Hl in *.
    destruct (initializePatientSystem_empty s0 Hquiet Hs) as ((Hh & Ht & Hn) & ? & Hfile).
    by rewrite Hfile, Hh, Ht, Hn, Htotal.
  - destruct (initializePatientSystem_synced s0 _ Hquiet Hs Hl Hfits)
      as ((Hh & Ht & Hn) & ? & Hfile); [lia|].
    by rewrite Hfile, Hh, Ht, Hn, Htotal.
Qed.

(** The state of a session in which the file follows the list: no
    library call will fail, [patients.dat] holds the images of the
    records of the list, and the invariant of the store holds. *)
Definition in_step (r : Rep) : Prop :=
  quiet_synced (sys r) ∧ session_ok (sys r).

(** The condition of a call of the menu: an admission needs an id below
    [INT_MAX]; a restore needs records that fit their fields. *)
Definition menu_ok (c : call) (r : Rep) : Prop :=
  offered c ∧
  match c with
  | AddPatientRecord => patientIDCounter (sys r) < INT_MAX
  | RestoreDataFromFile => Forall fits (patientHead (sys r))
  | _ => True
  end.

#[export] Instance menu_ok_dec c r : Decision (menu_ok c r).
Proof. destruct c; apply _. Defined.

Lemma session_ok_records s : session_ok s → records_ok (patientHead s).
Proof.
  intros [(_ & _ & Hrange & ? & ? & Hc) ?]. split_and!; [done| |done|done].
  apply (Forall_impl _ _ _ Hrange). intros p ?. lia.
Qed.

Lemma menu_ok_allowed c r : in_step r → menu_ok c r → allowed c r.
Proof.
  intros [[Hquiet Hs] Hok] [Hc Hcond]. destruct c; try done; cbn in *.
  - split; [done|]. unfold rworld, next_outcome. by rewrite Hquiet.
  - unfold rworld. rewrite Hs, <-(app_nil_r (encode_all _)).
    pose proof (sizeof_pos (T:=Patient)).
    rewrite decode_all_encode by (done || cbn; lia). by apply session_ok_records.
Qed.

(** The counter after a load is at most the counter before it. *)
Lemma restored_counter_le s :
  session_ok s → wrap_int (max_id 0 (patientHead s) + 1) ≤ patientIDCounter s.
Proof.
  intros [(_ & _ & Hrange & _ & _ & Hc) _].
  pose proof (max_id_ge 0 (patientHead s)).
  assert (max_id 0 (patientHead s) < patientIDCounter s)
    by (apply max_id_lt; [unfold DEFAULT_ID in *; lia|];
        apply (Forall_impl _ _ _ Hrange); by intros ? [_ ?]).
  rewrite wrap_int_id; unfold in_int, INT_MIN, INT_MAX in *; lia.
Qed.

End in_step.

(** ** Every session: the store, and the file *)

Section sessions.
Context `{Limits} `{!Layout Patient} `{!Layout DischargedPatient} `{!Calendar}.
Context (diagnosis_buffer : (2 ≤ MAX_DIAGNOSIS_LENGTH)%nat).
Implicit Types (c : call) (cs : list call) (r : Rep) (s : Sys).

(** What every call keeps, when it meets its condition, holds at the end
    of a session. *)
Lemma runs_invariant (ok : call → Rep → Prop) (K : Rep → Prop) r cs r' :
  (∀ c r r', ok c r → run_call c r = Some (tt, r') → K r → K r') →
  runs ok r cs r' → K r → K r'.
Proof. intros Hstep. induction 1; eauto. Qed.

Lemma runs_run_calls (ok : call → Rep → Prop) r cs r' :
  runs ok r cs r' → run_calls cs r = Some (tt, r').
Proof.
  induction 1 as [|r c r1 cs r2 _ Hrun _ IH]; [done|].
  cbn [run_calls]. unfold mbind, IProg_bind. by rewrite Hrun.
Qed.

(** A session in which the conditions are checked call by call. *)
Fixpoint run_checked (ok : call → Rep → Prop) `{!∀ c r, Decision (ok c r)}
    (cs : list call) (r : Rep) : option Rep :=
  match cs with
  | [] => Some r
  | c :: cs =>
      if decide (ok c r) then
        match run_call c r with
        | Some (_, r1) => run_checked ok cs r1
        | None => None
        end
      else None
  end.

Lemma run_checked_runs (ok : call → Rep → Prop) `{!∀ c r, Decision (ok c r)} cs r r' :
  run_checked ok cs r = Some r' → runs ok r cs r'.
Proof.
  revert r. induction cs as [|c cs IH]; intros r; cbn [run_checked].
  - intros [= <-]. constructor.
  - case_decide; [|done]. destruct (run_call c r) as [[[] r1]|] eqn:Hrun; [|done].
    intros Hcs. econstructor; eauto.
Qed.

Lemma run_call_in_step c r r' :
  menu_ok c r → run_call c r = Some (tt, r') → in_step r → in_step r'.
Proof.
  intros Hc Hrun Hr. pose proof (menu_ok_allowed c r Hr Hc) as Hall.
  destruct Hr as [Hs Hok]. split; [|by apply (run_call_preserves c r r')].
  destruct Hc as [Hoff Hc].
  set (F := file_is patients_dat (w_files (rworld r) !! patients_dat)).
  assert (frame F true (w_open (rworld r)) (rworld r)) as Hframe
    by (by destruct Hs).
  destruct (decide (is_report c)) as [Hrep|Hrep].
  { destruct (report_spec F true c (sys r) (w_open (rworld r)) Hrep) with r tt r'
      as (_ & ? & ?); [|done|done|by eapply quiet_synced_frame].
    destruct c; try done; intros p [= <-]; by apply ignores_other. }
  destruct c; try done; cbn [run_call] in Hrun;
    first [apply isys_inv in Hrun|apply in_sys_inv in Hrun; rewrite Hrun].
  - by eapply quiet_synced_add.
  - apply (quiet_synced_frame (sys r)); [apply viewPatientRecords_same_store| |done].
    exact (proj2 (viewPatientRecords_spec F true _ (sys r) Hframe)).
  - apply (quiet_synced_frame (sys r)); [by apply searchPatientById_same_store| |done].
    exact (proj2 (searchPatientById_spec F true _ (sys r) tt (sys r') Hframe Hrun)).
  - by eapply quiet_synced_discharge.
  - by apply quiet_synced_backup.
  - by apply (initializePatientSystem_reads_list (sys r) (sys r)).
Qed.

(** C12: the invariant of the store holds after every call of a session.
    From a state where the invariant of the store holds and the records
    are in the order of their ids, whatever the operator types and
    whatever file operation fails, a session of calls of the public
    functions ends in such a state, if every admission of the session
    finds an id below [INT_MAX] and the memory of its node, and every
    load finds records in [patients.dat] that are valid and in the order
    of their ids, with distinct rooms: ids are unique and increase along
    the list, no room is used twice, and [totalPatients] is the length
    of the list. *)
Theorem calls_preserve_store cs r r' :
  runs allowed r cs r' → session_ok (sys r) → session_ok (sys r').
Proof.
  apply (runs_invariant allowed (λ r, session_ok (sys r))).
  intros c r1 r2. by apply run_call_preserves.
Qed.

(** C11: the file follows the list.  When no library call fails, after
    every call of a session of the menu (admissions, discharges, lists,
    searches, reports, backups and restores) [patients.dat] holds the
    images of the records of the list, in the order of the list, and
    nothing else; the invariant of the store holds and no failure is
    pending. *)
Theorem calls_keep_file_in_step cs r r' :
  runs menu_ok r cs r' → in_step r →
  in_step r' ∧
  file_content patients_dat (rworld r') = encode_all (patientHead (sys r')).
Proof.
  intros Hruns Hr.
  assert (in_step r') as Hr'
    by (revert Hruns Hr; apply (runs_invariant menu_ok in_step), run_call_in_step).
  split; [done|]. by destruct Hr' as [[_ ?] _].
Qed.

(** C13: a session survives a restart.  When no library call fails,
    after a session of the menu whose records fit their fields the
    program can be started again: [initializePatientSystem] on the
    initial store reads from [patients.dat] the list that the session
    left, with the same number of patients; the counter is the one after
    the largest id of the list, which is at most the counter of the
    session; and the file follows the list again, so that the sessions
    of the next run of the program keep it in step as well. *)
Theorem session_survives_restart cs r r' :
  runs menu_ok r cs r' → in_step r → Forall fits (patientHead (sys r')) →
  let s := exec initializePatientSystem (boot (rworld r')) in
  patientHead s = patientHead (sys r') ∧
  totalPatients s = totalPatients (sys r') ∧
  patientIDCounter s = wrap_int (max_id 0 (patientHead (sys r')) + 1) ∧
  patientIDCounter s ≤ patientIDCounter (sys r') ∧
  in_step (mkRep (tmbuf r') s).
Proof.
  intros Hruns Hr Hfits.
  assert (in_step r') as Hr'
    by (revert Hruns Hr; apply (runs_invariant menu_ok in_step), run_call_in_step).
  pose proof (menu_ok_allowed RestoreDataFromFile r' Hr' (conj I Hfits)) as Hrec.
  destruct Hr' as [Hs Hok].
  destruct (initializePatientSystem_reads_list (boot (rworld r')) (sys r'))
    as (Hh & Ht & Hn & Hs'); [done..|].
  cbn zeta. rewrite Hh, Ht, Hn. split_and!; [done..| |].
  - by apply restored_counter_le.
  - split; [done|]. by apply session_ok_load.
Qed.

End sessions.

(** ** The theorems on a concrete session

    An admission, the list, a daily report, the discharge of the patient
    and the report of the rooms, on a console that holds the answers of
    the operator; the second library call of the session fails. *)

#[local] Existing Instances spec_limits sample_layout sample_discharged_layout utc.

Definition session_calls : list call :=
  [AddPatientRecord; ViewPatientRecords; DisplayPatientReport 1; DischargePatient;
   DisplayRoomUsageReport].

Definition session_start : Rep :=
  mkRep (broken_down 0)
    (boot (mkWorld ∅ [] ["Jane Doe"; "34"; "Fracture"; "12"; "1"; "y"] [] []
             [1700000000; 1700000060; 1700000120] [Succeed; Fail 7])).

(** The state at the end of the session. *)
Definition session_end : Rep :=
  default session_start (snd <$> run_calls session_calls session_start).

Lemma session_runs : run_calls session_calls session_start = Some (tt, session_end).
Proof. vm_compute. reflexivity. Defined.

Lemma calls_close_streams_witness :
  w_open (rworld session_end) = w_open (rworld session_start).
Proof. apply (calls_close_streams session_calls), session_runs. Defined.

Lemma calls_leave_other_files_witness :
  w_files (rworld session_end) !! "notes.txt" =
  w_files (rworld session_start) !! "notes.txt".
Proof.
  apply (calls_leave_other_files session_calls); [|apply session_runs].
  apply (bool_decide_unpack _). vm_compute. exact I.
Defined.

(** The state after the admission, and after the report that follows. *)
Definition report_start : Rep :=
  default session_start (snd <$> run_calls [AddPatientRecord] session_start).

Definition report_end : Rep :=
  default report_start (snd <$> run_call (DisplayPatientReport 1) report_start).

Lemma reports_only_report_witness :
  same_store (sys report_end) (sys report_start) ∧
  w_open (rworld report_end) = w_open (rworld report_start) ∧
  w_files (rworld report_end) !! patients_dat =
  w_files (rworld report_start) !! patients_dat.
Proof.
  apply (reports_only_report (DisplayPatientReport 1)); [done|done|].
  vm_compute. reflexivity.
Defined.

(** Every call of the session meets its condition: the admission finds
    the memory of its node, the failure is met by the append to
    [patients.dat]. *)
Lemma session_allowed : runs allowed session_start session_calls session_end.
Proof. apply (run_checked_runs allowed). vm_compute. reflexivity. Defined.

Lemma calls_preserve_store_witness :
  session_ok (sys session_start) ∧ session_ok (sys session_end).
Proof.
  split; [apply session_ok_boot|].
  apply calls_preserve_store with (cs := session_calls) (r := session_start);
    [vm_compute; lia|apply session_allowed|apply session_ok_boot].
Defined.

(** A session of the menu in which no call fails: two admissions, the
    list, a daily report, the discharge of the first patient, a backup,
    a restore and the report of the rooms. *)
Definition quiet_calls : list call :=
  [AddPatientRecord; AddPatientRecord; ViewPatientRecords; DisplayPatientReport 1;
   DischargePatient; BackupPatientSystem; RestoreDataFromFile; DisplayRoomUsageReport].

Definition quiet_start : Rep :=
  mkRep (broken_down 0)
    (boot (mkWorld ∅ []
             ["Jane Doe"; "34"; "Fracture"; "12"; "John Roe"; "50"; "Influenza"; "7";
              "1"; "y"] [] []
             [1700000000; 1700000060; 1700000120; 1700000180; 1700000240] [])).

Definition quiet_end : Rep :=
  default quiet_start (snd <$> run_calls quiet_calls quiet_start).

Lemma quiet_runs : runs menu_ok quiet_start quiet_calls quiet_end.
Proof. apply (run_checked_runs menu_ok). vm_compute. reflexivity. Defined.

Lemma quiet_start_in_step : in_step quiet_start.
Proof. split; [done|apply session_ok_boot]. Defined.

(** At the end the list holds the second patient, and so does the file. *)
Lemma calls_keep_file_in_step_witness :
  (in_step quiet_end ∧
   file_content patients_dat (rworld quiet_end)
     = encode_all (patientHead (sys quiet_end))) ∧
  patientId <$> patientHead (sys quiet_end) = [2].
Proof.
  split; [|by vm_compute].
  apply calls_keep_file_in_step with (cs := quiet_calls) (r := quiet_start);
    [vm_compute; lia|apply quiet_runs|apply quiet_start_in_step].
Defined.

Lemma session_survives_restart_witness :
  let s := exec initializePatientSystem (boot (rworld quiet_end)) in
  patientHead s = patientHead (sys quiet_end) ∧
  totalPatients s = totalPatients (sys quiet_end) ∧
  patientIDCounter s = wrap_int (max_id 0 (patientHead (sys quiet_end)) + 1) ∧
  patientIDCounter s ≤ patientIDCounter (sys quiet_end) ∧
  in_step (mkRep (tmbuf quiet_end) s).
Proof.
  apply session_survives_restart with (cs := quiet_calls) (r := quiet_start);
    [vm_compute; lia|apply quiet_runs|apply quiet_start_in_step|].
  apply (bool_decide_unpack _). vm_compute. exact I.
Defined.

(** The condition on the calls is needed: [clearMemory] has external
    linkage, empties the list and resets the counter, and leaves
    [patients.dat] as it is.  An admission that follows it appends a
    second record with the id 1, and a restore loads both. *)
Example clearMemory_out_of_step :
  (λ r, patientId <$> patientHead (sys r.2)) <$>
    run_calls [AddPatientRecord; ClearMemory; AddPatientRecord; RestoreDataFromFile]
      quiet_start
  = Some [1; 1].
Proof. vm_compute. reflexivity. Qed.
